(** * demhan-server: the card-combat game engine of [src/functions/socket.js]

    A shallow embedding of the server's game logic (deck creation, hand
    validation and scoring, and the per-room socket handlers) together
    with the properties of it that the specification states.

    Conventions of the embedding
    - JavaScript numbers that the engine handles are integers; they are
      modelled as [Z].  A numeric field that may still be [undefined] (or
      have become [NaN]) is a [num], see below.
    - [rooms] and [players], the two process-wide [Map]s, are [gmap]s keyed
      by strings.
    - [Math.random] is an oracle [rnd : nat -> nat]: the [k]-th call made by
      a handler yields [rnd k], and [Math.floor(Math.random() * m)] is
      [rnd k mod m].
    - An uncaught [TypeError] (a property read or written through
      [undefined]) is the outcome [Crash]: nothing in the file catches it.
    - [room.players] holds the player objects themselves.  For the
      handlers of a game they are kept inside the room record, which
      describes what a request does to the room that it is addressed to
      (the two seats of a room hold different objects); the [players] map
      is consulted for registration only.  What a request or a start does
      to another room that seats one of the same objects is described on
      a store of shared objects, in the part on the lobby.
    - What a client sends (room ids, card ids, predictions) has the type
      that the game's own client sends: strings and card ids. *)

From Stdlib Require Import ZArith Lia.
From stdpp Require Import gmap strings list sorting pretty.

Local Open Scope Z_scope.

(** ** Cards *)

Inductive Suit := hearts | diamonds | clubs | spades.

#[global] Instance Suit_eq_dec : EqDecision Suit.
Proof. solve_decision. Defined.

(** The id of a card is the template string
    [`${suit}-${rank}-${Math.random()}`]; its three components are kept
    apart. *)
Record CardId := MkId { id_suit : Suit; id_rank : Z; id_token : nat }.

#[global] Instance CardId_eq_dec : EqDecision CardId.
Proof. solve_decision. Defined.

Record card := Card {
  cid : CardId;
  suit : Suit;
  rank : Z;
  selected : bool;
  markedForDiscard : bool
}.

#[global] Instance card_eq_dec : EqDecision card.
Proof. solve_decision. Defined.

(** ** validateHand *)

(** [[...cards].sort((a, b) => a.rank - b.rank)]: a stable sort by rank. *)
Definition by_rank (a b : card) : Prop := rank a ≤ rank b.

#[global] Instance by_rank_dec : RelDecision by_rank.
Proof. intros a b. unfold by_rank. apply _. Defined.

Definition sortByRank (cards : list card) : list card := merge_sort by_rank cards.

(** [rankCounts[rank] = (rankCounts[rank] || 0) + 1] on an object whose keys
    are inserted in ascending order (the ranks are sorted), which is also
    the order in which [Object.values] enumerates integer keys. *)
Fixpoint bump (r : Z) (o : list (Z * nat)) : list (Z * nat) :=
  match o with
  | [] => [(r, 1%nat)]
  | (k, n) :: o' => if decide (k = r) then (k, S n) :: o' else (k, n) :: bump r o'
  end.

Definition rankCounts (ranks : list Z) : list (Z * nat) :=
  foldl (fun o r => bump r o) [] ranks.

(** [Object.values(rankCounts).sort((a, b) => b - a)] *)
Definition descending (a b : nat) : Prop := (b ≤ a)%nat.

#[global] Instance descending_dec : RelDecision descending.
Proof. intros a b. unfold descending. apply _. Defined.

Definition countsOf (ranks : list Z) : list nat :=
  merge_sort descending (snd <$> rankCounts ranks).

(** [suits.every((suit) => suit === suits[0]) && cards.length === 5] *)
Definition isFlushOf (cards : list card) (suits : list Suit) : bool :=
  match suits with
  | [] => true
  | s0 :: _ => forallb (fun s => bool_decide (s = s0)) suits
  end && bool_decide (length cards = 5%nat).

(** The values that [validateHand] and [evaluateHand] both compute, with
    the same statements, before they branch. *)
Record shape := Shape {
  counts : list nat;
  isFlush : bool;
  isStraight : bool;
  isLowStraight : bool;
  isRoyal : bool
}.

Definition shapeOf (cards : list card) : shape :=
  let sortedCards := sortByRank cards in
  let ranks := rank <$> sortedCards in
  let suits := suit <$> sortedCards in
  let counts := countsOf ranks in
  let isFlush := isFlushOf cards suits in
  if bool_decide (length cards = 5%nat)
     && bool_decide (size (list_to_set ranks : gset Z) = 5%nat)
  then
    let isLowStraight := bool_decide (ranks = [1; 2; 3; 4; 5]) in
    let isStraight :=
      if isLowStraight then false
      else match ranks !! 4%nat, ranks !! 0%nat with
           | Some hi, Some lo => bool_decide (hi - lo = 4)
           | _, _ => false
           end in
    let isRoyal := isFlush && bool_decide (ranks = [1; 10; 11; 12; 13]) in
    Shape counts isFlush isStraight isLowStraight isRoyal
  else Shape counts isFlush false false false.

Record validation := Validation { valid : bool; error : option string }.

Definition validateHand (cards : list card) : validation :=
  if bool_decide (length cards = 0%nat) then Validation false (Some "No cards selected")
  else
    let sh := shapeOf cards in
    let c := counts sh in
    match length cards with
    | 1%nat => Validation true None
    | 2%nat =>
        if bool_decide (c !! 0%nat ≠ Some 2%nat)
        then Validation false (Some "Two cards must be a pair (same rank)")
        else Validation true None
    | 3%nat =>
        if bool_decide (c !! 0%nat ≠ Some 3%nat)
        then Validation false (Some "Three cards must be three of a kind (same rank)")
        else Validation true None
    | 4%nat =>
        if bool_decide (c !! 0%nat = Some 4%nat) then Validation true None
        else if bool_decide (c !! 0%nat = Some 2%nat) && bool_decide (c !! 1%nat = Some 2%nat)
        then Validation true None
        else Validation false (Some "Four cards must be either four of a kind or two pair")
    | 5%nat =>
        if isRoyal sh then Validation true None
        else if isFlush sh && (isStraight sh || isLowStraight sh) then Validation true None
        else if bool_decide (c !! 0%nat = Some 3%nat) && bool_decide (c !! 1%nat = Some 2%nat)
        then Validation true None
        else if isFlush sh then Validation true None
        else if isStraight sh || isLowStraight sh then Validation true None
        else Validation false
               (Some "5 cards must form: Straight, Flush, Full House, Straight Flush, or Royal Flush")
    | n =>
        Validation false
          (Some ("Invalid number of cards: " +:+ pretty n
                 +:+ ". Play 1, 2, 3, 4, or 5 cards only."))
    end.

(** ** evaluateHand *)

Record ranking := Ranking { r_damage : Z; r_description : string }.

Definition HAND_RANKINGS : list (string * ranking) :=
  [ ("Royal Flush", Ranking 50 "A, K, Q, J, 10 of same suit");
    ("Straight Flush", Ranking 40 "5 consecutive cards of same suit");
    ("Four of a Kind", Ranking 35 "4 cards of same rank");
    ("Full House", Ranking 30 "3 of a kind + pair");
    ("Flush", Ranking 25 "5 cards of same suit");
    ("Straight", Ranking 20 "5 consecutive cards");
    ("Three of a Kind", Ranking 15 "3 cards of same rank");
    ("Two Pair", Ranking 10 "2 pairs of different ranks");
    ("One Pair", Ranking 5 "2 cards of same rank");
    ("High Card", Ranking 1 "Highest card") ].

(** [HAND_RANKINGS[key]]; the keys looked up are literals of the table. *)
Definition ranking_of (key : string) : ranking :=
  match list_find (fun e => fst e = key) HAND_RANKINGS with
  | Some (_, e) => snd e
  | None => Ranking 0 EmptyString
  end.

Record handResult := HandResult { type : string; damage : Z; description : string }.

(** The callback of [cards.reduce] that sums the face values. *)
Definition faceValue (total : Z) (c : card) : Z :=
  if bool_decide (rank c = 1) then total + 14
  else if bool_decide (rank c = 13) then total + 13
  else if bool_decide (rank c = 12) then total + 12
  else if bool_decide (rank c = 11) then total + 11
  else total + rank c.

Definition handTypeOf (sh : shape) : string :=
  let c := counts sh in
  if isRoyal sh then "Royal Flush"
  else if isFlush sh && (isStraight sh || isLowStraight sh) then "Straight Flush"
  else if bool_decide (c !! 0%nat = Some 4%nat) then "Four of a Kind"
  else if bool_decide (c !! 0%nat = Some 3%nat) && bool_decide (c !! 1%nat = Some 2%nat)
  then "Full House"
  else if isFlush sh then "Flush"
  else if isStraight sh || isLowStraight sh then "Straight"
  else if bool_decide (c !! 0%nat = Some 3%nat) then "Three of a Kind"
  else if bool_decide (c !! 0%nat = Some 2%nat) && bool_decide (c !! 1%nat = Some 2%nat)
  then "Two Pair"
  else if bool_decide (c !! 0%nat = Some 2%nat) then "One Pair"
  else "High Card".

Definition evaluateHand (cards : list card) : handResult :=
  if bool_decide (length cards = 0%nat) then HandResult "No Cards" 0 "No cards selected"
  else
    let validation := validateHand cards in
    if negb (valid validation)
    then HandResult "Invalid Hand" 0 (default "Invalid combination" (error validation))
    else
      let faceValueDamage := foldl faceValue 0 cards in
      let handType := handTypeOf (shapeOf cards) in
      let baseDamage := r_damage (ranking_of handType) in
      let totalDamage := baseDamage + faceValueDamage in
      HandResult handType totalDamage
        (r_description (ranking_of handType) +:+ " (Base: " +:+ pretty baseDamage
         +:+ " + Face: " +:+ pretty faceValueDamage +:+ ")").

(** ** createDeck *)

(** [[l[i], l[j]] = [l[j], l[i]]] *)
Definition swap {A} (l : list A) (i j : nat) : list A :=
  match l !! i, l !! j with
  | Some x, Some y => <[j := x]> (<[i := y]> l)
  | _, _ => l
  end.

(** The loop [for (let i = n - 1; i > 0; i--)] of the Fisher-Yates
    shuffle, entered at index [i]; [k] is the number of calls to
    [Math.random] made so far. *)
Fixpoint shuffleFrom {A} (rnd : nat → nat) (k i : nat) (l : list A) : list A :=
  match i with
  | O => l
  | S i' => shuffleFrom rnd (S k) i' (swap l i (rnd k mod (i + 1))%nat)
  end.

Definition shuffle {A} (rnd : nat → nat) (k : nat) (l : list A) : list A :=
  shuffleFrom rnd k (length l - 1) l.

Definition suits : list Suit := [hearts; diamonds; clubs; spades].

(** The two nested loops that fill the deck; the card pushed at position
    [k] takes the [k]-th random number into its id. *)
Definition orderedDeck (rnd : nat → nat) : list card :=
  imap (fun k '(s, r) => Card (MkId s r (rnd k)) s r false false)
       (s ← suits; r ← seqZ 1 13; [(s, r)]).

Definition createDeck (rnd : nat → nat) : list card :=
  shuffle rnd 52 (orderedDeck rnd).

Arguments createDeck : simpl never.
Arguments orderedDeck : simpl never.

(** Number of calls to [Math.random] made by [createDeck]. *)
Definition createDeck_calls : nat := 103.

(** ** Rooms and players *)

(** A number field that may be [undefined] or [NaN] ([None]); arithmetic
    on it yields [NaN] and every comparison with it is false. *)
Definition num := option Z.

Definition num_gt (a : num) (b : Z) : bool :=
  match a with Some x => bool_decide (b < x) | None => false end.
Definition num_le (a : num) (b : Z) : bool :=
  match a with Some x => bool_decide (x ≤ b) | None => false end.
Definition num_ge (a b : num) : bool :=
  match a, b with Some x, Some y => bool_decide (y ≤ x) | _, _ => false end.
Definition num_lt_of (n : Z) (b : num) : bool :=
  match b with Some y => bool_decide (y < n) | None => false end.
Definition num_map (f : Z → Z) (a : num) : num := f <$> a.
Definition num_sub (a b : num) : num :=
  match a, b with Some x, Some y => Some (x - y) | _, _ => None end.

Record player := Player {
  pid : string;
  name : string;
  health : num;
  maxHealth : num;
  hand : option (list card);
  selectedCards : option (list card);
  discardsUsed : num;
  maxDiscards : num;
  maxCardsPerDiscard : num;
  armor : num;
  prediction : option string
}.

Inductive GameState := waiting | playing | ended.

#[global] Instance GameState_eq_dec : EqDecision GameState.
Proof. solve_decision. Defined.

Definition CLASSIC : string := "classic".
Definition TACTICAL : string := "tactical".
Definition RECYCLING : string := "recycling".

(** The names that an object literal inherits from [Object.prototype].
    Looked up in [GAME_MODE_CONFIG] each of them gives a function (and
    [__proto__] the prototype itself): a value that is truthy and has no
    field [startingHealth]. *)
Definition inheritedNames : list string :=
  [ "constructor"; "__defineGetter__"; "__defineSetter__"; "hasOwnProperty";
    "__lookupGetter__"; "__lookupSetter__"; "isPrototypeOf"; "propertyIsEnumerable";
    "toString"; "valueOf"; "__proto__"; "toLocaleString" ].

(** [(GAME_MODE_CONFIG[gameMode] || GAME_MODE_CONFIG[GAME_MODES.CLASSIC])
    .startingHealth]: the health of the three modes, [undefined] for a
    mode that names an inherited property (the lookup finds it and the
    fallback is not taken), and the health of the Classic mode for every
    other string. *)
Definition startingHealth (gameMode : string) : num :=
  if decide (gameMode = CLASSIC) then Some 100
  else if decide (gameMode = TACTICAL) then Some 100
  else if decide (gameMode = RECYCLING) then Some 150
  else if decide (gameMode ∈ inheritedNames) then None
  else Some 100.

Record room := Room {
  rid : string;
  rname : string;
  gameMode : string;
  players : list player;
  gameState : GameState;
  currentPlayer : Z;
  turn : Z;
  deck : list card;
  discardPile : option (list card);
  lastPlayedHand : option handResult
}.

(** The process-wide maps [rooms] and [players].  Of a registered session
    only its name is kept: the handlers below reach the player objects
    through [room.players]. *)
Record server := Server {
  rooms : gmap string room;
  sessions : gmap string string
}.

(** ** Events *)

Inductive target :=
| ToSocket (socketId : string)   (* socket.emit, io.to(player.id).emit *)
| ToRoom (roomId : string).      (* io.to(roomId).emit *)

(** One element of the [players] array of a broadcast. *)
Record view := View {
  v_id : string;
  v_name : string;
  v_health : num;
  v_maxHealth : num;
  v_handSize : nat;
  v_discardsUsed : num;
  v_maxDiscards : num;
  v_maxCardsPerDiscard : num;
  v_armor : option num;
  v_prediction : option (option string);
  v_hand : option (list card)
}.

Inductive payload :=
| Msg (text : option string)
| CardSelected (playerIndex : Z) (cardId : CardId) (flag : bool)
| CardMarked (playerIndex : Z) (cardId : CardId) (flag : bool)
| PredictionMade (playerIndex : Z) (guess : string)
| GameStateUpdate (views : list view)
| HandPlayed (playerIndex : Z) (result : handResult) (newCurrentPlayer newTurn : Z)
    (views : list view)
| ArmorBuilt (playerIndex : Z) (armorGained : num) (result : handResult)
    (newCurrentPlayer newTurn : Z) (views : list view)
| GameEnded (winner : player) (result : handResult)
| Snapshot (r : room).

Record event := Event { to : target; ename : string; body : payload }.

(** A handler either returns, leaving a server state and the events it
    emitted in order, or throws a [TypeError] that nothing catches. *)
Inductive outcome :=
| Done (s : server) (evs : list event)
| Crash.

(** ** Helpers for array access *)

(** [l[i]] for a JavaScript number [i]: [undefined] outside the array. *)
Definition at_index {A} (l : list A) (i : Z) : option A :=
  if decide (0 ≤ i) then l !! Z.to_nat i else None.

(** [l.findIndex(P)] *)
Definition findIndex {A} (P : A → Prop) `{!∀ x, Decision (P x)} (l : list A) : Z :=
  match list_find P l with
  | Some (i, _) => Z.of_nat i
  | None => -1
  end.

(** Write a player object back at its place in [room.players]. *)
Definition setPlayer (i : Z) (p : player) (ps : list player) : list player :=
  if decide (0 ≤ i) then <[Z.to_nat i := p]> ps else ps.

Definition setRoom (roomId : string) (r : room) (s : server) : server :=
  Server (<[roomId := r]> (rooms s)) (sessions s).

(** [{ ...card, selected: false, markedForDiscard: false }] *)
Definition resetFlags (c : card) : card := Card (cid c) (suit c) (rank c) false false.

(** A JavaScript string used as a condition. *)
Definition truthy (p : option string) : bool :=
  match p with Some s => negb (bool_decide (s = EmptyString)) | None => false end.

(** The object literal built for player [idx] in a broadcast made on
    behalf of player [playerIndex]; reading [p.hand.length] throws when the
    hand is [undefined]. *)
Definition publicView (withArmor withPrediction : bool) (playerIndex : Z)
    (idx : nat) (p : player) : option view :=
  h ← hand p;
  Some (View (pid p) (name p) (health p) (maxHealth p) (length h)
          (discardsUsed p) (maxDiscards p) (maxCardsPerDiscard p)
          (if withArmor then Some (armor p) else None)
          (if withPrediction then Some (prediction p) else None)
          (if bool_decide (Z.of_nat idx = playerIndex) then Some h else None)).

Definition publicViews (withArmor withPrediction : bool) (playerIndex : Z)
    (ps : list player) : option (list view) :=
  mapM (fun '(idx, p) => publicView withArmor withPrediction playerIndex idx p)
       (imap pair ps).

(** Field updates of the mutable records. *)
Definition with_health (v : num) (p : player) : player :=
  Player (pid p) (name p) v (maxHealth p) (hand p) (selectedCards p) (discardsUsed p)
    (maxDiscards p) (maxCardsPerDiscard p) (armor p) (prediction p).
Definition with_hand (v : option (list card)) (p : player) : player :=
  Player (pid p) (name p) (health p) (maxHealth p) v (selectedCards p) (discardsUsed p)
    (maxDiscards p) (maxCardsPerDiscard p) (armor p) (prediction p).
Definition with_selectedCards (v : option (list card)) (p : player) : player :=
  Player (pid p) (name p) (health p) (maxHealth p) (hand p) v (discardsUsed p)
    (maxDiscards p) (maxCardsPerDiscard p) (armor p) (prediction p).
Definition with_discardsUsed (v : num) (p : player) : player :=
  Player (pid p) (name p) (health p) (maxHealth p) (hand p) (selectedCards p) v
    (maxDiscards p) (maxCardsPerDiscard p) (armor p) (prediction p).
Definition with_armor (v : num) (p : player) : player :=
  Player (pid p) (name p) (health p) (maxHealth p) (hand p) (selectedCards p) (discardsUsed p)
    (maxDiscards p) (maxCardsPerDiscard p) v (prediction p).
Definition with_prediction (v : option string) (p : player) : player :=
  Player (pid p) (name p) (health p) (maxHealth p) (hand p) (selectedCards p) (discardsUsed p)
    (maxDiscards p) (maxCardsPerDiscard p) (armor p) v.

Definition with_players (v : list player) (r : room) : room :=
  Room (rid r) (rname r) (gameMode r) v (gameState r) (currentPlayer r) (turn r) (deck r)
    (discardPile r) (lastPlayedHand r).
Definition with_piles (d : list card) (dp : option (list card)) (r : room) : room :=
  Room (rid r) (rname r) (gameMode r) (players r) (gameState r) (currentPlayer r) (turn r) d
    dp (lastPlayedHand r).
Definition with_gameState (v : GameState) (r : room) : room :=
  Room (rid r) (rname r) (gameMode r) (players r) v (currentPlayer r) (turn r) (deck r)
    (discardPile r) (lastPlayedHand r).
Definition with_turn (cur t : Z) (r : room) : room :=
  Room (rid r) (rname r) (gameMode r) (players r) (gameState r) cur t (deck r)
    (discardPile r) (lastPlayedHand r).
Definition with_lastPlayedHand (v : option handResult) (r : room) : room :=
  Room (rid r) (rname r) (gameMode r) (players r) (gameState r) (currentPlayer r) (turn r)
    (deck r) (discardPile r) v.

(** ** startGame and acceptRematch *)

(** The body of [room.players.forEach((player, index) => ...)]. *)
Definition initPlayer (gameMode : string) (deck : list card) (index : nat) (p : player)
    : player :=
  let h := take 8 (drop (index * 8) deck) in
  Player (pid p) (name p)
    (startingHealth gameMode) (startingHealth gameMode)
    (Some h) (Some []) (Some 0) (Some 3) (Some 3)
    (if decide (gameMode = TACTICAL) then Some 0 else armor p)
    (if decide (gameMode = TACTICAL) then None else prediction p).

Definition startGame (roomId : string) (rnd : nat → nat) (s : server) : outcome :=
  match rooms s !! roomId with
  | None => Done s []
  | Some room =>
    if negb (bool_decide (length (players room) = 2%nat)) then Done s []
    else
      let deck := createDeck rnd in
      let ps := imap (initPlayer (gameMode room) deck) (players room) in
      let cur := Z.of_nat (rnd createDeck_calls mod 2) in
      match at_index ps cur with
      | None => Crash
      | Some _ =>
        let room' :=
          Room (rid room) (rname room) (gameMode room) ps playing cur 1 (drop 16 deck)
            (if decide (gameMode room = RECYCLING) then Some [] else discardPile room)
            (lastPlayedHand room) in
        Done (setRoom roomId room' s)
          (Event (ToRoom roomId) "gameStarted" (Snapshot room')
           :: ((fun p => Event (ToSocket (pid p)) "gameStarted" (Snapshot room')) <$> ps))
      end
  end.

Definition acceptRematch (socketId roomId : string) (rnd : nat → nat) (s : server)
    : outcome :=
  match rooms s !! roomId, sessions s !! socketId with
  | Some room, Some _ =>
      let deck := createDeck rnd in
      let ps := imap (initPlayer (gameMode room) deck) (players room) in
      let cur := Z.of_nat (rnd createDeck_calls mod 2) in
      match at_index ps cur with
      | None => Crash
      | Some _ =>
        let room' :=
          Room (rid room) (rname room) (gameMode room) ps playing cur 1 (drop 16 deck)
            (if decide (gameMode room = RECYCLING) then Some [] else discardPile room)
            None in
        Done (setRoom roomId room' s) [Event (ToRoom roomId) "rematchAccepted" (Snapshot room')]
      end
  | _, _ => Done s []
  end.

(** ** Selection, discard and prediction *)

(** The guard shared by the turn-bound handlers: the current player's
    index when the room is being played and the sender is at turn. *)
Definition indexOf (socketId : string) (r : room) : Z :=
  findIndex (fun p => pid p = socketId) (players r).

Definition toggleSelected (c : card) : card :=
  Card (cid c) (suit c) (rank c) (negb (selected c)) (markedForDiscard c).
Definition toggleMarked (c : card) : card :=
  Card (cid c) (suit c) (rank c) (selected c) (negb (markedForDiscard c)).

Definition selectCard (socketId roomId : string) (cardId : CardId) (s : server) : outcome :=
  match rooms s !! roomId, sessions s !! socketId with
  | Some room, Some _ =>
    if negb (bool_decide (gameState room = playing)) then Done s []
    else
      let playerIndex := indexOf socketId room in
      if negb (bool_decide (playerIndex = currentPlayer room)) then Done s []
      else
        match at_index (players room) playerIndex with
        | None => Crash
        | Some currentP =>
          match hand currentP with
          | None => Crash
          | Some h =>
            match list_find (fun c => cid c = cardId) h with
            | None => Done s []
            | Some (i, c) =>
              let c' := toggleSelected c in
              let h' := <[i := c']> h in
              let p' := with_selectedCards (Some (filter (fun c => selected c = true) h'))
                          (with_hand (Some h') currentP) in
              Done (setRoom roomId (with_players (setPlayer playerIndex p' (players room)) room) s)
                [Event (ToRoom roomId) "cardSelected"
                   (CardSelected playerIndex cardId (selected c'))]
            end
          end
        end
  | _, _ => Done s []
  end.

(** [card.markedForDiscard = !card.markedForDiscard]; the card object is
    also referenced from [selectedCards] when it is selected, so the
    entries of [selectedCards] with this id change with it. *)
Definition markAlias (cardId : CardId) (sel : list card) : list card :=
  (fun c => if decide (cid c = cardId) then toggleMarked c else c) <$> sel.

Definition markForDiscard (socketId roomId : string) (cardId : CardId) (s : server)
    : outcome :=
  match rooms s !! roomId, sessions s !! socketId with
  | Some room, Some _ =>
    if negb (bool_decide (gameState room = playing)) then Done s []
    else
      let playerIndex := indexOf socketId room in
      if negb (bool_decide (playerIndex = currentPlayer room)) then Done s []
      else
        match at_index (players room) playerIndex with
        | None => Crash
        | Some currentP =>
          match hand currentP with
          | None => Crash
          | Some h =>
            match list_find (fun c => cid c = cardId) h with
            | None => Done s []
            | Some (i, c) =>
              let c' := toggleMarked c in
              let p' := with_selectedCards
                          (if selected c then markAlias cardId <$> selectedCards currentP
                           else selectedCards currentP)
                          (with_hand (Some (<[i := c']> h)) currentP) in
              Done (setRoom roomId (with_players (setPlayer playerIndex p' (players room)) room) s)
                [Event (ToRoom roomId) "cardMarkedForDiscard"
                   (CardMarked playerIndex cardId (markedForDiscard c'))]
            end
          end
        end
  | _, _ => Done s []
  end.

(** [discardCards] once its guards are passed: the room it leaves and the
    broadcast, or [None] when it throws. *)
Definition resolveDiscard (roomId : string) (r : room) (playerIndex : Z)
    (currentP : player) (h markedCards : list card) : option (room * event) :=
  let kept := filter (fun c => markedForDiscard c ≠ true) h in
  match
    (if decide (gameMode r = RECYCLING)
     then match discardPile r with
          | Some pile => Some (Some (pile ++ (resetFlags <$> markedCards)))
          | None => None
          end
     else Some (discardPile r))
  with
  | None => None
  | Some pile' =>
    let newCards := resetFlags <$> take (length markedCards) (deck r) in
    let p' := with_discardsUsed (num_map (fun n => n + 1) (discardsUsed currentP))
                (with_hand (Some (kept ++ newCards)) currentP) in
    let ps := setPlayer playerIndex p' (players r) in
    let room' := with_players ps
                   (with_piles (drop (length markedCards) (deck r)) pile' r) in
    match publicViews (bool_decide (gameMode r = TACTICAL)) false playerIndex ps with
    | None => None
    | Some vs => Some (room', Event (ToRoom roomId) "gameStateUpdate" (GameStateUpdate vs))
    end
  end.

Definition discardCards (socketId roomId : string) (s : server) : outcome :=
  match rooms s !! roomId, sessions s !! socketId with
  | Some room, Some _ =>
    if negb (bool_decide (gameState room = playing)) then Done s []
    else
      let playerIndex := indexOf socketId room in
      if negb (bool_decide (playerIndex = currentPlayer room)) then Done s []
      else
        match at_index (players room) playerIndex with
        | None => Crash
        | Some currentP =>
          match hand currentP with
          | None => Crash
          | Some h =>
            let markedCards := filter (fun c => markedForDiscard c = true) h in
            if bool_decide (length markedCards = 0%nat)
               || num_lt_of (Z.of_nat (length markedCards)) (maxCardsPerDiscard currentP)
               || num_ge (discardsUsed currentP) (maxDiscards currentP)
            then Done s []
            else
              match resolveDiscard roomId room playerIndex currentP h markedCards with
              | None => Crash
              | Some (room', ev) => Done (setRoom roomId room' s) [ev]
              end
          end
        end
  | _, _ => Done s []
  end.

Definition makePrediction (socketId roomId : string) (guess : string) (s : server)
    : outcome :=
  match rooms s !! roomId, sessions s !! socketId with
  | Some room, Some _ =>
    if negb (bool_decide (gameMode room = TACTICAL)) then Done s []
    else
      let playerIndex := indexOf socketId room in
      if bool_decide (playerIndex = currentPlayer room)
      then Done s [Event (ToSocket socketId) "error" (Msg (Some "You cannot predict your own hand"))]
      else
        match at_index (players room) playerIndex with
        | None => Crash
        | Some currentP =>
          let p' := with_prediction (Some guess) currentP in
          Done (setRoom roomId (with_players (setPlayer playerIndex p' (players room)) room) s)
            [Event (ToRoom roomId) "predictionMade" (PredictionMade playerIndex guess)]
        end
  | _, _ => Done s []
  end.

(** ** playHand and buildArmor *)

(** The block [if (room.gameMode === GAME_MODES.RECYCLING) { ... }] that both
    handlers run on the played cards: the draw pile and the discard pile it
    leaves.  [push] on an [undefined] discard pile throws ([None]). *)
Definition recycle (rnd : nat → nat) (r : room) (playedCards : list card)
    : option (list card * option (list card)) :=
  if decide (gameMode r = RECYCLING) then
    match discardPile r with
    | None => None
    | Some pile =>
      let pile := pile ++ (resetFlags <$> playedCards) in
      if bool_decide (length (deck r) < 8)%nat && bool_decide (0 < length pile)%nat
      then Some (deck r ++ shuffle rnd 0 pile, Some [])
      else Some (deck r, Some pile)
    end
  else Some (deck r, discardPile r).

(** From [const playedCards = ...] to [currentPlayer.hand = newCards]: the
    room with its new piles and the actor with the freshly drawn hand. *)
Definition consumeAndRedraw (rnd : nat → nat) (r : room) (actor : player)
    : option (room * player) :=
  match hand actor with
  | None => None
  | Some h =>
    let playedCards := filter (fun c => selected c = true) h in
    match recycle rnd r playedCards with
    | None => None
    | Some (d, pile) =>
      let newCards := resetFlags <$> take 8 d in
      Some (with_piles (drop 8 d) pile r,
            with_hand (Some newCards) (with_selectedCards (Some []) actor))
    end
  end.

(** [room.currentPlayer = 1 - room.currentPlayer; room.turn++;
     room.players[room.currentPlayer].discardsUsed = 0] *)
Definition switchTurns (r : room) : option room :=
  let cur := 1 - currentPlayer r in
  match at_index (players r) cur with
  | None => None
  | Some p =>
    Some (with_players (setPlayer cur (with_discardsUsed (Some 0) p) (players r))
            (with_turn cur (turn r + 1) r))
  end.

(** The prediction step of [playHand]: the damage and the opponent it
    leaves. *)
Definition applyPrediction (tactical : bool) (result : handResult) (enemy : player)
    : Z * player :=
  if tactical && truthy (prediction enemy) then
    (if bool_decide (prediction enemy = Some (type result))
     then damage result / 4            (* Math.floor(finalDamage * 0.25) *)
     else (5 * damage result) / 4,     (* Math.floor(finalDamage * 1.25) *)
     with_prediction None enemy)
  else (damage result, enemy).

(** The armor step of [playHand]. *)
Definition applyArmor (tactical : bool) (finalDamage : Z) (enemy : player) : Z * player :=
  if tactical && num_gt (armor enemy) 0 then
    match armor enemy with
    | Some a =>
      let armorAbsorbed := Z.min a finalDamage in
      (finalDamage - armorAbsorbed, with_armor (Some (a - armorAbsorbed)) enemy)
    | None => (finalDamage, enemy)
    end
  else (finalDamage, enemy).

Definition withDamage (d : Z) (result : handResult) : handResult :=
  HandResult (type result) d (description result).

(** [playHand] from [const handResult = evaluateHand(...)] on: the room it
    leaves and the broadcast, or [None] when it throws. *)
Definition resolvePlay (roomId : string) (rnd : nat → nat) (r : room) (playerIndex : Z)
    (currentP : player) (sel : list card) : option (room * event) :=
  let handResult := evaluateHand sel in
  match at_index (players r) (1 - playerIndex) with
  | None => None
  | Some enemy =>
    let tactical := bool_decide (gameMode r = TACTICAL) in
    let '(finalDamage, enemy) := applyPrediction tactical handResult enemy in
    let '(finalDamage, enemy) := applyArmor tactical finalDamage enemy in
    let enemy :=
      with_health (num_map (fun h => Z.max 0 (h - finalDamage)) (health enemy)) enemy in
    match consumeAndRedraw rnd r currentP with
    | None => None
    | Some (room1, actor) =>
      let ps := setPlayer playerIndex actor
                  (setPlayer (1 - playerIndex) enemy (players r)) in
      let last := withDamage finalDamage handResult in
      let room2 := with_lastPlayedHand (Some last) (with_players ps room1) in
      if num_le (health enemy) 0 then
        Some (with_gameState ended room2,
              Event (ToRoom roomId) "gameEnded" (GameEnded actor last))
      else
        match switchTurns room2 with
        | None => None
        | Some room3 =>
          match publicViews tactical tactical playerIndex (players room3) with
          | None => None
          | Some vs =>
            Some (room3,
                  Event (ToRoom roomId) "handPlayed"
                    (HandPlayed playerIndex last (currentPlayer room3) (turn room3) vs))
          end
        end
    end
  end.

Definition playHand (socketId roomId : string) (rnd : nat → nat) (s : server) : outcome :=
  match rooms s !! roomId, sessions s !! socketId with
  | Some room, Some _ =>
    if negb (bool_decide (gameState room = playing)) then Done s []
    else
      let playerIndex := indexOf socketId room in
      if negb (bool_decide (playerIndex = currentPlayer room)) then Done s []
      else
        match at_index (players room) playerIndex with
        | None => Crash
        | Some currentP =>
          match selectedCards currentP with
          | None => Crash
          | Some sel =>
            if bool_decide (length sel = 0%nat) then Done s []
            else
              let validation := validateHand sel in
              if negb (valid validation)
              then Done s [Event (ToSocket socketId) "invalidHand" (Msg (error validation))]
              else
                match resolvePlay roomId rnd room playerIndex currentP sel with
                | None => Crash
                | Some (room', ev) => Done (setRoom roomId room' s) [ev]
                end
          end
        end
  | _, _ => Done s []
  end.

(** The [switch (handResult.type)] of [buildArmor]. *)
Definition armorFor (handType : string) : Z :=
  if decide (handType = "High Card") then 2
  else if decide (handType = "One Pair") then 5
  else if decide (handType = "Two Pair") then 8
  else if decide (handType = "Three of a Kind") then 12
  else if decide (handType = "Straight") then 15
  else if decide (handType = "Flush") then 18
  else if decide (handType = "Full House") then 22
  else if decide (handType = "Four of a Kind") then 25
  else if decide (handType = "Straight Flush") then 30
  else if decide (handType = "Royal Flush") then 35
  else 2.

(** [buildArmor] from [let armorGained = 0] on. *)
Definition resolveArmor (roomId : string) (rnd : nat → nat) (r : room) (playerIndex : Z)
    (currentP : player) (sel : list card) : option (room * event) :=
  let handResult := evaluateHand sel in
  let armorGained := armorFor (type handResult) in
  let oldArmor := armor currentP in
  let newArmor := num_map (fun a => Z.min 50 (a + armorGained)) oldArmor in
  let actualArmorGained := num_sub newArmor oldArmor in
  match consumeAndRedraw rnd r (with_armor newArmor currentP) with
  | None => None
  | Some (room1, actor) =>
    let room2 := with_players (setPlayer playerIndex actor (players r)) room1 in
    match switchTurns room2 with
    | None => None
    | Some room3 =>
      match publicViews true true playerIndex (players room3) with
      | None => None
      | Some vs =>
        Some (room3,
              Event (ToRoom roomId) "armorBuilt"
                (ArmorBuilt playerIndex actualArmorGained handResult
                   (currentPlayer room3) (turn room3) vs))
      end
    end
  end.

Definition buildArmor (socketId roomId : string) (rnd : nat → nat) (s : server) : outcome :=
  match rooms s !! roomId, sessions s !! socketId with
  | Some room, Some _ =>
    if negb (bool_decide (gameMode room = TACTICAL))
       || negb (bool_decide (gameState room = playing))
    then Done s []
    else
      let playerIndex := indexOf socketId room in
      if negb (bool_decide (playerIndex = currentPlayer room))
      then Done s [Event (ToSocket socketId) "error"
                     (Msg (Some "You can only build armor on your turn"))]
      else
        match at_index (players room) playerIndex with
        | None => Crash
        | Some currentP =>
          match selectedCards currentP with
          | None => Crash
          | Some sel =>
            if bool_decide (length sel = 0%nat)
            then Done s [Event (ToSocket socketId) "error" (Msg (Some "No cards selected"))]
            else
              let validation := validateHand sel in
              if negb (valid validation)
              then Done s [Event (ToSocket socketId) "invalidHand" (Msg (error validation))]
              else
                match resolveArmor roomId rnd room playerIndex currentP sel with
                | None => Crash
                | Some (room', ev) => Done (setRoom roomId room' s) [ev]
                end
          end
        end
  | _, _ => Done s []
  end.

(** ** The hand categories, as the specification words them *)

Module Spec.

(** Number of cards of rank [r]. *)
Definition occ (r : Z) (cards : list card) : nat :=
  length (filter (fun c => rank c = r) cards).

Definition sameRank (cards : list card) : Prop :=
  Forall (fun a => Forall (fun b => rank a = rank b) cards) cards.

Definition twoPair (cards : list card) : Prop :=
  Exists (fun a => Exists (fun b =>
    rank a ≠ rank b ∧ occ (rank a) cards = 2%nat ∧ occ (rank b) cards = 2%nat) cards) cards.

Definition fullHouse (cards : list card) : Prop :=
  Exists (fun a => Exists (fun b =>
    occ (rank a) cards = 3%nat ∧ occ (rank b) cards = 2%nat) cards) cards.

Definition flush (cards : list card) : Prop :=
  Forall (fun a => Forall (fun b => suit a = suit b) cards) cards.

Definition distinctRanks (cards : list card) : Prop := NoDup (rank <$> cards).

(** [lo] and [hi] are the least and the greatest rank of the hand. *)
Definition lowest (lo : Z) (cards : list card) : Prop :=
  lo ∈ (rank <$> cards) ∧ Forall (fun c => lo ≤ rank c) cards.
Definition highest (hi : Z) (cards : list card) : Prop :=
  hi ∈ (rank <$> cards) ∧ Forall (fun c => rank c ≤ hi) cards.

(** max rank - min rank = [k] *)
Definition span (k : Z) (cards : list card) : Prop :=
  Exists (fun a => Exists (fun b =>
    lowest (rank a) cards ∧ highest (rank b) cards ∧ rank b - rank a = k) cards) cards.

Definition wheel (cards : list card) : Prop := rank <$> cards ≡ₚ [1; 2; 3; 4; 5].
Definition genericStraight (cards : list card) : Prop :=
  distinctRanks cards ∧ span 4 cards.
Definition straight (cards : list card) : Prop := wheel cards ∨ genericStraight cards.
Definition royalPattern (cards : list card) : Prop := rank <$> cards ≡ₚ [1; 10; 11; 12; 13].
Definition royalFlush (cards : list card) : Prop := flush cards ∧ royalPattern cards.
Definition straightFlush (cards : list card) : Prop := flush cards ∧ straight cards.

(** The table of section 4.2, by number of cards. *)
Definition validPlay (cards : list card) : Prop :=
  match length cards with
  | 0%nat => False
  | 1%nat => True
  | 2%nat | 3%nat => sameRank cards
  | 4%nat => sameRank cards ∨ twoPair cards
  | 5%nat => royalFlush cards ∨ straightFlush cards ∨ fullHouse cards
             ∨ flush cards ∨ straight cards
  | _ => False
  end.

#[global] Instance validPlay_dec cards : Decision (validPlay cards).
Proof.
  unfold validPlay, royalFlush, straightFlush, straight, genericStraight, wheel,
    royalPattern, span, lowest, highest, distinctRanks, flush, fullHouse, twoPair, sameRank.
  repeat case_match; apply _.
Defined.

(** Category bases and per-card face values of section 4.2. *)
Definition categoryBase (category : string) : Z :=
  if decide (category = "Royal Flush") then 50
  else if decide (category = "Straight Flush") then 40
  else if decide (category = "Four of a Kind") then 35
  else if decide (category = "Full House") then 30
  else if decide (category = "Flush") then 25
  else if decide (category = "Straight") then 20
  else if decide (category = "Three of a Kind") then 15
  else if decide (category = "Two Pair") then 10
  else if decide (category = "One Pair") then 5
  else if decide (category = "High Card") then 1
  else 0.

Definition categories : list string :=
  ["Royal Flush"; "Straight Flush"; "Four of a Kind"; "Full House"; "Flush"; "Straight";
   "Three of a Kind"; "Two Pair"; "One Pair"; "High Card"].

Definition face (c : card) : Z := if decide (rank c = 1) then 14 else rank c.

Definition faceSum (cards : list card) : Z := foldr (fun c acc => face c + acc) 0 cards.

(** Damage times 0.25 when the prediction was right and times 1.25 when
    it was wrong, truncated toward zero. *)
Definition predicted (right : bool) (d : Z) : Z :=
  Z.quot (d * (if right then 25 else 125)) 100.

End Spec.

(** ** Auxiliary notions used in the proofs *)

(** The value stored under key [k] in a [rankCounts] object ([0] when the
    key is absent). *)
Fixpoint get (o : list (Z * nat)) (k : Z) : nat :=
  match o with
  | [] => 0%nat
  | (k', n) :: o' => if decide (k' = k) then n else get o' k
  end.

(** Number of occurrences of [r] in a list of ranks. *)
Definition occZ (r : Z) (l : list Z) : nat := length (filter (fun x => x = r) l).

Definition total (vs : list nat) : nat := foldr Nat.add 0%nat vs.

(** A well-formed counting object: distinct keys, positive counts. *)
Definition wf_counts (o : list (Z * nat)) : Prop :=
  NoDup (fst <$> o) ∧ Forall (fun e => (0 < snd e)%nat) o.

(** ** The cards a room holds *)

(** A player whose game fields have been initialised. *)
Definition dealt (p : player) : Prop := is_Some (hand p).

Definition handCards (ps : list player) : list card := p ← ps; default [] (hand p).

(** The discard pile is part of the game in Recycling mode only. *)
Definition pileCards (r : room) : list card :=
  if decide (gameMode r = RECYCLING) then default [] (discardPile r) else [].

Definition roomCards (r : room) : list card :=
  handCards (players r) ++ deck r ++ pileCards r.

Definition cardIds (r : room) : list CardId := cid <$> roomCards r.

(** ** Handling several requests in a row *)

Definition andThen (o : outcome) (h : server → outcome) : outcome :=
  match o with
  | Done s evs =>
    match h s with
    | Done s' evs' => Done s' (evs ++ evs')
    | Crash => Crash
    end
  | Crash => Crash
  end.

Definition stateOf (o : outcome) : option server :=
  match o with Done s _ => Some s | Crash => None end.

Definition eventsOf (o : outcome) : option (list event) :=
  match o with Done _ evs => Some evs | Crash => None end.

Definition roomOf (roomId : string) (o : outcome) : option room :=
  stateOf o ≫= fun s => rooms s !! roomId.

(** The requests a session can make during a game, each with the random
    numbers its handler draws. *)
Inductive request :=
| SelectCard (socketId : string) (cardId : CardId)
| MarkForDiscard (socketId : string) (cardId : CardId)
| DiscardCards (socketId : string)
| MakePrediction (socketId : string) (guess : string)
| PlayHand (socketId : string) (rnd : nat → nat)
| BuildArmor (socketId : string) (rnd : nat → nat).

Definition handle (roomId : string) (q : request) (s : server) : outcome :=
  match q with
  | SelectCard sid cardId => selectCard sid roomId cardId s
  | MarkForDiscard sid cardId => markForDiscard sid roomId cardId s
  | DiscardCards sid => discardCards sid roomId s
  | MakePrediction sid guess => makePrediction sid roomId guess s
  | PlayHand sid rnd => playHand sid roomId rnd s
  | BuildArmor sid rnd => buildArmor sid roomId rnd s
  end.

(** The requests are handled one at a time, in the order received. *)
Fixpoint handleAll (roomId : string) (qs : list request) (s : server) : outcome :=
  match qs with
  | [] => Done s []
  | q :: qs => andThen (handle roomId q s) (handleAll roomId qs)
  end.

(** ** A concrete game

    Two sessions, ["a"] and ["b"], sit in room ["r"].  The random numbers
    below leave the deck in the order in which it was filled except that the
    10, jack, queen and king of hearts are swapped to positions 1-4, and pick
    player 0 to begin: ["a"] is dealt the ace, 10, jack, queen, king, 6, 7
    and 8 of hearts. *)

Definition ex_rnd (k : nat) : nat :=
  let i := (103 - k)%nat in
  if bool_decide (9 ≤ i ≤ 12)%nat then (i - 8)%nat else i.

Definition newPlayer (id name : string) : player :=
  Player id name None None None None None None None None None.

Definition ex_lobby (gameMode : string) : server :=
  Server {[ "r" := Room "r" "Room" gameMode [newPlayer "a" "Ann"; newPlayer "b" "Bob"]
                     waiting 0 1 [] None None ]}
         {[ "a" := "Ann"; "b" := "Bob" ]}.

Definition heartsId (r : Z) : CardId := MkId hearts r (ex_rnd (Z.to_nat r - 1)).

Definition ex_started (gameMode : string) : outcome :=
  startGame "r" ex_rnd (ex_lobby gameMode).

(** ["a"] selects the royal flush. *)
Definition ex_royal_selected (gameMode : string) : outcome :=
  foldl (fun o r => andThen o (selectCard "a" "r" (heartsId r)))
        (ex_started gameMode) [1; 10; 11; 12; 13].

(** ["a"] selects the ace of hearts only. *)
Definition ex_ace_selected (gameMode : string) : outcome :=
  andThen (ex_started gameMode) (selectCard "a" "r" (heartsId 1)).

Definition ex_server (o : outcome) : server := default (Server ∅ ∅) (stateOf o).

Definition ex_room (o : outcome) : room :=
  default (Room EmptyString EmptyString EmptyString [] waiting 0 0 [] None None)
    (roomOf "r" o).

Definition ex_events (o : outcome) : list event := default [] (eventsOf o).

(** In a Tactical game ["b"] predicts a flush and ["a"] selects the ace. *)
Definition ex_predicted : outcome :=
  andThen (andThen (ex_started TACTICAL) (makePrediction "b" "r" "Flush"))
          (selectCard "a" "r" (heartsId 1)).

(** ["a"] plays the ace alone. *)
Definition ex_ace_played (gameMode : string) : outcome :=
  andThen (ex_ace_selected gameMode) (playHand "a" "r" ex_rnd).

(** ["a"] plays the royal flush. *)
Definition ex_royal_played (gameMode : string) : outcome :=
  andThen (ex_royal_selected gameMode) (playHand "a" "r" ex_rnd).

(** A room as [createRoom] leaves it: its creator alone, waiting. *)
Definition ex_solo : server :=
  Server {[ "r" := Room "r" "Room" CLASSIC [newPlayer "a" "Ann"] waiting 0 1 [] None None ]}
         {[ "a" := "Ann" ]}.

(** The lobby of a Tactical room, and a third session that never joined it. *)
Definition ex_lobby3 : server :=
  Server (rooms (ex_lobby TACTICAL)) {[ "a" := "Ann"; "b" := "Bob"; "c" := "Cy" ]}.

Definition ex_player (o : outcome) (i : nat) : player :=
  default (newPlayer EmptyString EmptyString) (players (ex_room o) !! i).

Definition ex_selection (o : outcome) (i : nat) : list card :=
  default [] (selectedCards (ex_player o i)).

(** In a Recycling game ["a"] plays the ace, then ["b"] selects the nine of
    hearts. *)
Definition ex_recycling_second : outcome :=
  andThen (ex_ace_played RECYCLING) (selectCard "b" "r" (heartsId 9)).

(** The session at seat [i] selects the first card of its hand and plays
    it. *)
Definition ex_firstCard (o : outcome) (i : nat) : CardId :=
  default (MkId hearts 0 0) (cid <$> (hand (ex_player o i) ≫= head)).

Definition ex_selectFirst (o : outcome) (sid : string) (i : nat) : outcome :=
  andThen o (selectCard sid "r" (ex_firstCard o i)).

Definition ex_playFirst (o : outcome) (sid : string) (i : nat) : outcome :=
  andThen (ex_selectFirst o sid i) (playHand sid "r" ex_rnd).

(** A Recycling game after four plays, ["a"] at turn with a card selected:
    4 cards are left in the draw pile and 4 lie in the discard pile. *)
Definition ex_low_deck : outcome :=
  ex_selectFirst
    (ex_playFirst (ex_playFirst (ex_playFirst (ex_playFirst (ex_started RECYCLING) "a" 0)
                                               "b" 1) "a" 0) "b" 1)
    "a" 0.

(** ** Sample hands *)

Definition mk (s : Suit) (r : Z) : card := Card (MkId s r 0) s r false false.

Definition ex_royal_flush : list card :=
  [mk hearts 1; mk hearts 10; mk hearts 11; mk hearts 12; mk hearts 13].

Definition ex_wheel : list card :=
  [mk clubs 1; mk diamonds 2; mk spades 3; mk hearts 4; mk clubs 5].

Definition ex_broadway : list card :=
  [mk clubs 1; mk diamonds 10; mk spades 11; mk hearts 12; mk clubs 13].

(** Face value as a function of the rank. *)
Definition faceOfRank (r : Z) : Z := if decide (r = 1) then 14 else r.

Definition sumZ (l : list Z) : Z := foldr Z.add 0 l.

(** The suit and the rank that a card id names. *)
Definition faceOfId (i : CardId) : Suit * Z := (id_suit i, id_rank i).

(** ** The orders used for sorting *)

#[global] Instance by_rank_trans : Transitive by_rank.
Proof. intros a b c. unfold by_rank. lia. Qed.

#[global] Instance by_rank_total : Total by_rank.
Proof. intros a b. unfold by_rank. lia. Qed.

#[global] Instance descending_trans : Transitive descending.
Proof. intros a b c. unfold descending. lia. Qed.

#[global] Instance descending_total : Total descending.
Proof. intros a b. unfold descending. lia. Qed.

#[global] Instance descending_antisym : AntiSymm (=) descending.
Proof. intros a b. unfold descending. lia. Qed.

(** * Further notions *)

(** ** Categories of a hand *)

(** Some rank occurs four times. *)
Definition fourAlike (cards : list card) : Prop :=
  Exists (fun a => Spec.occ (rank a) cards = 4%nat) cards.

#[global] Instance sameRank_dec cards : Decision (Spec.sameRank cards).
Proof. unfold Spec.sameRank. apply _. Defined.

#[global] Instance flush_dec cards : Decision (Spec.flush cards).
Proof. unfold Spec.flush. apply _. Defined.

#[global] Instance fullHouse_dec cards : Decision (Spec.fullHouse cards).
Proof. unfold Spec.fullHouse. apply _. Defined.

#[global] Instance straight_dec cards : Decision (Spec.straight cards).
Proof.
  unfold Spec.straight, Spec.genericStraight, Spec.wheel, Spec.span, Spec.lowest,
    Spec.highest, Spec.distinctRanks.
  apply _.
Defined.

#[global] Instance royalFlush_dec cards : Decision (Spec.royalFlush cards).
Proof. unfold Spec.royalFlush, Spec.royalPattern. apply _. Defined.

#[global] Instance straightFlush_dec cards : Decision (Spec.straightFlush cards).
Proof. unfold Spec.straightFlush. apply _. Defined.

#[global] Instance fourAlike_dec cards : Decision (fourAlike cards).
Proof. unfold fourAlike. apply _. Defined.

(** The category that the rules give to a set of cards that may be played:
    by number of cards, and among five cards the highest-ranking category
    that fits. *)
Definition categoryOf (cards : list card) : string :=
  match length cards with
  | 1%nat => "High Card"
  | 2%nat => "One Pair"
  | 3%nat => "Three of a Kind"
  | 4%nat => if decide (Spec.sameRank cards) then "Four of a Kind" else "Two Pair"
  | _ =>
    if decide (Spec.royalFlush cards) then "Royal Flush"
    else if decide (Spec.straightFlush cards) then "Straight Flush"
    else if decide (fourAlike cards) then "Four of a Kind"
    else if decide (Spec.fullHouse cards) then "Full House"
    else if decide (Spec.flush cards) then "Flush"
    else "Straight"
  end.

(** The cards differ pairwise in suit or rank, as cards of one deck do. *)
Definition distinctFaces (cards : list card) : Prop :=
  NoDup ((fun c => (suit c, rank c)) <$> cards).

(** ** The player objects that the selection toggles leave *)

(** The player at turn after [selectCard] has toggled the card [c] found at
    position [i] of the hand [h]. *)
Definition selectedOf (i : nat) (c : card) (h : list card) (actor : player) : player :=
  with_selectedCards (Some (filter (fun c => selected c = true) (<[i := toggleSelected c]> h)))
    (with_hand (Some (<[i := toggleSelected c]> h)) actor).

(** The same for [markForDiscard]. *)
Definition markedOf (cardId : CardId) (i : nat) (c : card) (h : list card) (actor : player)
    : player :=
  with_selectedCards
    (if selected c then markAlias cardId <$> selectedCards actor else selectedCards actor)
    (with_hand (Some (<[i := toggleMarked c]> h)) actor).

(** ** Requests and the events they leave *)

(** The requests that end a turn when they are resolved. *)
Definition endsTurn (q : request) : bool :=
  match q with
  | PlayHand _ _ | BuildArmor _ _ => true
  | _ => false
  end.

(** Number of events of a given name. *)
Definition countNamed (name : string) (evs : list event) : nat :=
  length (filter (fun e => ename e = name) evs).

(** The player at turn in room [roomId] has used [u] of [m] discards. *)
Definition budget (roomId : string) (s : server) (u m : Z) : Prop :=
  ∃ room actor,
    rooms s !! roomId = Some room
    ∧ at_index (players room) (currentPlayer room) = Some actor
    ∧ discardsUsed actor = Some u ∧ maxDiscards actor = Some m.

(** ** More of the concrete game *)

(** ["a"] selects the ace of hearts and marks it for discard as well. *)
Definition ex_selected_marked : outcome :=
  andThen (ex_ace_selected CLASSIC) (markForDiscard "a" "r" (heartsId 1)).

(** Then ["a"] discards. *)
Definition ex_discarded : outcome :=
  andThen ex_selected_marked (discardCards "a" "r").

(** The four discards that ["a"] attempts in the first turn of a game. *)
Definition ex_four_discards : list request :=
  [ MarkForDiscard "a" (heartsId 6); DiscardCards "a";
    MarkForDiscard "a" (heartsId 7); DiscardCards "a";
    MarkForDiscard "a" (heartsId 8); DiscardCards "a";
    MarkForDiscard "a" (heartsId 1); DiscardCards "a" ].

(** ** A game that cannot go on *)

(** The room is being played and the player at turn holds no card and has
    selected none. *)
Definition stalled (roomId : string) (s : server) : Prop :=
  ∃ room actor,
    rooms s !! roomId = Some room ∧ gameState room = playing
    ∧ at_index (players room) (currentPlayer room) = Some actor
    ∧ hand actor = Some [] ∧ selectedCards actor = Some [].

(** A Classic game in which the two players have played one card in turn,
    seven times in all: the draw pile gave out during the fifth play, and
    ["b"], at turn, holds nothing. *)
Definition ex_seven_plays : outcome :=
  ex_playFirst
    (ex_playFirst
       (ex_playFirst
          (ex_playFirst (ex_playFirst (ex_playFirst (ex_playFirst (ex_started CLASSIC) "a" 0)
                                                     "b" 1) "a" 0) "b" 1)
          "a" 0)
       "b" 1)
    "a" 0.

(** ** Health and armor *)

(** What a request may do to a player: the id stays, a health that is a
    number not below 0 stays one and does not grow, and an armor between 0
    and 50 stays between 0 and 50. *)
Definition wornDown (p p' : player) : Prop :=
  pid p' = pid p
  ∧ (∀ hl, health p = Some hl → 0 ≤ hl → ∃ hl', health p' = Some hl' ∧ 0 ≤ hl' ≤ hl)
  ∧ (∀ a, armor p = Some a → 0 ≤ a ≤ 50 → ∃ a', armor p' = Some a' ∧ 0 ≤ a' ≤ 50).

(** ** A fresh game *)

(** What [startGame] and [acceptRematch] make of a player in a room of the
    given mode. *)
Definition freshlyDealt (gameMode : string) (p : player) : Prop :=
  health p = startingHealth gameMode ∧ maxHealth p = startingHealth gameMode
  ∧ (∃ h, hand p = Some h ∧ length h = 8%nat
          ∧ Forall (fun c => selected c = false ∧ markedForDiscard c = false) h)
  ∧ selectedCards p = Some []
  ∧ discardsUsed p = Some 0 ∧ maxDiscards p = Some 3 ∧ maxCardsPerDiscard p = Some 3
  ∧ (gameMode = TACTICAL → armor p = Some 0 ∧ prediction p = None).

(** A seat keeps its player. *)
Definition sameSeat (p p' : player) : Prop := pid p' = pid p ∧ name p' = name p.

(** The room that [startGame] leaves. *)
Definition dealtRoom (rnd : nat → nat) (r : room) : room :=
  Room (rid r) (rname r) (gameMode r)
    (imap (initPlayer (gameMode r) (createDeck rnd)) (players r))
    playing (Z.of_nat (rnd createDeck_calls mod 2)) 1 (drop 16 (createDeck rnd))
    (if decide (gameMode r = RECYCLING) then Some [] else discardPile r)
    (lastPlayedHand r).

(** A Tactical game after the first play, and a third session, ["c"],
    that never joined the room. *)
Definition ex_intruder : server :=
  Server (rooms (ex_server (ex_ace_played TACTICAL))) (sessions ex_lobby3).

(** A room keeps its id, its name, its mode and its seats. *)
Definition sameTable (r r' : room) : Prop :=
  rid r' = rid r ∧ rname r' = rname r ∧ gameMode r' = gameMode r
  ∧ Forall2 sameSeat (players r) (players r').

(** ** The shuffle of Fisher and Yates, as it is commonly stated *)

(** The array with the elements at positions [i] and [j] exchanged. *)
Definition exchange {A} (l : list A) (i j : nat) : list A :=
  imap (fun k x => if decide (k = i) then default x (l !! j)
                   else if decide (k = j) then default x (l !! i)
                   else x) l.

(** Going down from position [i] to position 1, the element at the
    position reached is exchanged with the one at the position chosen for
    it, [choice i], which lies between 0 and [i]. *)
Fixpoint fisherYates {A} (choice : nat → nat) (i : nat) (l : list A) : list A :=
  match i with
  | O => l
  | S i' => fisherYates choice i' (exchange l i (choice i))
  end.

(** The position that [Math.floor(Math.random() * (i + 1))] chooses for
    position [i] of an array of [n] elements, when [k] random numbers have
    been drawn before the loop is entered. *)
Definition chosen (rnd : nat → nat) (k n i : nat) : nat :=
  (rnd (k + (n - 1 - i)) mod (i + 1))%nat.

(** ** The cards that leave the game *)

(** A resolved play-hand or build-armor takes the whole hand from the
    actor; in a Recycling room the cards played, which are the cards of the
    hand that are selected, go to the discard pile, and the others are
    gone; in any other room the whole hand is gone. *)
Definition leavesOnPlay (gameMode : string) (h : list card) : list card :=
  if decide (gameMode = RECYCLING) then filter (fun c => selected c ≠ true) h else h.

(** A resolved discard takes the marked cards from the hand; they go to
    the discard pile in a Recycling room and are gone in any other. *)
Definition leavesOnDiscard (gameMode : string) (h : list card) : list card :=
  if decide (gameMode = RECYCLING) then [] else filter (fun c => markedForDiscard c = true) h.

(** * The lobby: names, rooms, joining and leaving

    The handlers of this part pass player objects around by reference: the
    object that [setPlayerName] stores in [players] is the one that
    [createRoom] and [joinRoom] put into [room.players], and it can sit in
    several rooms at once.  So the objects are kept in a store, and both
    [players] and [room.players] hold references into it. *)

(** A player object: what [setPlayerName] creates, [roomId] included, with
    the game fields that [startGame] writes into it later. *)
Record playerObj := PlayerObj { fields : player; roomId : option string }.

#[global] Instance playerObj_inhabited : Inhabited playerObj :=
  populate (PlayerObj (newPlayer EmptyString EmptyString) None).

(** A room object: [shell] holds its own fields ([players (shell r)] is
    not used and stays empty) and [seats] is [room.players], references
    into the store. *)
Record roomObj := RoomObj { shell : room; seats : list nat }.

Record world := World {
  store : list playerObj;               (* the player objects created so far *)
  registry : gmap string nat;           (* players: socket id -> player object *)
  roomList : list (string * roomObj)    (* rooms, in the order of insertion *)
}.

Definition emptyWorld : world := World [] ∅ [].

(** ** The [rooms] map, which [getRooms] enumerates in insertion order *)

Definition mapGet {V} (k : string) (m : list (string * V)) : option V :=
  (fun e => snd (snd e)) <$> list_find (fun e => fst e = k) m.

(** [m.set(k, v)]: an existing key keeps its place. *)
Fixpoint mapSet {V} (k : string) (v : V) (m : list (string * V)) : list (string * V) :=
  match m with
  | [] => [(k, v)]
  | (k', v') :: m' => if decide (k' = k) then (k, v) :: m' else (k', v') :: mapSet k v m'
  end.

Definition mapDelete {V} (k : string) (m : list (string * V)) : list (string * V) :=
  filter (fun e => fst e ≠ k) m.

(** ** Reading and writing objects *)

(** [players.get(socket.id)]: the reference and the object. *)
Definition getPlayer (socketId : string) (w : world) : option (nat * playerObj) :=
  (fun a => (a, store w !!! a)) <$> registry w !! socketId.

Definition setRoomId (v : option string) (o : playerObj) : playerObj :=
  PlayerObj (fields o) v.

(** The player objects that a room refers to. *)
Definition seated (st : list playerObj) (r : roomObj) : list playerObj :=
  (fun a => st !!! a) <$> seats r.

(** The room as the rest of the engine sees it, with its players in
    place. *)
Definition roomView (st : list playerObj) (r : roomObj) : room :=
  with_players (fields <$> seated st r) (shell r).

(** ** What the handlers send and ask for *)

Inductive audience :=
| ToSender                        (* socket.emit *)
| ToEveryone                      (* io.emit *)
| ToChannel (channel : string)    (* io.to(channel).emit *)
| ToOthers (channel : string).    (* socket.to(channel).emit *)

(** An entry of the list that [getRooms] sends. *)
Record roomInfo := RoomInfo {
  info_id : string;
  info_name : string;
  info_players : nat;
  info_maxPlayers : Z;
  info_gameMode : string
}.

(** A room object as a message carries it: its own fields and its player
    objects as they are when the message is sent. *)
Record roomSnap := RoomSnap { snap_room : room; snap_players : list playerObj }.

Definition snapshot (st : list playerObj) (r : roomObj) : roomSnap :=
  RoomSnap (shell r) (seated st r).

Inductive notice :=
| PlayerSet (id name : string)
| RoomsList (available : list roomInfo)
| ErrorText (text : string)
| RoomCreated (roomId : string) (room : roomSnap)
| PlayerJoined (player : playerObj) (room : roomSnap)
| GameStarted (room : roomSnap)
| RematchRequested (playerName : string)
| PlayerLeft (playerId : string)
| NoPayload.

Inductive effect :=
| Emit (to : audience) (ename : string) (body : notice)
| Join (channel : string)             (* socket.join *)
| Leave (channel : string)            (* socket.leave *)
| SetTimeout (roomId : string) (ms : Z). (* setTimeout(() => startGame(roomId), ms) *)

(** ** The handlers *)

Definition setPlayerName (socketId name : string) (w : world) : world * list effect :=
  let a := length (store w) in
  (World (store w ++ [PlayerObj (newPlayer socketId name) None])
     (<[socketId := a]> (registry w)) (roomList w),
   [Emit ToSender "playerSet" (PlayerSet socketId name)]).

Definition infoOf (r : roomObj) : roomInfo :=
  RoomInfo (rid (shell r)) (rname (shell r)) (length (seats r)) 2 (gameMode (shell r)).

Definition getRooms (w : world) : world * list effect :=
  let availableRooms :=
    infoOf <$> filter (fun r => (length (seats r) < 2)%nat) (snd <$> roomList w) in
  (w, [Emit ToSender "roomsList" (RoomsList availableRooms)]).

(** [newId] is the value of [uuidv4()]; [gameMode] is [None] when the
    request names no mode, which makes it Classic. *)
Definition createRoom (socketId newId roomName : string) (gameMode : option string)
    (w : world) : world * list effect :=
  match getPlayer socketId w with
  | None => (w, [Emit ToSender "error" (ErrorText "Player not found")])
  | Some (a, _) =>
    let r := RoomObj (Room newId roomName (default CLASSIC gameMode) [] waiting 0 1 [] None None)
               [a] in
    let st := alter (setRoomId (Some newId)) a (store w) in
    (World st (registry w) (mapSet newId r (roomList w)),
     [ Join newId;
       Emit ToSender "roomCreated" (RoomCreated newId (snapshot st r));
       Emit ToEveryone "roomsUpdated" NoPayload ])
  end.

Definition joinRoom (socketId roomId : string) (w : world) : world * list effect :=
  match mapGet roomId (roomList w), getPlayer socketId w with
  | None, _ => (w, [Emit ToSender "error" (ErrorText "Room not found")])
  | Some _, None => (w, [Emit ToSender "error" (ErrorText "Player not found")])
  | Some room, Some (a, _) =>
    if bool_decide (2 ≤ length (seats room))%nat
    then (w, [Emit ToSender "error" (ErrorText "Room is full")])
    else if bool_decide (Exists (fun p => pid (fields p) = socketId) (seated (store w) room))
    then (w, [Emit ToSender "error" (ErrorText "You are already in this room")])
    else
      let r := RoomObj (shell room) (seats room ++ [a]) in
      let st := alter (setRoomId (Some roomId)) a (store w) in
      (World st (registry w) (mapSet roomId r (roomList w)),
       [ Join roomId;
         Emit (ToChannel roomId) "playerJoined" (PlayerJoined (st !!! a) (snapshot st r));
         Emit ToEveryone "roomsUpdated" NoPayload ]
       ++ (if bool_decide (length (seats r) = 2%nat) then [SetTimeout roomId 2000] else []))
  end.

Definition requestRematch (socketId roomId : string) (w : world) : world * list effect :=
  match mapGet roomId (roomList w), getPlayer socketId w with
  | Some _, Some (_, player) =>
      (w, [Emit (ToOthers roomId) "rematchRequested" (RematchRequested (name (fields player)))])
  | _, _ => (w, [])
  end.

Definition declineRematch (socketId roomId : string) (w : world) : world * list effect :=
  match mapGet roomId (roomList w), getPlayer socketId w with
  | Some _, Some _ => (w, [Emit (ToOthers roomId) "rematchDeclined" NoPayload])
  | _, _ => (w, [])
  end.

(** [room.players = room.players.filter((p) => p.id !== socket.id)] and
    what follows it in [leaveRoom] and in [disconnect]: the [rooms] map and
    the notice to those who stay. *)
Definition vacate (socketId roomId : string) (room : roomObj) (w : world)
    : list (string * roomObj) * list effect :=
  let stay := filter (fun a => pid (fields (store w !!! a)) ≠ socketId) (seats room) in
  if bool_decide (length stay = 0%nat)
  then (mapDelete roomId (roomList w), [])
  else (mapSet roomId (RoomObj (shell room) stay) (roomList w),
        [Emit (ToChannel roomId) "playerLeft" (PlayerLeft socketId)]).

Definition leaveRoom (socketId : string) (w : world) : world * list effect :=
  match getPlayer socketId w with
  | Some (a, player) =>
    if truthy (roomId player) then
      let here := default EmptyString (roomId player) in
      match mapGet here (roomList w) with
      | Some room =>
        let '(rooms, told) := vacate socketId here room w in
        (World (alter (setRoomId None) a (store w)) (registry w) rooms,
         [Leave here] ++ told ++ [Emit ToEveryone "roomsUpdated" NoPayload])
      | None => (w, [])
      end
    else (w, [])
  | None => (w, [])
  end.

Definition disconnect (socketId : string) (w : world) : world * list effect :=
  let '(rooms, evs) :=
    match getPlayer socketId w with
    | Some (a, player) =>
      if truthy (roomId player) then
        let here := default EmptyString (roomId player) in
        match mapGet here (roomList w) with
        | Some room =>
          let '(rooms, told) := vacate socketId here room w in
          (rooms, told ++ [Emit ToEveryone "roomsUpdated" NoPayload])
        | None => (roomList w, [])
        end
      else (roomList w, [])
    | None => (roomList w, [])
    end in
  (World (store w) (delete socketId (registry w)) rooms, evs).

(** [startGame], the callback that [joinRoom] schedules, on the store:
    [room.players.forEach] writes the game fields into the player objects
    one after the other. *)
Definition dealInto (gameMode : string) (deck : list card) (st : list playerObj)
    (e : nat * nat) : list playerObj :=
  alter (fun o => PlayerObj (initPlayer gameMode deck e.1 (fields o)) (roomId o)) e.2 st.

Definition startGameW (roomId : string) (rnd : nat → nat) (w : world) : world * list effect :=
  match mapGet roomId (roomList w) with
  | None => (w, [])
  | Some room =>
    if negb (bool_decide (length (seats room) = 2%nat)) then (w, [])
    else
      let deck := createDeck rnd in
      let sh := shell room in
      let st := foldl (dealInto (gameMode sh) deck) (store w) (imap pair (seats room)) in
      let r := RoomObj
                 (Room (rid sh) (rname sh) (gameMode sh) [] playing
                    (Z.of_nat (rnd createDeck_calls mod 2)) 1 (drop 16 deck)
                    (if decide (gameMode sh = RECYCLING) then Some [] else discardPile sh)
                    (lastPlayedHand sh))
                 (seats room) in
      (World st (registry w) (mapSet roomId r (roomList w)),
       Emit (ToChannel roomId) "gameStarted" (GameStarted (snapshot st r))
       :: ((fun p => Emit (ToChannel (pid (fields p))) "gameStarted" (GameStarted (snapshot st r)))
           <$> seated st r))
  end.

(** ** Requests to the lobby, one after the other *)

Inductive call :=
| SetPlayerName (socketId name : string)
| GetRooms (socketId : string)
| CreateRoom (socketId newId roomName : string) (gameMode : option string)
| JoinRoom (socketId roomId : string)
| RequestRematch (socketId roomId : string)
| DeclineRematch (socketId roomId : string)
| LeaveRoom (socketId : string)
| Disconnect (socketId : string)
| StartGame (roomId : string) (rnd : nat → nat).   (* a timer of [joinRoom] fires *)

Definition serve (c : call) (w : world) : world * list effect :=
  match c with
  | SetPlayerName sid nm => setPlayerName sid nm w
  | GetRooms _ => getRooms w
  | CreateRoom sid newId nm gm => createRoom sid newId nm gm w
  | JoinRoom sid r => joinRoom sid r w
  | RequestRematch sid r => requestRematch sid r w
  | DeclineRematch sid r => declineRematch sid r w
  | LeaveRoom sid => leaveRoom sid w
  | Disconnect sid => disconnect sid w
  | StartGame r rnd => startGameW r rnd w
  end.

Definition serveAll (cs : list call) (w : world) : world * list effect :=
  foldl (fun acc c => let '(w', evs) := serve c acc.1 in (w', acc.2 ++ evs)) (w, []) cs.

(** ** Well-formed worlds *)

(** The ids of the players of a room, seat by seat. *)
Definition seatIds (st : list playerObj) (r : roomObj) : list string :=
  (fun p => pid (fields p)) <$> seated st r.

(** Every room holds one or two players, of different ids. *)
Definition roomsInOrder (w : world) : Prop :=
  Forall (fun e => (1 ≤ length (seats e.2) ≤ 2)%nat ∧ NoDup (seatIds (store w) e.2))
    (roomList w).

(** The map [rooms] holds a key once and a room under its own id,
    [players] and the rooms refer to objects that exist, and the object
    registered for a socket carries the id of that socket. *)
Definition wellFormed (w : world) : Prop :=
  NoDup (fst <$> roomList w)
  ∧ Forall (fun e => rid (shell e.2) = e.1) (roomList w)
  ∧ (∀ sid a, registry w !! sid = Some a →
       (a < length (store w))%nat ∧ pid (fields (store w !!! a)) = sid)
  ∧ Forall (fun e => Forall (fun a => (a < length (store w))%nat) (seats e.2)) (roomList w).

(** The ids of the rooms that [getRooms] lists. *)
Definition availableIds (w : world) : list string :=
  match (getRooms w).2 with
  | [Emit _ _ (RoomsList l)] => info_id <$> l
  | _ => []
  end.

(** What is asked of one entry of [rooms]. *)
Definition roomOk (st : list playerObj) (e : string * roomObj) : Prop :=
  rid (shell e.2) = e.1
  ∧ Forall (fun a => (a < length st)%nat) (seats e.2)
  ∧ (1 ≤ length (seats e.2) ≤ 2)%nat
  ∧ NoDup (seatIds st e.2).

Definition registryOk (st : list playerObj) (reg : gmap string nat) : Prop :=
  ∀ sid a, reg !! sid = Some a → (a < length st)%nat ∧ pid (fields (st !!! a)) = sid.

(** The store [st'] holds the objects of [st], with the ids they had. *)
Definition extends (st st' : list playerObj) : Prop :=
  (length st ≤ length st')%nat
  ∧ ∀ a, (a < length st)%nat → pid (fields (st' !!! a)) = pid (fields (st !!! a)).

(** Whether an effect is a [socket.leave]. *)
Definition isLeave (e : effect) : bool :=
  match e with Leave _ => true | _ => false end.

(** The socket that sends a request; a timer that fires has none. *)
Definition callerOf (c : call) : option string :=
  match c with
  | SetPlayerName sid _ | GetRooms sid | CreateRoom sid _ _ _ | JoinRoom sid _
  | RequestRematch sid _ | DeclineRematch sid _ | LeaveRoom sid | Disconnect sid => Some sid
  | StartGame _ _ => None
  end.

(** Three sessions; the first creates two rooms, and the other two join
    one each. *)
Definition ex_two_rooms (rnd : nat → nat) : world :=
  (serveAll [SetPlayerName "a" "Ann"; SetPlayerName "b" "Bob"; SetPlayerName "c" "Cy";
             CreateRoom "a" "r1" "First" None; CreateRoom "a" "r2" "Second" None;
             JoinRoom "b" "r1"; StartGame "r1" rnd; JoinRoom "c" "r2"] emptyWorld).1.

(** * Properties *)

Lemma sortByRank_perm cards : sortByRank cards ≡ₚ cards.
Proof. apply merge_sort_Permutation. Qed.

Lemma sortByRank_sorted cards : StronglySorted by_rank (sortByRank cards).
Proof. apply StronglySorted_merge_sort; apply _. Qed.

Lemma sortByRank_length cards : length (sortByRank cards) = length cards.
Proof. by rewrite sortByRank_perm. Qed.

Lemma size_list_to_set_le (l : list Z) : (size (list_to_set l : gset Z) ≤ length l)%nat.
Proof.
  induction l as [|x l IH].
  - rewrite list_to_set_nil, size_empty. done.
  - rewrite list_to_set_cons, size_union_alt, size_singleton.
    assert (size (list_to_set l ∖ {[x]} : gset Z) ≤ size (list_to_set l : gset Z))%nat as Hle.
    { apply subseteq_size. set_solver. }
    simpl. lia.
Qed.

Lemma size_list_to_set_NoDup (l : list Z) :
  size (list_to_set l : gset Z) = length l ↔ NoDup l.
Proof.
  split; [|apply size_list_to_set].
  induction l as [|x l IH]; intros Hs; [constructor|].
  rewrite list_to_set_cons in Hs. simpl in Hs.
  destruct (decide (x ∈ l)) as [Hin|Hnin].
  - assert ({[x]} ∪ list_to_set l = (list_to_set l : gset Z)) as Heq by set_solver.
    rewrite Heq in Hs. pose proof (size_list_to_set_le l). lia.
  - constructor; [done|]. apply IH.
    rewrite size_union in Hs by set_solver. rewrite size_singleton in Hs. lia.
Qed.

Lemma isFlushOf_spec cards sorted :
  sorted ≡ₚ cards → length cards = 5%nat →
  isFlushOf cards (suit <$> sorted) = true ↔ Spec.flush cards.
Proof.
  intros Hp Hlen. unfold isFlushOf, Spec.flush.
  rewrite andb_true_iff, bool_decide_eq_true.
  repeat setoid_rewrite Forall_forall.
  assert (∀ c, c ∈ sorted ↔ c ∈ cards) as Hin by (intros c; by rewrite Hp).
  destruct sorted as [|c0 sorted].
  { apply Permutation_nil_l in Hp. subst. done. }
  rewrite fmap_cons, forallb_forall. setoid_rewrite bool_decide_eq_true.
  split.
  - intros [Hall _] a Ha b Hb.
    rewrite (Hall (suit a)), (Hall (suit b)); [done| |].
    + apply list_elem_of_In. rewrite <- fmap_cons. apply list_elem_of_fmap_2. by apply Hin.
    + apply list_elem_of_In. rewrite <- fmap_cons. apply list_elem_of_fmap_2. by apply Hin.
  - intros Hall. split; [|done]. intros s Hs.
    apply list_elem_of_In in Hs. rewrite <- fmap_cons in Hs.
    apply list_elem_of_fmap in Hs as (c & -> & Hc).
    apply Hall; apply Hin; [done|left].
Qed.

(** ** [rankCounts] counts occurrences *)

Lemma get_bump r o k :
  get (bump r o) k = if decide (k = r) then S (get o k) else get o k.
Proof.
  induction o as [|[k' n] o IH]; simpl.
  - destruct (decide (r = k)), (decide (k = r)); congruence.
  - destruct (decide (k' = r)) as [->|Hne]; simpl.
    + destruct (decide (r = k)), (decide (k = r)); congruence.
    + destruct (decide (k' = k)) as [->|Hne']; [|done].
      destruct (decide (k = r)); congruence.
Qed.

Lemma occZ_cons r x l :
  occZ r (x :: l) = if decide (x = r) then S (occZ r l) else occZ r l.
Proof. unfold occZ. rewrite filter_cons. by destruct (decide (x = r)). Qed.

Lemma occZ_snoc r l x :
  occZ r (l ++ [x]) = if decide (x = r) then S (occZ r l) else occZ r l.
Proof.
  unfold occZ. rewrite filter_app, length_app, filter_cons, filter_nil.
  destruct (decide (x = r)); simpl; lia.
Qed.

Lemma get_rankCounts l k : get (rankCounts l) k = occZ k l.
Proof.
  unfold rankCounts. induction l as [|x l IH] using rev_ind; [done|].
  rewrite foldl_app. simpl. rewrite get_bump, occZ_snoc, IH.
  destruct (decide (k = x)), (decide (x = k)); congruence.
Qed.

Lemma bump_keys r o : ∀ k, k ∈ (fst <$> bump r o) ↔ k = r ∨ k ∈ (fst <$> o).
Proof.
  induction o as [|[k' n] o IH]; intros k; simpl.
  - set_solver.
  - destruct (decide (k' = r)) as [->|Hne]; simpl; [set_solver|].
    rewrite !elem_of_cons, IH. tauto.
Qed.

Lemma wf_bump r o : wf_counts o → wf_counts (bump r o).
Proof.
  intros [Hnd Hpos]. induction o as [|[k' n] o IH]; simpl.
  - split; [apply NoDup_singleton|]. repeat constructor.
  - simpl in Hnd. apply NoDup_cons in Hnd as [Hk Hnd]. apply Forall_cons in Hpos as [Hn Hpos].
    destruct (decide (k' = r)) as [->|Hne]; simpl.
    + split; [by apply NoDup_cons|]. constructor; [simpl; lia|done].
    + destruct (IH Hnd Hpos) as [Hnd' Hpos'].
      split; [|by constructor].
      rewrite fmap_cons. cbn [fst]. apply NoDup_cons. split; [|done].
      intros [->|?]%bump_keys; done.
Qed.

Lemma wf_rankCounts l : wf_counts (rankCounts l).
Proof.
  unfold rankCounts. induction l as [|x l IH] using rev_ind.
  - split; [constructor|constructor].
  - rewrite foldl_app. simpl. by apply wf_bump.
Qed.

Lemma total_bump r o : total (snd <$> bump r o) = S (total (snd <$> o)).
Proof.
  induction o as [|[k' n] o IH]; [done|]. cbn [bump].
  destruct (decide (k' = r)); rewrite !fmap_cons; cbn [total foldr snd]; [lia|].
  fold (total (snd <$> bump r o)). rewrite IH. fold (total (snd <$> o)). lia.
Qed.

Lemma total_rankCounts l : total (snd <$> rankCounts l) = length l.
Proof.
  unfold rankCounts. induction l as [|x l IH] using rev_ind; [done|].
  rewrite foldl_app, length_app. cbn [foldl length]. rewrite total_bump, IH. lia.
Qed.

Lemma wf_get_elem o k n :
  wf_counts o → (k, n) ∈ o ↔ get o k = n ∧ (0 < n)%nat.
Proof.
  intros [Hnd Hpos]. induction o as [|[k' n'] o IH]; simpl.
  - rewrite elem_of_nil. lia.
  - simpl in Hnd. apply NoDup_cons in Hnd as [Hk Hnd]. apply Forall_cons in Hpos as [Hn Hpos].
    simpl in Hn. rewrite elem_of_cons, (IH Hnd Hpos).
    destruct (decide (k' = k)) as [->|Hne].
    + split.
      * intros [[= -> ]|[Hg Hp]]; [done|].
        exfalso. apply Hk. apply list_elem_of_fmap. exists (k, n). split; [done|].
        by apply (IH Hnd Hpos).
      * intros [-> _]. by left.
    + split; [intros [[= ? ?]|?]; [done|done]|by right].
Qed.

Lemma total_cons n vs : total (n :: vs) = (n + total vs)%nat.
Proof. done. Qed.

Lemma total_Permutation vs ws : vs ≡ₚ ws → total vs = total ws.
Proof. induction 1; simpl; lia. Qed.

Lemma total_pos_nil vs : Forall (fun n => (0 < n)%nat) vs → total vs = 0%nat → vs = [].
Proof. destruct 1; simpl; [done|lia]. Qed.

Lemma countsOf_perm l : countsOf l ≡ₚ snd <$> rankCounts l.
Proof. apply merge_sort_Permutation. Qed.

Lemma countsOf_sorted l : StronglySorted descending (countsOf l).
Proof. apply StronglySorted_merge_sort; apply _. Qed.

Lemma countsOf_total l : total (countsOf l) = length l.
Proof. by rewrite (total_Permutation _ _ (countsOf_perm l)), total_rankCounts. Qed.

Lemma countsOf_pos l : Forall (fun n => (0 < n)%nat) (countsOf l).
Proof.
  rewrite countsOf_perm. apply Forall_fmap.
  destruct (wf_rankCounts l) as [_ Hpos]. done.
Qed.

(** A count is in [countsOf l] exactly when it is the positive number of
    occurrences of some rank. *)
Lemma elem_of_countsOf l n :
  n ∈ countsOf l ↔ ∃ r, occZ r l = n ∧ (0 < n)%nat.
Proof.
  rewrite countsOf_perm, list_elem_of_fmap. split.
  - intros ([k n'] & -> & Hin). exists k. rewrite <- get_rankCounts.
    by apply wf_get_elem; [apply wf_rankCounts|].
  - intros (r & Hr & Hp). exists (r, n). split; [done|].
    apply wf_get_elem; [apply wf_rankCounts|]. by rewrite get_rankCounts.
Qed.

Lemma occZ_le r l : (occZ r l ≤ length l)%nat.
Proof. apply length_filter. Qed.

Lemma occZ_full r l : occZ r l = length l → Forall (fun x => x = r) l.
Proof.
  induction l as [|x l IH]; [constructor|].
  rewrite occZ_cons. pose proof (occZ_le r l). simpl.
  destruct (decide (x = r)); [|lia]. intros Hl. constructor; [done|]. apply IH. lia.
Qed.

Lemma occZ_Forall r l : Forall (fun x => x = r) l → occZ r l = length l.
Proof.
  induction 1 as [|x l Hx Hl IH]; [done|].
  rewrite occZ_cons, decide_True by done. simpl. by rewrite IH.
Qed.

Lemma occZ_pos r l : (0 < occZ r l)%nat ↔ r ∈ l.
Proof.
  induction l as [|x l IH]; [unfold occZ; simpl; rewrite elem_of_nil; lia|].
  rewrite occZ_cons, elem_of_cons. destruct (decide (x = r)) as [->|Hne].
  - split; [by left|lia].
  - rewrite IH. split; [by right|]. intros [->|?]; done.
Qed.

(** [counts[0] === n] on [n] cards: all of one rank. *)
Lemma counts_all l :
  l ≠ [] →
  countsOf l !! 0%nat = Some (length l) ↔ ∃ r, Forall (fun x => x = r) l.
Proof.
  intros Hne. split.
  - intros Hc. apply list_elem_of_lookup_2, elem_of_countsOf in Hc as (r & Hr & _).
    exists r. by apply occZ_full.
  - intros [r Hr].
    assert (0 < length l)%nat as Hpos by (destruct l; [done|simpl; lia]).
    assert (length l ∈ countsOf l) as Hin.
    { apply elem_of_countsOf. exists r. split; [by apply occZ_Forall|done]. }
    apply elem_of_Permutation in Hin as [rest Hrest].
    pose proof (countsOf_total l) as Ht.
    pose proof (countsOf_pos l) as Hp.
    rewrite (total_Permutation _ _ Hrest) in Ht. rewrite Hrest in Hp.
    apply Forall_cons in Hp as [_ Hp]. simpl in Ht.
    assert (rest = []) as -> by (apply total_pos_nil; [done|lia]).
    apply Permutation_singleton_r in Hrest. by rewrite Hrest.
Qed.

(** [counts[0] === a && counts[1] === b] on [a + b] cards: two ranks, one
    held [a] times and the other [b] times. *)
Lemma counts_two (a b : nat) l :
  length l = (a + b)%nat → (0 < b)%nat → (b ≤ a)%nat →
  countsOf l !! 0%nat = Some a ∧ countsOf l !! 1%nat = Some b
  ↔ ∃ x y, x ≠ y ∧ occZ x l = a ∧ occZ y l = b.
Proof.
  intros Hlen Hb Hba.
  pose proof (countsOf_total l) as Ht.
  pose proof (countsOf_pos l) as Hp.
  pose proof (countsOf_perm l) as Hperm.
  destruct (wf_rankCounts l) as [Hnd Hpo].
  split.
  - intros [H0 H1].
    destruct (countsOf l) as [|c0 [|c1 rest]]; [done|done|].
    simpl in H0, H1. injection H0 as ->. injection H1 as ->.
    apply Forall_cons in Hp as [_ Hp]. apply Forall_cons in Hp as [_ Hp].
    simpl in Ht. assert (rest = []) as -> by (apply total_pos_nil; [done|lia]).
    assert (length (snd <$> rankCounts l) = 2%nat) as Hl2 by by rewrite <- Hperm.
    rewrite length_fmap in Hl2.
    pose proof (get_rankCounts l) as Hget.
    destruct (rankCounts l) as [|[x n1] [|[y n2] [|? ?]]]; try done.
    simpl in Hnd. apply NoDup_cons in Hnd as [Hxy _].
    assert (x ≠ y) as Hne by set_solver.
    assert (n1 = get [(x, n1); (y, n2)] x) as Hx by (simpl; by rewrite decide_True).
    assert (n2 = get [(x, n1); (y, n2)] y) as Hy.
    { simpl. rewrite decide_False by done. by rewrite decide_True. }
    rewrite Hget in Hx, Hy. simpl in Hperm.
    apply Permutation_length_2 in Hperm as [[-> ->]|[-> ->]].
    + exists x, y. done.
    + exists y, x. done.
  - intros (x & y & Hne & Hx & Hy).
    assert ((x, a) ∈ rankCounts l) as Hxin.
    { apply wf_get_elem; [done|]. rewrite get_rankCounts. split; [done|lia]. }
    assert ((y, b) ∈ rankCounts l) as Hyin.
    { apply wf_get_elem; [done|]. rewrite get_rankCounts. split; [done|lia]. }
    apply elem_of_Permutation in Hxin as [o' Ho'].
    rewrite Ho' in Hyin. apply elem_of_cons in Hyin as [[= ? ?]|Hyin]; [done|].
    apply elem_of_Permutation in Hyin as [o'' Ho''].
    rewrite Ho'' in Ho'. rewrite Ho', !fmap_cons in Hperm. cbn [snd] in Hperm.
    rewrite (total_Permutation _ _ Hperm), !total_cons in Ht.
    rewrite Hperm in Hp.
    apply Forall_cons in Hp as [_ Hp]. apply Forall_cons in Hp as [_ Hp].
    assert (snd <$> o'' = []) as Hnil by (apply total_pos_nil; [done|lia]).
    rewrite Hnil in Hperm.
    assert (countsOf l = [a; b]) as ->; [|done].
    apply (StronglySorted_unique descending); [apply countsOf_sorted| |done].
    repeat constructor. done.
Qed.

(** ** From cards to ranks *)

Lemma occ_occZ r cards : Spec.occ r cards = occZ r (rank <$> cards).
Proof.
  unfold Spec.occ, occZ. induction cards as [|c cards IH]; [done|].
  rewrite fmap_cons, !filter_cons. destruct (decide (rank c = r)); simpl; by rewrite IH.
Qed.

Lemma occZ_Permutation r l1 l2 : l1 ≡ₚ l2 → occZ r l1 = occZ r l2.
Proof. intros Hp. unfold occZ. by rewrite Hp. Qed.

Lemma sorted_ranks_perm cards : rank <$> sortByRank cards ≡ₚ rank <$> cards.
Proof. by rewrite sortByRank_perm. Qed.

Lemma sorted_ranks_sorted cards : StronglySorted Z.le (rank <$> sortByRank cards).
Proof.
  eapply (StronglySorted_fmap (A:=card) (B:=Z)); [|apply sortByRank_sorted]. done.
Qed.

Lemma sameRank_ranks cards :
  Spec.sameRank cards ↔ ∃ r, Forall (fun x => x = r) (rank <$> cards).
Proof.
  unfold Spec.sameRank. repeat setoid_rewrite Forall_forall. split.
  - intros Hall. destruct cards as [|c0 cards].
    + exists 0. intros x Hx. by apply elem_of_nil in Hx.
    + exists (rank c0). intros x (c & -> & Hc)%list_elem_of_fmap.
      apply Hall; [done|left].
  - intros [r Hr] a Ha b Hb.
    rewrite (Hr (rank a)), (Hr (rank b)); [done| |]; by apply list_elem_of_fmap_2.
Qed.

Lemma occZ_rank_elem x cards n :
  occZ x (rank <$> cards) = n → (0 < n)%nat → ∃ c, c ∈ cards ∧ rank c = x.
Proof.
  intros Ho Hn. rewrite <- Ho in Hn. apply occZ_pos in Hn.
  apply list_elem_of_fmap in Hn as (c & -> & Hc). by exists c.
Qed.

Lemma twoPair_ranks cards :
  Spec.twoPair cards
  ↔ ∃ x y, x ≠ y ∧ occZ x (rank <$> cards) = 2%nat ∧ occZ y (rank <$> cards) = 2%nat.
Proof.
  unfold Spec.twoPair. repeat setoid_rewrite Exists_exists.
  setoid_rewrite occ_occZ. split.
  - intros (a & _ & b & _ & ? & ? & ?). by exists (rank a), (rank b).
  - intros (x & y & Hne & Hx & Hy).
    destruct (occZ_rank_elem _ _ _ Hx) as (a & Ha & <-); [lia|].
    destruct (occZ_rank_elem _ _ _ Hy) as (b & Hb & <-); [lia|].
    exists a. split; [done|]. exists b. done.
Qed.

Lemma fullHouse_ranks cards :
  Spec.fullHouse cards
  ↔ ∃ x y, x ≠ y ∧ occZ x (rank <$> cards) = 3%nat ∧ occZ y (rank <$> cards) = 2%nat.
Proof.
  unfold Spec.fullHouse. repeat setoid_rewrite Exists_exists.
  setoid_rewrite occ_occZ. split.
  - intros (a & _ & b & _ & Ha & Hb). exists (rank a), (rank b).
    split; [|done]. intros Heq. rewrite Heq in Ha. lia.
  - intros (x & y & Hne & Hx & Hy).
    destruct (occZ_rank_elem _ _ _ Hx) as (a & Ha & <-); [lia|].
    destruct (occZ_rank_elem _ _ _ Hy) as (b & Hb & <-); [lia|].
    exists a. split; [done|]. exists b. done.
Qed.

(** [counts] of the hand, as [validateHand] computes them, against the
    specification's categories. *)
Lemma counts_shapeOf cards : counts (shapeOf cards) = countsOf (rank <$> sortByRank cards).
Proof. unfold shapeOf. by case_match. Qed.

Lemma counts_sameRank cards :
  cards ≠ [] →
  counts (shapeOf cards) !! 0%nat = Some (length cards) ↔ Spec.sameRank cards.
Proof.
  intros Hne. rewrite counts_shapeOf, sameRank_ranks.
  rewrite <- (sortByRank_length cards), <- (length_fmap rank).
  rewrite counts_all.
  - by setoid_rewrite sorted_ranks_perm.
  - intros Hnil. apply (f_equal length) in Hnil.
    rewrite length_fmap, sortByRank_length in Hnil. by destruct cards.
Qed.

Lemma counts_pairs (a b : nat) cards :
  length cards = (a + b)%nat → (0 < b)%nat → (b ≤ a)%nat →
  counts (shapeOf cards) !! 0%nat = Some a ∧ counts (shapeOf cards) !! 1%nat = Some b
  ↔ ∃ x y, x ≠ y ∧ occZ x (rank <$> cards) = a ∧ occZ y (rank <$> cards) = b.
Proof.
  intros Hlen Hb Hba. rewrite counts_shapeOf, counts_two; [|by rewrite length_fmap, sortByRank_length|done|done].
  by setoid_rewrite (occZ_Permutation _ _ _ (sorted_ranks_perm cards)).
Qed.

(** ** Five cards: flushes and straights *)

Lemma sorted5 cards :
  length cards = 5%nat →
  ∃ r1 r2 r3 r4 r5,
    rank <$> sortByRank cards = [r1; r2; r3; r4; r5]
    ∧ r1 ≤ r2 ∧ r2 ≤ r3 ∧ r3 ≤ r4 ∧ r4 ≤ r5.
Proof.
  intros Hlen. pose proof (sorted_ranks_sorted cards) as Hs.
  assert (length (rank <$> sortByRank cards) = 5%nat) as Hl
    by by rewrite length_fmap, sortByRank_length.
  destruct (rank <$> sortByRank cards) as [|r1 [|r2 [|r3 [|r4 [|r5 [|? ?]]]]]]; try done.
  exists r1, r2, r3, r4, r5. split; [done|].
  rewrite !StronglySorted_cons, !Forall_cons in Hs. tauto.
Qed.

Lemma span_sorted5 cards k r1 r2 r3 r4 r5 :
  rank <$> cards ≡ₚ [r1; r2; r3; r4; r5] →
  r1 ≤ r2 → r2 ≤ r3 → r3 ≤ r4 → r4 ≤ r5 →
  Spec.span k cards ↔ r5 - r1 = k.
Proof.
  intros Hp H1 H2 H3 H4.
  assert (∀ c, c ∈ cards → rank c ∈ [r1; r2; r3; r4; r5]) as Hin.
  { intros c Hc. rewrite <- Hp. by apply list_elem_of_fmap_2. }
  assert (∀ r, r ∈ [r1; r2; r3; r4; r5] → r1 ≤ r ≤ r5) as Hbound.
  { intros r Hr. set_unfold in Hr. lia. }
  assert (∃ a, a ∈ cards ∧ rank a = r1) as (a & Ha & Har).
  { assert (r1 ∈ rank <$> cards) as Hr by (rewrite Hp; left).
    apply list_elem_of_fmap in Hr as (a & -> & Ha). by exists a. }
  assert (∃ b, b ∈ cards ∧ rank b = r5) as (b & Hb & Hbr).
  { assert (r5 ∈ rank <$> cards) as Hr by (rewrite Hp; set_solver).
    apply list_elem_of_fmap in Hr as (b & -> & Hb). by exists b. }
  unfold Spec.span, Spec.lowest, Spec.highest.
  repeat setoid_rewrite Exists_exists. repeat setoid_rewrite Forall_forall.
  split.
  - intros (a' & Ha' & b' & Hb' & [_ Hlo] & [_ Hhi] & Hk).
    pose proof (Hlo a Ha). pose proof (Hhi b Hb).
    pose proof (Hbound _ (Hin _ Ha')). pose proof (Hbound _ (Hin _ Hb')). lia.
  - intros Hk. exists a. split; [done|]. exists b. split; [done|].
    split; [|split; [|lia]].
    + split; [by apply list_elem_of_fmap_2|].
      intros c Hc. pose proof (Hbound _ (Hin _ Hc)). lia.
    + split; [by apply list_elem_of_fmap_2|].
      intros c Hc. pose proof (Hbound _ (Hin _ Hc)). lia.
Qed.

Lemma sorted_perm_eq (l k : list Z) :
  StronglySorted Z.le l → StronglySorted Z.le k → l ≡ₚ k → l = k.
Proof. apply StronglySorted_unique; apply _. Qed.

Lemma wheel_NoDup cards : Spec.wheel cards → Spec.distinctRanks cards.
Proof.
  unfold Spec.wheel, Spec.distinctRanks. intros ->.
  apply (bool_decide_unpack _). vm_compute. exact I.
Qed.

Lemma royalPattern_NoDup cards : Spec.royalPattern cards → Spec.distinctRanks cards.
Proof.
  unfold Spec.royalPattern, Spec.distinctRanks. intros ->.
  apply (bool_decide_unpack _). vm_compute. exact I.
Qed.

(** What the flags of [shapeOf] mean on five cards. *)
Lemma shape5 cards :
  length cards = 5%nat →
  (isFlush (shapeOf cards) = true ↔ Spec.flush cards)
  ∧ (isLowStraight (shapeOf cards) = true ↔ Spec.wheel cards)
  ∧ (isStraight (shapeOf cards) = true ↔ Spec.genericStraight cards ∧ ¬ Spec.wheel cards)
  ∧ (isRoyal (shapeOf cards) = true ↔ Spec.royalFlush cards).
Proof.
  intros Hlen.
  pose proof (isFlushOf_spec cards (sortByRank cards) (sortByRank_perm cards) Hlen) as Hf.
  pose proof (sorted_ranks_perm cards) as Hp.
  pose proof (sorted_ranks_sorted cards) as Hs.
  destruct (sorted5 cards Hlen) as (r1 & r2 & r3 & r4 & r5 & Hr & H1 & H2 & H3 & H4).
  assert (size (list_to_set (rank <$> sortByRank cards) : gset Z) = 5%nat
          ↔ NoDup (rank <$> cards)) as Hnd.
  { rewrite <- Hp, <- size_list_to_set_NoDup.
    by rewrite length_fmap, sortByRank_length, Hlen. }
  assert (Spec.wheel cards ↔ rank <$> sortByRank cards = [1; 2; 3; 4; 5]) as Hw.
  { unfold Spec.wheel. rewrite <- Hp. split; [|by intros ->].
    apply sorted_perm_eq; [done|]. apply (bool_decide_unpack _). vm_compute. exact I. }
  assert (Spec.royalPattern cards ↔ rank <$> sortByRank cards = [1; 10; 11; 12; 13]) as Hy.
  { unfold Spec.royalPattern. rewrite <- Hp. split; [|by intros ->].
    apply sorted_perm_eq; [done|]. apply (bool_decide_unpack _). vm_compute. exact I. }
  pose proof (wheel_NoDup cards) as Hwn. pose proof (royalPattern_NoDup cards) as Hyn.
  pose proof (span_sorted5 cards 4 r1 r2 r3 r4 r5) as Hspan.
  rewrite <- Hp, Hr in Hspan. specialize (Hspan (reflexivity _) H1 H2 H3 H4).
  unfold Spec.genericStraight, Spec.royalFlush.
  unfold Spec.distinctRanks in *.
  unfold shapeOf. rewrite (bool_decide_eq_true_2 (length cards = 5%nat)) by done.
  rewrite andb_true_l.
  destruct (bool_decide (size (list_to_set (rank <$> sortByRank cards) : gset Z) = 5%nat)) eqn:Hsz.
  - apply bool_decide_eq_true in Hsz. apply Hnd in Hsz. cbn [isFlush isLowStraight isStraight isRoyal].
    rewrite andb_true_iff, !bool_decide_eq_true.
    split; [done|]. split; [by rewrite Hw|]. split; [|by rewrite Hf, Hy].
    rewrite Hw. case_bool_decide as Hlow; [naive_solver|].
    rewrite Hr. cbn [lookup list_lookup]. rewrite bool_decide_eq_true. naive_solver.
  - apply bool_decide_eq_false in Hsz. cbn [isFlush isLowStraight isStraight isRoyal].
    rewrite Hnd in Hsz. split; [done|]. naive_solver.
Qed.

(** ** validateHand against the table of section 4.2 *)

Lemma valid5_bool (r f st l p q : bool) (e : option string) :
  valid (if r then Validation true None
         else if f && (st || l) then Validation true None
         else if p && q then Validation true None
         else if f then Validation true None
         else if st || l then Validation true None
         else Validation false e) = true
  ↔ r = true ∨ f = true ∨ st = true ∨ l = true ∨ (p = true ∧ q = true).
Proof. destruct r, f, st, l, p, q; simpl; intuition discriminate. Qed.

Lemma validateHand_valid_iff cards :
  valid (validateHand cards) = true ↔ Spec.validPlay cards.
Proof.
  unfold validateHand, Spec.validPlay.
  destruct (length cards) as [|[|[|[|[|[|n]]]]]] eqn:Hlen;
    rewrite ?(bool_decide_eq_true_2 (0%nat = 0%nat)) by done;
    rewrite ?bool_decide_eq_false_2 by done; cbn [valid]; try done.
  - (* two cards *)
    rewrite <- counts_sameRank by (by destruct cards). rewrite Hlen.
    case_bool_decide; cbn [valid]; [done|]. split; [intros _|done].
    by destruct (decide (counts (shapeOf cards) !! 0%nat = Some 2%nat)).
  - (* three cards *)
    rewrite <- counts_sameRank by (by destruct cards). rewrite Hlen.
    case_bool_decide; cbn [valid]; [done|]. split; [intros _|done].
    by destruct (decide (counts (shapeOf cards) !! 0%nat = Some 3%nat)).
  - (* four cards *)
    rewrite <- counts_sameRank by (by destruct cards). rewrite Hlen.
    rewrite twoPair_ranks, <- (counts_pairs 2 2) by (done || lia).
    repeat (case_bool_decide; cbn [valid andb]); naive_solver.
  - (* five cards *)
    destruct (shape5 cards Hlen) as (Hf & Hl & Hs & Hr).
    unfold Spec.straightFlush, Spec.straight.
    rewrite fullHouse_ranks, <- (counts_pairs 3 2) by (done || lia).
    rewrite valid5_bool, !bool_decide_eq_true.
    destruct (decide (Spec.wheel cards)); tauto.
Qed.

(** ** evaluateHand: category base plus face values *)

Lemma faceValue_face total c : faceValue total c = total + Spec.face c.
Proof.
  unfold faceValue, Spec.face.
  repeat case_bool_decide; case_decide; lia.
Qed.

Lemma foldl_faceValue cards total :
  foldl faceValue total cards = total + Spec.faceSum cards.
Proof.
  revert total. induction cards as [|c cards IH]; intros total; simpl; [lia|].
  rewrite IH, faceValue_face. unfold Spec.faceSum. lia.
Qed.

Lemma handTypeOf_table sh :
  handTypeOf sh ∈ Spec.categories
  ∧ r_damage (ranking_of (handTypeOf sh)) = Spec.categoryBase (handTypeOf sh).
Proof.
  unfold handTypeOf.
  repeat (case_match; [split; [apply (bool_decide_unpack _); vm_compute; exact I|reflexivity]|]).
  split; [apply (bool_decide_unpack _); vm_compute; exact I|reflexivity].
Qed.

Lemma validateHand_nonempty cards : valid (validateHand cards) = true → cards ≠ [].
Proof. by intros Hv ->. Qed.

Lemma evaluateHand_valid cards :
  valid (validateHand cards) = true →
  evaluateHand cards =
    HandResult (handTypeOf (shapeOf cards))
      (r_damage (ranking_of (handTypeOf (shapeOf cards))) + foldl faceValue 0 cards)
      (r_description (ranking_of (handTypeOf (shapeOf cards)))
       +:+ " (Base: " +:+ pretty (r_damage (ranking_of (handTypeOf (shapeOf cards))))
       +:+ " + Face: " +:+ pretty (foldl faceValue 0 cards) +:+ ")").
Proof.
  intros Hv. unfold evaluateHand. rewrite Hv.
  rewrite bool_decide_eq_false_2; [done|].
  apply validateHand_nonempty in Hv. by destruct cards.
Qed.

Lemma faceSum_Permutation l k : l ≡ₚ k → Spec.faceSum l = Spec.faceSum k.
Proof. unfold Spec.faceSum. induction 1; simpl; lia. Qed.

Lemma faceSum_ranks l k : rank <$> l = rank <$> k → Spec.faceSum l = Spec.faceSum k.
Proof.
  revert k. induction l as [|c l IH]; intros [|d k]; try done.
  rewrite !fmap_cons. intros [= Hr Hl]. unfold Spec.faceSum, Spec.face. simpl.
  rewrite Hr. f_equal. by apply IH.
Qed.

(** ** The claims about the hand evaluator *)

Lemma occZ_NoDup r l : NoDup l → (occZ r l ≤ 1)%nat.
Proof.
  induction 1 as [|x l Hx Hl IH]; [unfold occZ; simpl; lia|].
  rewrite occZ_cons. destruct (decide (x = r)) as [->|]; [|done].
  assert (occZ r l = 0%nat); [|lia].
  destruct (occZ r l) eqn:Ho; [done|]. exfalso. apply Hx, occZ_pos. lia.
Qed.

Lemma wheel_span cards : Spec.wheel cards → Spec.span 4 cards.
Proof.
  intros Hw. apply (span_sorted5 cards 4 1 2 3 4 5); (done || lia).
Qed.

Lemma royalPattern_span cards k : Spec.royalPattern cards → Spec.span k cards ↔ k = 12.
Proof.
  intros Hy. rewrite (span_sorted5 cards k 1 10 11 12 13) by (done || lia). lia.
Qed.

Lemma royalPattern_not_wheel cards : Spec.royalPattern cards → ¬ Spec.wheel cards.
Proof.
  unfold Spec.royalPattern, Spec.wheel. intros Hy Hw. rewrite Hy in Hw.
  assert (10 ∈ [1; 2; 3; 4; 5]) as Hin by (rewrite <- Hw; set_solver).
  set_unfold in Hin. lia.
Qed.

Lemma royalPattern_length cards : Spec.royalPattern cards → length cards = 5%nat.
Proof. intros Hy. apply (f_equal length) in Hy || apply Permutation_length in Hy.
  by rewrite length_fmap in Hy. Qed.

Lemma handTypeOf_royal sh : handTypeOf sh = "Royal Flush" ↔ isRoyal sh = true.
Proof.
  unfold handTypeOf. destruct (isRoyal sh); [done|].
  repeat case_match; split; discriminate.
Qed.

Lemma type_royal cards :
  type (evaluateHand cards) = "Royal Flush"
  ↔ valid (validateHand cards) = true ∧ isRoyal (shapeOf cards) = true.
Proof.
  destruct (valid (validateHand cards)) eqn:Hv.
  - rewrite (evaluateHand_valid _ Hv). simpl. rewrite handTypeOf_royal. naive_solver.
  - unfold evaluateHand. rewrite Hv. simpl. case_bool_decide; simpl; naive_solver.
Qed.

Lemma isRoyal_valid cards :
  length cards = 5%nat → isRoyal (shapeOf cards) = true → valid (validateHand cards) = true.
Proof.
  intros Hlen Hr. unfold validateHand. rewrite Hlen.
  rewrite bool_decide_eq_false_2 by done. by rewrite Hr.
Qed.

Lemma sumZ_Permutation l k : l ≡ₚ k → sumZ l = sumZ k.
Proof. unfold sumZ. induction 1; simpl; lia. Qed.

Lemma faceSum_sumZ cards : Spec.faceSum cards = sumZ (faceOfRank <$> (rank <$> cards)).
Proof.
  unfold Spec.faceSum, sumZ. induction cards as [|c cards IH]; [done|].
  cbn. f_equal. exact IH.
Qed.

Lemma royalPattern_faceSum cards : Spec.royalPattern cards → Spec.faceSum cards = 60.
Proof.
  intros Hy. rewrite faceSum_sumZ.
  rewrite (sumZ_Permutation _ (faceOfRank <$> [1; 10; 11; 12; 13])); [done|].
  unfold Spec.royalPattern in Hy. by rewrite Hy.
Qed.

(** C2.  [validateHand] accepts exactly the plays of the table of section
    4.2: nothing for 0 cards, any single card, two or three cards of one
    rank, four cards of one rank or two distinct pairs, five cards forming a
    royal flush, a straight flush, a full house, a flush or a straight, and
    nothing for more than five cards. *)
Theorem validateHand_by_count cards :
  (valid (validateHand cards) = true ↔ Spec.validPlay cards)
  ∧ (length cards = 0%nat → valid (validateHand cards) = false)
  ∧ (length cards = 1%nat → valid (validateHand cards) = true)
  ∧ (length cards = 2%nat ∨ length cards = 3%nat →
       valid (validateHand cards) = true ↔ Spec.sameRank cards)
  ∧ (length cards = 4%nat →
       valid (validateHand cards) = true ↔ Spec.sameRank cards ∨ Spec.twoPair cards)
  ∧ (length cards = 5%nat →
       valid (validateHand cards) = true
       ↔ Spec.royalFlush cards ∨ Spec.straightFlush cards ∨ Spec.fullHouse cards
         ∨ Spec.flush cards ∨ Spec.straight cards)
  ∧ ((5 < length cards)%nat → valid (validateHand cards) = false).
Proof.
  pose proof (validateHand_valid_iff cards) as Hiff.
  split; [done|]. unfold Spec.validPlay in Hiff.
  split; [|split; [|split; [|split; [|split]]]].
  - intros Hl. rewrite Hl in Hiff. destruct (valid (validateHand cards)); [tauto|done].
  - intros Hl. rewrite Hl in Hiff. tauto.
  - intros [Hl|Hl]; rewrite Hl in Hiff; tauto.
  - intros Hl. rewrite Hl in Hiff. tauto.
  - intros Hl. rewrite Hl in Hiff. tauto.
  - intros Hl. destruct (valid (validateHand cards)); [|done].
    destruct (length cards) as [|[|[|[|[|[|n]]]]]]; (lia || tauto).
Qed.

(** C3.  Straights among five cards of five distinct ranks: the low
    straight is exactly the ranks 1,2,3,4,5; the generic straight is exactly
    greatest rank minus least rank = 4 (ranks other than the wheel), so that
    the hand counts as a straight exactly when that difference is 4; the
    ranks 1,10,11,12,13 are no straight, are classified as Royal Flush
    exactly when the hand is a flush, and are rejected when it is not. *)
Theorem straight_classification cards :
  length cards = 5%nat → Spec.distinctRanks cards →
  (isLowStraight (shapeOf cards) = true ↔ rank <$> cards ≡ₚ [1; 2; 3; 4; 5])
  ∧ (isStraight (shapeOf cards) = true ↔ Spec.span 4 cards ∧ ¬ Spec.wheel cards)
  ∧ (isStraight (shapeOf cards) || isLowStraight (shapeOf cards) = true ↔ Spec.span 4 cards)
  ∧ (type (evaluateHand cards) = "Royal Flush" ↔ Spec.flush cards ∧ Spec.royalPattern cards)
  ∧ (rank <$> cards ≡ₚ [1; 10; 11; 12; 13] →
       isStraight (shapeOf cards) = false ∧ isLowStraight (shapeOf cards) = false
       ∧ ¬ Spec.straight cards
       ∧ (type (evaluateHand cards) = "Royal Flush" ↔ Spec.flush cards)
       ∧ (¬ Spec.flush cards → valid (validateHand cards) = false)).
Proof.
  intros Hlen Hnd. destruct (shape5 cards Hlen) as (Hf & Hl & Hs & Hr).
  unfold Spec.genericStraight in Hs.
  assert (type (evaluateHand cards) = "Royal Flush" ↔ Spec.royalFlush cards) as Hty.
  { rewrite type_royal, <- Hr. pose proof (isRoyal_valid cards Hlen). tauto. }
  split; [exact Hl|]. split; [tauto|]. split; [|split; [exact Hty|]].
  - rewrite orb_true_iff, Hs, Hl. pose proof (wheel_span cards).
    destruct (decide (Spec.wheel cards)); tauto.
  - intros Hy. change (Spec.royalPattern cards) in Hy.
    pose proof (royalPattern_span cards 4 Hy) as Hsp.
    pose proof (royalPattern_not_wheel cards Hy) as Hnw.
    assert (isStraight (shapeOf cards) = false) as Hst.
    { destruct (isStraight (shapeOf cards)); [|done]. exfalso.
      assert (4 = 12); [|lia]. apply Hsp. by apply Hs. }
    assert (isLowStraight (shapeOf cards) = false) as Hlo.
    { destruct (isLowStraight (shapeOf cards)); [|done]. exfalso. by apply Hnw, Hl. }
    split; [done|]. split; [done|]. split; [|split].
    + unfold Spec.straight, Spec.genericStraight. intros [?|[_ Hsp4]]; [done|].
      apply Hsp in Hsp4. lia.
    + rewrite Hty. unfold Spec.royalFlush. tauto.
    + intros Hnf. destruct (valid (validateHand cards)) eqn:Hv; [|done]. exfalso.
      unfold validateHand in Hv. rewrite Hlen in Hv.
      rewrite bool_decide_eq_false_2 in Hv by done.
      apply valid5_bool in Hv. rewrite Hst, Hlo, Hf, Hr, !bool_decide_eq_true in Hv.
      destruct Hv as [[? _]|[?|[?|[?|Hc]]]]; try done.
      apply (counts_pairs 3 2) in Hc as (x & y & _ & Hx & _); [|done|lia|lia].
      pose proof (occZ_NoDup x _ Hnd). lia.
Qed.

Lemma straight_classification_witness :
  isStraight (shapeOf ex_broadway) = false
  ∧ isLowStraight (shapeOf ex_broadway) = false
  ∧ valid (validateHand ex_broadway) = false.
Proof.
  assert (Spec.distinctRanks ex_broadway) as Hnd
    by (apply (bool_decide_unpack _); vm_compute; exact I).
  destruct (straight_classification ex_broadway ltac:(reflexivity) Hnd)
    as (_ & _ & _ & _ & Hy).
  destruct (Hy ltac:(reflexivity)) as (Hst & Hlo & _ & _ & Hv).
  split; [exact Hst|]. split; [exact Hlo|]. apply Hv.
  apply (bool_decide_eq_false_1 (Spec.flush ex_broadway)). vm_compute. reflexivity.
Defined.

(** ** The shuffle permutes *)

Lemma insert_Permutation_cons {A} (l : list A) (j : nat) (x y : A) :
  l !! j = Some y → y :: <[j := x]> l ≡ₚ x :: l.
Proof.
  intros Hj. rewrite insert_take_drop by (by eapply lookup_lt_Some).
  rewrite <- (take_drop_middle l j y Hj) at 3.
  rewrite <- !Permutation_middle. apply perm_swap.
Qed.

Lemma swap_Permutation {A} (l : list A) (i j : nat) : swap l i j ≡ₚ l.
Proof.
  unfold swap. destruct (l !! i) as [x|] eqn:Hi; [|done].
  destruct (l !! j) as [y|] eqn:Hj; [|done].
  revert i j Hi Hj. induction l as [|a l IH]; intros [|i] [|j] Hi Hj; simplify_eq/=; try done.
  - by apply insert_Permutation_cons.
  - by apply insert_Permutation_cons.
  - f_equiv. by apply IH.
Qed.

Lemma shuffleFrom_Permutation {A} rnd k i (l : list A) : shuffleFrom rnd k i l ≡ₚ l.
Proof.
  revert k l. induction i as [|i IH]; intros k l; simpl; [done|].
  by rewrite IH, swap_Permutation.
Qed.

Lemma shuffle_Permutation {A} rnd k (l : list A) : shuffle rnd k l ≡ₚ l.
Proof. apply shuffleFrom_Permutation. Qed.

(** ** A fresh deck *)

Lemma orderedDeck_faces rnd :
  (fun c => (suit c, rank c)) <$> orderedDeck rnd = (s ← suits; r ← seqZ 1 13; [(s, r)]).
Proof. reflexivity. Qed.

Lemma orderedDeck_ids rnd :
  faceOfId ∘ cid <$> orderedDeck rnd = (s ← suits; r ← seqZ 1 13; [(s, r)]).
Proof. reflexivity. Qed.

Lemma orderedDeck_NoDup rnd : NoDup (cid <$> orderedDeck rnd).
Proof.
  apply (NoDup_fmap_1 faceOfId). rewrite <- list_fmap_compose, orderedDeck_ids.
  apply (bool_decide_unpack _). vm_compute. exact I.
Qed.

Lemma createDeck_Permutation rnd : createDeck rnd ≡ₚ orderedDeck rnd.
Proof. apply shuffle_Permutation. Qed.

Lemma createDeck_NoDup rnd : NoDup (cid <$> createDeck rnd).
Proof. rewrite createDeck_Permutation. apply orderedDeck_NoDup. Qed.

Lemma createDeck_length rnd : length (createDeck rnd) = 52%nat.
Proof. by rewrite createDeck_Permutation. Qed.

(** Each rank appears once per suit, and nothing else is in the deck. *)
Lemma createDeck_faces rnd :
  (fun c => (suit c, rank c)) <$> createDeck rnd ≡ₚ (s ← suits; r ← seqZ 1 13; [(s, r)]).
Proof. by rewrite createDeck_Permutation, orderedDeck_faces. Qed.

(** ** Players of a room *)

Lemma at_index_Some {A} (l : list A) i x :
  at_index l i = Some x ↔ 0 ≤ i ∧ l !! Z.to_nat i = Some x.
Proof. unfold at_index. case_decide; naive_solver. Qed.

Lemma setPlayer_split ps i p :
  at_index ps i = Some p →
  ∃ l1 l2, ps = l1 ++ p :: l2 ∧ ∀ p', setPlayer i p' ps = l1 ++ p' :: l2.
Proof.
  intros [Hi Hp]%at_index_Some.
  exists (take (Z.to_nat i) ps), (drop (S (Z.to_nat i)) ps). split.
  - by rewrite take_drop_middle.
  - intros p'. unfold setPlayer. rewrite decide_True by done.
    apply insert_take_drop. by eapply lookup_lt_Some.
Qed.

Lemma handCards_app ps qs : handCards (ps ++ qs) = handCards ps ++ handCards qs.
Proof. apply bind_app. Qed.

Lemma handCards_cons p ps : handCards (p :: ps) = default [] (hand p) ++ handCards ps.
Proof. done. Qed.

Lemma handCards_setPlayer ps i p :
  at_index ps i = Some p →
  ∃ rest, handCards ps ≡ₚ default [] (hand p) ++ rest
          ∧ ∀ p', handCards (setPlayer i p' ps) ≡ₚ default [] (hand p') ++ rest.
Proof.
  intros (l1 & l2 & -> & Hset)%setPlayer_split.
  exists (handCards l1 ++ handCards l2). split.
  - rewrite handCards_app, handCards_cons. solve_Permutation.
  - intros p'. rewrite Hset, handCards_app, handCards_cons. solve_Permutation.
Qed.

Lemma handCards_setPlayer_same ps i p p' :
  at_index ps i = Some p → hand p' = hand p →
  handCards (setPlayer i p' ps) = handCards ps.
Proof.
  intros (l1 & l2 & -> & Hset)%setPlayer_split Hh.
  by rewrite Hset, !handCards_app, !handCards_cons, Hh.
Qed.

Lemma at_index_setPlayer_eq ps i p q :
  at_index ps i = Some q → at_index (setPlayer i p ps) i = Some p.
Proof.
  intros [Hi Hq]%at_index_Some. apply at_index_Some. split; [done|].
  unfold setPlayer. rewrite decide_True by done.
  apply list_lookup_insert_eq. by eapply lookup_lt_Some.
Qed.

Lemma at_index_setPlayer_ne ps i j p :
  i ≠ j → at_index (setPlayer i p ps) j = at_index ps j.
Proof.
  intros Hne. unfold at_index, setPlayer. repeat case_decide; try done.
  apply list_lookup_insert_ne. lia.
Qed.

Lemma length_setPlayer ps i p : length (setPlayer i p ps) = length ps.
Proof. unfold setPlayer. case_decide; [apply length_insert|done]. Qed.

(** ** What the steps of a turn leave untouched *)

Lemma applyPrediction_hand t res e : hand (applyPrediction t res e).2 = hand e.
Proof. unfold applyPrediction. by case_match. Qed.

Lemma applyArmor_hand t d e : hand (applyArmor t d e).2 = hand e.
Proof. unfold applyArmor. repeat case_match; done. Qed.

Lemma switchTurns_Some r r' :
  switchTurns r = Some r' →
  ∃ p, at_index (players r) (1 - currentPlayer r) = Some p
       ∧ r' = with_players
                (setPlayer (1 - currentPlayer r) (with_discardsUsed (Some 0) p) (players r))
                (with_turn (1 - currentPlayer r) (turn r + 1) r).
Proof. unfold switchTurns. case_match; [|done]. intros [= <-]. eauto. Qed.

Lemma switchTurns_cards r r' :
  switchTurns r = Some r' → roomCards r' = roomCards r.
Proof.
  intros (p & Hp & ->)%switchTurns_Some. unfold roomCards, pileCards. simpl.
  by rewrite (handCards_setPlayer_same _ _ p).
Qed.

Lemma resetFlags_ids (l : list card) : cid <$> (resetFlags <$> l) = cid <$> l.
Proof. by rewrite <- list_fmap_compose. Qed.

Lemma redraw_ids n (d : list card) :
  cid <$> ((resetFlags <$> take n d) ++ drop n d) = cid <$> d.
Proof. by rewrite fmap_app, resetFlags_ids, <- fmap_app, take_drop. Qed.

Lemma filter_selected_split (h : list card) :
  h ≡ₚ filter (fun c => selected c = true) h ++ filter (fun c => selected c ≠ true) h.
Proof. symmetry. apply (filter_app_complement (fun c => selected c = true)). Qed.

(** The piles and the new hand that [consumeAndRedraw] leaves are made of
    cards of the old hand and the old piles. *)
Lemma consumeAndRedraw_cards rnd r actor r1 actor' :
  consumeAndRedraw rnd r actor = Some (r1, actor') →
  ∃ h h', hand actor = Some h ∧ hand actor' = Some h'
    ∧ players r1 = players r ∧ gameMode r1 = gameMode r
    ∧ gameState r1 = gameState r ∧ currentPlayer r1 = currentPlayer r ∧ turn r1 = turn r
    ∧ cid <$> (h' ++ deck r1 ++ pileCards r1) ⊆+ cid <$> (h ++ deck r ++ pileCards r).
Proof.
  unfold consumeAndRedraw, recycle, pileCards.
  destruct (hand actor) as [h|] eqn:Hh; [|done].
  pose proof (filter_selected_split h) as Hsplit.
  set (played := filter (fun c => selected c = true) h) in *.
  set (kept := filter (fun c => selected c ≠ true) h) in *.
  destruct (decide (gameMode r = RECYCLING)) as [Hm|Hm].
  - destruct (discardPile r) as [pile|]; [|done]. simpl.
    destruct (_ && _); intros [= <- <-]; simpl; rewrite ?decide_True by done;
      eexists h, _; (do 7 (split; [done|]));
      rewrite (app_assoc _ (drop _ _)), (fmap_app _ (_ ++ _)), redraw_ids.
    + simpl. rewrite shuffle_Permutation, !fmap_app, resetFlags_ids, Hsplit, !fmap_app.
      solve_submseteq.
    + simpl. rewrite !fmap_app, resetFlags_ids, Hsplit, !fmap_app.
      solve_submseteq.
  - intros [= <- <-]. simpl. rewrite ?decide_False by done.
    eexists h, _. do 7 (split; [done|]).
    rewrite (app_assoc _ (drop _ _)), (fmap_app _ (_ ++ _)), redraw_ids.
    rewrite !fmap_app. solve_submseteq.
Qed.

Lemma cards_after_redraw (hs hs' h h' rest X X' : list card) :
  hs ≡ₚ h ++ rest → hs' ≡ₚ h' ++ rest →
  cid <$> (h' ++ X') ⊆+ cid <$> (h ++ X) →
  cid <$> (hs' ++ X') ⊆+ cid <$> (hs ++ X).
Proof.
  intros -> -> Hsub. rewrite !fmap_app in *.
  rewrite <- !(assoc_L (++)), (comm (++) (cid <$> rest) (cid <$> X')),
    (comm (++) (cid <$> rest) (cid <$> X)), !(assoc_L (++)).
  by apply submseteq_skips_r.
Qed.

(** ** The handlers, once they have returned *)

Lemma setRoom_lookup rid r s : rooms (setRoom rid r s) !! rid = Some r.
Proof. apply lookup_insert_eq. Qed.

Lemma playHand_Done sid rid rnd s s' evs :
  playHand sid rid rnd s = Done s' evs →
  (s' = s ∧ (evs = [] ∨ ∃ m, evs = [Event (ToSocket sid) "invalidHand" (Msg m)]))
  ∨ ∃ room actor sel r' ev,
      rooms s !! rid = Some room ∧ is_Some (sessions s !! sid)
      ∧ gameState room = playing ∧ indexOf sid room = currentPlayer room
      ∧ at_index (players room) (currentPlayer room) = Some actor
      ∧ selectedCards actor = Some sel ∧ sel ≠ []
      ∧ valid (validateHand sel) = true
      ∧ resolvePlay rid rnd room (currentPlayer room) actor sel = Some (r', ev)
      ∧ s' = setRoom rid r' s ∧ evs = [ev].
Proof.
  unfold playHand.
  destruct (rooms s !! rid) as [room|] eqn:Hr; [|intros [= <- <-]; left; split; [done|by left]].
  destruct (sessions s !! sid) as [nm|] eqn:Hs; [|intros [= <- <-]; left; split; [done|by left]].
  case_bool_decide as Hst; simpl; [|intros [= <- <-]; left; split; [done|by left]].
  case_bool_decide as Hi; simpl; [|intros [= <- <-]; left; split; [done|by left]].
  rewrite Hi.
  destruct (at_index (players room) (currentPlayer room)) as [actor|] eqn:Ha; [|done].
  destruct (selectedCards actor) as [sel|] eqn:Hsel; [|done].
  case_bool_decide as Hlen; [intros [= <- <-]; left; split; [done|by left]|].
  destruct (valid (validateHand sel)) eqn:Hv; simpl; [|intros [= <- <-]; left; split; [done|right; eauto]].
  destruct (resolvePlay rid rnd room (currentPlayer room) actor sel) as [[r' ev]|] eqn:Hres;
    [|done].
  intros [= <- <-]. right. exists room, actor, sel, r', ev.
  repeat split; eauto. by intros ->.
Qed.

Lemma buildArmor_Done sid rid rnd s s' evs :
  buildArmor sid rid rnd s = Done s' evs →
  (s' = s ∧ (evs = [] ∨ (∃ m, evs = [Event (ToSocket sid) "error" (Msg m)])
             ∨ (∃ m, evs = [Event (ToSocket sid) "invalidHand" (Msg m)])))
  ∨ ∃ room actor sel r' ev,
      rooms s !! rid = Some room ∧ is_Some (sessions s !! sid)
      ∧ gameMode room = TACTICAL
      ∧ gameState room = playing ∧ indexOf sid room = currentPlayer room
      ∧ at_index (players room) (currentPlayer room) = Some actor
      ∧ selectedCards actor = Some sel ∧ sel ≠ []
      ∧ valid (validateHand sel) = true
      ∧ resolveArmor rid rnd room (currentPlayer room) actor sel = Some (r', ev)
      ∧ s' = setRoom rid r' s ∧ evs = [ev].
Proof.
  unfold buildArmor.
  destruct (rooms s !! rid) as [room|] eqn:Hr; [|intros [= <- <-]; left; split; [done|by left]].
  destruct (sessions s !! sid) as [nm|] eqn:Hs; [|intros [= <- <-]; left; split; [done|by left]].
  case_bool_decide as Hm; simpl; [|intros [= <- <-]; left; split; [done|by left]].
  case_bool_decide as Hst; simpl; [|intros [= <- <-]; left; split; [done|by left]].
  case_bool_decide as Hi; simpl; [|intros [= <- <-]; left; split; [done|right; left; eauto]].
  rewrite Hi.
  destruct (at_index (players room) (currentPlayer room)) as [actor|] eqn:Ha; [|done].
  destruct (selectedCards actor) as [sel|] eqn:Hsel; [|done].
  case_bool_decide as Hlen; [intros [= <- <-]; left; split; [done|right; left; eauto]|].
  destruct (valid (validateHand sel)) eqn:Hv; simpl; [|intros [= <- <-]; left; split; [done|right; right; eauto]].
  destruct (resolveArmor rid rnd room (currentPlayer room) actor sel) as [[r' ev]|] eqn:Hres;
    [|done].
  intros [= <- <-]. right. exists room, actor, sel, r', ev.
  repeat split; eauto. by intros ->.
Qed.

Lemma discardCards_Done sid rid s s' evs :
  discardCards sid rid s = Done s' evs →
  (s' = s ∧ evs = [])
  ∨ ∃ room actor h r' ev,
      rooms s !! rid = Some room ∧ is_Some (sessions s !! sid)
      ∧ gameState room = playing ∧ indexOf sid room = currentPlayer room
      ∧ at_index (players room) (currentPlayer room) = Some actor
      ∧ hand actor = Some h
      ∧ resolveDiscard rid room (currentPlayer room) actor h
          (filter (fun c => markedForDiscard c = true) h) = Some (r', ev)
      ∧ s' = setRoom rid r' s ∧ evs = [ev].
Proof.
  unfold discardCards.
  destruct (rooms s !! rid) as [room|] eqn:Hr; [|intros [= <- <-]; by left].
  destruct (sessions s !! sid) as [nm|] eqn:Hs; [|intros [= <- <-]; by left].
  case_bool_decide as Hst; simpl; [|intros [= <- <-]; by left].
  case_bool_decide as Hi; simpl; [|intros [= <- <-]; by left].
  rewrite Hi.
  destruct (at_index (players room) (currentPlayer room)) as [actor|] eqn:Ha; [|done].
  destruct (hand actor) as [h|] eqn:Hh; [|done].
  destruct (_ || _); [intros [= <- <-]; by left|].
  destruct (resolveDiscard _ _ _ _ _ _) as [[r' ev]|] eqn:Hres; [|done].
  intros [= <- <-]. right. exists room, actor, h, r', ev. repeat split; eauto.
Qed.

(** ** No card is ever duplicated *)

Lemma resolvePlay_cards rid rnd r i actor sel r' ev :
  at_index (players r) i = Some actor →
  resolvePlay rid rnd r i actor sel = Some (r', ev) →
  cardIds r' ⊆+ cardIds r.
Proof.
  intros Ha. unfold resolvePlay.
  destruct (at_index (players r) (1 - i)) as [enemy|] eqn:He; [|done].
  pose proof (applyPrediction_hand (bool_decide (gameMode r = TACTICAL)) (evaluateHand sel) enemy)
    as Hp.
  destruct (applyPrediction _ _ enemy) as [d1 e1]. simpl in Hp.
  pose proof (applyArmor_hand (bool_decide (gameMode r = TACTICAL)) d1 e1) as Hq.
  destruct (applyArmor _ d1 e1) as [d2 e2]. simpl in Hq.
  destruct (consumeAndRedraw rnd r actor) as [[r1 actor']|] eqn:Hc; [|done].
  destruct (consumeAndRedraw_cards _ _ _ _ _ Hc)
    as (h & h' & Hh & Hh' & Hps & Hm & _ & _ & _ & Hsub).
  set (e3 := with_health _ e2).
  set (ps := setPlayer i actor' (setPlayer (1 - i) e3 (players r))).
  assert (cid <$> (handCards ps ++ deck r1 ++ pileCards r1) ⊆+ cardIds r) as Hcards.
  { assert (at_index (setPlayer (1 - i) e3 (players r)) i = Some actor) as Ha'
      by (rewrite at_index_setPlayer_ne by lia; done).
    destruct (handCards_setPlayer _ _ _ Ha') as (rest & Hold & Hnew).
    rewrite (handCards_setPlayer_same _ _ enemy) in Hold by (done || by rewrite <- Hp, <- Hq).
    rewrite Hh in Hold. specialize (Hnew actor'). rewrite Hh' in Hnew.
    by apply (cards_after_redraw _ _ h h' rest). }
  assert (∀ r2, players r2 = ps → deck r2 = deck r1 → gameMode r2 = gameMode r1 →
                discardPile r2 = discardPile r1 → cardIds r2 ⊆+ cardIds r) as Hany.
  { intros r2 E1 E2 E3 E4. unfold cardIds at 1, roomCards, pileCards.
    rewrite E1, E2, E3, E4. apply Hcards. }
  destruct (num_le (health e3) 0).
  - intros [= <- <-]. by apply Hany.
  - destruct (switchTurns _) as [r3|] eqn:Hsw; [|done].
    destruct (publicViews _ _ _ _); [|done]. intros [= <- <-].
    unfold cardIds at 1. rewrite (switchTurns_cards _ _ Hsw). by apply Hany.
Qed.

Lemma resolveArmor_cards rid rnd r i actor sel r' ev :
  at_index (players r) i = Some actor →
  resolveArmor rid rnd r i actor sel = Some (r', ev) →
  cardIds r' ⊆+ cardIds r.
Proof.
  intros Ha. unfold resolveArmor.
  set (actor1 := with_armor _ actor).
  destruct (consumeAndRedraw rnd r actor1) as [[r1 actor']|] eqn:Hc; [|done].
  destruct (consumeAndRedraw_cards _ _ _ _ _ Hc)
    as (h & h' & Hh & Hh' & Hps & Hm & _ & _ & _ & Hsub).
  destruct (switchTurns _) as [r3|] eqn:Hsw; [|done].
  destruct (publicViews _ _ _ _); [|done]. intros [= <- <-].
  unfold cardIds at 1. rewrite (switchTurns_cards _ _ Hsw).
  unfold roomCards at 1, pileCards at 1. simpl.
  destruct (handCards_setPlayer _ _ _ Ha) as (rest & Hold & Hnew).
  specialize (Hnew actor'). rewrite Hh' in Hnew.
  change (hand actor1) with (hand actor) in Hh. rewrite Hh in Hold.
  by apply (cards_after_redraw _ _ h h' rest).
Qed.

Lemma filter_marked_split (h : list card) :
  h ≡ₚ filter (fun c => markedForDiscard c = true) h
       ++ filter (fun c => markedForDiscard c ≠ true) h.
Proof. symmetry. apply (filter_app_complement (fun c => markedForDiscard c = true)). Qed.

Lemma resolveDiscard_cards rid r i actor h r' ev :
  at_index (players r) i = Some actor → hand actor = Some h →
  resolveDiscard rid r i actor h (filter (fun c => markedForDiscard c = true) h) = Some (r', ev) →
  cardIds r' ⊆+ cardIds r.
Proof.
  intros Ha Hh. unfold resolveDiscard.
  set (marked := filter (fun c => markedForDiscard c = true) h).
  set (kept := filter (fun c => markedForDiscard c ≠ true) h).
  assert (cid <$> h ≡ₚ (cid <$> marked) ++ (cid <$> kept)) as Hsplit.
  { rewrite <- fmap_app. unfold marked, kept. by rewrite <- filter_marked_split. }
  assert (cid <$> deck r = (cid <$> take (length marked) (deck r))
                           ++ (cid <$> drop (length marked) (deck r))) as Hdeck
    by by rewrite <- fmap_app, take_drop.
  destruct (handCards_setPlayer _ _ _ Ha) as (rest & Hold & Hnew).
  rewrite Hh in Hold.
  destruct (decide (gameMode r = RECYCLING)) as [Hm|Hm].
  - destruct (discardPile r) as [pile|] eqn:Hpile; [|done].
    destruct (publicViews _ _ _ _); [|done]. intros [= <- <-].
    unfold cardIds, roomCards, pileCards. simpl. rewrite !decide_True by done.
    rewrite Hnew, Hold, Hpile. simpl.
    rewrite !fmap_app, !resetFlags_ids, Hdeck, Hsplit. solve_submseteq.
  - destruct (publicViews _ _ _ _); [|done]. intros [= <- <-].
    unfold cardIds, roomCards, pileCards. simpl. rewrite !decide_False by done.
    rewrite Hnew, Hold. simpl.
    rewrite !fmap_app, !resetFlags_ids, Hdeck, Hsplit. solve_submseteq.
Qed.

Lemma deal_two_hands (d : list card) :
  take 8 (drop 0 d) ++ take 8 (drop 8 d) ++ drop 16 d = d.
Proof.
  rewrite drop_0. change 16%nat with (8 + 8)%nat.
  by rewrite <- drop_drop, take_drop, take_drop.
Qed.

Lemma Done_inj s evs s' evs' : Done s evs = Done s' evs' → s = s' ∧ evs = evs'.
Proof. by intros [= -> ->]. Qed.

Lemma roomCards_started a b gm d p0 p1 st cur t dp l :
  roomCards (Room a b gm (imap (initPlayer gm d) [p0; p1]) st cur t (drop 16 d)
               (if decide (gm = RECYCLING) then Some [] else dp) l) = d.
Proof.
  unfold roomCards, pileCards. simpl.
  destruct (decide (gm = RECYCLING)); simpl;
    rewrite !app_nil_r, <- (assoc_L (++)); apply deal_two_hands.
Qed.

Lemma startGame_deals_52 rid rnd s s' evs room room' :
  rooms s !! rid = Some room → length (players room) = 2%nat →
  startGame rid rnd s = Done s' evs → rooms s' !! rid = Some room' →
  roomCards room' ≡ₚ orderedDeck rnd
  ∧ NoDup (cardIds room') ∧ length (roomCards room') = 52%nat
  ∧ gameState room' = playing ∧ turn room' = 1.
Proof.
  intros Hr Hlen.
  destruct (players room) as [|p0 [|p1 [|? ?]]] eqn:Hps; try done. clear Hlen.
  unfold startGame. rewrite Hr, Hps. cbn [length].
  rewrite bool_decide_eq_true_2 by done. cbn [negb].
  destruct (at_index _ _); [|intros; discriminate].
  intros [Hs _]%Done_inj. subst s'.
  rewrite setRoom_lookup. intros Heq%(inj Some). subst room'.
  unfold cardIds. rewrite roomCards_started.
  split; [apply createDeck_Permutation|]. split; [apply createDeck_NoDup|].
  split; [apply createDeck_length|]. split; reflexivity.
Qed.

(** ** Requests that only touch flags *)

Lemma insert_same_ids (h : list card) i c c' :
  h !! i = Some c → cid c' = cid c → cid <$> <[i := c']> h = cid <$> h.
Proof.
  intros Hi Hc. rewrite list_fmap_insert, Hc. apply list_insert_id.
  by rewrite list_lookup_fmap, Hi.
Qed.

Lemma cardIds_new_hand r i p p' h h' :
  at_index (players r) i = Some p → hand p = Some h → hand p' = Some h' →
  cid <$> h' = cid <$> h →
  cardIds (with_players (setPlayer i p' (players r)) r) ≡ₚ cardIds r.
Proof.
  intros Hp Hh Hh' Hids. unfold cardIds, roomCards, pileCards. simpl.
  destruct (handCards_setPlayer _ _ _ Hp) as (rest & Hold & Hnew).
  rewrite Hold, (Hnew p'), Hh, Hh'. simpl. rewrite !fmap_app, Hids. done.
Qed.

Lemma cardIds_same_hand r i p p' :
  at_index (players r) i = Some p → hand p' = hand p →
  cardIds (with_players (setPlayer i p' (players r)) r) = cardIds r.
Proof.
  intros Hp Hh. unfold cardIds, roomCards, pileCards. simpl.
  by rewrite (handCards_setPlayer_same _ _ p).
Qed.

Lemma selectCard_cards sid rid cardId s s' evs room :
  selectCard sid rid cardId s = Done s' evs → rooms s !! rid = Some room →
  ∃ room', rooms s' !! rid = Some room' ∧ cardIds room' ≡ₚ cardIds room.
Proof.
  unfold selectCard. intros Hop Hr. rewrite Hr in Hop.
  destruct (sessions s !! sid); [|apply Done_inj in Hop as [<- _]; eauto].
  destruct (negb _); [apply Done_inj in Hop as [<- _]; eauto|].
  destruct (negb _); [apply Done_inj in Hop as [<- _]; eauto|].
  destruct (at_index _ _) as [p|] eqn:Hp; [|done].
  destruct (hand p) as [h|] eqn:Hh; [|done].
  destruct (list_find _ h) as [[i c]|] eqn:Hf; [|apply Done_inj in Hop as [<- _]; eauto].
  apply Done_inj in Hop as [<- _]. rewrite setRoom_lookup. eexists. split; [done|].
  apply list_find_Some in Hf as (Hi & _ & _).
  eapply (cardIds_new_hand room _ p); [done|done|done|].
  by apply (insert_same_ids h i c).
Qed.

Lemma markForDiscard_cards sid rid cardId s s' evs room :
  markForDiscard sid rid cardId s = Done s' evs → rooms s !! rid = Some room →
  ∃ room', rooms s' !! rid = Some room' ∧ cardIds room' ≡ₚ cardIds room.
Proof.
  unfold markForDiscard. intros Hop Hr. rewrite Hr in Hop.
  destruct (sessions s !! sid); [|apply Done_inj in Hop as [<- _]; eauto].
  destruct (negb _); [apply Done_inj in Hop as [<- _]; eauto|].
  destruct (negb _); [apply Done_inj in Hop as [<- _]; eauto|].
  destruct (at_index _ _) as [p|] eqn:Hp; [|done].
  destruct (hand p) as [h|] eqn:Hh; [|done].
  destruct (list_find _ h) as [[i c]|] eqn:Hf; [|apply Done_inj in Hop as [<- _]; eauto].
  apply Done_inj in Hop as [<- _]. rewrite setRoom_lookup. eexists. split; [done|].
  apply list_find_Some in Hf as (Hi & _ & _).
  eapply (cardIds_new_hand room _ p); [done|done|done|].
  by apply (insert_same_ids h i c).
Qed.

Lemma makePrediction_cards sid rid guess s s' evs room :
  makePrediction sid rid guess s = Done s' evs → rooms s !! rid = Some room →
  ∃ room', rooms s' !! rid = Some room' ∧ cardIds room' ≡ₚ cardIds room.
Proof.
  unfold makePrediction. intros Hop Hr. rewrite Hr in Hop.
  destruct (sessions s !! sid); [|apply Done_inj in Hop as [<- _]; eauto].
  destruct (negb _); [apply Done_inj in Hop as [<- _]; eauto|].
  destruct (bool_decide _); [apply Done_inj in Hop as [<- _]; eauto|].
  destruct (at_index _ _) as [p|] eqn:Hp; [|done].
  apply Done_inj in Hop as [<- _]. rewrite setRoom_lookup. eexists. split; [done|].
  by rewrite (cardIds_same_hand room _ p).
Qed.

(** Every request leaves a room whose cards were all there before. *)
Lemma handle_cards rid q s s' evs room :
  handle rid q s = Done s' evs → rooms s !! rid = Some room →
  ∃ room', rooms s' !! rid = Some room' ∧ cardIds room' ⊆+ cardIds room.
Proof.
  intros Hop Hr. destruct q as [sid c|sid c|sid|sid g|sid rnd|sid rnd]; simpl in Hop.
  - destruct (selectCard_cards _ _ _ _ _ _ _ Hop Hr) as (room' & ? & Hp).
    exists room'. by rewrite Hp.
  - destruct (markForDiscard_cards _ _ _ _ _ _ _ Hop Hr) as (room' & ? & Hp).
    exists room'. by rewrite Hp.
  - apply discardCards_Done in Hop
      as [[-> _]|(r0 & actor & h & r' & ev & Hr0 & _ & _ & _ & Ha & Hh & Hres & -> & _)].
    + eauto.
    + rewrite setRoom_lookup. simplify_eq. eexists. split; [done|].
      by eapply resolveDiscard_cards.
  - destruct (makePrediction_cards _ _ _ _ _ _ _ Hop Hr) as (room' & ? & Hp).
    exists room'. by rewrite Hp.
  - apply playHand_Done in Hop
      as [[-> _]|(r0 & actor & sel & r' & ev & Hr0 & _ & _ & _ & Ha & _ & _ & _ & Hres & -> & _)].
    + eauto.
    + rewrite setRoom_lookup. simplify_eq. eexists. split; [done|].
      by eapply resolvePlay_cards.
  - apply buildArmor_Done in Hop
      as [[-> _]|(r0 & actor & sel & r' & ev & Hr0 & _ & _ & _ & _ & Ha & _ & _ & _ & Hres & -> & _)].
    + eauto.
    + rewrite setRoom_lookup. simplify_eq. eexists. split; [done|].
      by eapply resolveArmor_cards.
Qed.

Lemma andThen_Done o h s' evs :
  andThen o h = Done s' evs →
  ∃ s1 evs1 evs2, o = Done s1 evs1 ∧ h s1 = Done s' evs2 ∧ evs = evs1 ++ evs2.
Proof.
  unfold andThen. destruct o as [s1 evs1|]; [|done].
  destruct (h s1) as [s2 evs2|] eqn:Hh; [|done].
  intros [<- <-]%Done_inj. eauto 6.
Qed.

Lemma handleAll_cards rid qs s s' evs room :
  handleAll rid qs s = Done s' evs → rooms s !! rid = Some room →
  ∃ room', rooms s' !! rid = Some room' ∧ cardIds room' ⊆+ cardIds room.
Proof.
  revert s evs room. induction qs as [|q qs IH]; intros s evs room Hop Hr.
  - apply Done_inj in Hop as [<- _]. eauto.
  - simpl in Hop. apply andThen_Done in Hop as (s1 & evs1 & evs2 & H1 & H2 & _).
    destruct (handle_cards _ _ _ _ _ _ H1 Hr) as (room1 & Hr1 & Hsub1).
    destruct (IH _ _ _ H2 Hr1) as (room' & Hr' & Hsub).
    exists room'. split; [done|]. by etrans.
Qed.

Lemma submseteq_NoDup_length {A} (l k : list A) :
  l ⊆+ k → (NoDup k → NoDup l) ∧ (length l ≤ length k)%nat.
Proof.
  intros Hsub. split; [|by apply submseteq_length].
  intros Hnd. destruct (submseteq_Permutation _ _ Hsub) as [k' Hk].
  rewrite Hk in Hnd. by apply NoDup_app in Hnd as [? _].
Qed.

(** C1 (as stated) fails: a play-hand replaces the whole hand of the actor,
    so the room that held 52 cards before holds 44 afterwards in Classic mode
    and 45 in Recycling mode. *)
Lemma cards_conserved_counterexample :
  playHand "a" "r" ex_rnd (ex_server (ex_ace_selected CLASSIC))
    = Done (ex_server (ex_ace_played CLASSIC))
        (ex_events (playHand "a" "r" ex_rnd (ex_server (ex_ace_selected CLASSIC))))
  ∧ length (roomCards (ex_room (ex_ace_selected CLASSIC))) = 52%nat
  ∧ length (roomCards (ex_room (ex_ace_played CLASSIC))) = 44%nat
  ∧ length (roomCards (ex_room (ex_ace_selected RECYCLING))) = 52%nat
  ∧ length (roomCards (ex_room (ex_ace_played RECYCLING))) = 45%nat.
Proof. vm_compute. repeat split; reflexivity. Qed.

(** ** Broadcasts *)

Lemma publicViews_is_Some a b i ps :
  Forall dealt ps → is_Some (publicViews a b i ps).
Proof.
  intros Hall. unfold publicViews. apply mapM_is_Some.
  apply Forall_forall. intros [idx p] Hin.
  apply list_elem_of_lookup in Hin as [k Hk].
  rewrite list_lookup_imap in Hk.
  destruct (ps !! k) as [q|] eqn:Hq; simplify_eq/=.
  assert (dealt p) as [h Hh].
  { eapply Forall_forall; [done|]. by eapply list_elem_of_lookup_2. }
  unfold publicView. rewrite Hh. simpl. eauto.
Qed.

Lemma Forall_setPlayer (P : player → Prop) i p ps :
  Forall P ps → P p → Forall P (setPlayer i p ps).
Proof. intros. unfold setPlayer. case_decide; [by apply Forall_insert|done]. Qed.

Lemma at_index_elem_of {A} (l : list A) i x : at_index l i = Some x → x ∈ l.
Proof. intros [_ H]%at_index_Some. by eapply list_elem_of_lookup_2. Qed.

(** ** Turns *)

Lemma switchTurns_turn r r' :
  switchTurns r = Some r' →
  currentPlayer r' = 1 - currentPlayer r ∧ turn r' = turn r + 1
  ∧ gameState r' = gameState r ∧ 0 ≤ 1 - currentPlayer r.
Proof.
  intros (p & Hp & ->)%switchTurns_Some. simpl.
  apply at_index_Some in Hp as [? _]. done.
Qed.

Lemma consumeAndRedraw_turn rnd r actor r1 actor' :
  consumeAndRedraw rnd r actor = Some (r1, actor') →
  gameState r1 = gameState r ∧ currentPlayer r1 = currentPlayer r ∧ turn r1 = turn r.
Proof.
  intros Hc. destruct (consumeAndRedraw_cards _ _ _ _ _ Hc)
    as (h & h' & _ & _ & _ & _ & ? & ? & ? & _). done.
Qed.

Lemma resolvePlay_turn rid rnd r actor sel r' ev :
  at_index (players r) (currentPlayer r) = Some actor →
  resolvePlay rid rnd r (currentPlayer r) actor sel = Some (r', ev) →
  (ename ev = "gameEnded" ∧ to ev = ToRoom rid ∧ gameState r' = ended
   ∧ currentPlayer r' = currentPlayer r ∧ turn r' = turn r)
  ∨ (ename ev = "handPlayed" ∧ to ev = ToRoom rid ∧ gameState r' = gameState r
     ∧ currentPlayer r' = 1 - currentPlayer r ∧ turn r' = turn r + 1
     ∧ 0 ≤ currentPlayer r ≤ 1).
Proof.
  intros Ha. unfold resolvePlay.
  destruct (at_index (players r) (1 - currentPlayer r)) as [enemy|] eqn:He; [|done].
  destruct (applyPrediction _ _ enemy) as [d1 e1].
  destruct (applyArmor _ d1 e1) as [d2 e2].
  destruct (consumeAndRedraw rnd r actor) as [[r1 actor']|] eqn:Hc; [|done].
  destruct (consumeAndRedraw_turn _ _ _ _ _ Hc) as (Hst & Hcur & Htu).
  destruct (num_le _ 0).
  - intros [= <- <-]. left. simpl. done.
  - destruct (switchTurns _) as [r3|] eqn:Hsw; [|done].
    destruct (publicViews _ _ _ _); [|done]. intros [= <- <-]. right.
    apply switchTurns_turn in Hsw as (-> & -> & -> & ?). simpl.
    apply at_index_Some in Ha as [? _]. simpl in *. rewrite Hst, Htu. rewrite Hcur in *. repeat split; (done || lia).
Qed.

Lemma resolveArmor_turn rid rnd r actor sel r' ev :
  at_index (players r) (currentPlayer r) = Some actor →
  resolveArmor rid rnd r (currentPlayer r) actor sel = Some (r', ev) →
  ename ev = "armorBuilt" ∧ to ev = ToRoom rid ∧ gameState r' = gameState r
  ∧ currentPlayer r' = 1 - currentPlayer r ∧ turn r' = turn r + 1
  ∧ 0 ≤ currentPlayer r ≤ 1.
Proof.
  intros Ha. unfold resolveArmor.
  destruct (consumeAndRedraw rnd r _) as [[r1 actor']|] eqn:Hc; [|done].
  destruct (consumeAndRedraw_turn _ _ _ _ _ Hc) as (Hst & Hcur & Htu).
  destruct (switchTurns _) as [r3|] eqn:Hsw; [|done].
  destruct (publicViews _ _ _ _); [|done]. intros [= <- <-].
  apply switchTurns_turn in Hsw as (-> & -> & -> & ?). simpl.
  apply at_index_Some in Ha as [? _]. simpl in *. rewrite Hst, Htu. rewrite Hcur in *. repeat split; (done || lia).
Qed.

Lemma resolveDiscard_turn rid r i actor h m r' ev :
  resolveDiscard rid r i actor h m = Some (r', ev) →
  gameState r' = gameState r ∧ currentPlayer r' = currentPlayer r ∧ turn r' = turn r.
Proof.
  unfold resolveDiscard. repeat case_match; try done; by intros [= <- <-].
Qed.

Lemma selectCard_Done sid rid cardId s s' evs :
  selectCard sid rid cardId s = Done s' evs →
  (s' = s ∧ evs = [])
  ∨ ∃ room p', rooms s !! rid = Some room
      ∧ s' = setRoom rid (with_players (setPlayer (indexOf sid room) p' (players room)) room) s.
Proof.
  unfold selectCard. repeat case_match; try done; intros [= <- <-]; eauto.
Qed.

Lemma markForDiscard_Done sid rid cardId s s' evs :
  markForDiscard sid rid cardId s = Done s' evs →
  (s' = s ∧ evs = [])
  ∨ ∃ room p', rooms s !! rid = Some room
      ∧ s' = setRoom rid (with_players (setPlayer (indexOf sid room) p' (players room)) room) s.
Proof.
  unfold markForDiscard. repeat case_match; try done; intros [= <- <-]; eauto.
Qed.

(** C6 (as stated) fails: ["a"] plays a royal flush for 110 damage against
    100 health; the play is resolved, the game ends, and neither
    [currentPlayer] nor [turn] changes. *)
Lemma turn_alternation_counterexample :
  playHand "a" "r" ex_rnd (ex_server (ex_royal_selected CLASSIC))
    = Done (ex_server (ex_royal_played CLASSIC))
        (ex_events (playHand "a" "r" ex_rnd (ex_server (ex_royal_selected CLASSIC))))
  ∧ ename <$> ex_events (playHand "a" "r" ex_rnd (ex_server (ex_royal_selected CLASSIC)))
    = ["gameEnded"]
  ∧ gameState (ex_room (ex_royal_played CLASSIC)) = ended
  ∧ currentPlayer (ex_room (ex_royal_selected CLASSIC)) = 0
  ∧ currentPlayer (ex_room (ex_royal_played CLASSIC)) = 0
  ∧ turn (ex_room (ex_royal_selected CLASSIC)) = 1
  ∧ turn (ex_room (ex_royal_played CLASSIC)) = 1
  ∧ ¬ (currentPlayer (ex_room (ex_royal_played CLASSIC))
         = 1 - currentPlayer (ex_room (ex_royal_selected CLASSIC))
       ∧ turn (ex_room (ex_royal_played CLASSIC))
         = turn (ex_room (ex_royal_selected CLASSIC)) + 1).
Proof. vm_compute. repeat split; try reflexivity. intros [? ?]. discriminate. Qed.

(** ** Rejected requests *)

(** C7 (as amended).  For selectCard, markForDiscard, discardCards and
    playHand, a request made while the room is not being played or by a
    session that is not at turn, and a selection toggle naming a card that is
    not in the actor's hand, are silent no-ops: the state is unchanged and no
    event is emitted.  buildArmor is a silent no-op while the room is not
    being played, but answers a request made out of turn with an [error]
    event sent to the sender only, and makePrediction answers the player at
    turn in the same way; neither changes the state. *)
Theorem violations_change_nothing sid rid rnd cardId guess s room :
  rooms s !! rid = Some room →
  (gameState room ≠ playing ∨ indexOf sid room ≠ currentPlayer room →
     selectCard sid rid cardId s = Done s []
     ∧ markForDiscard sid rid cardId s = Done s []
     ∧ discardCards sid rid s = Done s []
     ∧ playHand sid rid rnd s = Done s [])
  ∧ (∀ actor h,
       at_index (players room) (indexOf sid room) = Some actor → hand actor = Some h →
       Forall (fun c => cid c ≠ cardId) h →
       selectCard sid rid cardId s = Done s []
       ∧ markForDiscard sid rid cardId s = Done s [])
  ∧ (gameState room ≠ playing → buildArmor sid rid rnd s = Done s [])
  ∧ (∀ nm, sessions s !! sid = Some nm →
       gameMode room = TACTICAL → gameState room = playing →
       indexOf sid room ≠ currentPlayer room →
       buildArmor sid rid rnd s
       = Done s [Event (ToSocket sid) "error"
                   (Msg (Some "You can only build armor on your turn"))])
  ∧ (∀ nm, sessions s !! sid = Some nm →
       gameMode room = TACTICAL →
       indexOf sid room = currentPlayer room →
       makePrediction sid rid guess s
       = Done s [Event (ToSocket sid) "error" (Msg (Some "You cannot predict your own hand"))]).
Proof.
  intros Hr. split; [|split; [|split; [|split]]].
  - intros Hv. unfold selectCard, markForDiscard, discardCards, playHand. rewrite Hr.
    destruct (sessions s !! sid); [|done].
    destruct Hv as [Hv|Hv].
    + by rewrite (bool_decide_eq_false_2 _ Hv).
    + rewrite (bool_decide_eq_false_2 _ Hv). simpl. by destruct (bool_decide _).
  - intros actor h Ha Hh Hall.
    assert (list_find (fun c => cid c = cardId) h = None) as Hnone by by apply list_find_None.
    unfold selectCard, markForDiscard. rewrite Hr.
    destruct (sessions s !! sid); [|done].
    destruct (bool_decide (gameState room = playing)); [|done]. simpl.
    destruct (bool_decide (indexOf sid room = currentPlayer room)); [|done]. simpl.
    by rewrite Ha, Hh, Hnone.
  - intros Hv. unfold buildArmor. rewrite Hr.
    destruct (sessions s !! sid); [|done].
    rewrite (bool_decide_eq_false_2 _ Hv). simpl. by rewrite orb_true_r.
  - intros nm Hs Hm Hst Hv. unfold buildArmor. rewrite Hr, Hs.
    rewrite (bool_decide_eq_true_2 _ Hm), (bool_decide_eq_true_2 _ Hst). simpl.
    by rewrite (bool_decide_eq_false_2 _ Hv).
  - intros nm Hs Hm Hv. unfold makePrediction. rewrite Hr, Hs.
    rewrite (bool_decide_eq_true_2 _ Hm). simpl.
    by rewrite (bool_decide_eq_true_2 _ Hv).
Qed.

Lemma violations_change_nothing_witness :
  playHand "b" "r" ex_rnd (ex_server (ex_started TACTICAL))
  = Done (ex_server (ex_started TACTICAL)) []
  ∧ buildArmor "b" "r" ex_rnd (ex_server (ex_started TACTICAL))
    = Done (ex_server (ex_started TACTICAL))
        [Event (ToSocket "b") "error" (Msg (Some "You can only build armor on your turn"))].
Proof.
  pose proof (violations_change_nothing "b" "r" ex_rnd (heartsId 1) "Flush"
                (ex_server (ex_started TACTICAL)) (ex_room (ex_started TACTICAL))
                ltac:(vm_compute; reflexivity)) as (Hsilent & _ & _ & Harmor & _).
  split.
  - apply Hsilent. right. vm_compute. discriminate.
  - apply (Harmor "Bob"); try (vm_compute; reflexivity). vm_compute. discriminate.
Defined.

(** C7 (as stated) fails: in a Tactical game that ["a"] begins, a build-armor
    request of ["b"] and a prediction request of ["a"] are each answered with
    an [error] event. *)
Lemma violations_silent_counterexample :
  indexOf "b" (ex_room (ex_started TACTICAL)) ≠ currentPlayer (ex_room (ex_started TACTICAL))
  ∧ buildArmor "b" "r" ex_rnd (ex_server (ex_started TACTICAL))
    = Done (ex_server (ex_started TACTICAL))
        [Event (ToSocket "b") "error" (Msg (Some "You can only build armor on your turn"))]
  ∧ makePrediction "a" "r" "Flush" (ex_server (ex_started TACTICAL))
    = Done (ex_server (ex_started TACTICAL))
        [Event (ToSocket "a") "error" (Msg (Some "You cannot predict your own hand"))]
  ∧ ex_events (buildArmor "b" "r" ex_rnd (ex_server (ex_started TACTICAL))) ≠ [].
Proof. vm_compute. repeat split; (reflexivity || discriminate). Qed.

(** ** Start and rematch *)

Lemma startGame_needs_two rid rnd s room :
  rooms s !! rid = Some room → length (players room) ≠ 2%nat →
  startGame rid rnd s = Done s [].
Proof.
  intros Hr Hlen. unfold startGame. rewrite Hr.
  by rewrite (bool_decide_eq_false_2 _ Hlen).
Qed.

(** C8.  What [acceptRematch] does in a room that holds its creator alone:
    the game is reset all the same (a first player is picked, the room is
    set to playing, eight cards are dealt, 36 cards form the draw pile),
    where [startGame] does nothing. *)
Theorem acceptRematch_one_player :
  length (players (ex_room (Done ex_solo []))) = 1%nat
  ∧ startGame "r" ex_rnd ex_solo = Done ex_solo []
  ∧ acceptRematch "a" "r" ex_rnd ex_solo
    = Done (ex_server (acceptRematch "a" "r" ex_rnd ex_solo))
        (ex_events (acceptRematch "a" "r" ex_rnd ex_solo))
  ∧ gameState (ex_room (Done ex_solo [])) = waiting
  ∧ gameState (ex_room (acceptRematch "a" "r" ex_rnd ex_solo)) = playing
  ∧ (players (ex_room (acceptRematch "a" "r" ex_rnd ex_solo)) !! 0%nat
     ≫= fun p => length <$> hand p) = Some 8%nat
  ∧ length (deck (ex_room (acceptRematch "a" "r" ex_rnd ex_solo))) = 36%nat
  ∧ ename <$> ex_events (acceptRematch "a" "r" ex_rnd ex_solo) = ["rematchAccepted"].
Proof. vm_compute. repeat split; reflexivity. Qed.

(** ** Predictions *)

Lemma indexOf_absent sid r :
  Forall (fun p => pid p ≠ sid) (players r) → indexOf sid r = -1.
Proof.
  intros Hall. unfold indexOf, findIndex.
  assert (list_find (fun p => pid p = sid) (players r) = None) as -> by by apply list_find_None.
  done.
Qed.

(** C10.  [makePrediction] checks that the room exists, that the session is
    registered and that the room is Tactical, and rejects the player at
    turn; nothing else.  A registered session that is not seated in the room
    is looked up at index -1 and the handler goes on to write through the
    absent player object, which throws instead of returning; and the
    prediction of a seated player who is not at turn is recorded and
    broadcast whatever the state of the game is. *)
Theorem makePrediction_guards sid rid guess s room nm :
  rooms s !! rid = Some room → sessions s !! sid = Some nm → gameMode room = TACTICAL →
  (Forall (fun p => pid p ≠ sid) (players room) → 0 ≤ currentPlayer room →
     indexOf sid room = -1
     ∧ at_index (players room) (indexOf sid room) = None
     ∧ makePrediction sid rid guess s = Crash)
  ∧ (∀ p, at_index (players room) (indexOf sid room) = Some p →
       indexOf sid room ≠ currentPlayer room →
       makePrediction sid rid guess s
       = Done (setRoom rid
                 (with_players
                    (setPlayer (indexOf sid room) (with_prediction (Some guess) p) (players room))
                    room) s)
           [Event (ToRoom rid) "predictionMade" (PredictionMade (indexOf sid room) guess)]).
Proof.
  intros Hr Hs Hm. unfold makePrediction. rewrite Hr, Hs.
  rewrite (bool_decide_eq_true_2 _ Hm). simpl. split.
  - intros Habs Hcur. rewrite (indexOf_absent _ _ Habs).
    rewrite bool_decide_eq_false_2 by lia. done.
  - intros p Hp Hne. by rewrite (bool_decide_eq_false_2 _ Hne), Hp.
Qed.

Lemma makePrediction_guards_witness :
  makePrediction "c" "r" "Flush" ex_lobby3 = Crash
  ∧ gameState (ex_room (Done ex_lobby3 [])) = waiting
  ∧ (players (ex_room (makePrediction "b" "r" "Flush" ex_lobby3)) !! 1%nat ≫= prediction)
    = Some "Flush".
Proof.
  pose proof (makePrediction_guards "c" "r" "Flush" ex_lobby3 (ex_room (Done ex_lobby3 []))
                "Cy" ltac:(vm_compute; reflexivity) ltac:(vm_compute; reflexivity)
                ltac:(vm_compute; reflexivity)) as [Hc _].
  pose proof (makePrediction_guards "b" "r" "Flush" ex_lobby3 (ex_room (Done ex_lobby3 []))
                "Bob" ltac:(vm_compute; reflexivity) ltac:(vm_compute; reflexivity)
                ltac:(vm_compute; reflexivity)) as [_ Hb].
  split; [|split].
  - apply Hc; [|vm_compute; discriminate].
    repeat constructor; vm_compute; discriminate.
  - vm_compute. reflexivity.
  - rewrite (Hb (newPlayer "b" "Bob")); [vm_compute; reflexivity|vm_compute; reflexivity|].
    vm_compute. discriminate.
Defined.

(** ** A play that passes the guards is resolved *)

Lemma with_discardsUsed_fields v p :
  hand (with_discardsUsed v p) = hand p ∧ prediction (with_discardsUsed v p) = prediction p
  ∧ armor (with_discardsUsed v p) = armor p ∧ health (with_discardsUsed v p) = health p.
Proof. done. Qed.

Lemma resolvePlay_result rid rnd r actor sel enemy r1 actor' d1 e1 d2 e2 :
  at_index (players r) (currentPlayer r) = Some actor →
  at_index (players r) (1 - currentPlayer r) = Some enemy →
  Forall dealt (players r) →
  consumeAndRedraw rnd r actor = Some (r1, actor') →
  applyPrediction (bool_decide (gameMode r = TACTICAL)) (evaluateHand sel) enemy = (d1, e1) →
  applyArmor (bool_decide (gameMode r = TACTICAL)) d1 e1 = (d2, e2) →
  ∃ r' ev e4,
    resolvePlay rid rnd r (currentPlayer r) actor sel = Some (r', ev)
    ∧ deck r' = deck r1 ∧ discardPile r' = discardPile r1
    ∧ lastPlayedHand r' = Some (withDamage d2 (evaluateHand sel))
    ∧ at_index (players r') (currentPlayer r) = Some actor'
    ∧ at_index (players r') (1 - currentPlayer r) = Some e4
    ∧ prediction e4 = prediction e2 ∧ armor e4 = armor e2
    ∧ health e4 = num_map (fun h => Z.max 0 (h - d2)) (health e2).
Proof.
  intros Ha He Hall Hc Hdp Hda.
  set (e3 := with_health (num_map (fun h => Z.max 0 (h - d2)) (health e2)) e2).
  assert (players r1 = players r ∧ dealt actor') as [Hps Hd'].
  { destruct (consumeAndRedraw_cards _ _ _ _ _ Hc) as (h & h' & _ & Hh' & Hps & _).
    split; [done|]. by exists h'. }
  assert (dealt e3) as Hd3.
  { assert (dealt enemy) as Hde.
    { apply (proj1 (Forall_forall dealt _) Hall). by eapply at_index_elem_of. }
    pose proof (applyPrediction_hand (bool_decide (gameMode r = TACTICAL))
                  (evaluateHand sel) enemy) as H1.
    pose proof (applyArmor_hand (bool_decide (gameMode r = TACTICAL)) d1 e1) as H2.
    rewrite Hdp in H1. rewrite Hda in H2. simpl in H1, H2.
    unfold dealt, e3. simpl. by rewrite H2, H1. }
  set (ps := setPlayer (currentPlayer r) actor' (setPlayer (1 - currentPlayer r) e3 (players r))).
  assert (at_index ps (currentPlayer r) = Some actor') as Hpa.
  { unfold ps. eapply at_index_setPlayer_eq.
    rewrite at_index_setPlayer_ne by lia. done. }
  assert (at_index ps (1 - currentPlayer r) = Some e3) as Hpe.
  { unfold ps. rewrite at_index_setPlayer_ne by lia. by eapply at_index_setPlayer_eq. }
  assert (Forall dealt ps) as Hdps by (by repeat apply Forall_setPlayer).
  unfold resolvePlay. rewrite He, Hdp, Hda, Hc.
  fold e3. fold ps.
  destruct (num_le (health e3) 0).
  - eexists _, _, e3. split; [done|]. simpl. repeat split; done.
  - unfold switchTurns.
    destruct (consumeAndRedraw_turn _ _ _ _ _ Hc) as (_ & Hcur & _).
    cbn [currentPlayer players with_lastPlayedHand with_players]. rewrite Hcur, Hpe.
    set (e4 := with_discardsUsed (Some 0) e3).
    set (ps' := setPlayer (1 - currentPlayer r) e4 ps).
    cbn [players with_players with_turn].
    assert (Forall dealt ps') as Hdps' by (by apply Forall_setPlayer).
    destruct (publicViews_is_Some (bool_decide (gameMode r = TACTICAL))
                (bool_decide (gameMode r = TACTICAL)) (currentPlayer r) ps' Hdps') as [vs Hvs].
    rewrite Hvs.
    eexists _, _, e4. split; [done|]. simpl.
    split; [done|]. split; [done|]. split; [done|]. split.
    { unfold ps'. rewrite at_index_setPlayer_ne by lia. done. }
    split; [|done]. unfold ps'. by eapply at_index_setPlayer_eq.
Qed.

Lemma playHand_resolved sid rid rnd s room nm actor sel r' ev :
  rooms s !! rid = Some room → sessions s !! sid = Some nm →
  gameState room = playing → indexOf sid room = currentPlayer room →
  at_index (players room) (currentPlayer room) = Some actor →
  selectedCards actor = Some sel → sel ≠ [] → valid (validateHand sel) = true →
  resolvePlay rid rnd room (currentPlayer room) actor sel = Some (r', ev) →
  playHand sid rid rnd s = Done (setRoom rid r' s) [ev].
Proof.
  intros Hr Hs Hst Hi Ha Hsel Hne Hv Hres. unfold playHand. rewrite Hr, Hs.
  rewrite (bool_decide_eq_true_2 _ Hst), (bool_decide_eq_true_2 _ Hi). simpl.
  rewrite Hi, Ha, Hsel, Hv. simpl.
  rewrite bool_decide_eq_false_2 by (by destruct sel). by rewrite Hres.
Qed.

(** ** Damage in Tactical mode *)

Lemma categoryBase_nonneg t : 0 ≤ Spec.categoryBase t.
Proof. unfold Spec.categoryBase. repeat case_decide; lia. Qed.

Lemma faceSum_nonneg cards : Forall (fun c => 0 ≤ rank c) cards → 0 ≤ Spec.faceSum cards.
Proof.
  induction 1 as [|c cards Hc _ IH]; [done|].
  change (Spec.faceSum (c :: cards)) with (Spec.face c + Spec.faceSum cards).
  unfold Spec.face. case_decide; lia.
Qed.

Lemma evaluateHand_damage cards :
  valid (validateHand cards) = true →
  damage (evaluateHand cards)
  = Spec.categoryBase (type (evaluateHand cards)) + Spec.faceSum cards.
Proof.
  intros Hv. rewrite (evaluateHand_valid _ Hv). simpl.
  destruct (handTypeOf_table (shapeOf cards)) as [_ ->].
  by rewrite foldl_faceValue.
Qed.

Lemma evaluateHand_damage_nonneg cards :
  valid (validateHand cards) = true → Forall (fun c => 0 ≤ rank c) cards →
  0 ≤ damage (evaluateHand cards).
Proof.
  intros Hv Hr. rewrite (evaluateHand_damage _ Hv).
  pose proof (categoryBase_nonneg (type (evaluateHand cards))).
  pose proof (faceSum_nonneg _ Hr). lia.
Qed.

Lemma predicted_floor right d :
  0 ≤ d → Spec.predicted right d = if right then d / 4 else (5 * d) / 4.
Proof.
  intros Hd. unfold Spec.predicted. rewrite Z.quot_div_nonneg by (destruct right; lia).
  destruct right.
  - replace 100 with (4 * 25) by done. by rewrite Z.div_mul_cancel_r by done.
  - replace (d * 125) with (5 * d * 25) by lia. replace 100 with (4 * 25) by done.
    by rewrite Z.div_mul_cancel_r by done.
Qed.

Lemma predicted_nonneg right d : 0 ≤ d → 0 ≤ Spec.predicted right d.
Proof.
  intros Hd. rewrite predicted_floor by done.
  destruct right; apply Z.div_pos; lia.
Qed.

Lemma consumeAndRedraw_plain rnd r actor h :
  gameMode r ≠ RECYCLING → hand actor = Some h →
  consumeAndRedraw rnd r actor
  = Some (with_piles (drop 8 (deck r)) (discardPile r) r,
          with_hand (Some (resetFlags <$> take 8 (deck r))) (with_selectedCards (Some []) actor)).
Proof.
  intros Hm Hh. unfold consumeAndRedraw, recycle. rewrite Hh.
  by rewrite decide_False by done.
Qed.

(** C5.  A valid play by the current player of a Tactical room whose
    opponent has health [hl] and armor [ar]: the damage starts from the
    classified damage; when the opponent holds a prediction it is multiplied
    by 0.25 if the predicted category is the actual one and by 1.25 if not,
    truncated toward zero, and the prediction is cleared either way; then
    [min ar damage] is taken from both the armor and the damage; what is
    left is taken from the opponent's health, floored at 0. *)
Theorem tactical_damage_resolution sid rid rnd s room nm actor sel enemy hl ar :
  rooms s !! rid = Some room → sessions s !! sid = Some nm →
  gameMode room = TACTICAL → gameState room = playing →
  indexOf sid room = currentPlayer room →
  at_index (players room) (currentPlayer room) = Some actor →
  selectedCards actor = Some sel → sel ≠ [] → valid (validateHand sel) = true →
  Forall (fun c => 1 ≤ rank c ≤ 13) sel →
  at_index (players room) (1 - currentPlayer room) = Some enemy →
  Forall dealt (players room) →
  health enemy = Some hl → armor enemy = Some ar → 0 ≤ ar →
  let res := evaluateHand sel in
  let pending := truthy (prediction enemy) in
  let d1 := if pending
            then Spec.predicted (bool_decide (prediction enemy = Some (type res))) (damage res)
            else damage res in
  let absorbed := Z.min ar d1 in
  ∃ s' evs room' enemy',
    playHand sid rid rnd s = Done s' evs
    ∧ rooms s' !! rid = Some room'
    ∧ at_index (players room') (1 - currentPlayer room) = Some enemy'
    ∧ prediction enemy' = (if pending then None else prediction enemy)
    ∧ armor enemy' = Some (ar - absorbed)
    ∧ health enemy' = Some (Z.max 0 (hl - (d1 - absorbed)))
    ∧ damage <$> lastPlayedHand room' = Some (d1 - absorbed).
Proof.
  intros Hr Hs Hm Hst Hi Ha Hsel Hne Hv Hranks He Hall Hhl Har Har0 res pending d1 absorbed.
  assert (0 ≤ damage res) as Hd.
  { apply evaluateHand_damage_nonneg; [done|].
    eapply Forall_impl; [exact Hranks|]. simpl. lia. }
  assert (0 ≤ d1) as Hd1.
  { unfold d1. destruct pending; [by apply predicted_nonneg|done]. }
  assert (dealt actor) as [h Hh].
  { apply (proj1 (Forall_forall dealt _) Hall). by eapply at_index_elem_of. }
  assert (gameMode room ≠ RECYCLING) as Hnr by (rewrite Hm; discriminate).
  pose proof (consumeAndRedraw_plain rnd room actor h Hnr Hh) as Hc.
  set (e1 := if pending then with_prediction None enemy else enemy).
  assert (applyPrediction (bool_decide (gameMode room = TACTICAL)) res enemy = (d1, e1)) as Hdp.
  { unfold applyPrediction, d1, e1. rewrite (bool_decide_eq_true_2 _ Hm). fold pending. simpl.
    destruct pending; [|done]. by rewrite predicted_floor by done. }
  set (e2 := with_armor (Some (ar - absorbed)) e1).
  assert (armor e1 = Some ar) as Har1 by (unfold e1; by destruct pending).
  assert (applyArmor (bool_decide (gameMode room = TACTICAL)) d1 e1
          = (d1 - absorbed, if bool_decide (0 < ar) then e2 else e1)) as Hda.
  { unfold applyArmor. rewrite (bool_decide_eq_true_2 _ Hm), Har1. simpl.
    destruct (bool_decide (0 < ar)) eqn:Hpos; [reflexivity|].
    apply bool_decide_eq_false in Hpos. unfold absorbed. f_equal. lia. }
  destruct (resolvePlay_result rid rnd room actor sel enemy _ _ _ _ _ _ Ha He Hall Hc Hdp Hda)
    as (r' & ev & e4 & Hres & _ & _ & Hlast & _ & He4 & Hp4 & Ha4 & Hh4).
  exists (setRoom rid r' s), [ev], r', e4.
  split; [by eapply playHand_resolved|]. split; [apply setRoom_lookup|].
  split; [done|].
  assert (prediction e1 = if pending then None else prediction enemy) as Hp1
    by (unfold e1; by destruct pending).
  assert (health e1 = Some hl) as Hh1 by (unfold e1; by destruct pending).
  split; [|split; [|split]].
  - rewrite Hp4. by destruct (bool_decide (0 < ar)).
  - rewrite Ha4. destruct (bool_decide (0 < ar)) eqn:Hpos; [reflexivity|].
    apply bool_decide_eq_false in Hpos. rewrite Har1. f_equal. unfold absorbed. lia.
  - rewrite Hh4. by destruct (bool_decide (0 < ar)); simpl; rewrite Hh1.
  - by rewrite Hlast.
Qed.

Lemma tactical_damage_resolution_witness :
  ∃ s' evs room' enemy',
    playHand "a" "r" ex_rnd (ex_server ex_predicted) = Done s' evs
    ∧ rooms s' !! "r" = Some room'
    ∧ at_index (players room') 1 = Some enemy'
    ∧ prediction enemy' = None
    ∧ armor enemy' = Some 0
    ∧ health enemy' = Some 82
    ∧ damage <$> lastPlayedHand room' = Some 18.
Proof.
  assert (Forall (fun c => 1 ≤ rank c ≤ 13) (ex_selection ex_predicted 0)) as Hranks
    by (apply (bool_decide_unpack _); vm_compute; exact I).
  assert (Forall (fun p => is_Some (hand p)) (players (ex_room ex_predicted))) as Hdealt
    by (apply (bool_decide_unpack _); vm_compute; exact I).
  destruct (tactical_damage_resolution "a" "r" ex_rnd (ex_server ex_predicted)
              (ex_room ex_predicted) "Ann" (ex_player ex_predicted 0)
              (ex_selection ex_predicted 0) (ex_player ex_predicted 1) 100 0
              ltac:(vm_compute; reflexivity) ltac:(vm_compute; reflexivity)
              ltac:(vm_compute; reflexivity) ltac:(vm_compute; reflexivity)
              ltac:(vm_compute; reflexivity) ltac:(vm_compute; reflexivity)
              ltac:(vm_compute; reflexivity) ltac:(vm_compute; discriminate)
              ltac:(vm_compute; reflexivity) Hranks
              ltac:(vm_compute; reflexivity) Hdealt
              ltac:(vm_compute; reflexivity) ltac:(vm_compute; reflexivity) ltac:(lia))
    as (s' & evs & room' & enemy' & H1 & H2 & H3 & H4 & H5 & H6 & H7).
  exists s', evs, room', enemy'.
  vm_compute in H4. vm_compute in H5. vm_compute in H6. vm_compute in H7.
  vm_compute (1 - currentPlayer _) in H3.
  repeat split; assumption.
Defined.

(** The example of the specification: armor 10 against damage 15 leaves no
    armor and 5 points of damage for the health. *)
Example armor_10_damage_15 p :
  armor p = Some 10 →
  (applyArmor true 15 p).1 = 5 ∧ armor (applyArmor true 15 p).2 = Some 0.
Proof. intros Ha. unfold applyArmor. rewrite Ha. done. Qed.

(** ** The examples of section 8 *)

Example validate_pair : valid (validateHand [mk clubs 7; mk diamonds 7]) = true.
Proof. vm_compute. reflexivity. Qed.

Example validate_not_trips :
  valid (validateHand [mk clubs 7; mk diamonds 7; mk spades 2]) = false.
Proof. vm_compute. reflexivity. Qed.

Example classify_royal_flush :
  evaluateHand ex_royal_flush
  = HandResult "Royal Flush" 110 "A, K, Q, J, 10 of same suit (Base: 50 + Face: 60)".
Proof. vm_compute. reflexivity. Qed.

Example classify_wheel :
  evaluateHand ex_wheel = HandResult "Straight" 48 "5 consecutive cards (Base: 20 + Face: 28)".
Proof. vm_compute. reflexivity. Qed.

(** * Further properties of the engine *)

(** ** The deck and the shuffle *)

Lemma swap_length {A} (l : list A) i j : length (swap l i j) = length l.
Proof. unfold swap. repeat case_match; by rewrite ?length_insert. Qed.

Lemma shuffleFrom_ext {A} rnd rnd' k i (l : list A) :
  (∀ n, (k ≤ n < k + i)%nat → rnd n = rnd' n) →
  shuffleFrom rnd k i l = shuffleFrom rnd' k i l.
Proof.
  revert k l. induction i as [|i IH]; intros k l Hrnd; [done|].
  simpl. rewrite (Hrnd k) by lia. apply IH. intros n Hn. apply Hrnd. lia.
Qed.

Lemma orderedDeck_ext rnd rnd' :
  (∀ n, (n < 52)%nat → rnd n = rnd' n) → orderedDeck rnd = orderedDeck rnd'.
Proof.
  intros Hrnd. unfold orderedDeck. apply imap_ext. intros k [s r] Hk.
  apply lookup_lt_Some in Hk. simpl. rewrite (Hrnd k); [done|]. exact Hk.
Qed.

Lemma orderedDeck_cards rnd :
  Forall (fun c => selected c = false ∧ markedForDiscard c = false
                   ∧ id_suit (cid c) = suit c ∧ id_rank (cid c) = rank c
                   ∧ 1 ≤ rank c ≤ 13) (orderedDeck rnd).
Proof.
  assert (Forall (fun e : Suit * Z => 1 ≤ e.2 ≤ 13) (s ← suits; r ← seqZ 1 13; [(s, r)]))
    as Hall by (apply (bool_decide_unpack _); vm_compute; exact I).
  apply Forall_forall. intros c Hin. unfold orderedDeck in Hin.
  apply elem_of_lookup_imap in Hin as (k & [s r] & -> & Hk).
  pose proof (proj1 (Forall_forall _ _) Hall (s, r) (list_elem_of_lookup_2 _ _ _ Hk)).
  done.
Qed.

Lemma createDeck_cards rnd :
  Forall (fun c => selected c = false ∧ markedForDiscard c = false
                   ∧ id_suit (cid c) = suit c ∧ id_rank (cid c) = rank c
                   ∧ 1 ≤ rank c ≤ 13) (createDeck rnd).
Proof. rewrite createDeck_Permutation. apply orderedDeck_cards. Qed.

(** X1.  Whatever the random numbers are, [createDeck] returns 52 cards:
    every combination of the four suits with the ranks 1 to 13 exactly
    once, with pairwise distinct ids, each id naming the suit and the rank
    of its card, and no card selected or marked.  It draws 103 random
    numbers (52 for the ids, 51 for the shuffle) and depends on nothing
    else. *)
Theorem createDeck_full_deck rnd :
  length (createDeck rnd) = 52%nat
  ∧ (fun c => (suit c, rank c)) <$> createDeck rnd ≡ₚ (s ← suits; r ← seqZ 1 13; [(s, r)])
  ∧ NoDup ((fun c => (suit c, rank c)) <$> createDeck rnd)
  ∧ NoDup (cid <$> createDeck rnd)
  ∧ Forall (fun c => selected c = false ∧ markedForDiscard c = false
                     ∧ id_suit (cid c) = suit c ∧ id_rank (cid c) = rank c
                     ∧ 1 ≤ rank c ≤ 13) (createDeck rnd)
  ∧ (∀ rnd', (∀ n, (n < createDeck_calls)%nat → rnd n = rnd' n) →
             createDeck rnd = createDeck rnd').
Proof.
  split; [apply createDeck_length|]. split; [apply createDeck_faces|].
  split; [|split; [apply createDeck_NoDup|split]].
  - rewrite createDeck_faces. apply (bool_decide_unpack _). vm_compute. exact I.
  - apply createDeck_cards.
  - intros rnd' Hrnd. unfold createDeck, shuffle, createDeck_calls in *.
    rewrite <- (orderedDeck_ext rnd rnd') by (intros n Hn; apply Hrnd; lia).
    apply shuffleFrom_ext. intros n Hn.
    assert (length (orderedDeck rnd) = 52%nat) as Hlen by reflexivity.
    rewrite Hlen in Hn. apply Hrnd. lia.
Qed.

(** X2.  The Fisher-Yates loop, as [createDeck], [playHand] and [buildArmor]
    run it, permutes the array it is given: no element is lost or
    duplicated and the length is kept, whatever the random numbers are; an
    array of at most one element is returned as it is; and the loop draws
    one random number for each element but the first. *)
Theorem shuffle_permutes {A} (rnd : nat → nat) (k : nat) (l : list A) :
  shuffle rnd k l ≡ₚ l
  ∧ length (shuffle rnd k l) = length l
  ∧ ((length l ≤ 1)%nat → shuffle rnd k l = l)
  ∧ (∀ rnd', (∀ n, (k ≤ n < k + (length l - 1))%nat → rnd n = rnd' n) →
             shuffle rnd k l = shuffle rnd' k l).
Proof.
  split; [apply shuffle_Permutation|].
  split; [apply Permutation_length, shuffle_Permutation|].
  split.
  - intros Hlen. unfold shuffle. by replace (length l - 1)%nat with 0%nat by lia.
  - intros rnd' Hrnd. by apply shuffleFrom_ext.
Qed.

(** ** The order of the cards does not matter *)

Lemma flush_Permutation cards cards' : cards ≡ₚ cards' → Spec.flush cards → Spec.flush cards'.
Proof.
  intros Hp. unfold Spec.flush. rewrite !Forall_forall. intros Hf a Ha.
  apply Forall_forall. intros b Hb.
  rewrite <- Hp in Ha, Hb. apply (proj1 (Forall_forall _ _) (Hf a Ha)), Hb.
Qed.

Lemma sorted_ranks_Permutation cards cards' :
  cards ≡ₚ cards' → rank <$> sortByRank cards = rank <$> sortByRank cards'.
Proof.
  intros Hp. apply sorted_perm_eq; try apply sorted_ranks_sorted.
  by rewrite !sorted_ranks_perm, Hp.
Qed.

Lemma isFlushOf_Permutation cards cards' :
  cards ≡ₚ cards' →
  isFlushOf cards (suit <$> sortByRank cards) = isFlushOf cards' (suit <$> sortByRank cards').
Proof.
  intros Hp. destruct (decide (length cards = 5%nat)) as [Hlen|Hlen].
  - assert (length cards' = 5%nat) as Hlen' by by rewrite <- Hp.
    pose proof (isFlushOf_spec cards (sortByRank cards) (sortByRank_perm _) Hlen) as H1.
    pose proof (isFlushOf_spec cards' (sortByRank cards') (sortByRank_perm _) Hlen') as H2.
    pose proof (flush_Permutation _ _ Hp). pose proof (flush_Permutation cards' cards).
    destruct (isFlushOf cards _), (isFlushOf cards' _); try done.
    + symmetry. apply H2. naive_solver.
    + apply H1. apply H0; [done|]. naive_solver.
  - assert (length cards' ≠ 5%nat) as Hlen' by by rewrite <- Hp.
    unfold isFlushOf. rewrite !(bool_decide_eq_false_2 (length _ = 5%nat)) by done.
    by rewrite !andb_false_r.
Qed.

Lemma shapeOf_Permutation cards cards' : cards ≡ₚ cards' → shapeOf cards = shapeOf cards'.
Proof.
  intros Hp. unfold shapeOf.
  rewrite (sorted_ranks_Permutation _ _ Hp), (isFlushOf_Permutation _ _ Hp).
  by rewrite (Permutation_length Hp).
Qed.

(** X3.  Neither [validateHand] nor [evaluateHand] depends on the order in
    which the cards are given: two arrangements of the same cards get the
    same verdict, error text, category, damage and description. *)
Theorem hand_order_is_irrelevant cards cards' :
  cards ≡ₚ cards' →
  validateHand cards = validateHand cards' ∧ evaluateHand cards = evaluateHand cards'.
Proof.
  intros Hp.
  assert (validateHand cards = validateHand cards') as Hv.
  { unfold validateHand. by rewrite (shapeOf_Permutation _ _ Hp), (Permutation_length Hp). }
  split; [done|]. unfold evaluateHand.
  rewrite Hv, (shapeOf_Permutation _ _ Hp), (Permutation_length Hp).
  by rewrite !foldl_faceValue, (faceSum_Permutation _ _ Hp).
Qed.

Lemma hand_order_is_irrelevant_witness :
  evaluateHand (reverse ex_wheel) = evaluateHand ex_wheel.
Proof.
  symmetry. apply (hand_order_is_irrelevant ex_wheel (reverse ex_wheel)).
  apply (bool_decide_unpack _). vm_compute. exact I.
Defined.

(** ** The category of a valid hand *)

Lemma counts_sum cards a b :
  counts (shapeOf cards) !! 0%nat = Some a → counts (shapeOf cards) !! 1%nat = Some b →
  (a + b ≤ length cards)%nat.
Proof.
  rewrite counts_shapeOf. intros Ha Hb.
  pose proof (countsOf_total (rank <$> sortByRank cards)) as Ht.
  rewrite length_fmap, sortByRank_length in Ht.
  destruct (countsOf _) as [|x [|y rest]]; simplify_eq/=.
  unfold total in Ht. simpl in Ht. lia.
Qed.

Lemma shape_small cards :
  length cards ≠ 5%nat →
  isFlush (shapeOf cards) = false ∧ isStraight (shapeOf cards) = false
  ∧ isLowStraight (shapeOf cards) = false ∧ isRoyal (shapeOf cards) = false.
Proof.
  intros Hlen. unfold shapeOf, isFlushOf.
  rewrite !(bool_decide_eq_false_2 (length cards = 5%nat)) by done.
  simpl. by rewrite andb_false_r.
Qed.

Lemma handTypeOf_small sh :
  isFlush sh = false → isStraight sh = false → isLowStraight sh = false → isRoyal sh = false →
  handTypeOf sh =
    if bool_decide (counts sh !! 0%nat = Some 4%nat) then "Four of a Kind"
    else if bool_decide (counts sh !! 0%nat = Some 3%nat)
            && bool_decide (counts sh !! 1%nat = Some 2%nat) then "Full House"
    else if bool_decide (counts sh !! 0%nat = Some 3%nat) then "Three of a Kind"
    else if bool_decide (counts sh !! 0%nat = Some 2%nat)
            && bool_decide (counts sh !! 1%nat = Some 2%nat) then "Two Pair"
    else if bool_decide (counts sh !! 0%nat = Some 2%nat) then "One Pair"
    else "High Card".
Proof. unfold handTypeOf. by intros -> -> -> ->. Qed.

Lemma fourAlike_ranks cards :
  fourAlike cards ↔ ∃ x, occZ x (rank <$> cards) = 4%nat.
Proof.
  unfold fourAlike. rewrite Exists_exists. split.
  - intros (a & _ & Ha). exists (rank a). by rewrite <- occ_occZ.
  - intros (x & Hx). destruct (occZ_rank_elem x cards 4 Hx) as (c & Hc & <-); [lia|].
    exists c. by rewrite occ_occZ.
Qed.

Lemma occZ_two_le (x y : Z) l : x ≠ y → (occZ x l + occZ y l ≤ length l)%nat.
Proof.
  intros Hne. induction l as [|z l IH]; [done|].
  rewrite !occZ_cons. simpl. repeat case_decide; simplify_eq; lia.
Qed.

Lemma counts_four_of_five cards :
  length cards = 5%nat →
  counts (shapeOf cards) !! 0%nat = Some 4%nat ↔ fourAlike cards.
Proof.
  intros Hlen. rewrite fourAlike_ranks. split.
  - intros H4. rewrite counts_shapeOf in H4.
    assert (4%nat ∈ countsOf (rank <$> sortByRank cards)) as Hin
      by by eapply list_elem_of_lookup_2.
    apply elem_of_countsOf in Hin as (r & Hr & _). exists r.
    by rewrite <- (occZ_Permutation r _ _ (sorted_ranks_perm cards)).
  - intros (x & Hx).
    assert (∃ y, y ≠ x ∧ occZ y (rank <$> cards) = 1%nat) as (y & Hy & Hy1).
    { assert (∃ y, y ∈ (rank <$> cards) ∧ y ≠ x) as (y & Hin & Hy).
      { destruct (decide (Forall (fun z => z = x) (rank <$> cards))) as [Hall|Hex].
        - apply occZ_Forall in Hall. rewrite length_fmap in Hall. lia.
        - apply not_Forall_Exists in Hex; [|apply _].
          apply Exists_exists in Hex as (y & ? & ?). eauto. }
      exists y. split; [done|]. apply occZ_pos in Hin.
      pose proof (occZ_two_le x y (rank <$> cards) ltac:(done)) as Hle.
      rewrite length_fmap in Hle. lia. }
    apply (counts_pairs 4 1 cards); [done|lia|lia|]. exists x, y. done.
Qed.

Lemma evaluateHand_type cards :
  valid (validateHand cards) = true → type (evaluateHand cards) = handTypeOf (shapeOf cards).
Proof. intros Hv. by rewrite (evaluateHand_valid _ Hv). Qed.

(** The category that [handTypeOf] reads off the shape of cards that
    [validateHand] accepts. *)
Lemma handTypeOf_categoryOf cards :
  valid (validateHand cards) = true → handTypeOf (shapeOf cards) = categoryOf cards.
Proof.
  intros Hv. unfold categoryOf.
  pose proof Hv as Hspec. apply validateHand_valid_iff in Hspec. unfold Spec.validPlay in Hspec.
  pose proof (counts_sum cards) as Hsum.
  destruct (decide (length cards = 5%nat)) as [H5|H5].
  - rewrite H5 in *. destruct (shape5 cards H5) as (Hf & Hl & Hs & Hr).
    pose proof (counts_four_of_five cards H5) as H4.
    pose proof (counts_pairs 3 2 cards H5 ltac:(lia) ltac:(lia)) as Hfh.
    rewrite <- fullHouse_ranks in Hfh.
    unfold handTypeOf.
    destruct (isRoyal (shapeOf cards)) eqn:Er.
    { rewrite decide_True by by apply Hr. done. }
    rewrite decide_False by (rewrite <- Hr; done).
    assert (isFlush (shapeOf cards) && (isStraight (shapeOf cards) || isLowStraight (shapeOf cards))
            = true ↔ Spec.straightFlush cards) as Hsf.
    { unfold Spec.straightFlush, Spec.straight. rewrite andb_true_iff, orb_true_iff, Hf, Hs, Hl.
      destruct (decide (Spec.wheel cards)); tauto. }
    destruct (isFlush (shapeOf cards) && _) eqn:Esf.
    { rewrite decide_True by by apply Hsf. done. }
    rewrite decide_False by (rewrite <- Hsf; done).
    case_bool_decide as E4.
    { rewrite decide_True by by apply H4. done. }
    rewrite decide_False by (rewrite <- H4; done).
    destruct (bool_decide (_ = Some 3%nat) && _) eqn:Efh.
    { rewrite decide_True; [done|]. apply Hfh.
      apply andb_true_iff in Efh as [?%bool_decide_eq_true ?%bool_decide_eq_true]. done. }
    rewrite decide_False.
    2:{ rewrite <- Hfh. intros [E1 E2].
        by rewrite (bool_decide_eq_true_2 _ E1), (bool_decide_eq_true_2 _ E2) in Efh. }
    destruct (isFlush (shapeOf cards)) eqn:Ef.
    { rewrite decide_True by by apply Hf. done. }
    rewrite decide_False by (rewrite <- Hf; done).
    destruct (isStraight (shapeOf cards) || isLowStraight (shapeOf cards)) eqn:Est; [done|].
    exfalso. apply orb_false_iff in Est as [Est Elo].
    unfold Spec.royalFlush, Spec.straightFlush, Spec.straight in Hspec.
    assert (¬ Spec.flush cards) by (rewrite <- Hf; done).
    assert (¬ Spec.wheel cards) by (rewrite <- Hl, Elo; done).
    assert (¬ Spec.fullHouse cards).
    { rewrite <- Hfh. intros [E1 E2].
      by rewrite (bool_decide_eq_true_2 _ E1), (bool_decide_eq_true_2 _ E2) in Efh. }
    assert (¬ Spec.genericStraight cards) by (intros Hg; rewrite Est in Hs; naive_solver).
    tauto.
  - destruct (shape_small cards H5) as (Hf & Hs & Hl & Hr).
    rewrite (handTypeOf_small _ Hf Hs Hl Hr).
    assert (cards ≠ []) as Hne by by apply validateHand_nonempty.
    pose proof (counts_sameRank cards Hne) as Hsame.
    destruct (length cards) as [|[|[|[|[|[|n]]]]]] eqn:Hlen; try done.
    + assert (Spec.sameRank cards) as Hs1.
      { destruct cards as [|c [|? ?]]; try done. repeat constructor. }
      apply Hsame in Hs1. by rewrite Hs1.
    + apply Hsame in Hspec. rewrite Hspec. simpl.
      destruct (counts (shapeOf cards) !! 1%nat) as [b|] eqn:Hb; [|done].
      specialize (Hsum _ _ Hspec eq_refl). repeat case_bool_decide; simplify_eq; (done || lia).
    + apply Hsame in Hspec. rewrite Hspec. simpl.
      destruct (counts (shapeOf cards) !! 1%nat) as [b|] eqn:Hb; [|done].
      specialize (Hsum _ _ Hspec eq_refl). repeat case_bool_decide; simplify_eq; (done || lia).
    + destruct (decide (Spec.sameRank cards)) as [Hs4|Hs4].
      * apply Hsame in Hs4. by rewrite Hs4.
      * destruct Hspec as [?|Htp]; [done|].
        apply twoPair_ranks in Htp.
        apply (counts_pairs 2 2 cards Hlen ltac:(lia) ltac:(lia)) in Htp as [E1 E2].
        by rewrite E1, E2.
Qed.

(** The damage of cards that [validateHand] accepts. *)
Lemma valid_hand_damage cards :
  valid (validateHand cards) = true →
  type (evaluateHand cards) ∈ Spec.categories
  ∧ damage (evaluateHand cards)
    = Spec.categoryBase (type (evaluateHand cards)) + Spec.faceSum cards.
Proof.
  intros Hv. rewrite (evaluateHand_valid _ Hv). simpl.
  destruct (handTypeOf_table (shapeOf cards)) as [Hin Hbase].
  rewrite Hbase, foldl_faceValue. split; [done|lia].
Qed.

Lemma royal_flush_damage cards :
  type (evaluateHand cards) = "Royal Flush" → damage (evaluateHand cards) = 110.
Proof.
  intros Hty. pose proof Hty as [Hv Hrf]%type_royal.
  assert (length cards = 5%nat) as H5.
  { destruct (decide (length cards = 5%nat)) as [?|Hn]; [done|].
    destruct (shape_small cards Hn) as (_ & _ & _ & E). congruence. }
  destruct (shape5 cards H5) as (_ & _ & _ & Hr5).
  destruct (proj1 Hr5 Hrf) as [_ Hy].
  destruct (valid_hand_damage cards Hv) as (_ & ->).
  rewrite Hty, (royalPattern_faceSum _ Hy). reflexivity.
Qed.

Lemma validateHand_length cards :
  valid (validateHand cards) = true → (0 < length cards ≤ 5)%nat.
Proof.
  intros Hv. apply validateHand_valid_iff in Hv. unfold Spec.validPlay in Hv.
  destruct (length cards) as [|[|[|[|[|[|n]]]]]]; (done || lia).
Qed.

(** C4.  For every set of cards that may be played, [evaluateHand] names
    the category that the rules give to the cards (by their number, and
    among five cards the highest-ranking one that fits) and returns as
    damage the base of that category (Royal Flush 50, Straight Flush 40,
    Four of a Kind 35, Full House 30, Flush 25, Straight 20, Three of a Kind
    15, Two Pair 10, One Pair 5, High Card 1) plus the face values of the
    cards, an ace counting 14 and every other rank itself; a royal flush
    scores 50 + 14 + 10 + 11 + 12 + 13 = 110. *)
Theorem classify_damage cards :
  valid (validateHand cards) = true →
  type (evaluateHand cards) = categoryOf cards
  ∧ categoryOf cards ∈ Spec.categories
  ∧ damage (evaluateHand cards) = Spec.categoryBase (categoryOf cards) + Spec.faceSum cards
  ∧ (Spec.royalFlush cards →
       type (evaluateHand cards) = "Royal Flush" ∧ damage (evaluateHand cards) = 110).
Proof.
  intros Hv. destruct (valid_hand_damage cards Hv) as (Hcat & Hd).
  assert (type (evaluateHand cards) = categoryOf cards) as Hty
    by by rewrite (evaluateHand_type _ Hv), (handTypeOf_categoryOf _ Hv).
  rewrite Hty in Hcat, Hd. split; [done|]. split; [done|]. split; [done|].
  intros Hrf.
  assert (type (evaluateHand cards) = "Royal Flush") as Hroyal.
  { rewrite Hty. unfold categoryOf.
    assert (length cards = 5%nat) as -> by (destruct Hrf as [_ Hy]; by apply royalPattern_length).
    by rewrite decide_True. }
  split; [done|]. by apply royal_flush_damage.
Qed.

Lemma classify_damage_witness :
  (type (evaluateHand ex_wheel) = "Straight" ∧ damage (evaluateHand ex_wheel) = 48)
  ∧ type (evaluateHand ex_royal_flush) = "Royal Flush"
  ∧ damage (evaluateHand ex_royal_flush) = 110.
Proof.
  destruct (classify_damage ex_wheel ltac:(vm_compute; reflexivity)) as (Hty & _ & Hd & _).
  destruct (classify_damage ex_royal_flush ltac:(vm_compute; reflexivity)) as (_ & _ & _ & Hrf).
  split.
  - rewrite Hty, Hd. vm_compute. split; reflexivity.
  - apply Hrf. apply (bool_decide_unpack _). vm_compute. exact I.
Defined.

(** X4.  The category that [evaluateHand] gives to a set of cards that
    [validateHand] accepts: High Card for one card, One Pair for two, Three
    of a Kind for three, Four of a Kind or Two Pair for four, and for five
    cards the first that fits of Royal Flush, Straight Flush, Four of a Kind
    (four cards of one rank among five of one suit), Full House, Flush and
    Straight. *)
Theorem evaluateHand_category cards :
  valid (validateHand cards) = true → type (evaluateHand cards) = categoryOf cards.
Proof.
  intros Hv. rewrite (evaluateHand_type _ Hv). by apply handTypeOf_categoryOf.
Qed.

Lemma evaluateHand_category_witness :
  type (evaluateHand ex_wheel) = "Straight".
Proof.
  rewrite (evaluateHand_category ex_wheel); vm_compute; reflexivity.
Defined.

(** ** How much a hand can score *)

Lemma validateHand_error cards :
  valid (validateHand cards) = false → is_Some (error (validateHand cards)).
Proof.
  unfold validateHand. case_bool_decide; [by eauto|].
  destruct (length cards) as [|[|[|[|[|[|n]]]]]]; repeat case_match; simpl; by eauto.
Qed.

Lemma validateHand_accepts cards :
  valid (validateHand cards) = true → error (validateHand cards) = None.
Proof.
  unfold validateHand. case_bool_decide; [done|].
  destruct (length cards) as [|[|[|[|[|[|n]]]]]]; repeat case_match; simpl; done.
Qed.

Lemma faceSum_cons c cards : Spec.faceSum (c :: cards) = Spec.face c + Spec.faceSum cards.
Proof. done. Qed.

Lemma occ_cons r c cards :
  Spec.occ r (c :: cards) = if decide (rank c = r) then S (Spec.occ r cards) else Spec.occ r cards.
Proof. unfold Spec.occ. rewrite filter_cons. by case_decide. Qed.

Lemma faceSum_bounds cards :
  Forall (fun c => 1 ≤ rank c ≤ 13) cards →
  2 * Z.of_nat (length cards) ≤ Spec.faceSum cards
  ∧ Spec.faceSum cards ≤ 13 * Z.of_nat (length cards) + Z.of_nat (Spec.occ 1 cards).
Proof.
  induction 1 as [|c cards Hc _ IH]; [done|].
  rewrite faceSum_cons, occ_cons. unfold Spec.face. cbn [length].
  repeat case_decide; lia.
Qed.

Lemma occ_le_length r cards : (Spec.occ r cards ≤ length cards)%nat.
Proof. unfold Spec.occ. apply length_filter. Qed.

Lemma categoryBase_bounds t :
  t ∈ Spec.categories →
  1 ≤ Spec.categoryBase t ≤ 50 ∧ (t ≠ "Royal Flush" → Spec.categoryBase t ≤ 40).
Proof.
  unfold Spec.categories. intros Hin. set_unfold in Hin.
  destruct Hin as [->|[->|[->|[->|[->|[->|[->|[->|[->|[->|[]]]]]]]]]]];
    vm_compute; (split; [split|]); congruence.
Qed.

(** What [evaluateHand] answers for cards that [validateHand] rejects. *)
Lemma evaluateHand_rejected cards :
  valid (validateHand cards) = false →
  damage (evaluateHand cards) = 0
  ∧ (type (evaluateHand cards) ∉ Spec.categories)
  ∧ type (evaluateHand cards) = (if decide (cards = []) then "No Cards" else "Invalid Hand")
  ∧ Some (description (evaluateHand cards)) = error (validateHand cards).
Proof.
  intros Hv. destruct (validateHand_error _ Hv) as [e He].
  unfold evaluateHand. rewrite Hv, He. destruct cards as [|c cards]; simpl.
  - split; [done|]. split; [|by inversion He].
    unfold Spec.categories. set_unfold. intros H.
    repeat (destruct H as [H|H]; [discriminate H|]). done.
  - split; [done|]. split; [|done].
    unfold Spec.categories. set_unfold. intros H.
    repeat (destruct H as [H|H]; [discriminate H|]). done.
Qed.

(** X5.  What [evaluateHand] returns.  For cards that [validateHand]
    rejects: damage 0 and no category, the type being [No Cards] for no
    card at all and [Invalid Hand] otherwise, with the error text of
    [validateHand] as description.  For cards of rank 1 to 13 that
    [validateHand] accepts: a damage of at least 3 and at most 110.  So the
    damage of such cards is 0 exactly when they may not be played. *)
Theorem evaluateHand_damage_range cards :
  (valid (validateHand cards) = false →
     damage (evaluateHand cards) = 0
     ∧ (type (evaluateHand cards) ∉ Spec.categories)
     ∧ type (evaluateHand cards) = (if decide (cards = []) then "No Cards" else "Invalid Hand")
     ∧ Some (description (evaluateHand cards)) = error (validateHand cards))
  ∧ (valid (validateHand cards) = true → Forall (fun c => 1 ≤ rank c ≤ 13) cards →
       3 ≤ damage (evaluateHand cards) ≤ 110)
  ∧ (Forall (fun c => 1 ≤ rank c ≤ 13) cards →
       damage (evaluateHand cards) = 0 ↔ valid (validateHand cards) = false).
Proof.
  pose proof (evaluateHand_rejected cards) as Hinv.
  assert (valid (validateHand cards) = true → Forall (fun c => 1 ≤ rank c ≤ 13) cards →
          3 ≤ damage (evaluateHand cards) ≤ 110) as Hval.
  { intros Hv Hr.
    destruct (decide (type (evaluateHand cards) = "Royal Flush")) as [Hrf|Hrf].
    { rewrite (royal_flush_damage _ Hrf). lia. }
    destruct (valid_hand_damage cards Hv) as (Hcat & ->).
    destruct (categoryBase_bounds _ Hcat) as [Hb Hb'].
    destruct (faceSum_bounds _ Hr) as [Hlo Hhi].
    pose proof (occ_le_length 1 cards) as Hocc.
    pose proof (validateHand_length _ Hv) as Hlen.
    split; [lia|].
    specialize (Hb' Hrf). destruct (decide (length cards = 5%nat)); lia. }
  split; [exact Hinv|]. split; [exact Hval|].
  intros Hr. destruct (valid (validateHand cards)) eqn:Hv.
  - specialize (Hval eq_refl Hr). split; [lia|done].
  - destruct (Hinv eq_refl) as [-> _]. done.
Qed.

Lemma evaluateHand_damage_range_witness :
  3 ≤ damage (evaluateHand ex_wheel) ≤ 110
  ∧ damage (evaluateHand ex_broadway) = 0.
Proof.
  assert (Forall (fun c => 1 ≤ rank c ≤ 13) ex_wheel) as Hr
    by (apply (bool_decide_unpack _); vm_compute; exact I).
  destruct (evaluateHand_damage_range ex_wheel) as (_ & Hval & _).
  destruct (evaluateHand_damage_range ex_broadway) as (Hinv & _ & _).
  split.
  - apply Hval; [vm_compute; reflexivity|exact Hr].
  - apply Hinv. vm_compute. reflexivity.
Defined.

(** ** Only a royal flush scores 100 *)

Lemma faceSum_five r1 r2 r3 r4 r5 cards :
  rank <$> cards ≡ₚ [r1; r2; r3; r4; r5] →
  Spec.faceSum cards
  = faceOfRank r1 + faceOfRank r2 + faceOfRank r3 + faceOfRank r4 + faceOfRank r5.
Proof.
  intros Hp. rewrite faceSum_sumZ.
  rewrite (sumZ_Permutation _ (faceOfRank <$> [r1; r2; r3; r4; r5])) by by rewrite Hp.
  unfold sumZ. simpl. lia.
Qed.

Lemma straight_faceSum cards :
  length cards = 5%nat → Forall (fun c => 1 ≤ rank c ≤ 13) cards →
  Spec.straight cards → Spec.faceSum cards ≤ 55.
Proof.
  intros Hlen Hr [Hw|[Hnd Hsp]].
  - rewrite (faceSum_five 1 2 3 4 5 cards Hw). vm_compute. discriminate.
  - destruct (sorted5 cards Hlen) as (r1 & r2 & r3 & r4 & r5 & Hs & H12 & H23 & H34 & H45).
    assert (rank <$> cards ≡ₚ [r1; r2; r3; r4; r5]) as Hp
      by by rewrite <- Hs, sorted_ranks_perm.
    apply (span_sorted5 cards 4 r1 r2 r3 r4 r5 Hp H12 H23 H34 H45) in Hsp.
    unfold Spec.distinctRanks in Hnd. rewrite Hp in Hnd.
    assert (Forall (fun r => 1 ≤ r ≤ 13) [r1; r2; r3; r4; r5]) as Hb.
    { rewrite <- Hp. apply Forall_fmap. exact Hr. }
    rewrite (faceSum_five _ _ _ _ _ _ Hp).
    apply NoDup_cons in Hnd as [N1 Hnd]. apply NoDup_cons in Hnd as [N2 Hnd].
    apply NoDup_cons in Hnd as [N3 Hnd]. apply NoDup_cons in Hnd as [N4 _].
    set_unfold in N1. set_unfold in N2. set_unfold in N3. set_unfold in N4.
    repeat (apply Forall_cons in Hb as [? Hb]).
    unfold faceOfRank. repeat case_decide; lia.
Qed.

Lemma flush_distinct_ranks cards :
  Spec.flush cards → distinctFaces cards → Spec.distinctRanks cards.
Proof.
  unfold Spec.flush, distinctFaces, Spec.distinctRanks. intros Hf Hnd.
  destruct cards as [|c0 cards]; [constructor|].
  apply Forall_cons in Hf as [Hc0 _].
  assert ((fun c => (suit c, rank c)) <$> c0 :: cards = pair (suit c0) <$> (rank <$> c0 :: cards))
    as Heq.
  { rewrite <- list_fmap_compose. apply Forall_fmap_ext_1.
    eapply Forall_impl; [exact Hc0|]. intros c Hc. simpl. by rewrite Hc. }
  rewrite Heq in Hnd. by apply NoDup_fmap in Hnd; [|apply _].
Qed.

Lemma fourAlike_not_distinct cards : fourAlike cards → ¬ Spec.distinctRanks cards.
Proof.
  intros (x & Hx)%fourAlike_ranks Hnd. pose proof (occZ_NoDup x _ Hnd). lia.
Qed.

Lemma straight_distinct cards : Spec.straight cards → Spec.distinctRanks cards.
Proof. intros [Hw|[Hnd _]]; [by apply wheel_NoDup|done]. Qed.

Lemma fullHouse_aces cards :
  length cards = 5%nat → Spec.fullHouse cards → (Spec.occ 1 cards ≤ 3)%nat.
Proof.
  intros Hlen (x & y & Hxy & Hx & Hy)%fullHouse_ranks. rewrite occ_occZ.
  destruct (decide (x = 1)) as [->|H1]; [lia|].
  pose proof (occZ_two_le x 1 (rank <$> cards) H1) as Hle.
  rewrite length_fmap in Hle. lia.
Qed.

(** X6.  Among cards of one deck (ranks 1 to 13, no two cards alike in both
    suit and rank) a play scores 100 or more exactly when it is a royal
    flush, which scores 110; every other play scores at most 98.  So only a
    royal flush takes 100 points of health at once, and no play takes
    150. *)
Theorem only_royal_flush_scores_100 cards :
  valid (validateHand cards) = true →
  Forall (fun c => 1 ≤ rank c ≤ 13) cards → distinctFaces cards →
  (100 ≤ damage (evaluateHand cards) ↔ type (evaluateHand cards) = "Royal Flush")
  ∧ (type (evaluateHand cards) = "Royal Flush" → damage (evaluateHand cards) = 110)
  ∧ (type (evaluateHand cards) ≠ "Royal Flush" → damage (evaluateHand cards) ≤ 98).
Proof.
  intros Hv Hr Hnd.
  assert (type (evaluateHand cards) = "Royal Flush" → damage (evaluateHand cards) = 110) as H110.
  { apply royal_flush_damage. }
  assert (type (evaluateHand cards) ≠ "Royal Flush" → damage (evaluateHand cards) ≤ 98) as H98.
  { intros Hrf. destruct (valid_hand_damage cards Hv) as (_ & ->).
    rewrite (evaluateHand_type _ Hv), (handTypeOf_categoryOf _ Hv) in *.
    destruct (faceSum_bounds _ Hr) as [_ Hhi].
    pose proof (occ_le_length 1 cards) as Hocc.
    pose proof Hv as Hspec. apply validateHand_valid_iff in Hspec.
    unfold Spec.validPlay in Hspec. unfold categoryOf in *.
    destruct (length cards) as [|[|[|[|[|[|n]]]]]] eqn:Hlen; try done.
    - vm_compute Spec.categoryBase. lia.
    - vm_compute Spec.categoryBase. lia.
    - vm_compute Spec.categoryBase. lia.
    - case_decide; vm_compute Spec.categoryBase; lia.
    - destruct (decide (Spec.royalFlush cards)); [done|].
      destruct (decide (Spec.straightFlush cards)) as [[_ Hst]|Hsf].
      { pose proof (straight_faceSum cards Hlen Hr Hst). vm_compute Spec.categoryBase. lia. }
      destruct (decide (fourAlike cards)) as [H4|H4].
      { exfalso. apply (fourAlike_not_distinct _ H4).
        unfold Spec.royalFlush, Spec.straightFlush in *.
        destruct Hspec as [?|[?|[Hfh|[Hfl|Hst]]]]; try done.
        - apply fullHouse_ranks in Hfh as (x & y & Hxy & Hx & Hy).
          apply fourAlike_ranks in H4 as (z & Hz).
          destruct (decide (z = x)) as [->|Hzx]; [lia|].
          pose proof (occZ_two_le z x (rank <$> cards) Hzx) as Hle.
          rewrite length_fmap in Hle. lia.
        - by apply flush_distinct_ranks.
        - by apply straight_distinct. }
      destruct (decide (Spec.fullHouse cards)) as [Hfh|Hfh].
      { pose proof (fullHouse_aces cards Hlen Hfh). vm_compute Spec.categoryBase. lia. }
      destruct (decide (Spec.flush cards)) as [Hfl|Hfl].
      { vm_compute Spec.categoryBase. lia. }
      vm_compute Spec.categoryBase. lia. }
  split; [|split; [exact H110|exact H98]].
  split.
  - intros Hd. destruct (decide (type (evaluateHand cards) = "Royal Flush")); [done|].
    specialize (H98 ltac:(done)). lia.
  - intros Hrf. rewrite (H110 Hrf). lia.
Qed.

Lemma only_royal_flush_scores_100_witness :
  damage (evaluateHand ex_royal_flush) = 110 ∧ damage (evaluateHand ex_wheel) ≤ 98.
Proof.
  assert (∀ cards, bool_decide (Forall (fun c => 1 ≤ rank c ≤ 13) cards) = true →
                   Forall (fun c => 1 ≤ rank c ≤ 13) cards) as Hr
    by (intros cards; apply bool_decide_eq_true_1).
  assert (∀ cards, bool_decide (NoDup ((fun c => (suit c, rank c)) <$> cards)) = true →
                   distinctFaces cards) as Hd
    by (intros cards; apply bool_decide_eq_true_1).
  split.
  - apply (only_royal_flush_scores_100 ex_royal_flush);
      [vm_compute; reflexivity|apply Hr; vm_compute; reflexivity
      |apply Hd; vm_compute; reflexivity|vm_compute; reflexivity].
  - apply (only_royal_flush_scores_100 ex_wheel);
      [vm_compute; reflexivity|apply Hr; vm_compute; reflexivity
      |apply Hd; vm_compute; reflexivity|vm_compute; discriminate].
Defined.

(** ** Writing a player or a room back *)

Lemma setPlayer_setPlayer i p q ps : setPlayer i p (setPlayer i q ps) = setPlayer i p ps.
Proof. unfold setPlayer. case_decide; [apply list_insert_insert_eq|done]. Qed.

Lemma setPlayer_id i p ps : at_index ps i = Some p → setPlayer i p ps = ps.
Proof.
  intros [Hi Hp]%at_index_Some. unfold setPlayer. rewrite decide_True by done.
  by apply list_insert_id.
Qed.

Lemma setRoom_setRoom rid r r' s : setRoom rid r (setRoom rid r' s) = setRoom rid r s.
Proof. unfold setRoom. simpl. by rewrite insert_insert_eq. Qed.

Lemma setRoom_id rid r s : rooms s !! rid = Some r → setRoom rid r s = s.
Proof. intros Hr. destruct s as [rs ss]. unfold setRoom. simpl in *. by rewrite insert_id. Qed.

Lemma with_players_id r : with_players (players r) r = r.
Proof. by destruct r. Qed.

Lemma indexOf_pids sid r r' :
  pid <$> players r' = pid <$> players r → indexOf sid r' = indexOf sid r.
Proof.
  intros Hp. unfold indexOf, findIndex.
  pose proof (list_find_fmap pid (fun x => x = sid) (players r)) as H1.
  pose proof (list_find_fmap pid (fun x => x = sid) (players r')) as H2.
  rewrite Hp, H1 in H2. unfold compose in H2.
  destruct (list_find _ (players r)) as [[i x]|], (list_find _ (players r')) as [[j y]|];
    simplify_eq/=; done.
Qed.

Lemma pids_setPlayer ps i p p' :
  at_index ps i = Some p → pid p' = pid p → pid <$> setPlayer i p' ps = pid <$> ps.
Proof.
  intros (l1 & l2 & -> & Hset)%setPlayer_split Hp.
  by rewrite Hset, !fmap_app, !fmap_cons, Hp.
Qed.

Lemma list_find_insert_same {A} (P : A → Prop) `{!∀ x, Decision (P x)} (l : list A) i x y :
  list_find P l = Some (i, x) → P y → list_find P (<[i := y]> l) = Some (i, y).
Proof.
  intros (Hi & Hx & Hlt)%list_find_Some Hy. apply list_find_Some.
  split; [apply list_lookup_insert_eq; by eapply lookup_lt_Some|]. split; [done|].
  intros j z Hj Hji. rewrite list_lookup_insert_ne in Hj by lia. by eapply Hlt.
Qed.

Lemma toggleSelected_twice c : toggleSelected (toggleSelected c) = c.
Proof. destruct c. unfold toggleSelected. simpl. by rewrite negb_involutive. Qed.

Lemma toggleMarked_twice c : toggleMarked (toggleMarked c) = c.
Proof. destruct c. unfold toggleMarked. simpl. by rewrite negb_involutive. Qed.

Lemma markAlias_twice cardId sel : markAlias cardId (markAlias cardId sel) = sel.
Proof.
  unfold markAlias. rewrite <- list_fmap_compose.
  rewrite <- (list_fmap_id sel) at 2. apply list_fmap_ext. intros _ c _. simpl.
  destruct (decide (cid c = cardId)) as [Hc|Hc].
  - rewrite decide_True by done. apply toggleMarked_twice.
  - by rewrite decide_False.
Qed.

(** ** The selection toggles *)

Lemma selectCard_resolved sid rid cardId s room nm actor h i c :
  rooms s !! rid = Some room → sessions s !! sid = Some nm →
  gameState room = playing → indexOf sid room = currentPlayer room →
  at_index (players room) (currentPlayer room) = Some actor → hand actor = Some h →
  list_find (fun c => cid c = cardId) h = Some (i, c) →
  selectCard sid rid cardId s
  = Done (setRoom rid
            (with_players (setPlayer (currentPlayer room) (selectedOf i c h actor) (players room))
               room) s)
      [Event (ToRoom rid) "cardSelected"
         (CardSelected (currentPlayer room) cardId (negb (selected c)))].
Proof.
  intros Hr Hs Hst Hi Ha Hh Hf. unfold selectCard. rewrite Hr, Hs.
  rewrite (bool_decide_eq_true_2 _ Hst), (bool_decide_eq_true_2 _ Hi). simpl.
  by rewrite Hi, Ha, Hh, Hf.
Qed.

Lemma selectCard_inv sid rid cardId s s1 evs1 :
  selectCard sid rid cardId s = Done s1 evs1 →
  (s1 = s ∧ evs1 = [])
  ∨ ∃ room nm actor h i c,
      rooms s !! rid = Some room ∧ sessions s !! sid = Some nm
      ∧ gameState room = playing ∧ indexOf sid room = currentPlayer room
      ∧ at_index (players room) (currentPlayer room) = Some actor ∧ hand actor = Some h
      ∧ list_find (fun c => cid c = cardId) h = Some (i, c).
Proof.
  unfold selectCard.
  destruct (rooms s !! rid) as [room|] eqn:Hr; [|intros [<- <-]%Done_inj; by left].
  destruct (sessions s !! sid) as [nm|] eqn:Hs; [|intros [<- <-]%Done_inj; by left].
  case_bool_decide as Hst; simpl; [|intros [<- <-]%Done_inj; by left].
  case_bool_decide as Hi; simpl; [|intros [<- <-]%Done_inj; by left].
  rewrite Hi.
  destruct (at_index (players room) (currentPlayer room)) as [actor|] eqn:Ha; [|done].
  destruct (hand actor) as [h|] eqn:Hh; [|done].
  destruct (list_find _ h) as [[i c]|] eqn:Hf; [|intros [<- <-]%Done_inj; by left].
  intros _. right. exists room, nm, actor, h, i, c. done.
Qed.

Lemma markForDiscard_resolved sid rid cardId s room nm actor h i c :
  rooms s !! rid = Some room → sessions s !! sid = Some nm →
  gameState room = playing → indexOf sid room = currentPlayer room →
  at_index (players room) (currentPlayer room) = Some actor → hand actor = Some h →
  list_find (fun c => cid c = cardId) h = Some (i, c) →
  markForDiscard sid rid cardId s
  = Done (setRoom rid
            (with_players
               (setPlayer (currentPlayer room) (markedOf cardId i c h actor) (players room))
               room) s)
      [Event (ToRoom rid) "cardMarkedForDiscard"
         (CardMarked (currentPlayer room) cardId (negb (markedForDiscard c)))].
Proof.
  intros Hr Hs Hst Hi Ha Hh Hf. unfold markForDiscard. rewrite Hr, Hs.
  rewrite (bool_decide_eq_true_2 _ Hst), (bool_decide_eq_true_2 _ Hi). simpl.
  by rewrite Hi, Ha, Hh, Hf.
Qed.

Lemma markForDiscard_inv sid rid cardId s s1 evs1 :
  markForDiscard sid rid cardId s = Done s1 evs1 →
  (s1 = s ∧ evs1 = [])
  ∨ ∃ room nm actor h i c,
      rooms s !! rid = Some room ∧ sessions s !! sid = Some nm
      ∧ gameState room = playing ∧ indexOf sid room = currentPlayer room
      ∧ at_index (players room) (currentPlayer room) = Some actor ∧ hand actor = Some h
      ∧ list_find (fun c => cid c = cardId) h = Some (i, c).
Proof.
  unfold markForDiscard.
  destruct (rooms s !! rid) as [room|] eqn:Hr; [|intros [<- <-]%Done_inj; by left].
  destruct (sessions s !! sid) as [nm|] eqn:Hs; [|intros [<- <-]%Done_inj; by left].
  case_bool_decide as Hst; simpl; [|intros [<- <-]%Done_inj; by left].
  case_bool_decide as Hi; simpl; [|intros [<- <-]%Done_inj; by left].
  rewrite Hi.
  destruct (at_index (players room) (currentPlayer room)) as [actor|] eqn:Ha; [|done].
  destruct (hand actor) as [h|] eqn:Hh; [|done].
  destruct (list_find _ h) as [[i c]|] eqn:Hf; [|intros [<- <-]%Done_inj; by left].
  intros _. right. exists room, nm, actor, h, i, c. done.
Qed.

(** A request that rewrites the player at turn, keeping its id, can be
    followed by a request of the same session under the same guards. *)
Lemma guards_after_rewrite sid rid s room nm actor p' :
  rooms s !! rid = Some room → sessions s !! sid = Some nm →
  gameState room = playing → indexOf sid room = currentPlayer room →
  at_index (players room) (currentPlayer room) = Some actor → pid p' = pid actor →
  let room' := with_players (setPlayer (currentPlayer room) p' (players room)) room in
  rooms (setRoom rid room' s) !! rid = Some room'
  ∧ sessions (setRoom rid room' s) !! sid = Some nm
  ∧ gameState room' = playing ∧ indexOf sid room' = currentPlayer room'
  ∧ at_index (players room') (currentPlayer room') = Some p'.
Proof.
  intros Hr Hs Hst Hi Ha Hp room'.
  split; [apply setRoom_lookup|]. split; [done|]. split; [done|]. split.
  - rewrite (indexOf_pids sid room room'); [exact Hi|]. simpl. by eapply pids_setPlayer.
  - simpl. by eapply at_index_setPlayer_eq.
Qed.

(** X7.  The two selection toggles undo themselves.  When the selection of
    the player at turn is the set of selected cards of the hand, a second
    [selectCard] for the same card brings the server back to the state in
    which the first one found it; a second [markForDiscard] for the same
    card always does.  Either both requests take effect or neither does. *)
Theorem toggles_undo_themselves sid rid cardId s room :
  rooms s !! rid = Some room →
  (∀ actor s1 evs1,
     at_index (players room) (currentPlayer room) = Some actor →
     selectedCards actor = filter (fun c => selected c = true) <$> hand actor →
     selectCard sid rid cardId s = Done s1 evs1 →
     ∃ evs2, selectCard sid rid cardId s1 = Done s evs2 ∧ length evs2 = length evs1)
  ∧ (∀ s1 evs1,
       markForDiscard sid rid cardId s = Done s1 evs1 →
       ∃ evs2, markForDiscard sid rid cardId s1 = Done s evs2 ∧ length evs2 = length evs1).
Proof.
  intros Hroom. split.
  - intros actor0 s1 evs1 Ha0 Hsync Hop. pose proof Hop as Hop'.
    apply selectCard_inv in Hop'
      as [[-> ->]|(r & nm & actor & h & i & c & Hr & Hs & Hst & Hi & Ha & Hh & Hf)].
    { exists []. done. }
    assert (r = room) as -> by congruence. clear Hr.
    assert (actor = actor0) as -> by congruence. clear Ha. rename Ha0 into Ha.
    rewrite (selectCard_resolved _ _ _ _ _ _ _ _ _ _ Hroom Hs Hst Hi Ha Hh Hf) in Hop.
    apply Done_inj in Hop as [<- <-].
    destruct (guards_after_rewrite sid rid s room nm actor0 (selectedOf i c h actor0)
                Hroom Hs Hst Hi Ha eq_refl) as (Hr1 & Hs1 & Hst1 & Hi1 & Ha1).
    assert (cid (toggleSelected c) = cardId) as Hc.
    { apply list_find_Some in Hf as (_ & Hc & _). done. }
    pose proof (list_find_insert_same (fun c => cid c = cardId) h i c (toggleSelected c) Hf Hc)
      as Hf1.
    eexists. split; [|shelve].
    rewrite (selectCard_resolved _ _ _ _ _ _ _ _ _ _ Hr1 Hs1 Hst1 Hi1 Ha1 eq_refl Hf1).
    apply (f_equal2 Done); [|reflexivity]. rewrite setRoom_setRoom. cbn [players currentPlayer with_players].
    rewrite setPlayer_setPlayer.
    assert (selectedOf i (toggleSelected c) (<[i := toggleSelected c]> h) (selectedOf i c h actor0)
            = actor0) as ->.
    { unfold selectedOf. rewrite toggleSelected_twice, list_insert_insert_eq.
      rewrite (list_insert_id h i c) by (by apply list_find_Some in Hf as (? & _)).
      rewrite Hh in Hsync. simpl in Hsync. destruct actor0. simpl in *. by rewrite Hsync, Hh. }
    rewrite (setPlayer_id _ _ _ Ha).
    change (with_players (players room) (with_players _ room)) with (with_players (players room) room).
    rewrite with_players_id. rewrite (setRoom_id _ _ _ Hroom). reflexivity.
    Unshelve. reflexivity.
  - intros s1 evs1 Hop. pose proof Hop as Hop'.
    apply markForDiscard_inv in Hop'
      as [[-> ->]|(r & nm & actor & h & i & c & Hr & Hs & Hst & Hi & Ha & Hh & Hf)].
    { exists []. done. }
    assert (r = room) as -> by congruence. clear Hr.
    rewrite (markForDiscard_resolved _ _ _ _ _ _ _ _ _ _ Hroom Hs Hst Hi Ha Hh Hf) in Hop.
    apply Done_inj in Hop as [<- <-].
    destruct (guards_after_rewrite sid rid s room nm actor (markedOf cardId i c h actor)
                Hroom Hs Hst Hi Ha eq_refl) as (Hr1 & Hs1 & Hst1 & Hi1 & Ha1).
    assert (cid (toggleMarked c) = cardId) as Hc.
    { apply list_find_Some in Hf as (_ & Hc & _). done. }
    pose proof (list_find_insert_same (fun c => cid c = cardId) h i c (toggleMarked c) Hf Hc)
      as Hf1.
    eexists. split; [|shelve].
    rewrite (markForDiscard_resolved _ _ _ _ _ _ _ _ _ _ Hr1 Hs1 Hst1 Hi1 Ha1 eq_refl Hf1).
    apply (f_equal2 Done); [|reflexivity]. rewrite setRoom_setRoom. cbn [players currentPlayer with_players].
    rewrite setPlayer_setPlayer.
    assert (markedOf cardId i (toggleMarked c) (<[i := toggleMarked c]> h)
              (markedOf cardId i c h actor) = actor) as ->.
    { unfold markedOf. rewrite toggleMarked_twice, list_insert_insert_eq.
      rewrite (list_insert_id h i c) by (by apply list_find_Some in Hf as (? & _)).
      change (selected (toggleMarked c)) with (selected c).
      destruct actor as [? ? ? ? ? sel ? ? ? ? ?]. simpl in *. rewrite Hh.
      destruct (selected c); [|done]. destruct sel as [sel|]; [|done]. simpl.
      by rewrite markAlias_twice. }
    rewrite (setPlayer_id _ _ _ Ha).
    change (with_players (players room) (with_players _ room)) with (with_players (players room) room).
    rewrite with_players_id. rewrite (setRoom_id _ _ _ Hroom). reflexivity.
    Unshelve. reflexivity.
Qed.

Lemma toggles_undo_themselves_witness :
  ∃ evs2, selectCard "a" "r" (heartsId 1) (ex_server (ex_ace_selected CLASSIC))
          = Done (ex_server (ex_started CLASSIC)) evs2
          ∧ length evs2 = 1%nat.
Proof.
  destruct (toggles_undo_themselves "a" "r" (heartsId 1) (ex_server (ex_started CLASSIC))
              (ex_room (ex_started CLASSIC)) ltac:(vm_compute; reflexivity)) as [Hsel _].
  destruct (Hsel (ex_player (ex_started CLASSIC) 0) (ex_server (ex_ace_selected CLASSIC))
              (ex_events (selectCard "a" "r" (heartsId 1) (ex_server (ex_started CLASSIC))))
              ltac:(vm_compute; reflexivity) ltac:(vm_compute; reflexivity)
              ltac:(vm_compute; reflexivity)) as (evs2 & H1 & H2).
  exists evs2. split; [exact H1|]. rewrite H2. vm_compute. reflexivity.
Defined.

(** ** Discards *)

Lemma publicViews_length a b i ps vs : publicViews a b i ps = Some vs → length vs = length ps.
Proof.
  unfold publicViews. intros H%length_mapM. by rewrite length_imap in H.
Qed.

Lemma dealt_with_hand h p : dealt (with_hand (Some h) p).
Proof. by exists h. Qed.

Lemma discardCards_inv sid rid s s1 evs1 :
  discardCards sid rid s = Done s1 evs1 →
  (s1 = s ∧ evs1 = [])
  ∨ ∃ room nm actor h r' ev,
      rooms s !! rid = Some room ∧ sessions s !! sid = Some nm
      ∧ gameState room = playing ∧ indexOf sid room = currentPlayer room
      ∧ at_index (players room) (currentPlayer room) = Some actor
      ∧ hand actor = Some h
      ∧ filter (fun c => markedForDiscard c = true) h ≠ []
      ∧ num_lt_of (Z.of_nat (length (filter (fun c => markedForDiscard c = true) h)))
          (maxCardsPerDiscard actor) = false
      ∧ num_ge (discardsUsed actor) (maxDiscards actor) = false
      ∧ resolveDiscard rid room (currentPlayer room) actor h
          (filter (fun c => markedForDiscard c = true) h) = Some (r', ev)
      ∧ s1 = setRoom rid r' s ∧ evs1 = [ev].
Proof.
  unfold discardCards.
  destruct (rooms s !! rid) as [room|] eqn:Hr; [|intros [<- <-]%Done_inj; by left].
  destruct (sessions s !! sid) as [nm|] eqn:Hs; [|intros [<- <-]%Done_inj; by left].
  case_bool_decide as Hst; simpl; [|intros [<- <-]%Done_inj; by left].
  case_bool_decide as Hi; simpl; [|intros [<- <-]%Done_inj; by left].
  rewrite Hi.
  destruct (at_index (players room) (currentPlayer room)) as [actor|] eqn:Ha; [|done].
  destruct (hand actor) as [h|] eqn:Hh; [|done].
  destruct (_ || _) eqn:Hg; [intros [<- <-]%Done_inj; by left|].
  apply orb_false_iff in Hg as [Hg Hg3]. apply orb_false_iff in Hg as [Hg1 Hg2].
  destruct (resolveDiscard _ _ _ _ _ _) as [[r' ev]|] eqn:Hres; [|done].
  intros [<- <-]%Done_inj. right. exists room, nm, actor, h, r', ev.
  repeat split; try done. apply bool_decide_eq_false in Hg1. by destruct (filter _ h).
Qed.

(** What [resolveDiscard] leaves, when the hands of all players are defined
    and (in a Recycling room) the discard pile is. *)
Lemma resolveDiscard_result rid r actor h :
  at_index (players r) (currentPlayer r) = Some actor → Forall dealt (players r) →
  hand actor = Some h →
  (gameMode r = RECYCLING → is_Some (discardPile r)) →
  let marked := filter (fun c => markedForDiscard c = true) h in
  let kept := filter (fun c => markedForDiscard c ≠ true) h in
  let actor' := with_discardsUsed (num_map (fun n => n + 1) (discardsUsed actor))
                  (with_hand (Some (kept ++ (resetFlags <$> take (length marked) (deck r))))
                     actor) in
  let pile' := if decide (gameMode r = RECYCLING)
               then (fun pile => pile ++ (resetFlags <$> marked)) <$> discardPile r
               else discardPile r in
  ∃ vs,
    resolveDiscard rid r (currentPlayer r) actor h marked
    = Some (with_players (setPlayer (currentPlayer r) actor' (players r))
              (with_piles (drop (length marked) (deck r)) pile' r),
            Event (ToRoom rid) "gameStateUpdate" (GameStateUpdate vs))
    ∧ length vs = length (players r).
Proof.
  intros Ha Hall Hh Hpile marked kept actor' pile'. unfold resolveDiscard.
  fold kept. fold marked.
  assert (Forall dealt (setPlayer (currentPlayer r) actor' (players r))) as Hall'.
  { apply Forall_setPlayer; [done|]. apply dealt_with_hand. }
  destruct (publicViews_is_Some (bool_decide (gameMode r = TACTICAL)) false (currentPlayer r)
              _ Hall') as [vs Hvs].
  exists vs. split.
  - unfold pile'. destruct (decide (gameMode r = RECYCLING)) as [Hm|Hm].
    + destruct (Hpile Hm) as [pile Hp]. rewrite Hp. simpl. fold actor'. by rewrite Hvs.
    + fold actor'. by rewrite Hvs.
  - rewrite (publicViews_length _ _ _ _ _ Hvs). apply length_setPlayer.
Qed.

Lemma discardCards_resolved sid rid s room nm actor h r' ev :
  rooms s !! rid = Some room → sessions s !! sid = Some nm →
  gameState room = playing → indexOf sid room = currentPlayer room →
  at_index (players room) (currentPlayer room) = Some actor → hand actor = Some h →
  filter (fun c => markedForDiscard c = true) h ≠ [] →
  num_lt_of (Z.of_nat (length (filter (fun c => markedForDiscard c = true) h)))
    (maxCardsPerDiscard actor) = false →
  num_ge (discardsUsed actor) (maxDiscards actor) = false →
  resolveDiscard rid room (currentPlayer room) actor h
    (filter (fun c => markedForDiscard c = true) h) = Some (r', ev) →
  discardCards sid rid s = Done (setRoom rid r' s) [ev].
Proof.
  intros Hr Hs Hst Hi Ha Hh Hne Hk Hm Hres. unfold discardCards. rewrite Hr, Hs.
  rewrite (bool_decide_eq_true_2 _ Hst), (bool_decide_eq_true_2 _ Hi). simpl.
  rewrite Hi, Ha, Hh, Hk, Hm, Hres.
  rewrite bool_decide_eq_false_2; [done|]. by destruct (filter _ h).
Qed.



(** ** The discards of one turn *)

Lemma countNamed_app name evs1 evs2 :
  countNamed name (evs1 ++ evs2) = (countNamed name evs1 + countNamed name evs2)%nat.
Proof. unfold countNamed. by rewrite filter_app, length_app. Qed.

Lemma resolveDiscard_inv rid r i actor h marked r' ev :
  resolveDiscard rid r i actor h marked = Some (r', ev) →
  ∃ d pile' vs,
    r' = with_players
           (setPlayer i (with_discardsUsed (num_map (fun n => n + 1) (discardsUsed actor))
                           (with_hand (Some d) actor)) (players r))
           (with_piles (drop (length marked) (deck r)) pile' r)
    ∧ ev = Event (ToRoom rid) "gameStateUpdate" (GameStateUpdate vs).
Proof.
  unfold resolveDiscard. repeat case_match; try done; intros [= <- <-]; eauto.
Qed.

Lemma makePrediction_inv sid rid guess s s1 evs1 :
  makePrediction sid rid guess s = Done s1 evs1 →
  (s1 = s ∧ (evs1 = [] ∨ evs1 = [Event (ToSocket sid) "error"
                                    (Msg (Some "You cannot predict your own hand"))]))
  ∨ ∃ room nm p,
      rooms s !! rid = Some room ∧ sessions s !! sid = Some nm
      ∧ gameMode room = TACTICAL ∧ indexOf sid room ≠ currentPlayer room
      ∧ at_index (players room) (indexOf sid room) = Some p
      ∧ s1 = setRoom rid
               (with_players (setPlayer (indexOf sid room) (with_prediction (Some guess) p)
                                (players room)) room) s
      ∧ evs1 = [Event (ToRoom rid) "predictionMade" (PredictionMade (indexOf sid room) guess)].
Proof.
  unfold makePrediction.
  destruct (rooms s !! rid) as [room|] eqn:Hr; [|intros [<- <-]%Done_inj; left; eauto].
  destruct (sessions s !! sid) as [nm|] eqn:Hs; [|intros [<- <-]%Done_inj; left; eauto].
  case_bool_decide as Hm; simpl; [|intros [<- <-]%Done_inj; left; eauto].
  case_bool_decide as Hi; [intros [<- <-]%Done_inj; left; eauto|].
  destruct (at_index (players room) (indexOf sid room)) as [p|] eqn:Hp; [|done].
  intros [<- <-]%Done_inj. right. exists room, nm, p. done.
Qed.

Lemma handle_budget rid q s s1 evs1 u m :
  endsTurn q = false → budget rid s u m → handle rid q s = Done s1 evs1 →
  (countNamed "gameStateUpdate" evs1 = 0%nat ∧ budget rid s1 u m)
  ∨ (countNamed "gameStateUpdate" evs1 = 1%nat ∧ u < m ∧ budget rid s1 (u + 1) m).
Proof.
  intros Hq (room & actor & Hr & Ha & Hu & Hm) Hop.
  assert (budget rid s u m) as Hb by (exists room, actor; done).
  destruct q as [sid c|sid c|sid|sid g|sid rnd|sid rnd]; try done; simpl in Hop.
  - pose proof Hop as Hop'.
    apply selectCard_inv in Hop'
      as [[-> ->]|(r0 & nm & a0 & h & i & c0 & Hr0 & Hs & Hst & Hi & Ha0 & Hh & Hf)];
      [by left|].
    assert (r0 = room) as -> by congruence. assert (a0 = actor) as -> by congruence.
    rewrite (selectCard_resolved _ _ _ _ _ _ _ _ _ _ Hr Hs Hst Hi Ha Hh Hf) in Hop.
    apply Done_inj in Hop as [<- <-]. left. split; [done|].
    eexists _, _. split; [apply setRoom_lookup|]. split; [by eapply at_index_setPlayer_eq|].
    done.
  - pose proof Hop as Hop'.
    apply markForDiscard_inv in Hop'
      as [[-> ->]|(r0 & nm & a0 & h & i & c0 & Hr0 & Hs & Hst & Hi & Ha0 & Hh & Hf)];
      [by left|].
    assert (r0 = room) as -> by congruence. assert (a0 = actor) as -> by congruence.
    rewrite (markForDiscard_resolved _ _ _ _ _ _ _ _ _ _ Hr Hs Hst Hi Ha Hh Hf) in Hop.
    apply Done_inj in Hop as [<- <-]. left. split; [done|].
    eexists _, _. split; [apply setRoom_lookup|]. split; [by eapply at_index_setPlayer_eq|].
    done.
  - apply discardCards_inv in Hop
      as [[-> ->]|(r0 & nm & a0 & h & r' & ev & Hr0 & Hs & Hst & Hi & Ha0 & Hh & _ & _
                   & Hge & Hres & -> & ->)];
      [by left|].
    assert (r0 = room) as -> by congruence. assert (a0 = actor) as -> by congruence.
    apply resolveDiscard_inv in Hres as (d & pile' & vs & -> & ->).
    right. split; [done|]. rewrite Hu, Hm in Hge. simpl in Hge.
    apply bool_decide_eq_false in Hge. split; [lia|].
    eexists _, _. split; [apply setRoom_lookup|].
    split; [by eapply at_index_setPlayer_eq|]. simpl. by rewrite Hu.
  - apply makePrediction_inv in Hop
      as [[-> [->| ->]]|(r0 & nm & p & Hr0 & Hs & _ & Hi & Hp & -> & ->)];
      [by left|by left|].
    assert (r0 = room) as -> by congruence.
    left. split; [done|].
    eexists _, actor. split; [apply setRoom_lookup|]. split; [|done].
    simpl. by rewrite at_index_setPlayer_ne.
Qed.

(** X9.  The discards of one turn.  As long as no turn ends (no
    [playHand], no [buildArmor]), whatever the two sessions request and in
    whatever order, the player at turn who has used [u] of [m] discards gets
    at most [m - u] further discards through, each of them announced by one
    [gameStateUpdate]; afterwards the count stands at [u] plus the number of
    these announcements. *)
Theorem discards_per_turn_bounded rid qs s s' evs u m :
  budget rid s u m → Forall (fun q => endsTurn q = false) qs →
  handleAll rid qs s = Done s' evs →
  Z.of_nat (countNamed "gameStateUpdate" evs) ≤ Z.max 0 (m - u)
  ∧ budget rid s' (u + Z.of_nat (countNamed "gameStateUpdate" evs)) m.
Proof.
  intros Hb Hqs. revert s evs u Hb.
  induction Hqs as [|q qs Hq _ IH]; intros s evs u Hb Hop.
  - apply Done_inj in Hop as [<- <-]. change (countNamed "gameStateUpdate" []) with 0%nat.
    split; [lia|]. by rewrite Z.add_0_r.
  - simpl in Hop. apply andThen_Done in Hop as (s1 & evs1 & evs2 & H1 & H2 & ->).
    rewrite countNamed_app.
    destruct (handle_budget _ _ _ _ _ _ _ Hq Hb H1) as [[-> Hb1]|(-> & Hlt & Hb1)].
    + destruct (IH _ _ _ Hb1 H2) as [Hle Hb']. simpl. done.
    + destruct (IH _ _ _ Hb1 H2) as [Hle Hb']. split; [lia|].
      replace (u + Z.of_nat (1 + countNamed "gameStateUpdate" evs2))
        with (u + 1 + Z.of_nat (countNamed "gameStateUpdate" evs2)) by lia.
      done.
Qed.

Lemma discards_per_turn_bounded_witness :
  Z.of_nat (countNamed "gameStateUpdate"
              (ex_events (handleAll "r" ex_four_discards (ex_server (ex_started CLASSIC)))))
  ≤ Z.max 0 (3 - 0)
  ∧ countNamed "gameStateUpdate"
      (ex_events (handleAll "r" ex_four_discards (ex_server (ex_started CLASSIC)))) = 3%nat.
Proof.
  assert (budget "r" (ex_server (ex_started CLASSIC)) 0 3) as Hb.
  { exists (ex_room (ex_started CLASSIC)), (ex_player (ex_started CLASSIC) 0).
    vm_compute. repeat split; reflexivity. }
  assert (Forall (fun q => endsTurn q = false) ex_four_discards) as Hqs
    by (apply (bool_decide_unpack _); vm_compute; exact I).
  split.
  - apply (discards_per_turn_bounded "r" ex_four_discards (ex_server (ex_started CLASSIC))
             (ex_server (handleAll "r" ex_four_discards (ex_server (ex_started CLASSIC))))
             _ 0 3 Hb Hqs).
    vm_compute. reflexivity.
  - vm_compute. reflexivity.
Defined.

(** ** Plays outside Tactical mode *)

Lemma consumeAndRedraw_is_Some rnd r actor h :
  hand actor = Some h → (gameMode r = RECYCLING → is_Some (discardPile r)) →
  ∃ r1 actor', consumeAndRedraw rnd r actor = Some (r1, actor')
    ∧ selectedCards actor' = Some []
    ∧ health actor' = health actor ∧ armor actor' = armor actor
    ∧ prediction actor' = prediction actor ∧ discardsUsed actor' = discardsUsed actor
    ∧ maxDiscards actor' = maxDiscards actor.
Proof.
  intros Hh Hpile. unfold consumeAndRedraw, recycle. rewrite Hh.
  destruct (decide (gameMode r = RECYCLING)) as [Hm|Hm].
  - destruct (Hpile Hm) as [pile ->]. destruct (_ && _); eexists _, _; done.
  - eexists _, _. done.
Qed.

Lemma withDamage_id res : withDamage (damage res) res = res.
Proof. by destruct res. Qed.

Lemma resolvePlay_event rid rnd r i actor sel r' ev :
  resolvePlay rid rnd r i actor sel = Some (r', ev) →
  (ename ev = "gameEnded" ∧ gameState r' = ended)
  ∨ (ename ev = "handPlayed" ∧ gameState r' = gameState r).
Proof.
  unfold resolvePlay.
  destruct (at_index (players r) (1 - i)) as [enemy|]; [|done].
  destruct (applyPrediction _ _ enemy) as [d1 e1].
  destruct (applyArmor _ d1 e1) as [d2 e2].
  destruct (consumeAndRedraw rnd r actor) as [[r1 actor']|] eqn:Hc; [|done].
  destruct (consumeAndRedraw_turn _ _ _ _ _ Hc) as (Hst & _ & _).
  destruct (num_le _ 0).
  - intros [= <- <-]. by left.
  - destruct (switchTurns _) as [r3|] eqn:Hsw; [|done].
    destruct (publicViews _ _ _ _); [|done]. intros [= <- <-]. right.
    apply switchTurns_turn in Hsw as (_ & _ & -> & _). done.
Qed.

(** X10.  A play in a Classic or a Recycling room: the damage is the one
    that [evaluateHand] gives to the selected cards, whatever prediction or
    armor the opponent may carry, and both are left as they were; the
    health of the opponent falls by that damage, but not below 0; the last
    played hand of the room is the result of [evaluateHand]; the game ends
    exactly when the health has reached 0. *)
Theorem plain_damage sid rid rnd s room nm actor sel enemy hl :
  rooms s !! rid = Some room → sessions s !! sid = Some nm →
  gameMode room ≠ TACTICAL → gameState room = playing →
  indexOf sid room = currentPlayer room →
  at_index (players room) (currentPlayer room) = Some actor →
  selectedCards actor = Some sel → sel ≠ [] → valid (validateHand sel) = true →
  at_index (players room) (1 - currentPlayer room) = Some enemy →
  Forall dealt (players room) →
  (gameMode room = RECYCLING → is_Some (discardPile room)) →
  health enemy = Some hl →
  ∃ s' ev room' enemy',
    playHand sid rid rnd s = Done s' [ev]
    ∧ rooms s' !! rid = Some room'
    ∧ at_index (players room') (1 - currentPlayer room) = Some enemy'
    ∧ health enemy' = Some (Z.max 0 (hl - damage (evaluateHand sel)))
    ∧ armor enemy' = armor enemy ∧ prediction enemy' = prediction enemy
    ∧ lastPlayedHand room' = Some (evaluateHand sel)
    ∧ (hl ≤ damage (evaluateHand sel) → gameState room' = ended ∧ ename ev = "gameEnded")
    ∧ (damage (evaluateHand sel) < hl → gameState room' = playing ∧ ename ev = "handPlayed").
Proof.
  intros Hr Hs Hm Hst Hi Ha Hsel Hne Hv He Hall Hpile Hhl.
  assert (dealt actor) as [h Hh].
  { apply (proj1 (Forall_forall dealt _) Hall). by eapply at_index_elem_of. }
  destruct (consumeAndRedraw_is_Some rnd room actor h Hh Hpile) as (r1 & actor' & Hc & _).
  assert (applyPrediction (bool_decide (gameMode room = TACTICAL)) (evaluateHand sel) enemy
          = (damage (evaluateHand sel), enemy)) as Hdp.
  { unfold applyPrediction. by rewrite (bool_decide_eq_false_2 _ Hm). }
  assert (applyArmor (bool_decide (gameMode room = TACTICAL)) (damage (evaluateHand sel)) enemy
          = (damage (evaluateHand sel), enemy)) as Hda.
  { unfold applyArmor. by rewrite (bool_decide_eq_false_2 _ Hm). }
  destruct (resolvePlay_result rid rnd room actor sel enemy _ _ _ _ _ _ Ha He Hall Hc Hdp Hda)
    as (r' & ev & e4 & Hres & _ & _ & Hlast & _ & He4 & Hp4 & Ha4 & Hh4).
  exists (setRoom rid r' s), ev, r', e4.
  split; [by eapply playHand_resolved|]. split; [apply setRoom_lookup|].
  split; [done|]. rewrite Hhl in Hh4. simpl in Hh4.
  split; [done|]. split; [done|]. split; [done|].
  split; [by rewrite Hlast, withDamage_id|].
  pose proof Hres as Hev. apply resolvePlay_event in Hev.
  pose proof Hres as Hturn. apply (resolvePlay_turn _ _ _ _ _ _ _ Ha) in Hturn.
  assert (gameState r' = ended ↔ hl ≤ damage (evaluateHand sel)) as Hend.
  { unfold resolvePlay in Hres. rewrite He, Hdp, Hda, Hc, Hhl in Hres.
    cbn [health with_health num_map fmap option_fmap option_map num_le] in Hres.
    case_bool_decide as Hle.
    - injection Hres as <- _. simpl. split; [lia|done].
    - destruct Hev as [[_ Hen]|[_ Hpl]]; [|rewrite Hpl, Hst; split; [done|lia]].
      destruct (switchTurns _) as [r3|] eqn:Hsw; [|done].
      destruct (publicViews _ _ _ _); [|done]. injection Hres as <- _.
      apply switchTurns_turn in Hsw as (_ & _ & Hs3 & _). rewrite Hs3 in Hen.
      simpl in Hen. destruct (consumeAndRedraw_turn _ _ _ _ _ Hc) as (Hs1 & _).
      congruence. }
  split.
  - intros Hle. apply Hend in Hle. split; [done|].
    destruct Hev as [[? _]|[_ Hpl]]; [done|]. congruence.
  - intros Hlt. destruct Hev as [[_ Hen]|[? Hpl]].
    + apply Hend in Hen. lia.
    + split; [congruence|done].
Qed.

Lemma plain_damage_witness :
  ∃ s' ev room' enemy',
    playHand "a" "r" ex_rnd (ex_server (ex_ace_selected RECYCLING)) = Done s' [ev]
    ∧ rooms s' !! "r" = Some room'
    ∧ at_index (players room') 1 = Some enemy'
    ∧ health enemy' = Some 135
    ∧ gameState room' = playing.
Proof.
  assert (Forall (fun p => is_Some (hand p)) (players (ex_room (ex_ace_selected RECYCLING))))
    as Hdealt by (apply (bool_decide_unpack _); vm_compute; exact I).
  destruct (plain_damage "a" "r" ex_rnd (ex_server (ex_ace_selected RECYCLING))
              (ex_room (ex_ace_selected RECYCLING)) "Ann"
              (ex_player (ex_ace_selected RECYCLING) 0)
              (ex_selection (ex_ace_selected RECYCLING) 0)
              (ex_player (ex_ace_selected RECYCLING) 1) 150
              ltac:(vm_compute; reflexivity) ltac:(vm_compute; reflexivity)
              ltac:(vm_compute; discriminate) ltac:(vm_compute; reflexivity)
              ltac:(vm_compute; reflexivity) ltac:(vm_compute; reflexivity)
              ltac:(vm_compute; reflexivity) ltac:(vm_compute; discriminate)
              ltac:(vm_compute; reflexivity) ltac:(vm_compute; reflexivity) Hdealt
              ltac:(intros _; vm_compute; eauto) ltac:(vm_compute; reflexivity))
    as (s' & ev & room' & enemy' & H1 & H2 & H3 & H4 & _ & _ & _ & _ & H9).
  exists s', ev, room', enemy'.
  vm_compute in H4. vm_compute (1 - currentPlayer _) in H3.
  split; [exact H1|]. split; [exact H2|]. split; [exact H3|]. split; [exact H4|].
  apply H9. vm_compute. reflexivity.
Defined.

(** ** Building armor *)

Lemma resolveArmor_result rid rnd r actor sel enemy r1 actor' :
  at_index (players r) (currentPlayer r) = Some actor →
  at_index (players r) (1 - currentPlayer r) = Some enemy →
  Forall dealt (players r) →
  let newArmor := num_map (fun a => Z.min 50 (a + armorFor (type (evaluateHand sel))))
                    (armor actor) in
  consumeAndRedraw rnd r (with_armor newArmor actor) = Some (r1, actor') →
  ∃ r' vs,
    resolveArmor rid rnd r (currentPlayer r) actor sel
    = Some (r', Event (ToRoom rid) "armorBuilt"
                  (ArmorBuilt (currentPlayer r) (num_sub newArmor (armor actor))
                     (evaluateHand sel) (1 - currentPlayer r) (turn r + 1) vs))
    ∧ deck r' = deck r1 ∧ discardPile r' = discardPile r1
    ∧ lastPlayedHand r' = lastPlayedHand r
    ∧ gameState r' = gameState r
    ∧ currentPlayer r' = 1 - currentPlayer r ∧ turn r' = turn r + 1
    ∧ at_index (players r') (currentPlayer r) = Some actor'
    ∧ at_index (players r') (1 - currentPlayer r) = Some (with_discardsUsed (Some 0) enemy)
    ∧ length vs = length (players r).
Proof.
  intros Ha He Hall newArmor Hc.
  destruct (consumeAndRedraw_cards _ _ _ _ _ Hc)
    as (h & h' & _ & Hh' & Hps & _ & Hst & Hcur & Htu & _).
  assert (players r1 = players r ∧ lastPlayedHand r1 = lastPlayedHand r) as [_ Hlast].
  { unfold consumeAndRedraw in Hc. destruct (hand _); [|done].
    destruct (recycle _ _ _) as [[d pile]|]; [|done].
    injection Hc as E1 E2. rewrite <- E1. done. }
  set (ps := setPlayer (currentPlayer r) actor' (players r)).
  assert (at_index ps (1 - currentPlayer r) = Some enemy) as Hpe.
  { unfold ps. rewrite at_index_setPlayer_ne by lia. done. }
  assert (Forall dealt ps) as Hdps.
  { apply Forall_setPlayer; [done|]. by exists h'. }
  set (ps' := setPlayer (1 - currentPlayer r) (with_discardsUsed (Some 0) enemy) ps).
  assert (Forall dealt ps') as Hdps'.
  { apply Forall_setPlayer; [done|].
    assert (dealt enemy) as Hde
      by (apply (proj1 (Forall_forall dealt _) Hall); by eapply at_index_elem_of).
    exact Hde. }
  destruct (publicViews_is_Some true true (currentPlayer r) ps' Hdps') as [vs Hvs].
  unfold resolveArmor. fold newArmor. rewrite Hc. unfold switchTurns.
  cbn [currentPlayer players with_players]. rewrite Hcur. fold ps. rewrite Hpe.
  cbn [players with_players with_turn currentPlayer turn]. fold ps'. rewrite Hvs, Htu.
  eexists _, vs. split; [reflexivity|]. simpl.
  split; [done|]. split; [done|]. split; [done|]. split; [done|].
  split; [done|]. split; [done|]. split.
  { unfold ps'. rewrite at_index_setPlayer_ne by lia. unfold ps.
    by eapply at_index_setPlayer_eq. }
  split; [by eapply at_index_setPlayer_eq|].
  rewrite (publicViews_length _ _ _ _ _ Hvs). unfold ps', ps. by rewrite !length_setPlayer.
Qed.

Lemma buildArmor_resolved sid rid rnd s room nm actor sel r' ev :
  rooms s !! rid = Some room → sessions s !! sid = Some nm →
  gameMode room = TACTICAL → gameState room = playing →
  indexOf sid room = currentPlayer room →
  at_index (players room) (currentPlayer room) = Some actor →
  selectedCards actor = Some sel → sel ≠ [] → valid (validateHand sel) = true →
  resolveArmor rid rnd room (currentPlayer room) actor sel = Some (r', ev) →
  buildArmor sid rid rnd s = Done (setRoom rid r' s) [ev].
Proof.
  intros Hr Hs Hm Hst Hi Ha Hsel Hne Hv Hres. unfold buildArmor. rewrite Hr, Hs.
  rewrite (bool_decide_eq_true_2 _ Hm), (bool_decide_eq_true_2 _ Hst),
    (bool_decide_eq_true_2 _ Hi). simpl.
  rewrite Hi, Ha, Hsel, Hv. simpl.
  rewrite bool_decide_eq_false_2 by (by destruct sel). by rewrite Hres.
Qed.

Lemma armorFor_category t :
  t ∈ Spec.categories → 2 ≤ armorFor t ≤ 35.
Proof.
  unfold Spec.categories. intros Hin. set_unfold in Hin.
  destruct Hin as [->|[->|[->|[->|[->|[->|[->|[->|[->|[->|[]]]]]]]]]]];
    vm_compute; split; congruence.
Qed.

(** X11.  A build-armor that is resolved (Tactical room, player at turn, a
    valid selection).  The armor of the actor, [a] before, becomes
    [min 50 (a + gain)], where the gain is 2 for a High Card, 5 for One
    Pair, 8 for Two Pair, 12 for Three of a Kind, 15 for a Straight, 18 for
    a Flush, 22 for a Full House, 25 for Four of a Kind, 30 for a Straight
    Flush and 35 for a Royal Flush; the room is told the armor actually
    gained.  No health changes and no damage is dealt: the opponent is
    left as it was, but for its discards, which are reset to 0; the last
    played hand of the room stays.  The actor draws a new hand of 8 from
    the top of the draw pile, and the turn passes. *)
Theorem buildArmor_effect sid rid rnd s room nm actor sel enemy a :
  rooms s !! rid = Some room → sessions s !! sid = Some nm →
  gameMode room = TACTICAL → gameState room = playing →
  indexOf sid room = currentPlayer room →
  at_index (players room) (currentPlayer room) = Some actor →
  selectedCards actor = Some sel → sel ≠ [] → valid (validateHand sel) = true →
  at_index (players room) (1 - currentPlayer room) = Some enemy →
  Forall dealt (players room) → armor actor = Some a →
  let gain := armorFor (type (evaluateHand sel)) in
  let a' := Z.min 50 (a + gain) in
  ∃ room' actor' vs,
    buildArmor sid rid rnd s
    = Done (setRoom rid room' s)
        [Event (ToRoom rid) "armorBuilt"
           (ArmorBuilt (currentPlayer room) (Some (a' - a)) (evaluateHand sel)
              (1 - currentPlayer room) (turn room + 1) vs)]
    ∧ 2 ≤ gain ≤ 35
    ∧ at_index (players room') (currentPlayer room) = Some actor'
    ∧ armor actor' = Some a' ∧ health actor' = health actor
    ∧ hand actor' = Some (resetFlags <$> take 8 (deck room))
    ∧ selectedCards actor' = Some []
    ∧ deck room' = drop 8 (deck room)
    ∧ at_index (players room') (1 - currentPlayer room)
      = Some (with_discardsUsed (Some 0) enemy)
    ∧ lastPlayedHand room' = lastPlayedHand room
    ∧ gameState room' = playing
    ∧ currentPlayer room' = 1 - currentPlayer room ∧ turn room' = turn room + 1.
Proof.
  intros Hr Hs Hm Hst Hi Ha Hsel Hne Hv He Hall Harm gain a'.
  assert (dealt actor) as [h Hh].
  { apply (proj1 (Forall_forall dealt _) Hall). by eapply at_index_elem_of. }
  assert (gameMode room ≠ RECYCLING) as Hnr by (rewrite Hm; discriminate).
  set (newArmor := num_map (fun a => Z.min 50 (a + gain)) (armor actor)).
  pose proof (consumeAndRedraw_plain rnd room (with_armor newArmor actor) h Hnr Hh) as Hc.
  destruct (resolveArmor_result rid rnd room actor sel enemy _ _ Ha He Hall Hc)
    as (r' & vs & Hres & Hdeck & _ & Hlast & Hgs & Hcur & Hturn & Hact & Hen & _).
  eexists r', _, vs. split.
  { rewrite (buildArmor_resolved _ _ _ _ _ _ _ _ _ _ Hr Hs Hm Hst Hi Ha Hsel Hne Hv Hres).
    unfold newArmor. fold gain. rewrite Harm. reflexivity. }
  split.
  { apply armorFor_category. by destruct (valid_hand_damage sel Hv). }
  split; [exact Hact|]. unfold newArmor. rewrite Harm. simpl.
  split; [done|]. split; [done|]. split; [done|]. split; [done|].
  split; [by rewrite Hdeck|]. split; [done|]. split; [done|].
  split; [by rewrite Hgs|]. done.
Qed.

Lemma buildArmor_effect_witness :
  ∃ room' actor' vs,
    buildArmor "a" "r" ex_rnd (ex_server (ex_royal_selected TACTICAL))
    = Done (setRoom "r" room' (ex_server (ex_royal_selected TACTICAL)))
        [Event (ToRoom "r") "armorBuilt"
           (ArmorBuilt 0 (Some 35) (evaluateHand (ex_selection (ex_royal_selected TACTICAL) 0))
              1 2 vs)]
    ∧ at_index (players room') 0 = Some actor'
    ∧ armor actor' = Some 35
    ∧ length <$> hand actor' = Some 8%nat.
Proof.
  assert (Forall (fun p => is_Some (hand p)) (players (ex_room (ex_royal_selected TACTICAL))))
    as Hdealt by (apply (bool_decide_unpack _); vm_compute; exact I).
  destruct (buildArmor_effect "a" "r" ex_rnd (ex_server (ex_royal_selected TACTICAL))
              (ex_room (ex_royal_selected TACTICAL)) "Ann"
              (ex_player (ex_royal_selected TACTICAL) 0)
              (ex_selection (ex_royal_selected TACTICAL) 0)
              (ex_player (ex_royal_selected TACTICAL) 1) 0
              ltac:(vm_compute; reflexivity) ltac:(vm_compute; reflexivity)
              ltac:(vm_compute; reflexivity) ltac:(vm_compute; reflexivity)
              ltac:(vm_compute; reflexivity) ltac:(vm_compute; reflexivity)
              ltac:(vm_compute; reflexivity) ltac:(vm_compute; discriminate)
              ltac:(vm_compute; reflexivity) ltac:(vm_compute; reflexivity) Hdealt
              ltac:(vm_compute; reflexivity))
    as (room' & actor' & vs & H1 & _ & H3 & H4 & _ & H6 & _).
  exists room', actor', vs.
  split; [exact H1|]. split; [exact H3|]. split; [exact H4|].
  rewrite H6. vm_compute. reflexivity.
Defined.

(** ** The draw pile gives out *)



Lemma stalled_noop sid rid rnd cardId s :
  stalled rid s →
  selectCard sid rid cardId s = Done s []
  ∧ markForDiscard sid rid cardId s = Done s []
  ∧ discardCards sid rid s = Done s []
  ∧ playHand sid rid rnd s = Done s []
  ∧ (buildArmor sid rid rnd s = Done s []
     ∨ ∃ m, buildArmor sid rid rnd s = Done s [Event (ToSocket sid) "error" (Msg (Some m))]).
Proof.
  intros (room & actor & Hr & Hst & Ha & Hh & Hsel).
  unfold selectCard, markForDiscard, discardCards, playHand, buildArmor. rewrite Hr.
  destruct (sessions s !! sid); [|repeat split; eauto].
  rewrite (bool_decide_eq_true_2 _ Hst). simpl.
  destruct (bool_decide (indexOf sid room = currentPlayer room)) eqn:Hi; simpl.
  - apply bool_decide_eq_true in Hi. rewrite Hi, Ha, Hh, Hsel. simpl.
    repeat split; try done. destruct (bool_decide (gameMode room = TACTICAL)); simpl; eauto.
  - repeat split; try done. destruct (bool_decide (gameMode room = TACTICAL)); simpl; eauto.
Qed.

Lemma handle_stalled rid q s s1 evs1 room :
  stalled rid s → rooms s !! rid = Some room → handle rid q s = Done s1 evs1 →
  stalled rid s1
  ∧ (∃ room1, rooms s1 !! rid = Some room1
       ∧ currentPlayer room1 = currentPlayer room ∧ turn room1 = turn room
       ∧ deck room1 = deck room
       ∧ (health <$> players room1) = (health <$> players room))
  ∧ Forall (fun e => ename e = "error" ∨ ename e = "predictionMade") evs1.
Proof.
  intros Hstall Hr Hop.
  assert (s1 = s ∧ Forall (fun e => ename e = "error" ∨ ename e = "predictionMade") evs1 →
          stalled rid s1
          ∧ (∃ room1, rooms s1 !! rid = Some room1
               ∧ currentPlayer room1 = currentPlayer room ∧ turn room1 = turn room
               ∧ deck room1 = deck room
               ∧ (health <$> players room1) = (health <$> players room))
          ∧ Forall (fun e => ename e = "error" ∨ ename e = "predictionMade") evs1) as Hsame.
  { intros [-> Hevs]. split; [done|]. split; [|done]. exists room. done. }
  destruct q as [sid c|sid c|sid|sid g|sid rnd|sid rnd]; simpl in Hop.
  - destruct (stalled_noop sid rid (fun _ => 0%nat) c s Hstall) as (H & _).
    rewrite H in Hop. apply Done_inj in Hop as [<- <-]. apply Hsame. done.
  - destruct (stalled_noop sid rid (fun _ => 0%nat) c s Hstall) as (_ & H & _).
    rewrite H in Hop. apply Done_inj in Hop as [<- <-]. apply Hsame. done.
  - destruct (stalled_noop sid rid (fun _ => 0%nat) (MkId hearts 0 0) s Hstall)
      as (_ & _ & H & _).
    rewrite H in Hop. apply Done_inj in Hop as [<- <-]. apply Hsame. done.
  - apply makePrediction_inv in Hop
      as [[-> [->| ->]]|(r0 & nm & p & Hr0 & Hs & _ & Hi & Hp & -> & ->)].
    + apply Hsame. done.
    + apply Hsame. split; [done|]. constructor; [by left|constructor].
    + assert (r0 = room) as -> by congruence.
      destruct Hstall as (room0 & actor & Hr1 & Hst & Ha & Hh & Hsel).
      assert (room0 = room) as -> by congruence.
      split; [|split].
      * eexists _, actor. split; [apply setRoom_lookup|]. split; [done|].
        split; [|done]. simpl. by rewrite at_index_setPlayer_ne.
      * eexists. split; [apply setRoom_lookup|]. simpl. do 3 (split; [done|]).
        destruct (setPlayer_split _ _ _ Hp) as (l1 & l2 & Hps & Hset).
        by rewrite Hset, Hps, !fmap_app, !fmap_cons.
      * constructor; [by right|constructor].
  - destruct (stalled_noop sid rid rnd (MkId hearts 0 0) s Hstall) as (_ & _ & _ & H & _).
    rewrite H in Hop. apply Done_inj in Hop as [<- <-]. apply Hsame. done.
  - destruct (stalled_noop sid rid rnd (MkId hearts 0 0) s Hstall)
      as (_ & _ & _ & _ & [H|[m H]]);
      rewrite H in Hop; apply Done_inj in Hop as [<- <-]; apply Hsame.
    + done.
    + split; [done|]. constructor; [by left|constructor].
Qed.

(** X13.  A game in which the player at turn holds no card and has selected
    none cannot go on.  Whatever the sessions request, and in whatever
    order, no play and no armor is resolved and the game does not end:
    the turn, the player at turn, the draw pile and every health stay as
    they are, and the only events are errors and predictions.  (Only a new
    start or a rematch deals cards again.) *)
Theorem empty_hand_stalls rid qs s s' evs room :
  stalled rid s → rooms s !! rid = Some room → handleAll rid qs s = Done s' evs →
  stalled rid s'
  ∧ (∃ room', rooms s' !! rid = Some room'
       ∧ gameState room' = playing
       ∧ currentPlayer room' = currentPlayer room ∧ turn room' = turn room
       ∧ deck room' = deck room
       ∧ (health <$> players room') = (health <$> players room))
  ∧ Forall (fun e => ename e = "error" ∨ ename e = "predictionMade") evs.
Proof.
  revert s evs room. induction qs as [|q qs IH]; intros s evs room Hstall Hr Hop.
  - apply Done_inj in Hop as [<- <-]. split; [done|]. split; [|done].
    exists room. destruct Hstall as (room0 & actor & Hr0 & Hst & _).
    assert (room0 = room) as -> by congruence. done.
  - simpl in Hop. apply andThen_Done in Hop as (s1 & evs1 & evs2 & H1 & H2 & ->).
    destruct (handle_stalled _ _ _ _ _ _ Hstall Hr H1)
      as (Hstall1 & (room1 & Hr1 & Hc1 & Ht1 & Hd1 & Hh1) & Hev1).
    destruct (IH _ _ _ Hstall1 Hr1 H2)
      as (Hstall' & (room' & Hr' & Hst' & Hc' & Ht' & Hd' & Hh') & Hev2).
    split; [done|]. split; [|by apply Forall_app].
    exists room'. split; [done|]. split; [done|].
    split; [congruence|]. split; [congruence|]. split; congruence.
Qed.

Lemma empty_hand_stalls_witness :
  stalled "r" (ex_server ex_seven_plays)
  ∧ length (deck (ex_room ex_seven_plays)) = 0%nat
  ∧ stalled "r"
      (ex_server (handleAll "r" [PlayHand "b" ex_rnd; DiscardCards "b"; PlayHand "a" ex_rnd]
                    (ex_server ex_seven_plays))).
Proof.
  assert (stalled "r" (ex_server ex_seven_plays)) as Hstall.
  { exists (ex_room ex_seven_plays), (ex_player ex_seven_plays 1).
    vm_compute. repeat split; reflexivity. }
  split; [exact Hstall|]. split; [vm_compute; reflexivity|].
  apply (empty_hand_stalls "r" [PlayHand "b" ex_rnd; DiscardCards "b"; PlayHand "a" ex_rnd]
           (ex_server ex_seven_plays) _
           (ex_events (handleAll "r" [PlayHand "b" ex_rnd; DiscardCards "b"; PlayHand "a" ex_rnd]
                         (ex_server ex_seven_plays)))
           (ex_room ex_seven_plays) Hstall);
    vm_compute; reflexivity.
Defined.

(** ** Health and armor stay in range *)

Lemma wornDown_refl p : wornDown p p.
Proof. split; [done|]. split; intros x Hx ?; exists x; (split; [done|lia]). Qed.

Lemma wornDown_trans p q r : wornDown p q → wornDown q r → wornDown p r.
Proof.
  intros (Hi1 & Hh1 & Ha1) (Hi2 & Hh2 & Ha2). split; [congruence|]. split.
  - intros hl Hhl H0. destruct (Hh1 hl Hhl H0) as (hl1 & Hhl1 & ?).
    destruct (Hh2 hl1 Hhl1 ltac:(lia)) as (hl2 & ? & ?). exists hl2. split; [done|lia].
  - intros a Ha H0. destruct (Ha1 a Ha H0) as (a1 & Ha1' & ?).
    destruct (Ha2 a1 Ha1' ltac:(lia)) as (a2 & ? & ?). exists a2. split; [done|lia].
Qed.

Lemma wornDown_same p p' :
  pid p' = pid p → health p' = health p → armor p' = armor p → wornDown p p'.
Proof.
  intros Hi Hh Ha. split; [done|]. rewrite Hh, Ha.
  split; intros x Hx ?; exists x; (split; [done|lia]).
Qed.

Lemma Forall2_wornDown_refl ps : Forall2 wornDown ps ps.
Proof. induction ps; constructor; [apply wornDown_refl|done]. Qed.

Lemma Forall2_wornDown_trans ps qs rs :
  Forall2 wornDown ps qs → Forall2 wornDown qs rs → Forall2 wornDown ps rs.
Proof.
  intros H1. revert rs. induction H1 as [|p q ps qs Hpq _ IH]; intros rs H2.
  - by inversion H2.
  - inversion H2 as [|? r ? rs' Hqr Hrest]; subst. constructor; [|by apply IH].
    by eapply wornDown_trans.
Qed.

Lemma Forall2_wornDown_setPlayer ps i p p' :
  at_index ps i = Some p → wornDown p p' → Forall2 wornDown ps (setPlayer i p' ps).
Proof.
  intros (l1 & l2 & -> & Hset)%setPlayer_split Hw. rewrite Hset.
  apply Forall2_app; [apply Forall2_wornDown_refl|].
  constructor; [done|apply Forall2_wornDown_refl].
Qed.

Lemma evaluateHand_nonneg sel :
  Forall (fun c => 1 ≤ rank c ≤ 13) sel → 0 ≤ damage (evaluateHand sel).
Proof.
  intros Hr. destruct (valid (validateHand sel)) eqn:Hv.
  - apply evaluateHand_damage_nonneg; [done|].
    eapply Forall_impl; [exact Hr|]. simpl. lia.
  - destruct (evaluateHand_rejected sel Hv) as [-> _]. done.
Qed.

Lemma applyPrediction_wornDown t res e :
  0 ≤ damage res →
  0 ≤ (applyPrediction t res e).1 ∧ wornDown e (applyPrediction t res e).2.
Proof.
  intros Hd. unfold applyPrediction. destruct (t && _); simpl.
  - split; [|by apply wornDown_same].
    case_bool_decide; apply Z.div_pos; lia.
  - split; [done|apply wornDown_refl].
Qed.

Lemma applyArmor_wornDown t d e :
  0 ≤ d → 0 ≤ (applyArmor t d e).1 ∧ wornDown e (applyArmor t d e).2.
Proof.
  intros Hd. unfold applyArmor.
  destruct (t && num_gt (armor e) 0) eqn:Hg; [|split; [done|apply wornDown_refl]].
  apply andb_true_iff in Hg as [_ Hg].
  destruct (armor e) as [a|] eqn:Ha; [|done]. simpl in *.
  apply bool_decide_eq_true in Hg. split; [lia|].
  split; [done|]. split.
  - intros hl Hhl ?. exists hl. split; [done|lia].
  - intros a0 Ha0 ?. simpl. rewrite Ha in Ha0. injection Ha0 as <-.
    eexists. split; [done|]. lia.
Qed.

Lemma consumeAndRedraw_wornDown rnd r actor r1 actor' :
  consumeAndRedraw rnd r actor = Some (r1, actor') →
  wornDown actor actor' ∧ players r1 = players r ∧ currentPlayer r1 = currentPlayer r.
Proof.
  unfold consumeAndRedraw. destruct (hand actor); [|done].
  destruct (recycle _ _ _) as [[d pile]|]; [|done].
  intros [= <- <-]. split; [by apply wornDown_same|done].
Qed.

Lemma switchTurns_wornDown r r' :
  switchTurns r = Some r' → Forall2 wornDown (players r) (players r').
Proof.
  intros (p & Hp & ->)%switchTurns_Some. simpl.
  eapply Forall2_wornDown_setPlayer; [done|]. by apply wornDown_same.
Qed.

Lemma resolvePlay_wornDown rid rnd r i actor sel r' ev :
  at_index (players r) i = Some actor →
  Forall (fun c => 1 ≤ rank c ≤ 13) sel →
  resolvePlay rid rnd r i actor sel = Some (r', ev) →
  Forall2 wornDown (players r) (players r').
Proof.
  intros Ha Hranks. unfold resolvePlay.
  destruct (at_index (players r) (1 - i)) as [enemy|] eqn:He; [|done].
  pose proof (evaluateHand_nonneg _ Hranks) as Hd.
  pose proof (applyPrediction_wornDown (bool_decide (gameMode r = TACTICAL))
                (evaluateHand sel) enemy Hd) as [Hd1 Hw1].
  destruct (applyPrediction _ _ enemy) as [d1 e1]. simpl in Hd1, Hw1.
  pose proof (applyArmor_wornDown (bool_decide (gameMode r = TACTICAL)) d1 e1 Hd1)
    as [Hd2 Hw2].
  destruct (applyArmor _ d1 e1) as [d2 e2]. simpl in Hd2, Hw2.
  destruct (consumeAndRedraw rnd r actor) as [[r1 actor']|] eqn:Hc; [|done].
  destruct (consumeAndRedraw_wornDown _ _ _ _ _ Hc) as (Hwa & Hps & Hcur).
  set (e3 := with_health _ e2).
  assert (wornDown enemy e3) as Hw3.
  { eapply wornDown_trans; [exact Hw1|]. eapply wornDown_trans; [exact Hw2|].
    split; [done|]. split; [|intros a Ha2 ?; exists a; split; [done|lia]].
    intros hl Hhl ?. unfold e3. simpl. rewrite Hhl. simpl. eexists. split; [done|]. lia. }
  set (ps := setPlayer i actor' (setPlayer (1 - i) e3 (players r))).
  assert (Forall2 wornDown (players r) ps) as Hwps.
  { eapply Forall2_wornDown_trans.
    - by eapply (Forall2_wornDown_setPlayer _ (1 - i) enemy e3).
    - eapply Forall2_wornDown_setPlayer; [|exact Hwa].
      rewrite at_index_setPlayer_ne by lia. done. }
  destruct (num_le _ 0).
  - intros [= <- <-]. done.
  - destruct (switchTurns _) as [r3|] eqn:Hsw; [|done].
    destruct (publicViews _ _ _ _); [|done]. intros [= <- <-].
    apply switchTurns_wornDown in Hsw. simpl in Hsw.
    by eapply Forall2_wornDown_trans.
Qed.

Lemma armorFor_min t : 2 ≤ armorFor t ≤ 35.
Proof. unfold armorFor. repeat case_decide; lia. Qed.

Lemma resolveArmor_wornDown rid rnd r i actor sel r' ev :
  at_index (players r) i = Some actor →
  resolveArmor rid rnd r i actor sel = Some (r', ev) →
  Forall2 wornDown (players r) (players r').
Proof.
  intros Ha. unfold resolveArmor.
  destruct (consumeAndRedraw rnd r _) as [[r1 actor']|] eqn:Hc; [|done].
  destruct (consumeAndRedraw_wornDown _ _ _ _ _ Hc) as (Hwa & Hps & Hcur).
  destruct (switchTurns _) as [r3|] eqn:Hsw; [|done].
  destruct (publicViews _ _ _ _); [|done]. intros [= <- <-].
  apply switchTurns_wornDown in Hsw. simpl in Hsw.
  eapply Forall2_wornDown_trans; [|exact Hsw].
  eapply Forall2_wornDown_setPlayer; [done|].
  eapply wornDown_trans; [|exact Hwa].
  split; [done|]. split; [intros hl Hhl ?; exists hl; split; [done|lia]|].
  intros a Harm ?. simpl. rewrite Harm. simpl. eexists. split; [done|].
  pose proof (armorFor_min (type (evaluateHand sel))). lia.
Qed.

(** X14.  No request of a game raises the health of a player or brings it
    below 0, and none brings an armor out of the range 0 to 50, as long as
    the cards that the player at turn has selected are of rank 1 to 13:
    after any request that returns, every seat holds the same player id as
    before, a health that was a number not below 0 is one still and has
    not grown, and an armor that was between 0 and 50 still is. *)
Theorem vitals_stay_in_range rid q s s' evs room room' :
  rooms s !! rid = Some room →
  (∀ actor sel, at_index (players room) (currentPlayer room) = Some actor →
                selectedCards actor = Some sel → Forall (fun c => 1 ≤ rank c ≤ 13) sel) →
  handle rid q s = Done s' evs → rooms s' !! rid = Some room' →
  Forall2 wornDown (players room) (players room').
Proof.
  intros Hr Hranks Hop Hr'.
  destruct q as [sid c|sid c|sid|sid g|sid rnd|sid rnd]; simpl in Hop.
  - pose proof Hop as Hop'.
    apply selectCard_inv in Hop'
      as [[-> ->]|(r0 & nm & a0 & h & i & c0 & Hr0 & Hs & Hst & Hi & Ha0 & Hh & Hf)].
    { assert (room' = room) as -> by congruence. apply Forall2_wornDown_refl. }
    assert (r0 = room) as -> by congruence.
    rewrite (selectCard_resolved _ _ _ _ _ _ _ _ _ _ Hr Hs Hst Hi Ha0 Hh Hf) in Hop.
    apply Done_inj in Hop as [<- <-]. rewrite setRoom_lookup in Hr'. injection Hr' as <-.
    simpl. eapply Forall2_wornDown_setPlayer; [done|]. by apply wornDown_same.
  - pose proof Hop as Hop'.
    apply markForDiscard_inv in Hop'
      as [[-> ->]|(r0 & nm & a0 & h & i & c0 & Hr0 & Hs & Hst & Hi & Ha0 & Hh & Hf)].
    { assert (room' = room) as -> by congruence. apply Forall2_wornDown_refl. }
    assert (r0 = room) as -> by congruence.
    rewrite (markForDiscard_resolved _ _ _ _ _ _ _ _ _ _ Hr Hs Hst Hi Ha0 Hh Hf) in Hop.
    apply Done_inj in Hop as [<- <-]. rewrite setRoom_lookup in Hr'. injection Hr' as <-.
    simpl. eapply Forall2_wornDown_setPlayer; [done|]. by apply wornDown_same.
  - apply discardCards_inv in Hop
      as [[-> ->]|(r0 & nm & a0 & h & r' & ev & Hr0 & Hs & Hst & Hi & Ha0 & Hh & _ & _
                   & _ & Hres & -> & ->)].
    { assert (room' = room) as -> by congruence. apply Forall2_wornDown_refl. }
    assert (r0 = room) as -> by congruence.
    apply resolveDiscard_inv in Hres as (d & pile' & vs & -> & ->).
    rewrite setRoom_lookup in Hr'. injection Hr' as <-. simpl.
    eapply Forall2_wornDown_setPlayer; [done|]. by apply wornDown_same.
  - apply makePrediction_inv in Hop
      as [[-> _]|(r0 & nm & p & Hr0 & Hs & _ & Hi & Hp & -> & ->)].
    { assert (room' = room) as -> by congruence. apply Forall2_wornDown_refl. }
    assert (r0 = room) as -> by congruence.
    rewrite setRoom_lookup in Hr'. injection Hr' as <-. simpl.
    eapply Forall2_wornDown_setPlayer; [done|]. by apply wornDown_same.
  - apply playHand_Done in Hop
      as [[-> _]|(r0 & actor & sel & r' & ev & Hr0 & _ & _ & _ & Ha & Hsel & _ & _ & Hres
                  & -> & _)].
    { assert (room' = room) as -> by congruence. apply Forall2_wornDown_refl. }
    assert (r0 = room) as -> by congruence.
    rewrite setRoom_lookup in Hr'. injection Hr' as <-.
    eapply resolvePlay_wornDown; [exact Ha| |exact Hres]. by eapply Hranks.
  - apply buildArmor_Done in Hop
      as [[-> _]|(r0 & actor & sel & r' & ev & Hr0 & _ & _ & _ & _ & Ha & Hsel & _ & _ & Hres
                  & -> & _)].
    { assert (room' = room) as -> by congruence. apply Forall2_wornDown_refl. }
    assert (r0 = room) as -> by congruence.
    rewrite setRoom_lookup in Hr'. injection Hr' as <-.
    eapply resolveArmor_wornDown; [exact Ha|exact Hres].
Qed.

Lemma vitals_stay_in_range_witness :
  Forall2 wornDown (players (ex_room ex_predicted))
    (players (ex_room (andThen ex_predicted (playHand "a" "r" ex_rnd)))).
Proof.
  apply (vitals_stay_in_range "r" (PlayHand "a" ex_rnd) (ex_server ex_predicted)
           (ex_server (andThen ex_predicted (playHand "a" "r" ex_rnd)))
           (ex_events (playHand "a" "r" ex_rnd (ex_server ex_predicted)))
           (ex_room ex_predicted)
           (ex_room (andThen ex_predicted (playHand "a" "r" ex_rnd))));
    try (vm_compute; reflexivity).
  intros actor sel Ha Hsel.
  assert (Forall (fun c => 1 ≤ rank c ≤ 13) (ex_selection ex_predicted 0)) as Hr
    by (apply (bool_decide_unpack _); vm_compute; exact I).
  vm_compute in Ha. injection Ha as <-. vm_compute in Hsel. injection Hsel as <-.
  exact Hr.
Defined.

(** ** Start and rematch *)

Lemma startingHealth_values gm :
  startingHealth gm
  = if decide (gm = RECYCLING) then Some 150
    else if decide (gm ∈ inheritedNames) then None else Some 100.
Proof.
  assert ((CLASSIC ∉ inheritedNames) ∧ (TACTICAL ∉ inheritedNames)) as [Hc Ht]
    by (split; apply (bool_decide_unpack _); vm_compute; exact I).
  unfold startingHealth. repeat case_decide; try done;
    unfold CLASSIC, TACTICAL, RECYCLING in *; congruence.
Qed.

Lemma initPlayer_freshlyDealt gm rnd index p :
  (index < 2)%nat → freshlyDealt gm (initPlayer gm (createDeck rnd) index p).
Proof.
  intros Hi. unfold freshlyDealt, initPlayer. simpl.
  pose proof (createDeck_length rnd) as Hlen. pose proof (createDeck_cards rnd) as Hflags.
  split; [done|]. split; [done|]. split.
  { eexists. split; [done|]. split.
    - rewrite length_take, length_drop, Hlen. lia.
    - apply Forall_take, Forall_drop. eapply Forall_impl; [exact Hflags|].
      intros c (? & ? & _). done. }
  split; [done|]. split; [done|]. split; [done|]. split; [done|].
  intros ->. by rewrite !decide_True.
Qed.

Lemma first_player rnd (p0 p1 : player) :
  ∃ p, at_index [p0; p1] (Z.of_nat (rnd createDeck_calls mod 2)) = Some p
       ∧ 0 ≤ Z.of_nat (rnd createDeck_calls mod 2) ≤ 1.
Proof.
  pose proof (Nat.mod_upper_bound (rnd createDeck_calls) 2 ltac:(done)) as Hlt.
  destruct (rnd createDeck_calls mod 2)%nat as [|[|n]]; [| |lia].
  - exists p0. done.
  - exists p1. done.
Qed.

Lemma startGame_two rid rnd s room :
  rooms s !! rid = Some room → length (players room) = 2%nat →
  startGame rid rnd s
  = Done (setRoom rid (dealtRoom rnd room) s)
      (Event (ToRoom rid) "gameStarted" (Snapshot (dealtRoom rnd room))
       :: ((fun p => Event (ToSocket (pid p)) "gameStarted" (Snapshot (dealtRoom rnd room)))
           <$> players (dealtRoom rnd room))).
Proof.
  intros Hr Hlen.
  destruct (players room) as [|p0 [|p1 [|? ?]]] eqn:Hps; try done. clear Hlen.
  unfold startGame, dealtRoom. rewrite Hr, Hps. cbn [length].
  rewrite bool_decide_eq_true_2 by done. cbn [negb imap].
  destruct (first_player rnd (initPlayer (gameMode room) (createDeck rnd) 0 p0)
              (initPlayer (gameMode room) (createDeck rnd) 1 p1)) as (p & Hp & Hcur).
  change ((initPlayer (gameMode room) (createDeck rnd) ∘ S) 0%nat p1)
    with (initPlayer (gameMode room) (createDeck rnd) 1 p1).
  rewrite Hp. reflexivity.
Qed.

Lemma acceptRematch_two sid roomId rnd s room nm :
  rooms s !! roomId = Some room → sessions s !! sid = Some nm →
  length (players room) = 2%nat →
  acceptRematch sid roomId rnd s
  = Done (setRoom roomId (with_lastPlayedHand None (dealtRoom rnd room)) s)
      [Event (ToRoom roomId) "rematchAccepted"
         (Snapshot (with_lastPlayedHand None (dealtRoom rnd room)))].
Proof.
  intros Hr Hs Hlen.
  destruct (players room) as [|p0 [|p1 [|? ?]]] eqn:Hps; try done. clear Hlen.
  unfold acceptRematch, dealtRoom. rewrite Hr, Hs, Hps. cbn [imap].
  destruct (first_player rnd (initPlayer (gameMode room) (createDeck rnd) 0 p0)
              (initPlayer (gameMode room) (createDeck rnd) 1 p1)) as (p & Hp & Hcur).
  change ((initPlayer (gameMode room) (createDeck rnd) ∘ S) 0%nat p1)
    with (initPlayer (gameMode room) (createDeck rnd) 1 p1).
  rewrite Hp. unfold with_lastPlayedHand.
  cbn [rid rname gameMode players gameState currentPlayer turn deck discardPile].
  reflexivity.
Qed.

Lemma dealtRoom_state rnd room :
  length (players room) = 2%nat →
  gameState (dealtRoom rnd room) = playing ∧ turn (dealtRoom rnd room) = 1
  ∧ currentPlayer (dealtRoom rnd room) = Z.of_nat (rnd createDeck_calls mod 2)
  ∧ 0 ≤ currentPlayer (dealtRoom rnd room) ≤ 1
  ∧ length (deck (dealtRoom rnd room)) = 36%nat
  ∧ Forall2 sameSeat (players room) (players (dealtRoom rnd room))
  ∧ Forall (freshlyDealt (gameMode room)) (players (dealtRoom rnd room)).
Proof.
  intros Hlen.
  destruct (players room) as [|p0 [|p1 [|? ?]]] eqn:Hps; try done. clear Hlen.
  unfold dealtRoom. rewrite Hps. cbn [gameState turn currentPlayer deck players imap].
  change ((initPlayer (gameMode room) (createDeck rnd) ∘ S) 0%nat p1)
    with (initPlayer (gameMode room) (createDeck rnd) 1 p1).
  split; [done|]. split; [done|]. split; [done|]. split.
  { pose proof (Nat.mod_upper_bound (rnd createDeck_calls) 2 ltac:(done)). lia. }
  split; [rewrite length_drop, createDeck_length; done|].
  split.
  { apply Forall2_cons. split; [done|]. apply Forall2_cons. split; [done|]. constructor. }
  apply Forall_cons. split; [apply initPlayer_freshlyDealt; lia|].
  apply Forall_cons. split; [apply initPlayer_freshlyDealt; lia|]. constructor.
Qed.

(** X15.  [startGame] in a room of two players, whatever state the room is
    in.  Each player gets a health and a greatest health of 150 in a
    Recycling room, of 100 in a Classic or a Tactical room and in a room
    of any other mode that names no property inherited from
    [Object.prototype], and an undefined health in a room whose mode names
    such a property ([createRoom] takes the mode from the client as it
    comes); a hand of 8 cards none of which is selected or marked, an empty
    selection, no discard used out of 3, of at most 3 cards each, and in a
    Tactical room no armor and no prediction.  The room is set to playing
    at turn 1 with a draw pile of 36 cards and the player chosen by the
    random number at turn; in a Recycling room the discard pile is emptied.
    The last played hand of the room is kept.  The room is sent
    [gameStarted] three times: once as a room and once for each of its
    players. *)
Theorem startGame_initial_state rid rnd s room :
  rooms s !! rid = Some room → length (players room) = 2%nat →
  ∃ room',
    startGame rid rnd s
    = Done (setRoom rid room' s)
        (Event (ToRoom rid) "gameStarted" (Snapshot room')
         :: ((fun p => Event (ToSocket (pid p)) "gameStarted" (Snapshot room'))
             <$> players room'))
    ∧ gameState room' = playing ∧ turn room' = 1
    ∧ currentPlayer room' = Z.of_nat (rnd createDeck_calls mod 2)
    ∧ 0 ≤ currentPlayer room' ≤ 1
    ∧ length (deck room') = 36%nat
    ∧ Forall2 sameSeat (players room) (players room')
    ∧ Forall (freshlyDealt (gameMode room)) (players room')
    ∧ Forall (fun p =>
                health p = maxHealth p
                ∧ health p = (if decide (gameMode room = RECYCLING) then Some 150
                              else if decide (gameMode room ∈ inheritedNames) then None
                              else Some 100))
        (players room')
    ∧ gameMode room' = gameMode room
    ∧ lastPlayedHand room' = lastPlayedHand room
    ∧ discardPile room'
      = (if decide (gameMode room = RECYCLING) then Some [] else discardPile room).
Proof.
  intros Hr Hlen. exists (dealtRoom rnd room).
  split; [by apply startGame_two|].
  destruct (dealtRoom_state rnd room Hlen) as (? & ? & ? & ? & ? & ? & Hfresh).
  do 7 (split; [done|]). split; [|done].
  eapply Forall_impl; [exact Hfresh|]. intros p (Hh & Hm & _).
  rewrite Hh, Hm. split; [done|apply startingHealth_values].
Qed.

Lemma startGame_initial_state_witness :
  ∃ room',
    startGame "r" ex_rnd (ex_lobby RECYCLING)
    = Done (setRoom "r" room' (ex_lobby RECYCLING))
        (Event (ToRoom "r") "gameStarted" (Snapshot room')
         :: ((fun p => Event (ToSocket (pid p)) "gameStarted" (Snapshot room'))
             <$> players room'))
    ∧ Forall (freshlyDealt RECYCLING) (players room')
    ∧ Forall (fun p => health p = Some 150) (players room').
Proof.
  destruct (startGame_initial_state "r" ex_rnd (ex_lobby RECYCLING)
              (ex_room (Done (ex_lobby RECYCLING) []))
              ltac:(vm_compute; reflexivity) ltac:(vm_compute; reflexivity))
    as (room' & H1 & _ & _ & _ & _ & _ & _ & H8 & H9 & _).
  exists room'. split; [exact H1|]. split; [exact H8|].
  eapply Forall_impl; [exact H9|]. intros p [_ Hp]. exact Hp.
Defined.

(** X16.  [acceptRematch] asks only that the room exist and that the sender
    be registered: in a room of two players it deals the game that
    [startGame] would deal with the same random numbers (the same hands,
    the same health, which is undefined in a room whose mode names a
    property inherited from [Object.prototype], and the same counters),
    whoever the sender is (seated in the room or not) and whatever state the
    game is in, save that the last played hand of the room is cleared and
    that the room is told once, by [rematchAccepted]. *)
Theorem acceptRematch_restarts sid rid rnd s room nm :
  rooms s !! rid = Some room → sessions s !! sid = Some nm →
  length (players room) = 2%nat →
  ∃ room' evs,
    startGame rid rnd s = Done (setRoom rid room' s) evs
    ∧ acceptRematch sid rid rnd s
      = Done (setRoom rid (with_lastPlayedHand None room') s)
          [Event (ToRoom rid) "rematchAccepted" (Snapshot (with_lastPlayedHand None room'))]
    ∧ gameState room' = playing ∧ turn room' = 1
    ∧ Forall (freshlyDealt (gameMode room)) (players room').
Proof.
  intros Hr Hs Hlen. eexists (dealtRoom rnd room), _.
  split; [by apply startGame_two|]. split; [by eapply acceptRematch_two|].
  destruct (dealtRoom_state rnd room Hlen) as (? & ? & _ & _ & _ & _ & ?). done.
Qed.

Lemma acceptRematch_restarts_witness :
  Forall (fun p => pid p ≠ "c") (players (ex_room (Done ex_intruder [])))
  ∧ gameState (ex_room (Done ex_intruder [])) = playing
  ∧ turn (ex_room (Done ex_intruder [])) = 2
  ∧ ∃ room' evs,
      startGame "r" ex_rnd ex_intruder = Done (setRoom "r" room' ex_intruder) evs
      ∧ acceptRematch "c" "r" ex_rnd ex_intruder
        = Done (setRoom "r" (with_lastPlayedHand None room') ex_intruder)
            [Event (ToRoom "r") "rematchAccepted"
               (Snapshot (with_lastPlayedHand None room'))]
      ∧ gameState room' = playing ∧ turn room' = 1.
Proof.
  split; [apply (bool_decide_unpack _); vm_compute; exact I|].
  split; [vm_compute; reflexivity|]. split; [vm_compute; reflexivity|].
  destruct (acceptRematch_restarts "c" "r" ex_rnd ex_intruder
              (ex_room (Done ex_intruder [])) "Cy"
              ltac:(vm_compute; reflexivity) ltac:(vm_compute; reflexivity)
              ltac:(vm_compute; reflexivity))
    as (room' & evs & H1 & H2 & H3 & H4 & _).
  exists room', evs. split; [exact H1|]. split; [exact H2|]. split; [exact H3|exact H4].
Defined.

Lemma at_index_of_nat {A} (l : list A) (k : nat) : at_index l (Z.of_nat k) = l !! k.
Proof. unfold at_index. rewrite decide_True by lia. by rewrite Nat2Z.id. Qed.

(** X17.  [acceptRematch] in a room that holds fewer players than two.  The
    handler picks the player to begin among two seats whatever the number
    of players is, and then reads the name of that player: when the seat
    picked is empty the read throws and the handler does not return.  In a
    room that holds its creator alone this happens for one of the two
    values of the random number; for the other value the game is started
    for the single player. *)
Theorem acceptRematch_short_room sid roomId rnd s room nm :
  rooms s !! roomId = Some room → sessions s !! sid = Some nm →
  (acceptRematch sid roomId rnd s = Crash
   ↔ (length (players room) ≤ rnd createDeck_calls mod 2)%nat)
  ∧ (length (players room) = 1%nat →
       ((rnd createDeck_calls mod 2)%nat = 1%nat → acceptRematch sid roomId rnd s = Crash)
       ∧ ((rnd createDeck_calls mod 2)%nat = 0%nat →
            acceptRematch sid roomId rnd s
            = Done (setRoom roomId (with_lastPlayedHand None (dealtRoom rnd room)) s)
                [Event (ToRoom roomId) "rematchAccepted"
                   (Snapshot (with_lastPlayedHand None (dealtRoom rnd room)))]
            ∧ gameState (dealtRoom rnd room) = playing
            ∧ currentPlayer (dealtRoom rnd room) = 0
            ∧ length (players (dealtRoom rnd room)) = 1%nat
            ∧ length (deck (dealtRoom rnd room)) = 36%nat)).
Proof.
  intros Hr Hs.
  assert (∀ p, at_index (imap (initPlayer (gameMode room) (createDeck rnd)) (players room))
                 (Z.of_nat (rnd createDeck_calls mod 2)) = Some p →
               acceptRematch sid roomId rnd s
               = Done (setRoom roomId (with_lastPlayedHand None (dealtRoom rnd room)) s)
                   [Event (ToRoom roomId) "rematchAccepted"
                      (Snapshot (with_lastPlayedHand None (dealtRoom rnd room)))]) as Hdone.
  { intros p Hp. unfold acceptRematch. rewrite Hr, Hs, Hp. unfold with_lastPlayedHand, dealtRoom.
    cbn [rid rname gameMode players gameState currentPlayer turn deck discardPile].
    reflexivity. }
  assert (at_index (imap (initPlayer (gameMode room) (createDeck rnd)) (players room))
            (Z.of_nat (rnd createDeck_calls mod 2)) = None →
          acceptRematch sid roomId rnd s = Crash) as Hcrash.
  { intros Hp. unfold acceptRematch. by rewrite Hr, Hs, Hp. }
  rewrite at_index_of_nat in Hdone, Hcrash.
  split.
  - destruct (imap _ (players room) !! (rnd createDeck_calls mod 2)%nat) as [p|] eqn:Hp.
    + rewrite (Hdone p eq_refl). split; [done|]. intros Hle.
      apply lookup_lt_Some in Hp. rewrite length_imap in Hp. lia.
    + split; [|by intros; apply Hcrash]. intros _.
      apply lookup_ge_None in Hp. by rewrite length_imap in Hp.
  - intros Hlen. split.
    + intros Hodd. apply Hcrash. apply lookup_ge_None. rewrite length_imap. lia.
    + intros Heven.
      destruct (imap _ (players room) !! (rnd createDeck_calls mod 2)%nat) as [p|] eqn:Hp.
      2:{ apply lookup_ge_None in Hp. rewrite length_imap in Hp. lia. }
      split; [by apply (Hdone p)|]. unfold dealtRoom.
      cbn [gameState currentPlayer players deck]. rewrite Heven.
      split; [done|]. split; [done|]. split; [by rewrite length_imap|].
      by rewrite length_drop, createDeck_length.
Qed.

Lemma acceptRematch_short_room_witness :
  acceptRematch "a" "r" (fun k => S (ex_rnd k)) ex_solo = Crash
  ∧ gameState (dealtRoom ex_rnd (ex_room (Done ex_solo []))) = playing.
Proof.
  destruct (acceptRematch_short_room "a" "r" (fun k => S (ex_rnd k)) ex_solo
              (ex_room (Done ex_solo [])) "Ann"
              ltac:(vm_compute; reflexivity) ltac:(vm_compute; reflexivity)) as [_ H1].
  destruct (acceptRematch_short_room "a" "r" ex_rnd ex_solo
              (ex_room (Done ex_solo [])) "Ann"
              ltac:(vm_compute; reflexivity) ltac:(vm_compute; reflexivity)) as [_ H2].
  split.
  - apply H1; vm_compute; reflexivity.
  - apply H2; vm_compute; reflexivity.
Defined.

(** ** Predictions *)

(** X18.  Only the last prediction counts: once a prediction has been made,
    a further [makePrediction] of the same session has the outcome it would
    have had without the earlier one. *)
Theorem prediction_last_wins sid rid g1 g2 s s1 evs1 :
  makePrediction sid rid g1 s = Done s1 evs1 →
  makePrediction sid rid g2 s1 = makePrediction sid rid g2 s.
Proof.
  intros Hop. apply makePrediction_inv in Hop
    as [[-> _]|(room & nm & p & Hr & Hs & Hm & Hi & Hp & -> & _)]; [done|].
  set (room1 := with_players (setPlayer (indexOf sid room) (with_prediction (Some g1) p)
                                (players room)) room).
  assert (indexOf sid room1 = indexOf sid room) as Hi1.
  { apply indexOf_pids. simpl. by eapply pids_setPlayer. }
  unfold makePrediction at 1. rewrite setRoom_lookup. simpl sessions. rewrite Hs.
  change (gameMode room1) with (gameMode room). rewrite (bool_decide_eq_true_2 _ Hm).
  cbn [negb]. rewrite Hi1. change (currentPlayer room1) with (currentPlayer room).
  rewrite (bool_decide_eq_false_2 _ Hi).
  change (players room1)
    with (setPlayer (indexOf sid room) (with_prediction (Some g1) p) (players room)).
  rewrite (at_index_setPlayer_eq _ _ _ _ Hp), setPlayer_setPlayer, setRoom_setRoom.
  unfold makePrediction. rewrite Hr, Hs, (bool_decide_eq_true_2 _ Hm).
  cbn [negb]. rewrite (bool_decide_eq_false_2 _ Hi), Hp. reflexivity.
Qed.

Lemma prediction_last_wins_witness :
  makePrediction "b" "r" "Flush" (ex_server (makePrediction "b" "r" "Straight" ex_lobby3))
  = makePrediction "b" "r" "Flush" ex_lobby3.
Proof.
  apply (prediction_last_wins "b" "r" "Straight" "Flush" ex_lobby3
           (ex_server (makePrediction "b" "r" "Straight" ex_lobby3))
           (ex_events (makePrediction "b" "r" "Straight" ex_lobby3))).
  vm_compute. reflexivity.
Defined.

(** ** Requests that name no room or come from no session *)

(** X19.  A request that names a room that does not exist, or that comes
    from a socket that has not registered a name, is dropped by each of the
    seven handlers of a game without a word: the state is unchanged and no
    event is emitted.  [startGame] does the same for a room that does not
    exist. *)
Theorem strangers_are_ignored sid rid rnd cardId guess s :
  rooms s !! rid = None ∨ sessions s !! sid = None →
  selectCard sid rid cardId s = Done s []
  ∧ markForDiscard sid rid cardId s = Done s []
  ∧ discardCards sid rid s = Done s []
  ∧ makePrediction sid rid guess s = Done s []
  ∧ playHand sid rid rnd s = Done s []
  ∧ buildArmor sid rid rnd s = Done s []
  ∧ acceptRematch sid rid rnd s = Done s []
  ∧ (rooms s !! rid = None → startGame rid rnd s = Done s []).
Proof.
  intros Hno.
  unfold selectCard, markForDiscard, discardCards, makePrediction, playHand, buildArmor,
    acceptRematch, startGame.
  destruct (rooms s !! rid) as [room|] eqn:Hr.
  - destruct Hno as [?| ->]; [done|]. repeat split; done.
  - repeat split; done.
Qed.

Lemma strangers_are_ignored_witness :
  playHand "c" "r" ex_rnd (ex_server (ex_ace_selected CLASSIC))
  = Done (ex_server (ex_ace_selected CLASSIC)) []
  ∧ acceptRematch "a" "q" ex_rnd (ex_server (ex_ace_selected CLASSIC))
    = Done (ex_server (ex_ace_selected CLASSIC)) [].
Proof.
  destruct (strangers_are_ignored "c" "r" ex_rnd (heartsId 1) "Flush"
              (ex_server (ex_ace_selected CLASSIC))
              ltac:(right; vm_compute; reflexivity)) as (_ & _ & _ & _ & H1 & _).
  destruct (strangers_are_ignored "a" "q" ex_rnd (heartsId 1) "Flush"
              (ex_server (ex_ace_selected CLASSIC))
              ltac:(left; vm_compute; reflexivity)) as (_ & _ & _ & _ & _ & _ & H2 & _).
  split; [exact H1|exact H2].
Defined.

(** ** Who sits where *)

Lemma sameSeat_refl p : sameSeat p p.
Proof. done. Qed.

Lemma sameSeat_trans p q r : sameSeat p q → sameSeat q r → sameSeat p r.
Proof. intros [? ?] [? ?]. split; congruence. Qed.

Lemma Forall2_sameSeat_refl ps : Forall2 sameSeat ps ps.
Proof. induction ps; constructor; done. Qed.

Lemma Forall2_sameSeat_trans ps qs rs :
  Forall2 sameSeat ps qs → Forall2 sameSeat qs rs → Forall2 sameSeat ps rs.
Proof.
  intros H1. revert rs. induction H1 as [|p q ps qs Hpq _ IH]; intros rs H2.
  - by inversion H2.
  - inversion H2 as [|? r ? rs' Hqr Hrest]; subst. constructor; [|by apply IH].
    by eapply sameSeat_trans.
Qed.

Lemma Forall2_sameSeat_setPlayer ps i p p' :
  at_index ps i = Some p → sameSeat p p' → Forall2 sameSeat ps (setPlayer i p' ps).
Proof.
  intros (l1 & l2 & -> & Hset)%setPlayer_split Hw. rewrite Hset.
  apply Forall2_app; [apply Forall2_sameSeat_refl|].
  constructor; [done|apply Forall2_sameSeat_refl].
Qed.

Lemma sameTable_refl r : sameTable r r.
Proof. repeat split. apply Forall2_sameSeat_refl. Qed.

Lemma sameTable_trans r1 r2 r3 : sameTable r1 r2 → sameTable r2 r3 → sameTable r1 r3.
Proof.
  intros (? & ? & ? & ?) (? & ? & ? & ?). repeat split; try congruence.
  by eapply Forall2_sameSeat_trans.
Qed.

Lemma sameTable_setPlayer r i p p' :
  at_index (players r) i = Some p → sameSeat p p' →
  sameTable r (with_players (setPlayer i p' (players r)) r).
Proof. intros Hp Hs. repeat split. by eapply Forall2_sameSeat_setPlayer. Qed.

Lemma applyPrediction_seat t res e : sameSeat e (applyPrediction t res e).2.
Proof. unfold applyPrediction. by destruct (t && _). Qed.

Lemma applyArmor_seat t d e : sameSeat e (applyArmor t d e).2.
Proof. unfold applyArmor. repeat case_match; done. Qed.

Lemma consumeAndRedraw_seat rnd r actor r1 actor' :
  consumeAndRedraw rnd r actor = Some (r1, actor') →
  sameSeat actor actor' ∧ sameTable r r1 ∧ players r1 = players r.
Proof.
  unfold consumeAndRedraw. destruct (hand actor); [|done].
  destruct (recycle _ _ _) as [[d pile]|]; [|done].
  intros [= <- <-]. split; [done|]. split; [|done].
  repeat split. apply Forall2_sameSeat_refl.
Qed.

Lemma switchTurns_seat r r' : switchTurns r = Some r' → sameTable r r'.
Proof.
  intros (p & Hp & ->)%switchTurns_Some. repeat split. simpl.
  by eapply Forall2_sameSeat_setPlayer.
Qed.

Lemma resolvePlay_seat rid rnd r i actor sel r' ev :
  at_index (players r) i = Some actor →
  resolvePlay rid rnd r i actor sel = Some (r', ev) → sameTable r r'.
Proof.
  intros Ha. unfold resolvePlay.
  destruct (at_index (players r) (1 - i)) as [enemy|] eqn:He; [|done].
  pose proof (applyPrediction_seat (bool_decide (gameMode r = TACTICAL))
                (evaluateHand sel) enemy) as Hw1.
  destruct (applyPrediction _ _ enemy) as [d1 e1]. simpl in Hw1.
  pose proof (applyArmor_seat (bool_decide (gameMode r = TACTICAL)) d1 e1) as Hw2.
  destruct (applyArmor _ d1 e1) as [d2 e2]. simpl in Hw2.
  destruct (consumeAndRedraw rnd r actor) as [[r1 actor']|] eqn:Hc; [|done].
  destruct (consumeAndRedraw_seat _ _ _ _ _ Hc) as (Hwa & (Hid & Hnm & Hgm & _) & Hps).
  set (e3 := with_health _ e2).
  assert (sameSeat enemy e3) as Hw3.
  { eapply sameSeat_trans; [exact Hw1|]. eapply sameSeat_trans; [exact Hw2|]. done. }
  set (ps := setPlayer i actor' (setPlayer (1 - i) e3 (players r))).
  assert (Forall2 sameSeat (players r) ps) as Hwps.
  { eapply Forall2_sameSeat_trans.
    - by eapply (Forall2_sameSeat_setPlayer _ (1 - i) enemy e3).
    - eapply Forall2_sameSeat_setPlayer; [|exact Hwa].
      rewrite at_index_setPlayer_ne by lia. done. }
  destruct (num_le _ 0).
  - intros [= <- <-]. repeat split; done.
  - destruct (switchTurns _) as [r3|] eqn:Hsw; [|done].
    destruct (publicViews _ _ _ _); [|done]. intros [= <- <-].
    apply switchTurns_seat in Hsw. eapply sameTable_trans; [|exact Hsw].
    repeat split; done.
Qed.

Lemma resolveArmor_seat rid rnd r i actor sel r' ev :
  at_index (players r) i = Some actor →
  resolveArmor rid rnd r i actor sel = Some (r', ev) → sameTable r r'.
Proof.
  intros Ha. unfold resolveArmor.
  destruct (consumeAndRedraw rnd r _) as [[r1 actor']|] eqn:Hc; [|done].
  destruct (consumeAndRedraw_seat _ _ _ _ _ Hc) as (Hwa & (Hid & Hnm & Hgm & _) & Hps).
  destruct (switchTurns _) as [r3|] eqn:Hsw; [|done].
  destruct (publicViews _ _ _ _); [|done]. intros [= <- <-].
  apply switchTurns_seat in Hsw. eapply sameTable_trans; [|exact Hsw].
  repeat split; try done. simpl. eapply Forall2_sameSeat_setPlayer; [done|].
  eapply sameSeat_trans; [|exact Hwa]. done.
Qed.

Lemma handle_seat rid q s s' evs :
  handle rid q s = Done s' evs →
  s' = s ∨ ∃ room room', rooms s !! rid = Some room ∧ s' = setRoom rid room' s
                         ∧ sameTable room room'.
Proof.
  intros Hop. destruct q as [sid c|sid c|sid|sid g|sid rnd|sid rnd]; simpl in Hop.
  - pose proof Hop as Hop'.
    apply selectCard_inv in Hop'
      as [[-> ->]|(room & nm & a0 & h & i & c0 & Hr & Hs & Hst & Hi & Ha & Hh & Hf)];
      [by left|].
    rewrite (selectCard_resolved _ _ _ _ _ _ _ _ _ _ Hr Hs Hst Hi Ha Hh Hf) in Hop.
    apply Done_inj in Hop as [<- <-]. right. eexists room, _.
    split; [done|]. split; [done|]. by eapply sameTable_setPlayer.
  - pose proof Hop as Hop'.
    apply markForDiscard_inv in Hop'
      as [[-> ->]|(room & nm & a0 & h & i & c0 & Hr & Hs & Hst & Hi & Ha & Hh & Hf)];
      [by left|].
    rewrite (markForDiscard_resolved _ _ _ _ _ _ _ _ _ _ Hr Hs Hst Hi Ha Hh Hf) in Hop.
    apply Done_inj in Hop as [<- <-]. right. eexists room, _.
    split; [done|]. split; [done|]. by eapply sameTable_setPlayer.
  - apply discardCards_inv in Hop
      as [[-> ->]|(room & nm & a0 & h & r' & ev & Hr & Hs & Hst & Hi & Ha & Hh & _ & _
                   & _ & Hres & -> & ->)];
      [by left|].
    apply resolveDiscard_inv in Hres as (d & pile' & vs & -> & ->).
    right. eexists room, _. split; [done|]. split; [done|].
    repeat split. simpl. by eapply Forall2_sameSeat_setPlayer.
  - apply makePrediction_inv in Hop
      as [[-> _]|(room & nm & p & Hr & Hs & _ & Hi & Hp & -> & ->)]; [by left|].
    right. eexists room, _. split; [done|]. split; [done|]. by eapply sameTable_setPlayer.
  - apply playHand_Done in Hop
      as [[-> _]|(room & actor & sel & r' & ev & Hr & _ & _ & _ & Ha & Hsel & _ & _ & Hres
                  & -> & _)]; [by left|].
    right. exists room, r'. split; [done|]. split; [done|]. by eapply resolvePlay_seat.
  - apply buildArmor_Done in Hop
      as [[-> _]|(room & actor & sel & r' & ev & Hr & _ & _ & _ & _ & Ha & Hsel & _ & _ & Hres
                  & -> & _)]; [by left|].
    right. exists room, r'. split; [done|]. split; [done|]. by eapply resolveArmor_seat.
Qed.

Lemma initPlayer_seats gm d ps : Forall2 sameSeat ps (imap (initPlayer gm d) ps).
Proof.
  apply Forall2_same_length_lookup. split; [by rewrite length_imap|].
  intros i p p' Hp Hp'. rewrite list_lookup_imap, Hp in Hp'. by injection Hp' as <-.
Qed.

Lemma restart_seat sid rid rnd s s' evs :
  startGame rid rnd s = Done s' evs ∨ acceptRematch sid rid rnd s = Done s' evs →
  s' = s ∨ ∃ room room', rooms s !! rid = Some room ∧ s' = setRoom rid room' s
                         ∧ sameTable room room'.
Proof.
  unfold startGame, acceptRematch.
  destruct (rooms s !! rid) as [room|] eqn:Hr; [|intros [[<- _]%Done_inj|[<- _]%Done_inj]; by left].
  intros [Hop|Hop].
  - destruct (negb _); [apply Done_inj in Hop as [<- _]; by left|].
    destruct (at_index _ _); [|done]. apply Done_inj in Hop as [<- _].
    right. eexists room, _. split; [done|]. split; [done|].
    repeat split. apply initPlayer_seats.
  - destruct (sessions s !! sid); [|apply Done_inj in Hop as [<- _]; by left].
    destruct (at_index _ _); [|done]. apply Done_inj in Hop as [<- _].
    right. eexists room, _. split; [done|]. split; [done|].
    repeat split. apply initPlayer_seats.
Qed.

(** X20.  No handler of a game, [startGame] and [acceptRematch] included,
    registers or forgets a session, creates or deletes a room, or touches
    the seats of the room it works on: the room keeps its id, its name and
    its mode, and every seat keeps the player, by id and name, that held
    it. *)
Theorem seats_are_kept sid rid rnd q s s' evs :
  handle rid q s = Done s' evs ∨ startGame rid rnd s = Done s' evs
  ∨ acceptRematch sid rid rnd s = Done s' evs →
  sessions s' = sessions s
  ∧ dom (rooms s') = dom (rooms s)
  ∧ (∀ room, rooms s !! rid = Some room →
       ∃ room', rooms s' !! rid = Some room' ∧ sameTable room room'
                ∧ length (players room') = length (players room)).
Proof.
  intros Hop.
  assert (s' = s ∨ ∃ room room', rooms s !! rid = Some room ∧ s' = setRoom rid room' s
                                 ∧ sameTable room room') as [->|(room & room' & Hr & -> & Hst)].
  { destruct Hop as [Hop|Hop]; [by eapply handle_seat|by eapply restart_seat]. }
  - split; [done|]. split; [done|]. intros room Hr. exists room.
    split; [done|]. split; [apply sameTable_refl|done].
  - split; [done|]. split.
    + simpl. apply dom_insert_lookup_L. by rewrite Hr.
    + intros room0 Hr0. assert (room0 = room) as -> by congruence.
      exists room'. split; [apply setRoom_lookup|]. split; [done|].
      destruct Hst as (_ & _ & _ & Hseats). symmetry. by eapply Forall2_length.
Qed.

Lemma seats_are_kept_witness :
  sessions (ex_server (ex_royal_played CLASSIC)) = sessions (ex_server (ex_royal_selected CLASSIC))
  ∧ dom (rooms (ex_server (ex_royal_played CLASSIC)))
    = dom (rooms (ex_server (ex_royal_selected CLASSIC))).
Proof.
  destruct (seats_are_kept "a" "r" ex_rnd (PlayHand "a" ex_rnd)
              (ex_server (ex_royal_selected CLASSIC)) (ex_server (ex_royal_played CLASSIC))
              (ex_events (playHand "a" "r" ex_rnd (ex_server (ex_royal_selected CLASSIC))))
              ltac:(left; vm_compute; reflexivity)) as (H1 & H2 & _).
  split; [exact H1|exact H2].
Defined.

(** * Properties of the lobby *)

(** ** The ordered map *)

Section ordered_map.
Context {V : Type}.
Implicit Types (m : list (string * V)) (k : string) (v : V).

Lemma mapGet_nil k : mapGet k ([] : list (string * V)) = None.
Proof. done. Qed.

Lemma mapGet_cons k k' v m :
  mapGet k ((k', v) :: m) = if decide (k' = k) then Some v else mapGet k m.
Proof.
  unfold mapGet. simpl. destruct (decide (k' = k)); simpl; [done|].
  by destruct (list_find _ m) as [[i e]|].
Qed.

Lemma mapGet_mapSet_eq k v m : mapGet k (mapSet k v m) = Some v.
Proof.
  induction m as [|[k' v'] m IH]; simpl.
  - rewrite mapGet_cons. by rewrite decide_True.
  - destruct (decide (k' = k)); rewrite mapGet_cons.
    + by rewrite decide_True.
    + by rewrite decide_False.
Qed.

Lemma mapGet_mapSet_ne k k' v m : k ≠ k' → mapGet k' (mapSet k v m) = mapGet k' m.
Proof.
  intros Hne. induction m as [|[k0 v0] m IH]; simpl.
  - rewrite mapGet_cons. by rewrite decide_False.
  - destruct (decide (k0 = k)) as [->|]; rewrite !mapGet_cons.
    + by rewrite !decide_False.
    + by rewrite IH.
Qed.

Lemma mapGet_None k m : mapGet k m = None ↔ k ∉ (fst <$> m).
Proof.
  induction m as [|[k' v'] m IH]; [split; [intros _; apply not_elem_of_nil|done]|].
  rewrite mapGet_cons, fmap_cons, not_elem_of_cons. simpl.
  destruct (decide (k' = k)); naive_solver.
Qed.

Lemma mapGet_Some_elem k v m : mapGet k m = Some v → (k, v) ∈ m.
Proof.
  induction m as [|[k' v'] m IH]; [by rewrite mapGet_nil|].
  rewrite mapGet_cons. destruct (decide (k' = k)) as [->|].
  - intros [= ->]. left.
  - intros H. right. by apply IH.
Qed.

Lemma mapGet_elem_NoDup k v m : NoDup (fst <$> m) → (k, v) ∈ m → mapGet k m = Some v.
Proof.
  induction m as [|[k' v'] m IH]; [by rewrite elem_of_nil|].
  rewrite fmap_cons, NoDup_cons, elem_of_cons, mapGet_cons. simpl.
  intros [Hk Hnd] [[= -> ->]|Hin].
  - by rewrite decide_True.
  - rewrite decide_False; [by apply IH|]. intros ->. apply Hk.
    apply list_elem_of_fmap. by exists (k, v).
Qed.

Lemma mapSet_fresh k v m : mapGet k m = None → mapSet k v m = m ++ [(k, v)].
Proof.
  induction m as [|[k' v'] m IH]; [done|].
  rewrite mapGet_cons. simpl. destruct (decide (k' = k)); [done|].
  intros H. by rewrite IH.
Qed.

Lemma elem_of_mapSet e k v m : e ∈ mapSet k v m → e = (k, v) ∨ e ∈ m.
Proof.
  induction m as [|[k' v'] m IH]; simpl.
  - rewrite list_elem_of_singleton. by left.
  - destruct (decide (k' = k)); rewrite !elem_of_cons; naive_solver.
Qed.

Lemma Forall_mapSet (P : string * V → Prop) k v m :
  Forall P m → P (k, v) → Forall P (mapSet k v m).
Proof.
  rewrite !Forall_forall. intros Hm Hkv e [->|He]%elem_of_mapSet; [done|by apply Hm].
Qed.

Lemma keys_mapSet x k v m : x ∈ (fst <$> mapSet k v m) ↔ x = k ∨ x ∈ (fst <$> m).
Proof.
  induction m as [|[k' v'] m IH]; cbn [mapSet].
  - rewrite !fmap_cons, !fmap_nil, list_elem_of_singleton, elem_of_nil. simpl. tauto.
  - destruct (decide (k' = k)) as [->|Hne]; rewrite !fmap_cons, !elem_of_cons; simpl.
    + tauto.
    + rewrite IH. tauto.
Qed.

Lemma NoDup_mapSet k v m : NoDup (fst <$> m) → NoDup (fst <$> mapSet k v m).
Proof.
  induction m as [|[k' v'] m IH]; cbn [mapSet].
  - intros _. rewrite fmap_cons. apply NoDup_singleton.
  - rewrite fmap_cons, NoDup_cons. simpl. intros [Hk Hnd].
    destruct (decide (k' = k)) as [->|Hne]; rewrite fmap_cons, NoDup_cons; simpl.
    + done.
    + split; [|by apply IH]. rewrite keys_mapSet. intros [?|?]; done.
Qed.

Lemma NoDup_mapDelete k m : NoDup (fst <$> m) → NoDup (fst <$> mapDelete k m).
Proof.
  intros Hnd. eapply sublist_NoDup; [exact Hnd|].
  apply fmap_sublist, sublist_filter.
Qed.

Lemma Forall_mapDelete (P : string * V → Prop) k m : Forall P m → Forall P (mapDelete k m).
Proof.
  rewrite !Forall_forall. intros H e [_ He]%list_elem_of_filter. by apply H.
Qed.

Lemma mapGet_mapDelete_eq k m : mapGet k (mapDelete k m) = None.
Proof.
  apply mapGet_None. unfold mapDelete. intros ([k' v] & -> & Hin)%list_elem_of_fmap.
  apply list_elem_of_filter in Hin as [Hne _]. done.
Qed.

Lemma mapGet_mapDelete_ne k k' m : k ≠ k' → mapGet k' (mapDelete k m) = mapGet k' m.
Proof.
  intros Hne. induction m as [|[k0 v0] m IH]; [done|].
  unfold mapDelete in *. rewrite filter_cons. simpl.
  destruct (decide (k0 ≠ k)) as [H0|H0]; rewrite !mapGet_cons.
  - by rewrite IH.
  - apply dec_stable in H0 as ->. by rewrite decide_False.
Qed.

Lemma mapDelete_fresh k m : mapGet k m = None → mapDelete k m = m.
Proof.
  intros H%mapGet_None. unfold mapDelete.
  induction m as [|[k' v] m IH]; [done|].
  rewrite fmap_cons, not_elem_of_cons in H. destruct H as [Hk Hm]. simpl in Hk.
  rewrite filter_cons_True by (simpl; congruence). by rewrite IH.
Qed.

Lemma mapDelete_mapSet_fresh k v m : mapGet k m = None → mapDelete k (mapSet k v m) = m.
Proof.
  intros H. rewrite (mapSet_fresh _ _ _ H). unfold mapDelete.
  rewrite filter_app. fold (mapDelete k m). rewrite (mapDelete_fresh _ _ H).
  rewrite filter_cons. simpl. rewrite decide_False by (intros ?; done).
  by rewrite app_nil_r.
Qed.

End ordered_map.

(** ** Worlds in order *)

Lemma inOrder_iff w :
  wellFormed w ∧ roomsInOrder w
  ↔ NoDup (fst <$> roomList w) ∧ registryOk (store w) (registry w)
    ∧ Forall (roomOk (store w)) (roomList w).
Proof.
  unfold wellFormed, roomsInOrder, registryOk, roomOk. rewrite !Forall_forall. split.
  - intros [(Hk & Hid & Hreg & Hval) Hord]. split; [done|]. split; [done|].
    intros e He. specialize (Hid e He). specialize (Hval e He). specialize (Hord e He).
    simpl in *. tauto.
  - intros (Hk & Hreg & Hall). split; [split; [done|]|].
    + split; [intros e He; by destruct (Hall e He)|]. split; [done|].
      intros e He. by destruct (Hall e He) as (_ & ? & _).
    + intros e He. destruct (Hall e He) as (_ & _ & ? & ?). done.
Qed.

Lemma extends_refl st : extends st st.
Proof. split; [done|]. done. Qed.

Lemma extends_trans st1 st2 st3 : extends st1 st2 → extends st2 st3 → extends st1 st3.
Proof.
  intros [H1 H1'] [H2 H2']. split; [lia|]. intros a Ha.
  rewrite H2' by lia. by apply H1'.
Qed.

Lemma extends_alter (f : playerObj → playerObj) a st :
  (∀ o, pid (fields (f o)) = pid (fields o)) → extends st (alter f a st).
Proof.
  intros Hf. split; [by rewrite length_alter|]. intros b Hb.
  rewrite list_lookup_total_alter. case_decide as H; [|done].
  destruct H as [-> _]. apply Hf.
Qed.

Lemma extends_app st o : extends st (st ++ [o]).
Proof.
  split; [rewrite length_app; lia|]. intros a Ha. by rewrite lookup_total_app_l.
Qed.

Lemma extends_deal gm d (l : list (nat * nat)) st : extends st (foldl (dealInto gm d) st l).
Proof.
  revert st. induction l as [|e l IH]; intros st; [apply extends_refl|].
  simpl. eapply extends_trans; [|apply IH]. by apply extends_alter.
Qed.

Lemma seatIds_extends st st' r :
  extends st st' → Forall (fun a => (a < length st)%nat) (seats r) →
  seatIds st' r = seatIds st r.
Proof.
  intros [_ Hpid] Hval. unfold seatIds, seated. rewrite <- !list_fmap_compose.
  apply Forall_fmap_ext_1. eapply Forall_impl; [exact Hval|].
  intros a Ha. simpl. by apply Hpid.
Qed.

Lemma roomOk_extends st st' e : extends st st' → roomOk st e → roomOk st' e.
Proof.
  intros Hext (Hid & Hval & Hlen & Hnd). split; [done|]. split.
  - eapply Forall_impl; [exact Hval|]. intros a Ha. destruct Hext. simpl in *. lia.
  - split; [done|]. by rewrite (seatIds_extends st st').
Qed.

Lemma registryOk_extends st st' reg : extends st st' → registryOk st reg → registryOk st' reg.
Proof.
  intros [Hlen Hpid] Hreg sid a Ha. destruct (Hreg sid a Ha) as [Hlt Hsid].
  split; [lia|]. by rewrite Hpid.
Qed.

Lemma getPlayer_Some sid w a o :
  getPlayer sid w = Some (a, o) ↔ registry w !! sid = Some a ∧ o = store w !!! a.
Proof.
  unfold getPlayer. destruct (registry w !! sid) as [b|]; simpl; [|naive_solver].
  split; [by intros [= -> <-]|]. by intros [[= ->] ->].
Qed.

Lemma getPlayer_None sid w : getPlayer sid w = None ↔ registry w !! sid = None.
Proof. unfold getPlayer. by destruct (registry w !! sid). Qed.

Lemma mapGet_roomOk st k r m : Forall (roomOk st) m → mapGet k m = Some r → roomOk st (k, r).
Proof.
  intros Hall Hr%mapGet_Some_elem. by apply (proj1 (Forall_forall _ _) Hall).
Qed.

(** The rooms that [leaveRoom] and [disconnect] leave. *)
Lemma vacate_inOrder sid k room w :
  NoDup (fst <$> roomList w) → Forall (roomOk (store w)) (roomList w) →
  mapGet k (roomList w) = Some room →
  NoDup (fst <$> (vacate sid k room w).1)
  ∧ Forall (roomOk (store w)) (vacate sid k room w).1.
Proof.
  intros Hnd Hall Hr. unfold vacate.
  destruct (mapGet_roomOk _ _ _ _ Hall Hr) as (Hid & Hval & Hlen & Hids). simpl in *.
  case_bool_decide as Hempty; simpl.
  - split; [by apply NoDup_mapDelete|by apply Forall_mapDelete].
  - split; [by apply NoDup_mapSet|]. apply Forall_mapSet; [done|].
    set (stay := filter _ (seats room)) in *.
    assert (stay `sublist_of` seats room) as Hsub by apply sublist_filter.
    split; [done|]. simpl. split.
    + apply Forall_forall. intros a Ha. apply (proj1 (Forall_forall _ _) Hval).
      unfold stay in Ha. by apply list_elem_of_filter in Ha as [_ Ha].
    + split.
      * apply sublist_length in Hsub. destruct stay; simpl in *; [done|lia].
      * eapply sublist_NoDup; [exact Hids|]. unfold seatIds, seated. simpl.
        by do 2 apply fmap_sublist.
Qed.

Lemma handlers_keep_order c w :
  NoDup (fst <$> roomList w) ∧ registryOk (store w) (registry w)
  ∧ Forall (roomOk (store w)) (roomList w) →
  NoDup (fst <$> roomList (serve c w).1)
  ∧ registryOk (store (serve c w).1) (registry (serve c w).1)
  ∧ Forall (roomOk (store (serve c w).1)) (roomList (serve c w).1).
Proof.
  intros (Hnd & Hreg & Hall).
  destruct c as [sid nm|sid|sid newId nm gm|sid k|sid k|sid k|sid|sid|k rnd]; simpl.
  - (* setPlayerName *)
    split; [done|]. split.
    + intros sid' a. rewrite lookup_insert_Some. intros [[<- <-]|[Hne Ha]].
      * rewrite length_app. simpl. split; [lia|].
        by rewrite list_lookup_total_middle.
      * apply (registryOk_extends (store w) _ (registry w) (extends_app _ _) Hreg sid' a Ha).
    + eapply Forall_impl; [exact Hall|]. intros e. apply roomOk_extends, extends_app.
  - (* getRooms *) done.
  - (* createRoom *)
    unfold createRoom. destruct (getPlayer sid w) as [[a o]|] eqn:Hp; [|done]. simpl.
    apply getPlayer_Some in Hp as [Ha ->]. destruct (Hreg sid a Ha) as [Hlt Hsid].
    assert (extends (store w) (alter (setRoomId (Some newId)) a (store w))) as Hext
      by by apply extends_alter.
    split; [by apply NoDup_mapSet|]. split; [by eapply registryOk_extends|].
    apply Forall_mapSet.
    + eapply Forall_impl; [exact Hall|]. intros e. by apply roomOk_extends.
    + split; [done|]. simpl. split; [|split; [lia|apply NoDup_singleton]].
      apply Forall_singleton. by rewrite length_alter.
  - (* joinRoom *)
    unfold joinRoom. destruct (mapGet k (roomList w)) as [room|] eqn:Hr; [|done].
    destruct (getPlayer sid w) as [[a o]|] eqn:Hp; [|done].
    case_bool_decide as Hfull; [done|]. case_bool_decide as Hin; [done|]. simpl.
    apply getPlayer_Some in Hp as [Ha ->]. destruct (Hreg sid a Ha) as [Hlt Hsid].
    destruct (mapGet_roomOk _ _ _ _ Hall Hr) as (Hid & Hval & Hlen & Hids). simpl in *.
    assert (extends (store w) (alter (setRoomId (Some k)) a (store w))) as Hext
      by by apply extends_alter.
    split; [by apply NoDup_mapSet|]. split; [by eapply registryOk_extends|].
    apply Forall_mapSet.
    + eapply Forall_impl; [exact Hall|]. intros e. by apply roomOk_extends.
    + apply (roomOk_extends (store w)); [done|].
      split; [done|]. simpl. split; [|split].
      * apply Forall_app. split; [done|]. by apply Forall_singleton.
      * rewrite length_app. simpl. lia.
      * unfold seatIds, seated. simpl. rewrite !fmap_app. simpl.
        apply NoDup_app. split; [exact Hids|]. split; [|apply NoDup_singleton].
        intros x Hx ->%list_elem_of_singleton. apply Hin.
        apply Exists_exists. unfold seatIds in Hx. apply list_elem_of_fmap in Hx as (p & Hp & Hpin).
        exists p. split; [done|]. congruence.
  - (* requestRematch *)
    unfold requestRematch. by repeat case_match.
  - (* declineRematch *)
    unfold declineRematch. by repeat case_match.
  - (* leaveRoom *)
    unfold leaveRoom. destruct (getPlayer sid w) as [[a o]|] eqn:Hp; [|done].
    destruct (truthy (roomId o)); [|done].
    destruct (mapGet _ (roomList w)) as [room|] eqn:Hr; [|done].
    destruct (vacate_inOrder sid _ room w Hnd Hall Hr) as [Hnd' Hall'].
    destruct (vacate _ _ _ _) as [rooms told]. simpl in *.
    assert (extends (store w) (alter (setRoomId None) a (store w))) as Hext
      by by apply extends_alter.
    split; [done|]. split; [by eapply registryOk_extends|].
    eapply Forall_impl; [exact Hall'|]. intros e. by apply roomOk_extends.
  - (* disconnect *)
    unfold disconnect.
    assert (registryOk (store w) (delete sid (registry w))) as Hreg'.
    { intros sid' a. rewrite lookup_delete_Some. intros [_ Ha]. by apply Hreg. }
    destruct (getPlayer sid w) as [[a o]|] eqn:Hp; [|done].
    destruct (truthy (roomId o)); [|done].
    destruct (mapGet _ (roomList w)) as [room|] eqn:Hr; [|done].
    destruct (vacate_inOrder sid _ room w Hnd Hall Hr) as [Hnd' Hall'].
    destruct (vacate _ _ _ _) as [rooms told]. simpl in *. done.
  - (* startGame *)
    unfold startGameW. destruct (mapGet k (roomList w)) as [room|] eqn:Hr; [|done].
    destruct (negb _); [done|]. cbn [fst snd store registry roomList].
    destruct (mapGet_roomOk _ _ _ _ Hall Hr) as (Hid & Hval & Hlen & Hids).
    cbn [fst snd] in Hid, Hval, Hlen, Hids.
    pose proof (extends_deal (gameMode (shell room)) (createDeck rnd)
                  (imap pair (seats room)) (store w)) as Hext.
    split; [by apply NoDup_mapSet|]. split; [by eapply registryOk_extends|].
    apply Forall_mapSet.
    + eapply Forall_impl; [exact Hall|]. intros e. by apply roomOk_extends.
    + apply (roomOk_extends (store w)); [done|].
      split; [exact Hid|]. split; [exact Hval|]. split; [exact Hlen|exact Hids].
Qed.

Lemma serveAll_state_from w evs evs' cs :
  (foldl (fun acc c => let '(w', e) := serve c acc.1 in (w', acc.2 ++ e)) (w, evs) cs).1
  = (foldl (fun acc c => let '(w', e) := serve c acc.1 in (w', acc.2 ++ e)) (w, evs') cs).1.
Proof.
  revert w evs evs'. induction cs as [|c cs IH]; intros w evs evs'; [done|].
  simpl. destruct (serve c w) as [w1 e1]. apply IH.
Qed.

Lemma serveAll_cons c cs w : (serveAll (c :: cs) w).1 = (serveAll cs (serve c w).1).1.
Proof.
  unfold serveAll. simpl. destruct (serve c w) as [w1 e1]. simpl.
  apply serveAll_state_from.
Qed.

Lemma emptyWorld_inOrder : wellFormed emptyWorld ∧ roomsInOrder emptyWorld.
Proof.
  apply inOrder_iff. split; [constructor|]. split; [|constructor].
  intros sid a H. simpl in H. by rewrite lookup_empty in H.
Qed.

Lemma serve_inOrder c w :
  wellFormed w ∧ roomsInOrder w → wellFormed (serve c w).1 ∧ roomsInOrder (serve c w).1.
Proof. intros H. apply inOrder_iff, handlers_keep_order, inOrder_iff, H. Qed.

Lemma serveAll_inOrder cs w :
  wellFormed w ∧ roomsInOrder w → wellFormed (serveAll cs w).1 ∧ roomsInOrder (serveAll cs w).1.
Proof.
  revert w. induction cs as [|c cs IH]; intros w H; [done|].
  rewrite serveAll_cons. apply IH, serve_inOrder, H.
Qed.

(** X21.  No room is ever left empty and no room ever holds more than two
    players, nor the same player id twice.  Each request that the lobby
    serves ([setPlayerName], [getRooms], [createRoom], [joinRoom], the two
    rematch notices, [leaveRoom], [disconnect]) and each start that a timer
    of [joinRoom] sets off keeps this, together with the well-formedness of
    the two maps; so it holds of every world that they reach from the
    empty one, in whatever order they come. *)
Theorem rooms_hold_one_or_two :
  (∀ c w, wellFormed w → roomsInOrder w →
          wellFormed (serve c w).1 ∧ roomsInOrder (serve c w).1)
  ∧ (∀ cs, wellFormed (serveAll cs emptyWorld).1 ∧ roomsInOrder (serveAll cs emptyWorld).1).
Proof.
  split; [intros c w ? ?; by apply serve_inOrder|].
  intros cs. apply serveAll_inOrder, emptyWorld_inOrder.
Qed.

(** ** Which rooms can be joined *)

Lemma availableIds_spec w k :
  wellFormed w →
  k ∈ availableIds w ↔ ∃ room, mapGet k (roomList w) = Some room ∧ (length (seats room) < 2)%nat.
Proof.
  intros (Hnd & Hid & _). unfold availableIds, getRooms. simpl.
  rewrite <- list_fmap_compose, list_elem_of_fmap. split.
  - intros (r & -> & Hin). apply list_elem_of_filter in Hin as [Hlen Hin].
    apply list_elem_of_fmap in Hin as ([k' r'] & -> & Hin). simpl in *.
    exists r'. split; [|done]. apply mapGet_elem_NoDup; [done|].
    pose proof (proj1 (Forall_forall _ _) Hid _ Hin) as Hk. simpl in Hk. by rewrite Hk.
  - intros (room & Hr & Hlen). apply mapGet_Some_elem in Hr.
    exists room. split.
    + pose proof (proj1 (Forall_forall _ _) Hid _ Hr) as Hk. simpl in *. done.
    + apply list_elem_of_filter. split; [done|].
      apply list_elem_of_fmap. by exists (k, room).
Qed.

(** X22.  [getRooms] and [joinRoom] agree.  A registered session gets into
    a room exactly when the room is among those that [getRooms] lists and
    does not seat a player of the id of the session already; a room of two
    players is never listed.  A session that gets in takes the last seat
    and has the room written into its player object; a start is set for
    2000 ms later exactly when the room has become full.  A session that
    does not get in is sent one [error] and the world stays as it is. *)
Theorem listed_rooms_can_be_joined sid k w a :
  wellFormed w → registry w !! sid = Some a →
  (Join k ∈ (joinRoom sid k w).2
   ↔ k ∈ availableIds w
     ∧ ∀ room, mapGet k (roomList w) = Some room → sid ∉ seatIds (store w) room)
  ∧ (∀ room, mapGet k (roomList w) = Some room → (2 ≤ length (seats room))%nat →
             k ∉ availableIds w)
  ∧ (Join k ∈ (joinRoom sid k w).2 →
       ∃ room, mapGet k (roomList w) = Some room
         ∧ mapGet k (roomList (joinRoom sid k w).1)
           = Some (RoomObj (shell room) (seats room ++ [a]))
         ∧ roomId (store (joinRoom sid k w).1 !!! a) = Some k
         ∧ registry (joinRoom sid k w).1 = registry w
         ∧ (SetTimeout k 2000 ∈ (joinRoom sid k w).2 ↔ length (seats room) = 1%nat))
  ∧ (Join k ∉ (joinRoom sid k w).2 →
       (joinRoom sid k w).1 = w
       ∧ ∃ text, (joinRoom sid k w).2 = [Emit ToSender "error" (ErrorText text)]).
Proof.
  intros Hwf Ha.
  assert (getPlayer sid w = Some (a, store w !!! a)) as Hp by by apply getPlayer_Some.
  pose proof (availableIds_spec w k Hwf) as Hav.
  destruct Hwf as (Hnd & Hid & Hreg & Hval).
  destruct (Hreg sid a Ha) as [Hlt Hsid].
  unfold joinRoom. rewrite Hp.
  destruct (mapGet k (roomList w)) as [room|] eqn:Hr.
  2:{ simpl. split; [|split; [done|split]].
      - rewrite Hav. split; [|intros [(room & ? & _) _]; done].
        intros Hin. apply list_elem_of_singleton in Hin. done.
      - intros Hin. apply list_elem_of_singleton in Hin. done.
      - intros _. split; [done|]. eauto. }
  case_bool_decide as Hfull.
  { simpl. split; [|split; [|split]].
    - rewrite Hav. split; [intros Hin; apply list_elem_of_singleton in Hin; done|].
      intros [(room' & Hr' & Hlen) _]. simplify_eq. lia.
    - intros room' [= <-] _. rewrite Hav. intros (room' & Hr' & Hlen). simplify_eq. lia.
    - intros Hin. apply list_elem_of_singleton in Hin. done.
    - intros _. split; [done|]. eauto. }
  case_bool_decide as Hin.
  { simpl. split; [|split; [|split]].
    - split; [intros H; apply list_elem_of_singleton in H; done|].
      intros [_ Hno]. exfalso. apply (Hno room eq_refl).
      apply Exists_exists in Hin as (p & Hpin & Hpid). unfold seatIds.
      apply list_elem_of_fmap. exists p. done.
    - intros room' [= <-] Hlen. lia.
    - intros H. apply list_elem_of_singleton in H. done.
    - intros _. split; [done|]. eauto. }
  cbn [fst snd roomList store registry seats].
  assert (Join k ∈ ([Join k;
             Emit (ToChannel k) "playerJoined"
               (PlayerJoined (alter (setRoomId (Some k)) a (store w) !!! a)
                  (snapshot (alter (setRoomId (Some k)) a (store w))
                     (RoomObj (shell room) (seats room ++ [a]))));
             Emit ToEveryone "roomsUpdated" NoPayload]
            ++ (if bool_decide (length (seats room ++ [a]) = 2%nat)
                then [SetTimeout k 2000] else []))) as Hjoined
    by (apply elem_of_app; left; left).
  split; [|split; [|split]].
  - split; [|done]. intros _. split.
    + apply Hav. exists room. split; [done|]. lia.
    + intros room' [= <-] Hseat. apply Hin. apply Exists_exists.
      unfold seatIds in Hseat. apply list_elem_of_fmap in Hseat as (p & Hp' & Hpin).
      exists p. done.
  - intros room' [= <-] Hlen. lia.
  - intros _. exists room. split; [done|]. split; [apply mapGet_mapSet_eq|].
    split; [by rewrite list_lookup_total_alter_eq|]. split; [done|].
    clear Hjoined. rewrite length_app. simpl. rewrite !elem_of_cons.
    case_bool_decide as H2.
    + split; [lia|]. intros _. do 3 right. by left.
    + rewrite elem_of_nil. split; [|lia]. intros [?|[?|[?|?]]]; done.
  - done.
Qed.

Lemma listed_rooms_can_be_joined_witness :
  Join "r1" ∈ (joinRoom "b" "r1"
                 (serveAll [SetPlayerName "a" "Ann"; SetPlayerName "b" "Bob";
                            CreateRoom "a" "r1" "Room" None] emptyWorld).1).2.
Proof.
  destruct (serveAll_inOrder [SetPlayerName "a" "Ann"; SetPlayerName "b" "Bob";
                              CreateRoom "a" "r1" "Room" None] emptyWorld
              emptyWorld_inOrder) as [Hwf _].
  destruct (listed_rooms_can_be_joined "b" "r1"
              (serveAll [SetPlayerName "a" "Ann"; SetPlayerName "b" "Bob";
                         CreateRoom "a" "r1" "Room" None] emptyWorld).1 1%nat
              Hwf ltac:(vm_compute; reflexivity)) as (Hiff & _).
  apply Hiff. split.
  - vm_compute. left.
  - intros room Hr. vm_compute in Hr. injection Hr as <-. vm_compute.
    intros H. apply list_elem_of_singleton in H. discriminate H.
Defined.

(** ** Leaving *)

Lemma alter_same (f : playerObj → playerObj) (a : nat) (st : list playerObj) :
  f (st !!! a) = st !!! a → alter f a st = st.
Proof.
  intros Hf. rewrite <- (list_alter_id id st a) at 2 by done.
  apply list_alter_ext; [|done]. intros x Hx.
  apply list_lookup_total_correct in Hx. by rewrite <- Hx.
Qed.

Lemma truthy_Some k : k ≠ EmptyString → truthy (Some k) = true.
Proof. intros Hk. unfold truthy. by rewrite bool_decide_false. Qed.

(** What [leaveRoom] does for a session whose player object names a room
    that exists. *)
Lemma leaveRoom_resolved sid w a k room :
  registry w !! sid = Some a → roomId (store w !!! a) = Some k → k ≠ EmptyString →
  mapGet k (roomList w) = Some room →
  leaveRoom sid w
  = (World (alter (setRoomId None) a (store w)) (registry w) (vacate sid k room w).1,
     [Leave k] ++ (vacate sid k room w).2 ++ [Emit ToEveryone "roomsUpdated" NoPayload]).
Proof.
  intros Ha Hk Hne Hr. unfold leaveRoom.
  rewrite (proj2 (getPlayer_Some sid w a _) (conj Ha eq_refl)).
  rewrite Hk, truthy_Some by done. simpl. rewrite Hr.
  by destruct (vacate sid k room w).
Qed.

Lemma disconnect_resolved sid w a k room :
  registry w !! sid = Some a → roomId (store w !!! a) = Some k → k ≠ EmptyString →
  mapGet k (roomList w) = Some room →
  disconnect sid w
  = (World (store w) (delete sid (registry w)) (vacate sid k room w).1,
     (vacate sid k room w).2 ++ [Emit ToEveryone "roomsUpdated" NoPayload]).
Proof.
  intros Ha Hk Hne Hr. unfold disconnect.
  rewrite (proj2 (getPlayer_Some sid w a _) (conj Ha eq_refl)).
  rewrite Hk, truthy_Some by done. simpl. rewrite Hr.
  by destruct (vacate sid k room w).
Qed.

(** The last player to leave takes the room along. *)
Lemma vacate_alone sid k sh a w :
  pid (fields (store w !!! a)) = sid →
  vacate sid k (RoomObj sh [a]) w = (mapDelete k (roomList w), []).
Proof.
  intros Hpid. unfold vacate. simpl. rewrite filter_cons_False by naive_solver.
  by rewrite filter_nil.
Qed.

Lemma createRoom_resolved sid newId nm gm w a :
  registry w !! sid = Some a →
  createRoom sid newId nm gm w
  = (World (alter (setRoomId (Some newId)) a (store w)) (registry w)
       (mapSet newId
          (RoomObj (Room newId nm (default CLASSIC gm) [] waiting 0 1 [] None None) [a])
          (roomList w)),
     [ Join newId;
       Emit ToSender "roomCreated"
         (RoomCreated newId
            (snapshot (alter (setRoomId (Some newId)) a (store w))
               (RoomObj (Room newId nm (default CLASSIC gm) [] waiting 0 1 [] None None) [a])));
       Emit ToEveryone "roomsUpdated" NoPayload ]).
Proof.
  intros Ha. unfold createRoom.
  by rewrite (proj2 (getPlayer_Some sid w a _) (conj Ha eq_refl)).
Qed.

(** X23.  Creating a room and leaving it at once is a round trip.  For a
    registered session that is in no room and a room id that is new, the
    world after [createRoom] and [leaveRoom] is the world before: the room
    is gone from [rooms] and the player object names no room again.  The
    session is taken out of the channel of the room and everybody is told
    once more that the rooms changed. *)
Theorem createRoom_leaveRoom_round_trip sid newId nm gm w a :
  wellFormed w → registry w !! sid = Some a → roomId (store w !!! a) = None →
  mapGet newId (roomList w) = None → newId ≠ EmptyString →
  (leaveRoom sid (createRoom sid newId nm gm w).1).1 = w
  ∧ (leaveRoom sid (createRoom sid newId nm gm w).1).2
    = [Leave newId; Emit ToEveryone "roomsUpdated" NoPayload]
  ∧ mapGet newId (roomList (createRoom sid newId nm gm w).1)
    = Some (RoomObj (Room newId nm (default CLASSIC gm) [] waiting 0 1 [] None None) [a]).
Proof.
  intros (_ & _ & Hreg & _) Ha Hnone Hfresh Hne.
  destruct (Hreg sid a Ha) as [Hlt Hsid].
  rewrite (createRoom_resolved sid newId nm gm w a Ha). cbn [fst snd roomList].
  set (r := RoomObj _ [a]). set (st := alter _ a (store w)).
  assert (st !!! a = setRoomId (Some newId) (store w !!! a)) as Hobj
    by by apply list_lookup_total_alter_eq.
  rewrite (leaveRoom_resolved sid (World st (registry w) (mapSet newId r (roomList w)))
             a newId r); [|exact Ha|by cbn [store]; rewrite Hobj|exact Hne|apply mapGet_mapSet_eq].
  assert (vacate sid newId r (World st (registry w) (mapSet newId r (roomList w)))
          = (mapDelete newId (mapSet newId r (roomList w)), [])) as Hvac.
  { apply (vacate_alone sid newId). cbn [store]. by rewrite Hobj. }
  rewrite !Hvac.
  cbn [fst snd store registry roomList]. split; [|split; [reflexivity|apply mapGet_mapSet_eq]].
  rewrite mapDelete_mapSet_fresh by done. unfold st.
  rewrite list_alter_alter_eq, alter_same; [by destruct w|].
  simpl. unfold setRoomId. simpl. rewrite <- Hnone. by destruct (store w !!! a).
Qed.

Lemma createRoom_leaveRoom_round_trip_witness :
  (leaveRoom "a" (createRoom "a" "r1" "Room" (Some TACTICAL)
                    (setPlayerName "a" "Ann" emptyWorld).1).1).1
  = (setPlayerName "a" "Ann" emptyWorld).1.
Proof.
  refine (proj1 (createRoom_leaveRoom_round_trip "a" "r1" "Room" (Some TACTICAL)
                   (setPlayerName "a" "Ann" emptyWorld).1 0%nat _ _ _ _ _)).
  - apply inOrder_iff, (handlers_keep_order (SetPlayerName "a" "Ann") emptyWorld),
      inOrder_iff, emptyWorld_inOrder.
  - vm_compute. reflexivity.
  - vm_compute. reflexivity.
  - vm_compute. reflexivity.
  - discriminate.
Defined.

(** X24.  [disconnect] is [leaveRoom] followed by the removal of the
    session: it leaves the same rooms and sends the same messages, it only
    does not take the socket out of the channel, it forgets the session in
    [players], and it does not touch the player objects (the room named in
    the object of the session stays written there). *)
Theorem disconnect_is_leaveRoom_and_forget sid w :
  roomList (disconnect sid w).1 = roomList (leaveRoom sid w).1
  ∧ registry (disconnect sid w).1 = delete sid (registry (leaveRoom sid w).1)
  ∧ store (disconnect sid w).1 = store w
  ∧ (disconnect sid w).2 = filter (fun e => isLeave e = false) (leaveRoom sid w).2.
Proof.
  unfold disconnect, leaveRoom.
  destruct (getPlayer sid w) as [[a o]|]; [|done].
  destruct (truthy (roomId o)); [|done].
  destruct (mapGet _ (roomList w)) as [room|]; [|done].
  unfold vacate. case_bool_decide; simpl; done.
Qed.

(** ** Sessions without a name *)

(** X25.  A socket that never sent [setPlayerName] (or that was
    disconnected since) changes nothing: whatever it asks for, apart from
    [setPlayerName] itself, leaves the world as it is, and every message
    that results goes to the socket itself.  [createRoom] answers with the
    error [Player not found]; the rematch notices, [leaveRoom] and
    [disconnect] answer with nothing. *)
Theorem unregistered_sockets_change_nothing c sid w :
  callerOf c = Some sid → registry w !! sid = None → (∀ nm, c ≠ SetPlayerName sid nm) →
  (serve c w).1 = w
  ∧ Forall (fun e => ∃ n b, e = Emit ToSender n b) (serve c w).2
  ∧ (∀ newId nm gm, c = CreateRoom sid newId nm gm →
       (serve c w).2 = [Emit ToSender "error" (ErrorText "Player not found")])
  ∧ (∀ k, c = JoinRoom sid k →
       ∃ text, (serve c w).2 = [Emit ToSender "error" (ErrorText text)])
  ∧ (∀ k, c = RequestRematch sid k ∨ c = DeclineRematch sid k → (serve c w).2 = [])
  ∧ (c = LeaveRoom sid ∨ c = Disconnect sid → (serve c w).2 = []).
Proof.
  intros Hc Hreg Hnot. pose proof (proj2 (getPlayer_None sid w) Hreg) as Hp.
  destruct c as [sid' nm|sid'|sid' newId nm gm|sid' k|sid' k|sid' k|sid'|sid'|k rnd];
    simpl in Hc; simplify_eq; simpl.
  - by destruct (Hnot nm).
  - split; [done|]. split; [apply Forall_singleton; eauto|]. naive_solver.
  - unfold createRoom. rewrite Hp. simpl.
    split; [done|]. split; [apply Forall_singleton; eauto|]. naive_solver.
  - unfold joinRoom. rewrite Hp.
    destruct (mapGet k (roomList w)); simpl;
      (split; [done|]; split; [apply Forall_singleton; eauto|]; naive_solver).
  - unfold requestRematch. rewrite Hp.
    destruct (mapGet k (roomList w)); simpl; (split; [done|]; split; [constructor|done]).
  - unfold declineRematch. rewrite Hp.
    destruct (mapGet k (roomList w)); simpl; (split; [done|]; split; [constructor|done]).
  - unfold leaveRoom. rewrite Hp. simpl. split; [done|]. split; [constructor|done].
  - unfold disconnect. rewrite Hp. simpl. rewrite delete_id by done.
    split; [by destruct w|]. split; [constructor|done].
Qed.

Lemma unregistered_sockets_change_nothing_witness :
  (serve (JoinRoom "z" "r1") (createRoom "a" "r1" "Room" None
                                (setPlayerName "a" "Ann" emptyWorld).1).1).1
  = (createRoom "a" "r1" "Room" None (setPlayerName "a" "Ann" emptyWorld).1).1.
Proof.
  refine (proj1 (unregistered_sockets_change_nothing (JoinRoom "z" "r1") "z" _ _ _ _)).
  - reflexivity.
  - vm_compute. reflexivity.
  - discriminate.
Defined.

(** ** Joining, and the start that joining sets off *)

Lemma joinRoom_resolved sid k w a room :
  registry w !! sid = Some a → mapGet k (roomList w) = Some room →
  (length (seats room) < 2)%nat →
  ¬ Exists (fun p => pid (fields p) = sid) (seated (store w) room) →
  joinRoom sid k w
  = (World (alter (setRoomId (Some k)) a (store w)) (registry w)
       (mapSet k (RoomObj (shell room) (seats room ++ [a])) (roomList w)),
     [ Join k;
       Emit (ToChannel k) "playerJoined"
         (PlayerJoined (alter (setRoomId (Some k)) a (store w) !!! a)
            (snapshot (alter (setRoomId (Some k)) a (store w))
               (RoomObj (shell room) (seats room ++ [a]))));
       Emit ToEveryone "roomsUpdated" NoPayload ]
     ++ (if bool_decide (length (seats room ++ [a]) = 2%nat)
         then [SetTimeout k 2000] else [])).
Proof.
  intros Ha Hr Hlen Hin. unfold joinRoom.
  rewrite (proj2 (getPlayer_Some sid w a _) (conj Ha eq_refl)), Hr.
  rewrite bool_decide_false by lia. by rewrite bool_decide_false by done.
Qed.

(** A start is set only by a session that takes the second seat. *)
Lemma joinRoom_timer sid k w a :
  registry w !! sid = Some a → SetTimeout k 2000 ∈ (joinRoom sid k w).2 →
  ∃ room b, mapGet k (roomList w) = Some room ∧ seats room = [b]
            ∧ ¬ Exists (fun p => pid (fields p) = sid) (seated (store w) room).
Proof.
  intros Ha. unfold joinRoom.
  rewrite (proj2 (getPlayer_Some sid w a _) (conj Ha eq_refl)).
  destruct (mapGet k (roomList w)) as [room|] eqn:Hr.
  2:{ simpl. intros H. apply list_elem_of_singleton in H. done. }
  case_bool_decide as Hfull.
  { simpl. intros H. apply list_elem_of_singleton in H. done. }
  case_bool_decide as Hin.
  { simpl. intros H. apply list_elem_of_singleton in H. done. }
  cbn [snd seats]. rewrite length_app. simpl. case_bool_decide as H2.
  - intros _. destruct (seats room) as [|b [|? ?]] eqn:Hs; simpl in *; try lia.
    exists room, b. rewrite Hs. done.
  - simpl. rewrite !elem_of_cons, elem_of_nil. intros [?|[?|[?|?]]]; done.
Qed.

Lemma startGameW_not_two k rnd w room :
  mapGet k (roomList w) = Some room → length (seats room) ≠ 2%nat →
  startGameW k rnd w = (w, []).
Proof.
  intros Hr Hlen. unfold startGameW. rewrite Hr. by rewrite bool_decide_false by done.
Qed.

Lemma startGameW_two k rnd w room :
  mapGet k (roomList w) = Some room → length (seats room) = 2%nat →
  startGameW k rnd w
  = (let deck := createDeck rnd in
     let sh := shell room in
     let st := foldl (dealInto (gameMode sh) deck) (store w) (imap pair (seats room)) in
     let r := RoomObj
                (Room (rid sh) (rname sh) (gameMode sh) [] playing
                   (Z.of_nat (rnd createDeck_calls mod 2)) 1 (drop 16 deck)
                   (if decide (gameMode sh = RECYCLING) then Some [] else discardPile sh)
                   (lastPlayedHand sh))
                (seats room) in
     (World st (registry w) (mapSet k r (roomList w)),
      Emit (ToChannel k) "gameStarted" (GameStarted (snapshot st r))
      :: ((fun p => Emit (ToChannel (pid (fields p))) "gameStarted" (GameStarted (snapshot st r)))
          <$> seated st r))).
Proof.
  intros Hr Hlen. unfold startGameW. rewrite Hr. by rewrite bool_decide_true by done.
Qed.

(** X26.  A start that [joinRoom] has set is called off by leaving.  When
    the session that took the second seat leaves the room, or is
    disconnected, before the 2000 ms are over, the start finds one player
    in the room and does nothing: nobody is dealt cards and no message is
    sent.  When both stay, the start puts the room into the state
    [playing]. *)
Theorem leaving_calls_off_the_start sid k rnd w a :
  wellFormed w → registry w !! sid = Some a → k ≠ EmptyString →
  SetTimeout k 2000 ∈ (joinRoom sid k w).2 →
  startGameW k rnd (leaveRoom sid (joinRoom sid k w).1).1
  = ((leaveRoom sid (joinRoom sid k w).1).1, [])
  ∧ startGameW k rnd (disconnect sid (joinRoom sid k w).1).1
    = ((disconnect sid (joinRoom sid k w).1).1, [])
  ∧ (∃ room, mapGet k (roomList (leaveRoom sid (joinRoom sid k w).1).1) = Some room
             ∧ length (seats room) = 1%nat ∧ mapGet k (roomList w) = Some room)
  ∧ (∃ room, mapGet k (roomList (startGameW k rnd (joinRoom sid k w).1).1) = Some room
             ∧ length (seats room) = 2%nat ∧ gameState (shell room) = playing).
Proof.
  intros Hwf Ha Hne Htimer.
  destruct (joinRoom_timer sid k w a Ha Htimer) as (room & b & Hr & Hs & Hin).
  pose proof Hwf as (Hnd & Hid & Hreg & Hval).
  destruct (Hreg sid a Ha) as [Hlt Hsid].
  assert (b < length (store w))%nat as Hb.
  { apply mapGet_Some_elem in Hr. pose proof (proj1 (Forall_forall _ _) Hval _ Hr) as H.
    simpl in H. rewrite Hs in H. apply Forall_inv in H. exact H. }
  assert (pid (fields (store w !!! b)) ≠ sid) as Hbsid.
  { intros H. apply Hin. unfold seated. rewrite Hs. simpl. by left. }
  rewrite (joinRoom_resolved sid k w a room Ha Hr) by (rewrite ?Hs; simpl; done || lia).
  cbn [fst]. rewrite Hs. cbn [app].
  set (st := alter (setRoomId (Some k)) a (store w)).
  set (r := RoomObj (shell room) [b; a]).
  set (w1 := World st (registry w) (mapSet k r (roomList w))).
  assert (extends (store w) st) as [_ Hpid] by by apply extends_alter.
  assert (st !!! a = setRoomId (Some k) (store w !!! a)) as Hobj
    by by apply list_lookup_total_alter_eq.
  assert (vacate sid k r w1
          = (mapSet k (RoomObj (shell room) [b]) (roomList w1),
             [Emit (ToChannel k) "playerLeft" (PlayerLeft sid)])) as Hvac.
  { unfold vacate. cbn [store w1 seats r shell].
    rewrite filter_cons_True by (rewrite Hpid by done; done).
    rewrite filter_cons_False by (rewrite Hobj; simpl; naive_solver).
    by rewrite filter_nil. }
  assert (mapGet k (roomList w1) = Some r) as Hr1 by apply mapGet_mapSet_eq.
  assert (roomId (store w1 !!! a) = Some k) as Hk1 by (cbn [store w1]; by rewrite Hobj).
  rewrite (leaveRoom_resolved sid w1 a k r Ha Hk1 Hne Hr1).
  rewrite (disconnect_resolved sid w1 a k r Ha Hk1 Hne Hr1).
  rewrite Hvac. cbn [fst snd].
  split; [|split; [|split]].
  - eapply startGameW_not_two; [apply mapGet_mapSet_eq|]. simpl. lia.
  - eapply startGameW_not_two; [apply mapGet_mapSet_eq|]. simpl. lia.
  - exists (RoomObj (shell room) [b]). cbn [roomList].
    split; [apply mapGet_mapSet_eq|]. split; [done|].
    destruct room as [sh ss]. simpl in Hs. by subst ss.
  - rewrite (startGameW_two k rnd w1 r Hr1 eq_refl). cbn [fst roomList].
    rewrite mapGet_mapSet_eq. eexists. split; [reflexivity|]. done.
Qed.

Lemma leaving_calls_off_the_start_witness :
  startGameW "r1" (fun _ => 0%nat)
    (leaveRoom "b" (joinRoom "b" "r1" (serveAll [SetPlayerName "a" "Ann"; SetPlayerName "b" "Bob";
                                                 CreateRoom "a" "r1" "Room" None] emptyWorld).1).1).1
  = ((leaveRoom "b" (joinRoom "b" "r1" (serveAll [SetPlayerName "a" "Ann"; SetPlayerName "b" "Bob";
                                                  CreateRoom "a" "r1" "Room" None] emptyWorld).1).1).1,
     []).
Proof.
  refine (proj1 (leaving_calls_off_the_start "b" "r1" (fun _ => 0%nat)
                   (serveAll [SetPlayerName "a" "Ann"; SetPlayerName "b" "Bob";
                              CreateRoom "a" "r1" "Room" None] emptyWorld).1 1%nat _ _ _ _)).
  - apply (serveAll_inOrder _ emptyWorld emptyWorld_inOrder).
  - vm_compute. reflexivity.
  - discriminate.
  - vm_compute. do 3 right. left.
Defined.

(** ** A session in two rooms *)

(** X27.  [createRoom] does not ask whether the session is in a room
    already, and a player object names one room only.  So a session that
    creates a second room and then leaves, or is disconnected, is taken
    out of the second room alone: the first room stays in [rooms] with the
    session on its only seat, [getRooms] goes on listing it, and the
    session cannot leave it any more, a second [leaveRoom] does nothing. *)
Theorem first_room_is_left_behind sid id1 id2 nm1 nm2 gm1 gm2 w a :
  wellFormed w → roomsInOrder w → registry w !! sid = Some a →
  mapGet id1 (roomList w) = None → mapGet id2 (roomList w) = None →
  id1 ≠ id2 → id2 ≠ EmptyString →
  let created := (serveAll [CreateRoom sid id1 nm1 gm1; CreateRoom sid id2 nm2 gm2] w).1 in
  let gone := (disconnect sid created).1 in
  let left := (leaveRoom sid created).1 in
  (registry gone !! sid = None ∧ mapGet id2 (roomList gone) = None
   ∧ (∃ room, mapGet id1 (roomList gone) = Some room ∧ seatIds (store gone) room = [sid])
   ∧ id1 ∈ availableIds gone)
  ∧ (mapGet id2 (roomList left) = None
     ∧ (∃ room, mapGet id1 (roomList left) = Some room ∧ seatIds (store left) room = [sid])
     ∧ id1 ∈ availableIds left
     ∧ leaveRoom sid left = (left, [])).
Proof.
  intros Hwf Hord Ha Hf1 Hf2 Hne Hne2 created gone left.
  pose proof Hwf as (Hnd & Hid & Hreg & Hval).
  destruct (Hreg sid a Ha) as [Hlt Hsid].
  assert (wellFormed created ∧ roomsInOrder created) as [Hwfc Hordc]
    by by apply serveAll_inOrder.
  assert (wellFormed gone) as Hwfg by by apply (serve_inOrder (Disconnect sid) created).
  assert (wellFormed left) as Hwfl by by apply (serve_inOrder (LeaveRoom sid) created).
  set (r1 := RoomObj (Room id1 nm1 (default CLASSIC gm1) [] waiting 0 1 [] None None) [a]).
  set (r2 := RoomObj (Room id2 nm2 (default CLASSIC gm2) [] waiting 0 1 [] None None) [a]).
  set (st2 := alter (setRoomId (Some id2)) a (alter (setRoomId (Some id1)) a (store w))).
  assert (created = World st2 (registry w) (mapSet id2 r2 (mapSet id1 r1 (roomList w)))) as Hc.
  { unfold created, serveAll. cbn [foldl serve fst snd].
    rewrite (createRoom_resolved sid id1 nm1 gm1 w a Ha). cbn [fst snd].
    rewrite (createRoom_resolved sid id2 nm2 gm2 (World _ (registry w) _) a Ha). done. }
  assert (st2 !!! a = setRoomId (Some id2) (setRoomId (Some id1) (store w !!! a))) as Hobj.
  { unfold st2. rewrite list_lookup_total_alter_eq by by rewrite length_alter.
    by rewrite list_lookup_total_alter_eq. }
  assert (mapGet id2 (mapSet id1 r1 (roomList w)) = None) as Hf2'
    by by rewrite mapGet_mapSet_ne.
  assert (vacate sid id2 r2 created = (mapSet id1 r1 (roomList w), [])) as Hvac.
  { unfold r2. rewrite vacate_alone by (rewrite Hc; cbn [store]; by rewrite Hobj).
    rewrite Hc. cbn [roomList]. by rewrite mapDelete_mapSet_fresh. }
  assert (registry created !! sid = Some a) as Hac by by rewrite Hc.
  assert (roomId (store created !!! a) = Some id2) as Hkc
    by (rewrite Hc; cbn [store]; by rewrite Hobj).
  assert (mapGet id2 (roomList created) = Some r2) as Hrc
    by (rewrite Hc; apply mapGet_mapSet_eq).
  assert (gone = World st2 (delete sid (registry w)) (mapSet id1 r1 (roomList w))) as Hg.
  { unfold gone. rewrite (disconnect_resolved sid created a id2 r2 Hac Hkc Hne2 Hrc).
    rewrite Hvac. cbn [fst]. by rewrite Hc. }
  assert (left = World (alter (setRoomId None) a st2) (registry w)
                   (mapSet id1 r1 (roomList w))) as Hl.
  { unfold left. rewrite (leaveRoom_resolved sid created a id2 r2 Hac Hkc Hne2 Hrc).
    rewrite Hvac. cbn [fst]. by rewrite Hc. }
  assert (∀ st, pid (fields (st !!! a)) = sid → seatIds st r1 = [sid]) as Hseat.
  { intros st Hst. unfold seatIds, seated. simpl. by rewrite Hst. }
  assert (∀ w', wellFormed w' → roomList w' = mapSet id1 r1 (roomList w) →
                id1 ∈ availableIds w') as Hav.
  { intros w' Hwf' Hrooms. apply availableIds_spec; [done|]. exists r1.
    rewrite Hrooms. split; [apply mapGet_mapSet_eq|]. simpl. lia. }
  split.
  - split; [rewrite Hg; apply lookup_delete_eq|]. split; [by rewrite Hg|]. split.
    + exists r1. rewrite Hg. split; [apply mapGet_mapSet_eq|]. apply Hseat.
      cbn [store]. by rewrite Hobj.
    + apply Hav; [done|by rewrite Hg].
  - assert (alter (setRoomId None) a st2 !!! a = setRoomId None (st2 !!! a)) as Hobj'.
    { apply list_lookup_total_alter_eq. unfold st2. by rewrite !length_alter. }
    split; [by rewrite Hl|]. split; [|split].
    + exists r1. rewrite Hl. split; [apply mapGet_mapSet_eq|]. apply Hseat.
      cbn [store]. by rewrite Hobj', Hobj.
    + apply Hav; [done|by rewrite Hl].
    + rewrite Hl. unfold leaveRoom.
      rewrite (proj2 (getPlayer_Some sid (World (alter (setRoomId None) a st2) (registry w)
                                            (mapSet id1 r1 (roomList w))) a _)
                 (conj Ha eq_refl)).
      cbn [store]. by rewrite Hobj'.
Qed.

Lemma first_room_is_left_behind_witness :
  "r1" ∈ availableIds
           (disconnect "a" (serveAll [CreateRoom "a" "r1" "First" None;
                                      CreateRoom "a" "r2" "Second" None]
                              (setPlayerName "a" "Ann" emptyWorld).1).1).1.
Proof.
  destruct (first_room_is_left_behind "a" "r1" "r2" "First" "Second" None None
              (setPlayerName "a" "Ann" emptyWorld).1 0%nat) as [(_ & _ & _ & H) _].
  - apply (serve_inOrder (SetPlayerName "a" "Ann") emptyWorld emptyWorld_inOrder).
  - apply (serve_inOrder (SetPlayerName "a" "Ann") emptyWorld emptyWorld_inOrder).
  - vm_compute. reflexivity.
  - vm_compute. reflexivity.
  - vm_compute. reflexivity.
  - discriminate.
  - discriminate.
  - exact H.
Defined.

(** ** The start, on the store and by value *)

(** The two player objects after [forEach] went over them. *)
Lemma deal_two gm d (st : list playerObj) (a b : nat) :
  a ≠ b → (a < length st)%nat → (b < length st)%nat →
  foldl (dealInto gm d) st (imap pair [a; b]) !!! a
  = PlayerObj (initPlayer gm d 0 (fields (st !!! a))) (roomId (st !!! a))
  ∧ foldl (dealInto gm d) st (imap pair [a; b]) !!! b
    = PlayerObj (initPlayer gm d 1 (fields (st !!! b))) (roomId (st !!! b))
  ∧ ∀ c, c ≠ a → c ≠ b → foldl (dealInto gm d) st (imap pair [a; b]) !!! c = st !!! c.
Proof.
  intros Hne Ha Hb. cbn [imap foldl]. unfold dealInto. cbn [fst snd compose].
  split; [|split].
  - rewrite list_lookup_total_alter_ne by done. by rewrite list_lookup_total_alter_eq.
  - rewrite list_lookup_total_alter_eq by by rewrite length_alter.
    by rewrite list_lookup_total_alter_ne.
  - intros c Hca Hcb. by rewrite !list_lookup_total_alter_ne.
Qed.

(** X28.  The start that [joinRoom] sets off is the [startGame] of the
    game engine.  Run on the room as the engine sees it (the player objects
    of the room read out of the store), [startGame] gives the room that
    the start on the store leaves, read out in the same way, and as many
    messages; a room that does not hold two players is left alone by both.
    The two seats have to hold different objects. *)
Theorem startGameW_agrees_with_startGame k rnd w room names :
  mapGet k (roomList w) = Some room → NoDup (seats room) →
  Forall (fun a => (a < length (store w))%nat) (seats room) →
  ∃ room' evs,
    mapGet k (roomList (startGameW k rnd w).1) = Some room'
    ∧ startGame k rnd (Server {[ k := roomView (store w) room ]} names)
      = Done (Server {[ k := roomView (store (startGameW k rnd w).1) room' ]} names) evs
    ∧ length evs = length (startGameW k rnd w).2
    ∧ (length (seats room) = 2%nat →
         roomView (store (startGameW k rnd w).1) room' = dealtRoom rnd (roomView (store w) room))
    ∧ (length (seats room) ≠ 2%nat → (startGameW k rnd w).1 = w ∧ evs = []).
Proof.
  intros Hr Hnd Hval.
  destruct (decide (length (seats room) = 2%nat)) as [Hlen|Hlen].
  - destruct (seats room) as [|a [|b [|? ?]]] eqn:Hs; try done. clear Hlen.
    apply NoDup_cons in Hnd as [Hab _]. rewrite list_elem_of_singleton in Hab.
    apply Forall_cons in Hval as [Ha Hval]. apply Forall_cons in Hval as [Hb _].
    rewrite (startGameW_two k rnd w room Hr) by by rewrite Hs.
    rewrite Hs. cbn zeta. cbn [fst snd store roomList].
    destruct (deal_two (gameMode (shell room)) (createDeck rnd) (store w) a b Hab Ha Hb)
      as (Hda & Hdb & _).
    set (st := foldl _ (store w) _) in *.
    rewrite mapGet_mapSet_eq.
    assert (length (players (roomView (store w) room)) = 2%nat) as Hlen.
    { unfold roomView, seated. rewrite Hs. done. }
    rewrite (startGame_two k rnd (Server {[ k := roomView (store w) room ]} names)
               (roomView (store w) room) ltac:(apply lookup_singleton_eq) Hlen).
    eexists _, _. split; [reflexivity|].
    assert (roomView st
              (RoomObj
                 (Room (rid (shell room)) (rname (shell room)) (gameMode (shell room)) [] playing
                    (Z.of_nat (rnd createDeck_calls mod 2)) 1 (drop 16 (createDeck rnd))
                    (if decide (gameMode (shell room) = RECYCLING) then Some []
                     else discardPile (shell room))
                    (lastPlayedHand (shell room))) [a; b])
            = dealtRoom rnd (roomView (store w) room)) as Hview.
    { unfold roomView, seated, dealtRoom, with_players. rewrite Hs.
      cbn [fmap list_fmap seats shell rid rname gameMode players discardPile lastPlayedHand
           imap compose].
      by rewrite Hda, Hdb. }
    rewrite Hview. split; [|split; [|split]].
    + unfold setRoom. cbn [rooms sessions]. rewrite insert_singleton_eq. reflexivity.
    + cbn [length]. rewrite !length_fmap. unfold dealtRoom. cbn [players].
      rewrite length_imap, Hlen. unfold seated. rewrite length_fmap. reflexivity.
    + intros _. reflexivity.
    + intros H. exfalso. apply H. reflexivity.
  - rewrite (startGameW_not_two k rnd w room Hr Hlen). cbn [fst snd].
    exists room, []. split; [done|]. split; [|done].
    unfold startGame. cbn [rooms]. rewrite lookup_singleton_eq.
    rewrite bool_decide_false; [reflexivity|].
    unfold roomView, seated. cbn [players with_players]. by rewrite !length_fmap.
Qed.

Lemma startGameW_agrees_with_startGame_witness :
  ∃ room' evs,
    mapGet "r1" (roomList (startGameW "r1" (fun _ => 0%nat)
                             (joinRoom "b" "r1"
                                (serveAll [SetPlayerName "a" "Ann"; SetPlayerName "b" "Bob";
                                           CreateRoom "a" "r1" "Room" None] emptyWorld).1).1).1)
    = Some room'
    ∧ length (evs : list event) = 3%nat.
Proof.
  destruct (startGameW_agrees_with_startGame "r1" (fun _ => 0%nat)
              (joinRoom "b" "r1"
                 (serveAll [SetPlayerName "a" "Ann"; SetPlayerName "b" "Bob";
                            CreateRoom "a" "r1" "Room" None] emptyWorld).1).1
              (RoomObj (Room "r1" "Room" CLASSIC [] waiting 0 1 [] None None) [0%nat; 1%nat])
              ∅)
    as (room' & evs & Hr & _ & Hlen & _).
  - vm_compute. reflexivity.
  - apply (bool_decide_unpack _). vm_compute. exact I.
  - apply (bool_decide_unpack _). vm_compute. exact I.
  - exists room', evs. split; [exact Hr|]. rewrite Hlen. vm_compute. reflexivity.
Defined.

(** X29.  [startGame] writes into the player objects, and an object can
    sit in several rooms.  So in every room that seats one of the two
    players of the room that starts, that player is from then on the
    player that the start dealt: eight new cards, full health and the
    counters of a new game, also in a room where a game is under way. *)
Theorem start_deals_in_every_room k rnd w room a i :
  mapGet k (roomList w) = Some room → length (seats room) = 2%nat → NoDup (seats room) →
  Forall (fun a => (a < length (store w))%nat) (seats room) →
  seats room !! i = Some a →
  fields (store (startGameW k rnd w).1 !!! a)
  = initPlayer (gameMode (shell room)) (createDeck rnd) i (fields (store w !!! a))
  ∧ ∀ k' room' j,
      mapGet k' (roomList (startGameW k rnd w).1) = Some room' → seats room' !! j = Some a →
      players (roomView (store (startGameW k rnd w).1) room') !! j
      = Some (initPlayer (gameMode (shell room)) (createDeck rnd) i (fields (store w !!! a))).
Proof.
  intros Hr Hlen Hnd Hval Hi.
  assert (fields (store (startGameW k rnd w).1 !!! a)
          = initPlayer (gameMode (shell room)) (createDeck rnd) i (fields (store w !!! a)))
    as Hdealt.
  { rewrite (startGameW_two k rnd w room Hr Hlen). cbn zeta. cbn [fst store].
    destruct (seats room) as [|a0 [|b0 [|? ?]]] eqn:Hs; try done. clear Hlen.
    apply NoDup_cons in Hnd as [Hab _]. rewrite list_elem_of_singleton in Hab.
    apply Forall_cons in Hval as [Ha Hval]. apply Forall_cons in Hval as [Hb _].
    destruct (deal_two (gameMode (shell room)) (createDeck rnd) (store w) a0 b0 Hab Ha Hb)
      as (Hda & Hdb & _).
    destruct i as [|[|i]]; simpl in Hi; simplify_eq.
    - by rewrite Hda.
    - by rewrite Hdb. }
  split; [exact Hdealt|]. intros k' room' j _ Hj.
  unfold roomView, seated. cbn [players with_players].
  rewrite !list_lookup_fmap, Hj. cbn [fmap option_fmap option_map]. by rewrite Hdealt.
Qed.

Lemma start_deals_in_every_room_witness :
  hand <$> players (roomView (store (startGameW "r2" (fun _ => 1%nat)
                                       (ex_two_rooms (fun _ => 0%nat))).1)
                      (RoomObj (Room "r1" "First" CLASSIC [] playing 0 1 [] None None)
                         [0%nat; 1%nat])) !! 0%nat
  = Some (Some (take 8 (createDeck (fun _ => 1%nat)))).
Proof.
  destruct (start_deals_in_every_room "r2" (fun _ => 1%nat) (ex_two_rooms (fun _ => 0%nat))
              (RoomObj (Room "r2" "Second" CLASSIC [] waiting 0 1 [] None None) [0%nat; 2%nat])
              0%nat 0%nat) as [Hd _].
  - vm_compute. reflexivity.
  - reflexivity.
  - apply (bool_decide_unpack _). vm_compute. exact I.
  - apply (bool_decide_unpack _). vm_compute. exact I.
  - reflexivity.
  - unfold roomView, seated. cbn [players with_players seats fmap list_fmap].
    cbn [lookup list_lookup]. cbn [fmap option_fmap option_map]. rewrite Hd.
    reflexivity.
Defined.

(** * The reshuffle of Recycling mode *)

(** ** The loop is the shuffle of Fisher and Yates *)

Lemma swap_exchange {A} (l : list A) (i j : nat) : swap l i j = exchange l i j.
Proof.
  apply list_eq. intros k. unfold exchange. rewrite list_lookup_imap. unfold swap.
  destruct (l !! k) as [x|] eqn:Hk; simpl.
  - destruct (l !! i) as [xi|] eqn:Hi; destruct (l !! j) as [xj|] eqn:Hj; simpl.
    + destruct (decide (k = j)) as [->|Hkj].
      * rewrite list_lookup_insert_eq by (rewrite length_insert; by eapply lookup_lt_Some).
        case_decide; simplify_eq; done.
      * rewrite list_lookup_insert_ne by done.
        destruct (decide (k = i)) as [->|Hki].
        -- by rewrite list_lookup_insert_eq by by eapply lookup_lt_Some.
        -- by rewrite list_lookup_insert_ne.
    + rewrite Hk. repeat case_decide; simplify_eq; done.
    + rewrite Hk. repeat case_decide; simplify_eq; done.
    + rewrite Hk. repeat case_decide; simplify_eq; done.
  - assert (swap l i j !! k = None) as Hnone.
    { apply lookup_ge_None. rewrite swap_length. by apply lookup_ge_None. }
    exact Hnone.
Qed.

Lemma fisherYates_ext {A} (c c' : nat → nat) i (l : list A) :
  (∀ p, (0 < p ≤ i)%nat → c p = c' p) → fisherYates c i l = fisherYates c' i l.
Proof.
  revert l. induction i as [|i IH]; intros l Hc; [done|].
  simpl. rewrite (Hc (S i)) by lia. apply IH. intros p Hp. apply Hc. lia.
Qed.

Lemma shuffleFrom_fisherYates {A} rnd k i (l : list A) :
  shuffleFrom rnd k i l = fisherYates (fun p => (rnd (k + (i - p)) mod (p + 1))%nat) i l.
Proof.
  revert k l. induction i as [|i IH]; intros k l; [done|].
  simpl. rewrite IH, swap_exchange, Nat.sub_diag, Nat.add_0_r.
  apply fisherYates_ext. intros p Hp. do 2 f_equal. lia.
Qed.

Lemma shuffle_fisherYates {A} rnd k (l : list A) :
  shuffle rnd k l = fisherYates (chosen rnd k (length l)) (length l - 1) l.
Proof. unfold shuffle. by rewrite shuffleFrom_fisherYates. Qed.

Lemma chosen_le rnd k n i : (chosen rnd k n i ≤ i)%nat.
Proof.
  unfold chosen. pose proof (Nat.mod_upper_bound (rnd (k + (n - 1 - i))%nat) (i + 1)%nat). lia.
Qed.

(** ** Every order can come out *)

Lemma shuffleFrom_any_order {A} k i (pre suf target : list A) :
  length pre = S i → target ≡ₚ pre →
  ∃ rnd, shuffleFrom rnd k i (pre ++ suf) = target ++ suf.
Proof.
  revert k pre suf target. induction i as [|i IH]; intros k pre suf target Hlen Hperm.
  - destruct pre as [|x [|? ?]]; try done.
    apply Permutation_singleton_r in Hperm as ->. by exists (fun _ => 0%nat).
  - assert (length target = S (S i)) as Hlt by by rewrite Hperm.
    destruct target as [|y0 t0 _] using rev_ind; [done|].
    rename y0 into y, t0 into t.
    assert (y ∈ pre) as Hy by (rewrite <- Hperm; set_solver).
    apply list_elem_of_lookup_1 in Hy as [j Hj].
    pose proof (lookup_lt_Some _ _ _ Hj) as Hjlt.
    destruct (lookup_lt_is_Some_2 pre (S i) ltac:(lia)) as [x Hx].
    set (pre' := <[j := x]> (<[S i := y]> pre)).
    assert (swap (pre ++ suf) (S i) j = pre' ++ suf) as Hswap.
    { unfold swap. rewrite !lookup_app_l by lia. rewrite Hx, Hj. unfold pre'.
      rewrite insert_app_l by lia. by rewrite insert_app_l by (rewrite length_insert; lia). }
    assert (pre' ≡ₚ pre) as Hperm'.
    { pose proof (swap_Permutation pre (S i) j) as H. unfold swap in H.
      by rewrite Hx, Hj in H. }
    assert (pre' !! S i = Some y) as Hlast.
    { unfold pre'. destruct (decide (j = S i)) as [->|Hne].
      - rewrite list_lookup_insert_eq by (rewrite length_insert; lia). congruence.
      - rewrite list_lookup_insert_ne by done. by rewrite list_lookup_insert_eq by lia. }
    assert (length pre' = S (S i)) as Hlen' by (unfold pre'; by rewrite !length_insert).
    assert (pre' = take (S i) pre' ++ [y]) as Hsplit.
    { rewrite <- (take_S_r _ _ _ Hlast). by rewrite take_ge by lia. }
    assert (t ≡ₚ take (S i) pre') as Ht.
    { apply (inj (.++ [y])). by rewrite <- Hsplit, Hperm', Hperm. }
    destruct (IH (S k) (take (S i) pre') (y :: suf) t) as [rnd' Hrnd'];
      [rewrite length_take; lia|done|].
    exists (fun n => if decide (n = k) then j else rnd' n).
    assert (∀ r (l : list A),
              shuffleFrom r k (S i) l
              = shuffleFrom r (S k) i (swap l (S i) (r k mod (S i + 1))%nat)) as Hstep by done.
    rewrite Hstep. rewrite decide_True by done. rewrite (Nat.mod_small j) by lia.
    rewrite Hswap, Hsplit, <- !(assoc_L (++)). simpl.
    rewrite <- Hrnd'. apply shuffleFrom_ext. intros n Hn. by rewrite decide_False by lia.
Qed.

Lemma shuffle_any_order {A} k (l order : list A) :
  order ≡ₚ l → ∃ rnd, shuffle rnd k l = order.
Proof.
  intros Hperm. destruct l as [|x l].
  - apply Permutation_nil_r in Hperm as ->. by exists (fun _ => 0%nat).
  - destruct (shuffleFrom_any_order k (length l) (x :: l) [] order eq_refl Hperm) as [rnd H].
    exists rnd. rewrite !app_nil_r in H. unfold shuffle. simpl. by rewrite Nat.sub_0_r.
Qed.

(** ** The play that reshuffles *)

Lemma recycling_play sid rid rnd s room nm actor sel enemy h pile :
  rooms s !! rid = Some room → sessions s !! sid = Some nm →
  gameMode room = RECYCLING → gameState room = playing →
  indexOf sid room = currentPlayer room →
  at_index (players room) (currentPlayer room) = Some actor →
  selectedCards actor = Some sel → sel ≠ [] → valid (validateHand sel) = true →
  at_index (players room) (1 - currentPlayer room) = Some enemy →
  Forall dealt (players room) →
  hand actor = Some h → discardPile room = Some pile →
  let played := resetFlags <$> filter (fun c => selected c = true) h in
  let pile1 := pile ++ played in
  let low := bool_decide (length (deck room) < 8)%nat && bool_decide (0 < length pile1)%nat in
  let drawPile := if low then deck room ++ shuffle rnd 0 pile1 else deck room in
  ∃ s' evs room' actor',
    playHand sid rid rnd s = Done s' evs
    ∧ rooms s' !! rid = Some room'
    ∧ at_index (players room') (currentPlayer room) = Some actor'
    ∧ hand actor' = Some (resetFlags <$> take 8 drawPile)
    ∧ deck room' = drop 8 drawPile
    ∧ discardPile room' = Some (if low then [] else pile1).
Proof.
  intros Hr Hs Hm Hst Hi Ha Hsel Hne Hv He Hall Hh Hpile played pile1 low drawPile.
  assert (consumeAndRedraw rnd room actor
          = Some (with_piles (drop 8 drawPile) (Some (if low then [] else pile1)) room,
                  with_hand (Some (resetFlags <$> take 8 drawPile))
                    (with_selectedCards (Some []) actor))) as Hc.
  { unfold consumeAndRedraw, recycle. rewrite Hh, Hpile.
    rewrite decide_True by done. fold played. fold pile1. fold low.
    unfold drawPile. by destruct low. }
  destruct (applyPrediction (bool_decide (gameMode room = TACTICAL)) (evaluateHand sel) enemy)
    as [d1 e1] eqn:Hdp.
  destruct (applyArmor (bool_decide (gameMode room = TACTICAL)) d1 e1) as [d2 e2] eqn:Hda.
  destruct (resolvePlay_result rid rnd room actor sel enemy _ _ _ _ _ _ Ha He Hall Hc Hdp Hda)
    as (r' & ev & e4 & Hres & Hdeck & Hdisc & _ & Hact & _).
  eexists (setRoom rid r' s), [ev], r', _.
  split; [by eapply playHand_resolved|]. split; [apply setRoom_lookup|].
  split; [exact Hact|]. split; [done|]. split; [by rewrite Hdeck|by rewrite Hdisc].
Qed.

(** C9.  A play-hand that is resolved in a Recycling room appends the
    played cards (flags cleared) to the discard pile; then, if the draw pile
    holds fewer than 8 cards and the discard pile is not empty, the discard
    pile is shuffled, appended to the bottom of the draw pile and emptied;
    only then are the 8 cards of the new hand drawn from the top of the draw
    pile.  The shuffle is the one of Fisher and Yates: going down from the
    last position [i] of the pile to position 1, the card at [i] is
    exchanged with the card at the position between 0 and [i] that the next
    random number chooses.  It rearranges the pile, every order of the pile
    can come out of it, and it is the shuffle that [createDeck] applies to
    the 52 cards of a new deck.  build-armor is refused in a Recycling room,
    so play-hand is the only turn-ending action there. *)
Theorem recycling_reshuffle sid rid rnd s room nm actor sel enemy h pile :
  rooms s !! rid = Some room → sessions s !! sid = Some nm →
  gameMode room = RECYCLING → gameState room = playing →
  indexOf sid room = currentPlayer room →
  at_index (players room) (currentPlayer room) = Some actor →
  selectedCards actor = Some sel → sel ≠ [] → valid (validateHand sel) = true →
  at_index (players room) (1 - currentPlayer room) = Some enemy →
  Forall dealt (players room) →
  hand actor = Some h → discardPile room = Some pile →
  let played := resetFlags <$> filter (fun c => selected c = true) h in
  let pile1 := pile ++ played in
  let n := length pile1 in
  let low := bool_decide (length (deck room) < 8)%nat && bool_decide (0 < n)%nat in
  let shuffled := fisherYates (chosen rnd 0 n) (n - 1) pile1 in
  let drawPile := if low then deck room ++ shuffled else deck room in
  (∃ s' evs room' actor',
     playHand sid rid rnd s = Done s' evs
     ∧ rooms s' !! rid = Some room'
     ∧ at_index (players room') (currentPlayer room) = Some actor'
     ∧ hand actor' = Some (resetFlags <$> take 8 drawPile)
     ∧ deck room' = drop 8 drawPile
     ∧ discardPile room' = Some (if low then [] else pile1))
  ∧ (∀ i, chosen rnd 0 n i ≤ i)%nat
  ∧ shuffled ≡ₚ pile1
  ∧ (low = true → ∀ order, order ≡ₚ pile1 →
       ∃ random s' evs room' actor',
         playHand sid rid random s = Done s' evs
         ∧ rooms s' !! rid = Some room'
         ∧ at_index (players room') (currentPlayer room) = Some actor'
         ∧ hand actor' = Some (resetFlags <$> take 8 (deck room ++ order))
         ∧ deck room' = drop 8 (deck room ++ order)
         ∧ discardPile room' = Some [])
  ∧ createDeck rnd = fisherYates (chosen rnd 52 52) 51 (orderedDeck rnd)
  ∧ buildArmor sid rid rnd s = Done s [].
Proof.
  intros Hr Hs Hm Hst Hi Ha Hsel Hne Hv He Hall Hh Hpile played pile1 n low shuffled drawPile.
  assert (∀ random, shuffle random 0 pile1 = fisherYates (chosen random 0 n) (n - 1) pile1)
    as Hfy by (intros random; apply shuffle_fisherYates).
  split; [|split; [|split; [|split; [|split]]]].
  - destruct (recycling_play sid rid rnd s room nm actor sel enemy h pile
                Hr Hs Hm Hst Hi Ha Hsel Hne Hv He Hall Hh Hpile)
      as (s' & evs & room' & actor' & H1 & H2 & H3 & H4 & H5 & H6).
    fold played in H4, H5, H6. fold pile1 in H4, H5, H6. rewrite Hfy in H4, H5.
    exists s', evs, room', actor'. done.
  - intros i. apply chosen_le.
  - unfold shuffled. rewrite <- Hfy. apply shuffle_Permutation.
  - intros Hlow order Horder.
    destruct (shuffle_any_order 0 pile1 order Horder) as [random Hrandom].
    destruct (recycling_play sid rid random s room nm actor sel enemy h pile
                Hr Hs Hm Hst Hi Ha Hsel Hne Hv He Hall Hh Hpile)
      as (s' & evs & room' & actor' & H1 & H2 & H3 & H4 & H5 & H6).
    fold played in H4, H5, H6. fold pile1 in H4, H5, H6. fold n in H4, H5, H6.
    fold low in H4, H5, H6. rewrite Hlow, Hrandom in H4, H5. rewrite Hlow in H6.
    exists random, s', evs, room', actor'. done.
  - unfold createDeck. rewrite shuffle_fisherYates. reflexivity.
  - unfold buildArmor. rewrite Hr, Hs.
    rewrite (bool_decide_eq_false_2 (gameMode room = TACTICAL)); [done|].
    rewrite Hm. discriminate.
Qed.

Lemma recycling_reshuffle_witness :
  ∃ s' evs room' actor',
    playHand "a" "r" ex_rnd (ex_server ex_low_deck) = Done s' evs
    ∧ rooms s' !! "r" = Some room'
    ∧ at_index (players room') 0 = Some actor'
    ∧ (fun c => (suit c, rank c)) <$> deck (ex_room ex_low_deck)
      = [(spades, 10); (spades, 11); (spades, 12); (spades, 13)]
    ∧ (fun c => (suit c, rank c)) <$> default [] (discardPile (ex_room ex_low_deck))
      = [(hearts, 1); (hearts, 9); (diamonds, 4); (diamonds, 12)]
    ∧ (fun c => (suit c, rank c)) <$> ex_selection ex_low_deck 0 = [(clubs, 7)]
    ∧ (fun c => (suit c, rank c)) <$> default [] (hand actor')
      = [(spades, 10); (spades, 11); (spades, 12); (spades, 13);
         (hearts, 9); (hearts, 1); (clubs, 7); (diamonds, 4)]
    ∧ (fun c => (suit c, rank c)) <$> deck room' = [(diamonds, 12)]
    ∧ discardPile room' = Some [].
Proof.
  assert (Forall (fun p => is_Some (hand p)) (players (ex_room ex_low_deck))) as Hdealt
    by (apply (bool_decide_unpack _); vm_compute; exact I).
  destruct (proj1
    (recycling_reshuffle "a" "r" ex_rnd (ex_server ex_low_deck)
       (ex_room ex_low_deck) "Ann" (ex_player ex_low_deck 0)
       (ex_selection ex_low_deck 0) (ex_player ex_low_deck 1)
       (default [] (hand (ex_player ex_low_deck 0)))
       (default [] (discardPile (ex_room ex_low_deck)))
       ltac:(vm_compute; reflexivity) ltac:(vm_compute; reflexivity)
       ltac:(vm_compute; reflexivity) ltac:(vm_compute; reflexivity)
       ltac:(vm_compute; reflexivity) ltac:(vm_compute; reflexivity)
       ltac:(vm_compute; reflexivity) ltac:(vm_compute; discriminate)
       ltac:(vm_compute; reflexivity) ltac:(vm_compute; reflexivity) Hdealt
       ltac:(vm_compute; reflexivity) ltac:(vm_compute; reflexivity)))
    as (s' & evs & room' & actor' & H1 & H2 & H3 & H4 & H5 & H6).
  exists s', evs, room', actor'.
  vm_compute (currentPlayer _) in H3.
  rewrite H4, H5, H6.
  split; [exact H1|]. split; [exact H2|]. split; [exact H3|].
  vm_compute. repeat split; reflexivity.
Defined.

(** * Whose turn it is *)

Lemma applyPrediction_health t res e : health (applyPrediction t res e).2 = health e.
Proof. unfold applyPrediction. by case_match. Qed.

Lemma applyArmor_health t d e : health (applyArmor t d e).2 = health e.
Proof. unfold applyArmor. repeat case_match; done. Qed.

Lemma num_le_spec (a : num) (b : Z) : num_le a b = true ↔ ∃ x, a = Some x ∧ x ≤ b.
Proof.
  unfold num_le. destruct a as [x|].
  - rewrite bool_decide_eq_true. naive_solver.
  - naive_solver.
Qed.

(** A resolved play ends the game exactly when the health that it leaves
    to the opponent is a number not above 0. *)
Lemma resolvePlay_ended rid rnd r i actor sel enemy d1 e1 d2 e2 r' ev :
  gameState r = playing →
  at_index (players r) (1 - i) = Some enemy →
  applyPrediction (bool_decide (gameMode r = TACTICAL)) (evaluateHand sel) enemy = (d1, e1) →
  applyArmor (bool_decide (gameMode r = TACTICAL)) d1 e1 = (d2, e2) →
  resolvePlay rid rnd r i actor sel = Some (r', ev) →
  gameState r' = ended
  ↔ ∃ hl, (fun hl => Z.max 0 (hl - d2)) <$> health enemy = Some hl ∧ hl ≤ 0.
Proof.
  intros Hst He Hdp Hda.
  assert (health e2 = health enemy) as Hh.
  { pose proof (applyPrediction_health (bool_decide (gameMode r = TACTICAL))
                  (evaluateHand sel) enemy) as H1.
    pose proof (applyArmor_health (bool_decide (gameMode r = TACTICAL)) d1 e1) as H2.
    rewrite Hdp in H1. rewrite Hda in H2. simpl in *. congruence. }
  rewrite <- Hh, <- num_le_spec.
  unfold resolvePlay. rewrite He, Hdp, Hda.
  destruct (consumeAndRedraw rnd r actor) as [[r1 actor']|] eqn:Hc; [|done].
  destruct (consumeAndRedraw_turn _ _ _ _ _ Hc) as (Hs1 & _ & _).
  cbn [health with_health]. unfold num_map.
  destruct (num_le _ 0).
  - intros [= <- _]. done.
  - destruct (switchTurns _) as [r3|] eqn:Hsw; [|done].
    destruct (publicViews _ _ _ _); [|done]. intros [= <- _].
    apply switchTurns_turn in Hsw as (_ & _ & Hs3 & _). simpl in Hs3.
    split; [|done]. intros Hen. congruence.
Qed.

Lemma resolvePlay_final_damage (r : room) sel enemy d1 e1 d2 e2 :
  gameMode r ≠ TACTICAL →
  applyPrediction (bool_decide (gameMode r = TACTICAL)) (evaluateHand sel) enemy = (d1, e1) →
  applyArmor (bool_decide (gameMode r = TACTICAL)) d1 e1 = (d2, e2) →
  d2 = damage (evaluateHand sel).
Proof.
  intros Hm. unfold applyPrediction, applyArmor.
  rewrite (bool_decide_eq_false_2 _ Hm). simpl. congruence.
Qed.

(** The requests that do not end a turn leave the turn alone. *)
Lemma quiet_requests_keep_turn sid rid cardId guess s room s' evs room' :
  rooms s !! rid = Some room →
  discardCards sid rid s = Done s' evs ∨ selectCard sid rid cardId s = Done s' evs
  ∨ markForDiscard sid rid cardId s = Done s' evs
  ∨ makePrediction sid rid guess s = Done s' evs →
  rooms s' !! rid = Some room' →
  currentPlayer room' = currentPlayer room ∧ turn room' = turn room
  ∧ gameState room' = gameState room.
Proof.
  intros Hr [Hop|[Hop|[Hop|Hop]]] Hr'.
  - apply discardCards_Done in Hop
      as [[-> _]|(r0 & actor & h & r' & ev & Hr0 & _ & _ & _ & _ & _ & Hres & -> & _)].
    + by simplify_eq.
    + rewrite setRoom_lookup in Hr'. simplify_eq.
      apply resolveDiscard_turn in Hres as (? & ? & ?). done.
  - apply selectCard_Done in Hop as [[-> _]|(r0 & p' & Hr0 & ->)].
    + by simplify_eq.
    + rewrite setRoom_lookup in Hr'. by simplify_eq.
  - apply markForDiscard_Done in Hop as [[-> _]|(r0 & p' & Hr0 & ->)].
    + by simplify_eq.
    + rewrite setRoom_lookup in Hr'. by simplify_eq.
  - apply makePrediction_inv in Hop as [[-> _]|(r0 & nm & p & Hr0 & _ & _ & _ & _ & -> & _)].
    + by simplify_eq.
    + rewrite setRoom_lookup in Hr'. by simplify_eq.
Qed.

(** C6 (as amended).  A play-hand by the player at turn who has selected
    cards that may be played is resolved, and what becomes of the turn
    depends on the health that the play leaves to the opponent, which is
    the health before less the damage dealt, but not less than 0: when it
    is a number not above 0, the game is ended and neither [currentPlayer]
    nor [turn] changes; otherwise [currentPlayer] flips between 0 and 1 and
    [turn] grows by exactly 1.  A build-armor of such a player in a Tactical
    room is resolved, flips [currentPlayer] and adds exactly 1 to [turn].
    No discard, selection toggle, mark or prediction ever changes either,
    in whatever state; and a play-hand or build-armor that returns, in
    whatever state, has either done what is said above or left the room as
    it was. *)
Theorem turn_alternation sid rid rnd s room nm actor sel enemy :
  rooms s !! rid = Some room → sessions s !! sid = Some nm →
  gameState room = playing → indexOf sid room = currentPlayer room →
  at_index (players room) (currentPlayer room) = Some actor →
  selectedCards actor = Some sel → sel ≠ [] → valid (validateHand sel) = true →
  at_index (players room) (1 - currentPlayer room) = Some enemy →
  Forall dealt (players room) →
  (gameMode room = RECYCLING → is_Some (discardPile room)) →
  0 ≤ currentPlayer room ≤ 1
  ∧ (∃ s' ev room' enemy' d,
       playHand sid rid rnd s = Done s' [ev]
       ∧ rooms s' !! rid = Some room'
       ∧ at_index (players room') (1 - currentPlayer room) = Some enemy'
       ∧ lastPlayedHand room' = Some (withDamage d (evaluateHand sel))
       ∧ (gameMode room ≠ TACTICAL → d = damage (evaluateHand sel))
       ∧ health enemy' = (fun hl => Z.max 0 (hl - d)) <$> health enemy
       ∧ ((∃ hl, health enemy' = Some hl ∧ hl ≤ 0) →
            ename ev = "gameEnded" ∧ gameState room' = ended
            ∧ currentPlayer room' = currentPlayer room ∧ turn room' = turn room)
       ∧ (¬ (∃ hl, health enemy' = Some hl ∧ hl ≤ 0) →
            ename ev = "handPlayed" ∧ gameState room' = playing
            ∧ currentPlayer room' = 1 - currentPlayer room
            ∧ turn room' = turn room + 1 ∧ turn room < turn room'))
  ∧ (gameMode room = TACTICAL →
       ∃ s' ev room',
         buildArmor sid rid rnd s = Done s' [ev]
         ∧ rooms s' !! rid = Some room'
         ∧ ename ev = "armorBuilt" ∧ gameState room' = playing
         ∧ currentPlayer room' = 1 - currentPlayer room
         ∧ turn room' = turn room + 1 ∧ turn room < turn room')
  ∧ (∀ sid0 cardId guess s0 room0 s' evs room',
       rooms s0 !! rid = Some room0 →
       discardCards sid0 rid s0 = Done s' evs ∨ selectCard sid0 rid cardId s0 = Done s' evs
       ∨ markForDiscard sid0 rid cardId s0 = Done s' evs
       ∨ makePrediction sid0 rid guess s0 = Done s' evs →
       rooms s' !! rid = Some room' →
       currentPlayer room' = currentPlayer room0 ∧ turn room' = turn room0)
  ∧ (∀ sid0 s0 room0 s' evs room',
       rooms s0 !! rid = Some room0 →
       playHand sid0 rid rnd s0 = Done s' evs ∨ buildArmor sid0 rid rnd s0 = Done s' evs →
       rooms s' !! rid = Some room' →
       (currentPlayer room' = 1 - currentPlayer room0 ∧ turn room' = turn room0 + 1
        ∧ 0 ≤ currentPlayer room0 ≤ 1)
       ∨ (gameState room' = ended ∧ currentPlayer room' = currentPlayer room0
          ∧ turn room' = turn room0)
       ∨ room' = room0).
Proof.
  intros Hr Hs Hst Hi Ha Hsel Hne Hv He Hall Hpile.
  assert (dealt actor) as [h Hh].
  { apply (proj1 (Forall_forall dealt _) Hall). by eapply at_index_elem_of. }
  assert (0 ≤ currentPlayer room ≤ 1) as Hcur.
  { apply at_index_Some in Ha as [? _]. apply at_index_Some in He as [? _]. lia. }
  split; [exact Hcur|]. split; [|split; [|split]].
  - destruct (consumeAndRedraw_is_Some rnd room actor h Hh Hpile) as (r1 & actor' & Hc & _).
    destruct (applyPrediction (bool_decide (gameMode room = TACTICAL)) (evaluateHand sel) enemy)
      as [d1 e1] eqn:Hdp.
    destruct (applyArmor (bool_decide (gameMode room = TACTICAL)) d1 e1) as [d2 e2] eqn:Hda.
    destruct (resolvePlay_result rid rnd room actor sel enemy _ _ _ _ _ _ Ha He Hall Hc Hdp Hda)
      as (r' & ev & e4 & Hres & _ & _ & Hlast & _ & He4 & _ & _ & Hh4).
    assert (health e2 = health enemy) as Hh2.
    { pose proof (applyPrediction_health (bool_decide (gameMode room = TACTICAL))
                    (evaluateHand sel) enemy) as H1.
      pose proof (applyArmor_health (bool_decide (gameMode room = TACTICAL)) d1 e1) as H2.
      rewrite Hdp in H1. rewrite Hda in H2. simpl in *. congruence. }
    rewrite Hh2 in Hh4. unfold num_map in Hh4.
    pose proof (resolvePlay_ended rid rnd room _ actor sel enemy d1 e1 d2 e2 r' ev
                  Hst He Hdp Hda Hres) as Hend.
    rewrite <- Hh4 in Hend.
    pose proof (resolvePlay_turn _ _ _ _ _ _ _ Ha Hres) as Hturn.
    exists (setRoom rid r' s), ev, r', e4, d2.
    split; [by eapply playHand_resolved|]. split; [apply setRoom_lookup|].
    split; [exact He4|]. split; [exact Hlast|].
    split; [intros Hm; by eapply resolvePlay_final_damage|]. split; [exact Hh4|].
    split.
    + intros Hdead. apply Hend in Hdead.
      destruct Hturn as [(? & _ & ? & ? & ?)|(_ & _ & Hpl & _)]; [done|]. congruence.
    + intros Halive.
      destruct Hturn as [(_ & _ & Hen & _)|(? & _ & Hpl & ? & ? & _)].
      * by apply Hend in Hen.
      * repeat split; (done || congruence || lia).
  - intros Hm.
    assert (gameMode room ≠ RECYCLING) as Hnr by (rewrite Hm; discriminate).
    set (newArmor := num_map (fun a => Z.min 50 (a + armorFor (type (evaluateHand sel))))
                       (armor actor)).
    destruct (consumeAndRedraw_is_Some rnd room (with_armor newArmor actor) h Hh Hpile)
      as (r1 & actor' & Hc & _).
    destruct (resolveArmor_result rid rnd room actor sel enemy r1 actor' Ha He Hall Hc)
      as (r' & vs & Hres & _ & _ & _ & Hgs & Hc' & Ht' & _).
    eexists (setRoom rid r' s), _, r'.
    split; [by eapply buildArmor_resolved|]. split; [apply setRoom_lookup|].
    split; [done|]. split; [congruence|]. split; [done|]. split; [done|lia].
  - intros sid0 cardId guess s0 room0 s' evs room' Hr0 Hop Hr'.
    destruct (quiet_requests_keep_turn sid0 rid cardId guess s0 room0 s' evs room' Hr0 Hop Hr')
      as (? & ? & _). done.
  - intros sid0 s0 room0 s' evs room' Hr0 [Hop|Hop] Hr'.
    + apply playHand_Done in Hop
        as [[-> _]|(r0 & a0 & sel0 & r' & ev & Hr0' & _ & _ & _ & Ha0 & _ & _ & _ & Hres & -> & _)].
      * right. right. by simplify_eq.
      * rewrite setRoom_lookup in Hr'. simplify_eq.
        destruct (resolvePlay_turn _ _ _ _ _ _ _ Ha0 Hres)
          as [(_ & _ & ? & ? & ?)|(_ & _ & _ & ? & ? & ?)]; [right; left; done|left; done].
    + apply buildArmor_Done in Hop
        as [[-> _]|(r0 & a0 & sel0 & r' & ev & Hr0' & _ & _ & _ & _ & Ha0 & _ & _ & _ & Hres
                    & -> & _)].
      * right. right. by simplify_eq.
      * rewrite setRoom_lookup in Hr'. simplify_eq.
        destruct (resolveArmor_turn _ _ _ _ _ _ _ Ha0 Hres) as (_ & _ & _ & ? & ? & ?).
        left. done.
Qed.

Lemma turn_alternation_witness :
  ∃ s' ev room',
    playHand "a" "r" ex_rnd (ex_server (ex_ace_selected CLASSIC)) = Done s' [ev]
    ∧ rooms s' !! "r" = Some room'
    ∧ currentPlayer (ex_room (ex_ace_selected CLASSIC)) = 0
    ∧ turn (ex_room (ex_ace_selected CLASSIC)) = 1
    ∧ ename ev = "handPlayed" ∧ currentPlayer room' = 1 ∧ turn room' = 2.
Proof.
  assert (Forall (fun p => is_Some (hand p)) (players (ex_room (ex_ace_selected CLASSIC))))
    as Hdealt by (apply (bool_decide_unpack _); vm_compute; exact I).
  destruct (turn_alternation "a" "r" ex_rnd (ex_server (ex_ace_selected CLASSIC))
              (ex_room (ex_ace_selected CLASSIC)) "Ann"
              (ex_player (ex_ace_selected CLASSIC) 0)
              (ex_selection (ex_ace_selected CLASSIC) 0)
              (ex_player (ex_ace_selected CLASSIC) 1)
              ltac:(vm_compute; reflexivity) ltac:(vm_compute; reflexivity)
              ltac:(vm_compute; reflexivity) ltac:(vm_compute; reflexivity)
              ltac:(vm_compute; reflexivity) ltac:(vm_compute; reflexivity)
              ltac:(vm_compute; discriminate) ltac:(vm_compute; reflexivity)
              ltac:(vm_compute; reflexivity) Hdealt
              ltac:(vm_compute; discriminate))
    as (_ & (s' & ev & room' & enemy' & d & H1 & H2 & _ & _ & Hd & Hh & _ & Halive) & _).
  rewrite (Hd ltac:(vm_compute; discriminate)) in Hh.
  assert (health enemy' = Some 85) as Hh' by (rewrite Hh; vm_compute; reflexivity).
  destruct Halive as (Hev & _ & Hc & Ht & _).
  { rewrite Hh'. intros (hl & [= <-] & Hle). vm_compute in Hle. by apply Hle. }
  vm_compute in Hc. vm_compute in Ht.
  exists s', ev, room'.
  split; [exact H1|]. split; [exact H2|].
  split; [vm_compute; reflexivity|]. split; [vm_compute; reflexivity|].
  split; [exact Hev|]. split; [exact Hc|exact Ht].
Defined.

(** * Where the cards go *)

Lemma consumeAndRedraw_exact rnd r actor r1 actor' h :
  hand actor = Some h → consumeAndRedraw rnd r actor = Some (r1, actor') →
  ∃ h', hand actor' = Some h'
    ∧ cid <$> (h ++ deck r ++ pileCards r)
      ≡ₚ (cid <$> (h' ++ deck r1 ++ pileCards r1)) ++ (cid <$> leavesOnPlay (gameMode r) h).
Proof.
  intros Hh. unfold consumeAndRedraw, recycle, pileCards, leavesOnPlay. rewrite Hh.
  pose proof (filter_selected_split h) as Hsplit.
  set (played := filter (fun c => selected c = true) h) in *.
  set (kept := filter (fun c => selected c ≠ true) h) in *.
  destruct (decide (gameMode r = RECYCLING)) as [Hm|Hm].
  - destruct (discardPile r) as [pile|]; [|done]. simpl.
    destruct (_ && _); intros [= <- <-]; simpl; rewrite ?decide_True by done;
      eexists; (split; [done|]);
      rewrite (app_assoc _ (drop _ _)), (fmap_app _ (_ ++ _)), redraw_ids.
    + simpl. rewrite shuffle_Permutation, !fmap_app, resetFlags_ids.
      rewrite Hsplit at 1. rewrite !fmap_app. solve_Permutation.
    + simpl. rewrite !fmap_app, resetFlags_ids.
      rewrite Hsplit at 1. rewrite !fmap_app. solve_Permutation.
  - intros [= <- <-]. simpl. rewrite ?decide_False by done.
    eexists. split; [done|].
    rewrite (app_assoc _ (drop _ _)), (fmap_app _ (_ ++ _)), redraw_ids.
    rewrite !fmap_app. solve_Permutation.
Qed.

Lemma cards_after_redraw_exact (hs hs' h h' rest X X' : list card) (L : list CardId) :
  hs ≡ₚ h ++ rest → hs' ≡ₚ h' ++ rest →
  cid <$> (h ++ X) ≡ₚ (cid <$> (h' ++ X')) ++ L →
  cid <$> (hs ++ X) ≡ₚ (cid <$> (hs' ++ X')) ++ L.
Proof.
  intros -> -> Hsub. rewrite !fmap_app in *.
  transitivity (((cid <$> h) ++ (cid <$> X)) ++ (cid <$> rest)); [solve_Permutation|].
  rewrite Hsub. solve_Permutation.
Qed.

Lemma resolvePlay_exact rid rnd r i actor sel r' ev h :
  at_index (players r) i = Some actor → hand actor = Some h →
  resolvePlay rid rnd r i actor sel = Some (r', ev) →
  cardIds r ≡ₚ cardIds r' ++ (cid <$> leavesOnPlay (gameMode r) h).
Proof.
  intros Ha Hh. unfold resolvePlay.
  destruct (at_index (players r) (1 - i)) as [enemy|] eqn:He; [|done].
  pose proof (applyPrediction_hand (bool_decide (gameMode r = TACTICAL)) (evaluateHand sel) enemy)
    as Hp.
  destruct (applyPrediction _ _ enemy) as [d1 e1]. simpl in Hp.
  pose proof (applyArmor_hand (bool_decide (gameMode r = TACTICAL)) d1 e1) as Hq.
  destruct (applyArmor _ d1 e1) as [d2 e2]. simpl in Hq.
  destruct (consumeAndRedraw rnd r actor) as [[r1 actor']|] eqn:Hc; [|done].
  destruct (consumeAndRedraw_exact _ _ _ _ _ _ Hh Hc) as (h' & Hh' & Hexact).
  destruct (consumeAndRedraw_cards _ _ _ _ _ Hc) as (? & ? & _ & _ & Hps & Hm & _).
  set (e3 := with_health _ e2).
  set (ps := setPlayer i actor' (setPlayer (1 - i) e3 (players r))).
  assert (cardIds r
          ≡ₚ (cid <$> (handCards ps ++ deck r1 ++ pileCards r1))
             ++ (cid <$> leavesOnPlay (gameMode r) h)) as Hcards.
  { assert (at_index (setPlayer (1 - i) e3 (players r)) i = Some actor) as Ha'
      by (rewrite at_index_setPlayer_ne by lia; done).
    destruct (handCards_setPlayer _ _ _ Ha') as (rest & Hold & Hnew).
    rewrite (handCards_setPlayer_same _ _ enemy) in Hold by (done || by rewrite <- Hp, <- Hq).
    rewrite Hh in Hold. specialize (Hnew actor'). rewrite Hh' in Hnew.
    by apply (cards_after_redraw_exact _ _ h h' rest). }
  assert (∀ r2, players r2 = ps → deck r2 = deck r1 → gameMode r2 = gameMode r1 →
                discardPile r2 = discardPile r1 →
                cardIds r ≡ₚ cardIds r2 ++ (cid <$> leavesOnPlay (gameMode r) h)) as Hany.
  { intros r2 E1 E2 E3 E4. unfold cardIds at 2, roomCards, pileCards.
    rewrite E1, E2, E3, E4. apply Hcards. }
  destruct (num_le (health e3) 0).
  - intros [= <- <-]. by apply Hany.
  - destruct (switchTurns _) as [r3|] eqn:Hsw; [|done].
    destruct (publicViews _ _ _ _); [|done]. intros [= <- <-].
    unfold cardIds at 2. rewrite (switchTurns_cards _ _ Hsw). by apply Hany.
Qed.

(** A play leaves the hand of the opponent alone. *)
Lemma resolvePlay_enemy_hand rid rnd r actor sel enemy r' ev e' :
  at_index (players r) (currentPlayer r) = Some actor →
  at_index (players r) (1 - currentPlayer r) = Some enemy →
  resolvePlay rid rnd r (currentPlayer r) actor sel = Some (r', ev) →
  at_index (players r') (1 - currentPlayer r) = Some e' →
  hand e' = hand enemy.
Proof.
  intros Ha He. unfold resolvePlay. rewrite He.
  pose proof (applyPrediction_hand (bool_decide (gameMode r = TACTICAL)) (evaluateHand sel) enemy)
    as Hp.
  destruct (applyPrediction _ _ enemy) as [d1 e1]. simpl in Hp.
  pose proof (applyArmor_hand (bool_decide (gameMode r = TACTICAL)) d1 e1) as Hq.
  destruct (applyArmor _ d1 e1) as [d2 e2]. simpl in Hq.
  destruct (consumeAndRedraw rnd r actor) as [[r1 actor']|] eqn:Hc; [|done].
  destruct (consumeAndRedraw_turn _ _ _ _ _ Hc) as (_ & Hcur & _).
  set (e3 := with_health _ e2).
  set (ps := setPlayer (currentPlayer r) actor' (setPlayer (1 - currentPlayer r) e3 (players r))).
  assert (at_index ps (1 - currentPlayer r) = Some e3) as Hpe.
  { unfold ps. rewrite at_index_setPlayer_ne by lia. by eapply at_index_setPlayer_eq. }
  destruct (num_le (health e3) 0).
  - intros [= <- _]. simpl. rewrite Hpe. intros [= <-]. simpl. congruence.
  - destruct (switchTurns _) as [r3|] eqn:Hsw; [|done].
    destruct (publicViews _ _ _ _); [|done]. intros [= <- _].
    apply switchTurns_Some in Hsw as (p & Hp3 & ->).
    cbn [currentPlayer players with_lastPlayedHand with_players with_turn] in *.
    rewrite Hcur in *. rewrite Hpe in Hp3. injection Hp3 as <-.
    erewrite at_index_setPlayer_eq by exact Hpe. intros [= <-]. simpl. congruence.
Qed.

Lemma resolveArmor_exact rid rnd r i actor sel r' ev h :
  at_index (players r) i = Some actor → hand actor = Some h →
  resolveArmor rid rnd r i actor sel = Some (r', ev) →
  cardIds r ≡ₚ cardIds r' ++ (cid <$> leavesOnPlay (gameMode r) h).
Proof.
  intros Ha Hh. unfold resolveArmor.
  set (actor1 := with_armor _ actor).
  destruct (consumeAndRedraw rnd r actor1) as [[r1 actor']|] eqn:Hc; [|done].
  destruct (consumeAndRedraw_exact rnd r actor1 r1 actor' h Hh Hc) as (h' & Hh' & Hexact).
  destruct (switchTurns _) as [r3|] eqn:Hsw; [|done].
  destruct (publicViews _ _ _ _); [|done]. intros [= <- <-].
  unfold cardIds at 2. rewrite (switchTurns_cards _ _ Hsw).
  destruct (handCards_setPlayer _ _ _ Ha) as (rest & Hold & Hnew).
  specialize (Hnew actor'). rewrite Hh' in Hnew. rewrite Hh in Hold.
  apply (cards_after_redraw_exact _ _ h h' rest (deck r ++ pileCards r)
           (deck r1 ++ pileCards r1)); [exact Hold|exact Hnew|exact Hexact].
Qed.

Lemma resolveDiscard_exact rid r i actor h r' ev :
  at_index (players r) i = Some actor → hand actor = Some h →
  resolveDiscard rid r i actor h (filter (fun c => markedForDiscard c = true) h) = Some (r', ev) →
  cardIds r ≡ₚ cardIds r' ++ (cid <$> leavesOnDiscard (gameMode r) h).
Proof.
  intros Ha Hh. unfold resolveDiscard, leavesOnDiscard.
  set (marked := filter (fun c => markedForDiscard c = true) h).
  set (kept := filter (fun c => markedForDiscard c ≠ true) h).
  assert (cid <$> h ≡ₚ (cid <$> marked) ++ (cid <$> kept)) as Hsplit.
  { rewrite <- fmap_app. unfold marked, kept. by rewrite <- filter_marked_split. }
  assert (cid <$> deck r = (cid <$> take (length marked) (deck r))
                           ++ (cid <$> drop (length marked) (deck r))) as Hdeck
    by by rewrite <- fmap_app, take_drop.
  destruct (handCards_setPlayer _ _ _ Ha) as (rest & Hold & Hnew).
  rewrite Hh in Hold.
  destruct (decide (gameMode r = RECYCLING)) as [Hm|Hm].
  - destruct (discardPile r) as [pile|] eqn:Hpile; [|done].
    destruct (publicViews _ _ _ _); [|done]. intros [= <- <-].
    unfold cardIds, roomCards, pileCards. simpl. rewrite !decide_True by done.
    rewrite Hnew, Hold, Hpile. simpl.
    rewrite !fmap_app, !resetFlags_ids, Hdeck, Hsplit. solve_Permutation.
  - destruct (publicViews _ _ _ _); [|done]. intros [= <- <-].
    unfold cardIds, roomCards, pileCards. simpl. rewrite !decide_False by done.
    rewrite Hnew, Hold. simpl.
    rewrite !fmap_app, !resetFlags_ids, Hdeck, Hsplit. solve_Permutation.
Qed.

(** C1 (as amended).  The cards of a room are accounted for.  A start deals
    the 52 cards of a new deck, of pairwise distinct ids, over the two hands
    (8 each) and the draw pile (36).  From then on, in every state of the
    game, each operation of the player at turn that is resolved leaves in
    the hands, the draw pile and (Recycling mode) the discard pile exactly
    the cards that were there before, less the cards that the operation
    takes out of the game: the whole hand of the actor for a play-hand or a
    build-armor in a Classic or a Tactical room, the cards of the hand that
    were not played for a play-hand in a Recycling room (the played ones go
    to the discard pile, and come back to the draw pile with the
    reshuffle), the marked cards for a discard in a Classic or a Tactical
    room, and none for a discard in a Recycling room.  The hand of the
    opponent is never touched.  No request whatever adds a card or
    duplicates one: distinct ids stay distinct. *)
Theorem cards_accounted_for sid rid rnd s room nm actor enemy h :
  rooms s !! rid = Some room → sessions s !! sid = Some nm →
  gameState room = playing → indexOf sid room = currentPlayer room →
  at_index (players room) (currentPlayer room) = Some actor →
  at_index (players room) (1 - currentPlayer room) = Some enemy →
  Forall dealt (players room) → hand actor = Some h →
  (gameMode room = RECYCLING → is_Some (discardPile room)) →
  (∀ sel, selectedCards actor = Some sel → sel ≠ [] → valid (validateHand sel) = true →
     ∃ s' ev room' enemy',
       playHand sid rid rnd s = Done s' [ev] ∧ rooms s' !! rid = Some room'
       ∧ cardIds room ≡ₚ cardIds room' ++ (cid <$> leavesOnPlay (gameMode room) h)
       ∧ at_index (players room') (1 - currentPlayer room) = Some enemy'
       ∧ hand enemy' = hand enemy)
  ∧ (∀ sel, gameMode room = TACTICAL →
       selectedCards actor = Some sel → sel ≠ [] → valid (validateHand sel) = true →
       ∃ s' ev room' enemy',
         buildArmor sid rid rnd s = Done s' [ev] ∧ rooms s' !! rid = Some room'
         ∧ cardIds room ≡ₚ cardIds room' ++ (cid <$> h)
         ∧ at_index (players room') (1 - currentPlayer room) = Some enemy'
         ∧ hand enemy' = hand enemy)
  ∧ (∀ u m k,
       discardsUsed actor = Some u → maxDiscards actor = Some m →
       maxCardsPerDiscard actor = Some k →
       filter (fun c => markedForDiscard c = true) h ≠ [] →
       Z.of_nat (length (filter (fun c => markedForDiscard c = true) h)) ≤ k → u < m →
       ∃ s' ev room',
         discardCards sid rid s = Done s' [ev] ∧ rooms s' !! rid = Some room'
         ∧ cardIds room ≡ₚ cardIds room' ++ (cid <$> leavesOnDiscard (gameMode room) h)
         ∧ at_index (players room') (1 - currentPlayer room) = Some enemy)
  ∧ (∀ q s0 room0 s' evs,
       rooms s0 !! rid = Some room0 → handle rid q s0 = Done s' evs →
       ∃ room', rooms s' !! rid = Some room'
         ∧ cardIds room' ⊆+ cardIds room0
         ∧ (NoDup (cardIds room0) → NoDup (cardIds room'))
         ∧ (length (roomCards room') ≤ length (roomCards room0))%nat)
  ∧ (∀ s0 room0,
       rooms s0 !! rid = Some room0 → length (players room0) = 2%nat →
       ∃ room1 evs,
         startGame rid rnd s0 = Done (setRoom rid room1 s0) evs
         ∧ NoDup (cardIds room1) ∧ length (roomCards room1) = 52%nat
         ∧ Forall (fun p => length <$> hand p = Some 8%nat) (players room1)
         ∧ length (deck room1) = 36%nat ∧ pileCards room1 = []).
Proof.
  intros Hr Hs Hst Hi Ha He Hall Hh Hpile.
  split; [|split; [|split; [|split]]].
  - intros sel Hsel Hne Hv.
    destruct (consumeAndRedraw_is_Some rnd room actor h Hh Hpile) as (r1 & actor' & Hc & _).
    destruct (applyPrediction (bool_decide (gameMode room = TACTICAL)) (evaluateHand sel) enemy)
      as [d1 e1] eqn:Hdp.
    destruct (applyArmor (bool_decide (gameMode room = TACTICAL)) d1 e1) as [d2 e2] eqn:Hda.
    destruct (resolvePlay_result rid rnd room actor sel enemy _ _ _ _ _ _ Ha He Hall Hc Hdp Hda)
      as (r' & ev & e4 & Hres & _ & _ & _ & _ & He4 & _).
    exists (setRoom rid r' s), ev, r', e4.
    split; [by eapply playHand_resolved|]. split; [apply setRoom_lookup|].
    split; [exact (resolvePlay_exact rid rnd room _ actor sel r' ev h Ha Hh Hres)|].
    split; [exact He4|].
    exact (resolvePlay_enemy_hand rid rnd room actor sel enemy r' ev e4 Ha He Hres He4).
  - intros sel Hm Hsel Hne Hv.
    set (newArmor := num_map (fun a => Z.min 50 (a + armorFor (type (evaluateHand sel))))
                       (armor actor)).
    destruct (consumeAndRedraw_is_Some rnd room (with_armor newArmor actor) h Hh Hpile)
      as (r1 & actor' & Hc & _).
    destruct (resolveArmor_result rid rnd room actor sel enemy r1 actor' Ha He Hall Hc)
      as (r' & vs & Hres & _ & _ & _ & _ & _ & _ & _ & He' & _).
    eexists (setRoom rid r' s), _, r', _.
    split; [by eapply buildArmor_resolved|]. split; [apply setRoom_lookup|].
    split; [|split; [exact He'|done]].
    pose proof (resolveArmor_exact _ _ _ _ _ _ _ _ h Ha Hh Hres) as Hexact.
    unfold leavesOnPlay in Hexact. rewrite decide_False in Hexact; [done|].
    rewrite Hm. discriminate.
  - intros u m k Hu Hmx Hk Hmarked Hlen Hlt.
    destruct (resolveDiscard_result rid room actor h Ha Hall Hh Hpile) as (vs & Hres & _).
    eexists (setRoom rid _ s), _, _.
    split.
    { eapply discardCards_resolved; try done.
      - rewrite Hk. simpl. apply bool_decide_eq_false. lia.
      - rewrite Hu, Hmx. simpl. apply bool_decide_eq_false. lia. }
    split; [apply setRoom_lookup|].
    split; [exact (resolveDiscard_exact rid room _ actor h _ _ Ha Hh Hres)|].
    cbn [players with_players]. rewrite at_index_setPlayer_ne by lia. exact He.
  - intros q s0 room0 s' evs Hr0 Hq.
    destruct (handle_cards _ _ _ _ _ _ Hq Hr0) as (room' & Hr' & Hsub).
    exists room'. split; [done|]. split; [done|].
    destruct (submseteq_NoDup_length _ _ Hsub) as [Hnd Hlen].
    split; [done|]. unfold cardIds in Hlen. by rewrite !length_fmap in Hlen.
  - intros s0 room0 Hr0 Hlen.
    eexists (dealtRoom rnd room0), _.
    pose proof (startGame_two rid rnd s0 room0 Hr0 Hlen) as Hstart.
    split; [exact Hstart|].
    destruct (startGame_deals_52 _ _ _ _ _ _ _ Hr0 Hlen Hstart (setRoom_lookup _ _ _))
      as (_ & Hnd & H52 & _).
    destruct (dealtRoom_state rnd room0 Hlen) as (_ & _ & _ & _ & H36 & _ & Hfresh).
    split; [done|]. split; [done|]. split; [|split; [done|]].
    + eapply Forall_impl; [exact Hfresh|].
      intros p (_ & _ & (hp & -> & Hl & _) & _). simpl. by rewrite Hl.
    + unfold pileCards, dealtRoom. simpl. by case_decide.
Qed.

Lemma cards_accounted_for_witness :
  ∃ s' ev room',
    playHand "a" "r" ex_rnd (ex_server (ex_ace_selected RECYCLING)) = Done s' [ev]
    ∧ rooms s' !! "r" = Some room'
    ∧ length (cardIds (ex_room (ex_ace_selected RECYCLING))) = 52%nat
    ∧ length (cardIds room') = 45%nat
    ∧ length (leavesOnPlay RECYCLING
                (default [] (hand (ex_player (ex_ace_selected RECYCLING) 0)))) = 7%nat.
Proof.
  assert (Forall (fun p => is_Some (hand p)) (players (ex_room (ex_ace_selected RECYCLING))))
    as Hdealt by (apply (bool_decide_unpack _); vm_compute; exact I).
  destruct (proj1 (cards_accounted_for "a" "r" ex_rnd (ex_server (ex_ace_selected RECYCLING))
              (ex_room (ex_ace_selected RECYCLING)) "Ann"
              (ex_player (ex_ace_selected RECYCLING) 0)
              (ex_player (ex_ace_selected RECYCLING) 1)
              (default [] (hand (ex_player (ex_ace_selected RECYCLING) 0)))
              ltac:(vm_compute; reflexivity) ltac:(vm_compute; reflexivity)
              ltac:(vm_compute; reflexivity) ltac:(vm_compute; reflexivity)
              ltac:(vm_compute; reflexivity) ltac:(vm_compute; reflexivity)
              Hdealt ltac:(vm_compute; reflexivity)
              ltac:(intros _; vm_compute; eauto))
              (ex_selection (ex_ace_selected RECYCLING) 0)
              ltac:(vm_compute; reflexivity) ltac:(vm_compute; discriminate)
              ltac:(vm_compute; reflexivity))
    as (s' & ev & room' & enemy' & H1 & H2 & H3 & _).
  exists s', ev, room'.
  split; [exact H1|]. split; [exact H2|].
  apply Permutation_length in H3. rewrite length_app, length_fmap in H3.
  assert (length (cardIds (ex_room (ex_ace_selected RECYCLING))) = 52%nat) as H52
    by (vm_compute; reflexivity).
  assert (length (leavesOnPlay RECYCLING
                    (default [] (hand (ex_player (ex_ace_selected RECYCLING) 0)))) = 7%nat)
    as H7 by (vm_compute; reflexivity).
  split; [exact H52|]. split; [|exact H7].
  change (gameMode (ex_room (ex_ace_selected RECYCLING))) with RECYCLING in H3.
  rewrite H52, H7 in H3. lia.
Defined.
